(* ===== verification/_CoqProject ===== *)
-Q . S2P
Prelude.v
Env.v
Log.v
Marvin.v
Util.v
UtilFacts.v
Lznt1Facts.v
Cells.v
BaseBlock.v
SubKeyLists.v
Values.v
ValueFacts.v
State.v
Filter.v
KeyNode.v
KeyNodeFacts.v
KeySecurity.v
Recover.v
Parser.v
ParserFacts.v
Hive.v
HiveFacts.v
TraversalFacts.v
LookupFacts.v
HiveLookup.v
HiveFilter.v
TransactionLog.v
TransactionLogFacts.v
Init.v
InitFacts.v
OpenFacts.v
Cli.v
Progress.v
Compare.v
CompareFacts.v
DiffSpec.v
CompareHive.v
DiffFacts.v
Dump.v
Xlsx.v
RegDump.v
DumpFacts.v
TsvFacts.v
ExportFacts.v
CompareReport.v
Python.v
PythonFacts.v
