(* ===== verification/Prelude.v ===== *)
(** * notatin: offline Windows Registry parsing, modelled and verified

    notatin reads Windows Registry files (hives) without Windows: it parses the file's cells,
    replays its transaction logs, recovers deleted items and walks the tree of keys.  Each
    file below models a part of it, under [src/src/] unless said otherwise.

    ** The program and its model

    - [Prelude]: outcomes of a Rust call ([Ok], [Err], [Panic], [NoFuel]), the state monad,
      machine integers, strings as lists of code points, byte slices, list and map lemmas.
    - [Env]: the external crates, as a class with the documented behaviour as laws, and the
      instance [env_ref] the witnesses run with.
    - [Log] (log.rs, err.rs, macros.rs): warnings and errors.
    - [Marvin] (marvin32.rs): the hash of log entries.
    - [Util], [UtilFacts], [Lznt1Facts] (util.rs): text decoding, times, CSV, LZNT1.
    - [Cells] (cell.rs, field_offset_len.rs, file_info.rs, hive_bin_header.rs,
      field_serializers.rs): cell states, fields with or without their file offset, bins.
    - [BaseBlock] (base_block.rs): the header and its checksum.
    - [SubKeyLists] (sub_key_list_*.rs, hive_bin_cell.rs): lf, lh, li and ri lists.
    - [Values], [ValueFacts] (cell_key_value.rs, cell_value.rs, cell_big_data.rs).
    - [State] (cell_key_node.rs data, state.rs, reg_item_map.rs): what reading accumulates.
    - [Filter] (filter.rs): which keys a traversal visits and returns.
    - [KeyNode], [KeyNodeFacts] (cell_key_node.rs): reading keys, their subkeys and values.
    - [KeySecurity] (cell_key_security.rs): the ring of security cells.
    - [Recover] (parser_recover_deleted.rs): deleted cells in free space and slack.
    - [Parser], [ParserFacts], [TraversalFacts], [LookupFacts] (parser.rs): traversals and key
      lookup.
    - [Hive]: no code, but the specification of a hive file: which bytes store which tree of
      keys.  [HiveFacts] (reading and traversal), [HiveLookup] (lookup by path) and
      [HiveFilter] (filtered traversal) show that the library reads exactly that tree.
    - [TransactionLog], [TransactionLogFacts] (transaction_log.rs, progress.rs): logs, their
      application, and what an entry changed.
    - [Init], [InitFacts], [OpenFacts] (parser.rs, parser_builder.rs): opening a hive.
    - [Cli] (cli_util.rs, progress.rs): paths, writers and console of the two tools;
      [Progress] (progress.rs): the console as an object, with its terminal.
    - [Compare], [CompareFacts], [DiffFacts] ([src/bin/reg_compare.rs]): how two hives differ,
      and the text and diff reports.  [DiffSpec] specifies the difference of two trees, and
      [CompareHive] shows that comparing two hive files reports it.
    - [Dump], [TsvFacts] ([src/bin/reg_dump/], common, tsv and json writers) and [Xlsx],
      [DumpFacts] (xlsx_writer.rs): exporting a hive; [ExportFacts]: from the bytes of a hive file to the
      table exported; [CompareReport]: from those of two hive files to the diff.
    - [RegDump] ([src/bin/reg_dump/main.rs]): the choice of files and formats, and both mains.
    - [Python], [PythonFacts] ([src/pynotatin/src/]): the objects of the Python module.

    [Parser] is the top of the library: [Init] builds one from a file and its logs, calling
    [BaseBlock], [Recover] and [TransactionLog]; a traversal of [Parser] reads keys with
    [KeyNode], which resolves [SubKeyLists], asks [Filter] and completes each key from the
    [State] that [Recover] and [TransactionLog] filled.  A method on [&mut self] is a function
    in the monad of the state it may change; a Rust struct is a Record with the same fields,
    an enum an Inductive with the same variants.  A pointer into a buffer is its distance
    from the end of the buffer.

    ** What the theorems show

    - End to end: opening a file that stores a tree and traversing it yields exactly the keys
      and values of the tree ([open_reads_stored_tree]); a lookup by path finds the first key
      at the path or that there is none ([get_key_finds]); a traversal with a filter yields
      exactly the keys the query selects ([filtered_traversal_exact]); the table [reg_dump]
      writes of the file reads back as the tree, with times, flags and decoded data
      ([tsv_exports_stored_tree]); and [reg_compare] on two files ends, and the diff it
      writes reads back as the difference of their trees ([reg_compare_diff_reads_back]).
    - Opening: a log is read back from its encoding ([TransactionLog_roundtrip]); the logs are
      sorted ([TransactionLog_parse_sorted]); the entries applied are one run of consecutive,
      correctly hashed entries ([update_parser_applies]); a page changes exactly the bytes it
      covers ([apply_dirty_pages_bytes]); the header rewritten is clean
      ([update_header_clean]), so recovery happens once ([recovered_hive_reopens_clean]).
    - Cells: the bytes that are a header, nk, vk or list cell, and the record each is read as,
      field by field; checksum and Marvin32 against reference definitions.
    - Values: reading never panics and is bounded; resident, direct and segmented data.
    - Trees: children obey the filter ([read_sub_keys_classified]), traversals end on every
      file ([preorder_terminates]), both orders walk one tree when every key is returned
      ([postorder_same_tree]), a lookup finds the key of the tree at the path
      ([get_key_sound]), expansion of deleted keys ends when they nest.
    - Recovery only adds items marked deleted ([find_free_keys_and_values_total]); the analysis
      of an entry is exact ([handle_new_keys_classifies]); the state's maps refine maps to
      lists.
    - Utilities: UTF-16, REG_MULTI_SZ, CSV and LZNT1 round trips; the exact FILETIME range.
    - Tools: every item of two hives is classified once ([compare_parsers_classifies]), equal
      hives have no differences ([same_items_no_differences]), the diff is well formed and
      reads back ([write_diff_reads_back]); an exported table reads back
      ([tsv_export_reads_back]), the rows of a workbook are numbered without gaps
      ([xlsx_rows_numbered]), the common export is its rows and their totals
      ([common_totals_count]), and a long text loses nothing, whatever calls a sheet refuses
      ([overflow_lossless]).
    - Python: a loop visits the library's traversal ([reg_keys_yields]); time stamps are
      rounded to the nearest microsecond ([date_to_pyobject_rounds]).
    - Limits of the code: cyclic ri lists and security rings loop for ever, malformed LZNT1
      panics, a log without an applicable entry resets the sequence numbers, deleted keys and
      filters break the postorder ([postorder_deleted_key], [postorder_returns_ancestor]), and a
      query for the root finds nothing ([root_query_yields_nothing]).

    ** Bounds and fuel

    Machine integers are [Z] with their wrap-around written out; whether an overflow panics or
    wraps is [overflow_checks] of [Env].  A loop that is not structural takes fuel, and
    [NoFuel] says it is still running.  The scans of [Recover], the string and LZNT1
    loops and Marvin32 pass themselves enough fuel (the bytes left), and theorems show they never run
    out.  The depth of ri lists, of expanding deleted keys, and the length of a
    security walk are driven by the file and unbounded in the code, so they stay arguments, and
    theorems say which amount is enough or that none is.

    ** Not modelled

    The external crates (parameters of [Env]); reading a file into memory and the terminal
    (their outcomes are parameters where the code depends on them); serde's generated
    serializers and the workbook library, whose calls are recorded instead; PyO3 and
    the registration of the Python module's classes and logger; argument parsing; memory
    exhaustion and the thread stack's size.  The tools run a traversal and write its keys one by one; the
    model takes the keys first, which a writer cannot tell apart until the traversal fails. *)

From Stdlib Require Export ZArith Lia.
From Stdlib Require String.
From stdpp Require Export base list option numbers gmap strings sorting.
From coqutil Require Export Byte Word.LittleEndianList.

Open Scope Z_scope.

(** ** Outcomes

    A Rust call returns a value, returns an error, panics, or (for a loop whose
    termination is not structural) is still running when the fuel is used up. *)

Inductive res (E A : Type) : Type :=
  | Ok (a : A)
  | Err (e : E)
  | Panic
  | NoFuel.
Arguments Ok {E A} a.
Arguments Err {E A} e.
Arguments Panic {E A}.
Arguments NoFuel {E A}.

#[export] Instance res_ret {E} : MRet (res E) := fun A a => Ok a.
#[export] Instance res_bind {E} : MBind (res E) := fun A B f m =>
  match m with
  | Ok a => f a
  | Err e => Err e
  | Panic => Panic
  | NoFuel => NoFuel
  end.
#[export] Instance res_fmap {E} : FMap (res E) := fun A B f m =>
  match m with
  | Ok a => Ok (f a)
  | Err e => Err e
  | Panic => Panic
  | NoFuel => NoFuel
  end.

Definition res_map_err {E F A} (f : E -> F) (m : res E A) : res F A :=
  match m with
  | Ok a => Ok a
  | Err e => Err (f e)
  | Panic => Panic
  | NoFuel => NoFuel
  end.

(** A call that can panic but has no error, in a function that has one. *)
Definition no_err {E A} (m : res Empty_set A) : res E A :=
  res_map_err (fun e : Empty_set => match e with end) m.

Definition is_ok {E A} (m : res E A) : bool :=
  match m with Ok _ => true | _ => false end.

(** The call returned to its caller: neither a panic nor out of fuel. *)
Definition returns {E A} (m : res E A) : Prop :=
  match m with Ok _ | Err _ => True | _ => False end.

(** [Option::ok_or]. *)
Definition ok_or {E A} (e : E) (o : option A) : res E A :=
  match o with Some a => Ok a | None => Err e end.

(** [Option::expect] and [Result::unwrap]. *)
Definition expect {E A} (o : option A) : res E A :=
  match o with Some a => Ok a | None => Panic end.

(** ** Computations over a mutable state

    [&mut] parameters are threaded; what was written before an error stays written. *)

Definition M (S E A : Type) : Type := S -> S * res E A.

Definition m_ret {S E A} (a : A) : M S E A := fun s => (s, Ok a).
Definition m_err {S E A} (e : E) : M S E A := fun s => (s, Err e).
Definition m_lift {S E A} (r : res E A) : M S E A := fun s => (s, r).
Definition m_get {S E} : M S E S := fun s => (s, Ok s).
Definition m_modify {S E} (f : S -> S) : M S E () := fun s => (f s, Ok ()).
Definition m_bind {S E A B} (m : M S E A) (f : A -> M S E B) : M S E B := fun s =>
  match m s with
  | (s', Ok a) => f a s'
  | (s', Err e) => (s', Err e)
  | (s', Panic) => (s', Panic)
  | (s', NoFuel) => (s', NoFuel)
  end.

(** The result of a call as a value, for a caller that matches on it. *)
Definition m_try {S E F A} (m : M S E A) : M S F (E + A) := fun s =>
  match m s with
  | (s', Ok a) => (s', Ok (inr a))
  | (s', Err e) => (s', Ok (inl e))
  | (s', Panic) => (s', Panic)
  | (s', NoFuel) => (s', NoFuel)
  end.

Declare Scope notatin_scope.
Delimit Scope notatin_scope with notatin.
Notation "'let*' x ':=' m 'in' k" := (m_bind m (fun x => k))
  (at level 10, x pattern, m at level 100, k at level 200) : notatin_scope.
Notation "m ';;;' k" := (m_bind m (fun _ => k))
  (at level 100, right associativity) : notatin_scope.
Open Scope notatin_scope.

(** ** Machine integers *)

Definition U16_MOD : Z := 2 ^ 16.
Definition U32_MOD : Z := 2 ^ 32.
Definition U64_MOD : Z := 2 ^ 64.

(** Two's complement reading of the low [w] bits. *)
Definition wrap_signed (w z : Z) : Z := (z + 2 ^ (w - 1)) mod 2 ^ w - 2 ^ (w - 1).
Definition as_i8 := wrap_signed 8.
Definition as_i16 := wrap_signed 16.
Definition as_i32 := wrap_signed 32.
Definition as_i64 := wrap_signed 64.
(** [x as usize] for a signed [x] (64-bit targets). *)
Definition as_usize (z : Z) : Z := z mod U64_MOD.
(** [i32::unsigned_abs] and the other widths: the absolute value always fits. *)
Definition unsigned_abs (z : Z) : Z := Z.abs z.

(** ** Bytes, slices *)

#[export] Instance byte_eq_dec : EqDecision byte := Byte.byte_eq_dec.

Definition len {A} (l : list A) : Z := Z.of_nat (length l).
Definition zdrop {A} (n : Z) (l : list A) : list A := drop (Z.to_nat n) l.
Definition ztake {A} (n : Z) (l : list A) : list A := take (Z.to_nat n) l.

(** [buf.get(off..)]: [None] past the end. *)
Definition get_from {A} (buf : list A) (off : Z) : option (list A) :=
  if (0 <=? off) && (off <=? len buf) then Some (zdrop off buf) else None.

(** [buf.get(a..b)]: [None] unless [a <= b <= len]. *)
Definition get_range {A} (buf : list A) (a b : Z) : option (list A) :=
  if (0 <=? a) && (a <=? b) && (b <=? len buf)
  then Some (ztake (b - a) (zdrop a buf)) else None.

(** [buf.get(i)]. *)
Definition get_at {A} (buf : list A) (i : Z) : option A :=
  if 0 <=? i then buf !! Z.to_nat i else None.

(** [dst[off..off + src.len()].copy_from_slice(src)] when the range is in bounds. *)
Definition splice {A} (off : Z) (src buf : list A) : list A :=
  ztake off buf ++ src ++ zdrop (off + len src) buf.

Definition to_le_bytes (n : nat) (z : Z) : list byte := le_split n z.
Definition from_le_bytes (bs : list byte) : Z := le_combine bs.
Definition from_be_bytes (bs : list byte) : Z := le_combine (reverse bs).

(** [b"..."]: the bytes of an ASCII literal. *)
Definition bytes_of (s : string) : list byte := String.list_byte_of_string s.

(** ** Text

    A Rust [String] is a sequence of Unicode scalar values; [utf8_len] is what a
    byte offset counts. *)

Abbreviation ustr := (list Z).

Definition lit (s : string) : ustr := (fun b => byte.unsigned b) <$> String.list_byte_of_string s.

Definition is_scalar (c : Z) : bool :=
  ((0 <=? c) && (c <? 55296)) || ((57344 <=? c) && (c <? 1114112)).

Definition utf8_len (c : Z) : Z :=
  if c <? 128 then 1 else if c <? 2048 then 2 else if c <? 65536 then 3 else 4.

Fixpoint str_len (s : ustr) : Z :=
  match s with
  | [] => 0
  | c :: s' => utf8_len c + str_len s'
  end.

(** [&s[off..]]: [None] is the panic (past the end, or not a char boundary). *)
Fixpoint str_from (s : ustr) (off : Z) : option ustr :=
  if off =? 0 then Some s else
  if off <? 0 then None else
  match s with
  | [] => None
  | c :: s' => str_from s' (off - utf8_len c)
  end.

Definition BACKSLASH : Z := 92.

(** [s.find(c)] and [s.rfind(c)]: byte offsets. *)
Fixpoint str_find (c : Z) (s : ustr) : option Z :=
  match s with
  | [] => None
  | x :: s' => if x =? c then Some 0 else (fun n => utf8_len x + n) <$> str_find c s'
  end.

Fixpoint str_rfind (c : Z) (s : ustr) : option Z :=
  match s with
  | [] => None
  | x :: s' =>
      match str_rfind c s' with
      | Some n => Some (utf8_len x + n)
      | None => if x =? c then Some 0 else None
      end
  end.

(** [&s[0..off]] at a char boundary. *)
Fixpoint str_upto (s : ustr) (off : Z) : option ustr :=
  if off =? 0 then Some [] else
  if off <? 0 then None else
  match s with
  | [] => None
  | c :: s' => cons c <$> str_upto s' (off - utf8_len c)
  end.

(** [s.split(c)]: never empty. *)
Fixpoint str_split (c : Z) (s : ustr) : list ustr :=
  match s with
  | [] => [[]]
  | x :: s' =>
      if x =? c then [] :: str_split c s'
      else match str_split c s' with
           | seg :: rest => (x :: seg) :: rest
           | [] => [[x]]
           end
  end.

Fixpoint trim_start_char (c : Z) (s : ustr) : ustr :=
  match s with
  | x :: s' => if x =? c then trim_start_char c s' else s
  | [] => []
  end.
Definition trim_end_char (c : Z) (s : ustr) : ustr := reverse (trim_start_char c (reverse s)).
Definition trim_char (c : Z) (s : ustr) : ustr := trim_end_char c (trim_start_char c s).

Definition ascii_lower (c : Z) : Z := if (65 <=? c) && (c <=? 90) then c + 32 else c.
Definition to_ascii_lowercase (s : ustr) : ustr := ascii_lower <$> s.

(** [char::is_whitespace]: Unicode White_Space. *)
Definition is_whitespace (c : Z) : bool :=
  ((9 <=? c) && (c <=? 13)) || (c =? 32) || (c =? 133) || (c =? 160) || (c =? 5760)
  || ((8192 <=? c) && (c <=? 8202)) || (c =? 8232) || (c =? 8233) || (c =? 8239)
  || (c =? 8287) || (c =? 12288).

Fixpoint trim_start (s : ustr) : ustr :=
  match s with
  | x :: s' => if is_whitespace x then trim_start s' else s
  | [] => []
  end.
Definition trim_end (s : ustr) : ustr := reverse (trim_start (reverse s)).
Definition trim (s : ustr) : ustr := trim_end (trim_start s).

(** [{}] of an unsigned or signed integer. *)
Fixpoint dec_digits (fuel : nat) (n : Z) (acc : ustr) : ustr :=
  match fuel with
  | O => acc
  | S k => if n <? 10 then (48 + n) :: acc
           else dec_digits k (n / 10) ((48 + n mod 10) :: acc)
  end.
Definition fmt_dec (n : Z) : ustr :=
  if n <? 0 then 45 :: dec_digits 25 (- n) [] else dec_digits 25 n [].

Definition hex_digit (d : Z) : Z := if d <? 10 then 48 + d else 55 + d.
(** [{:02X}] of a byte and [{:08X}] of a [u32]. *)
Definition fmt_02X (b : Z) : ustr := [hex_digit (b / 16); hex_digit (b mod 16)].
Definition fmt_08X (n : Z) : ustr :=
  (fun i => hex_digit (Z.land (Z.shiftr n (4 * i)) 15)) <$> [7; 6; 5; 4; 3; 2; 1; 0].
(** [{:x}]: lowercase, no leading zeros. *)
Fixpoint hex_digits (fuel : nat) (n : Z) (acc : ustr) : ustr :=
  match fuel with
  | O => acc
  | S k =>
      let d := n mod 16 in
      let c := if d <? 10 then 48 + d else 87 + d in
      if n <? 16 then c :: acc else hex_digits k (n / 16) (c :: acc)
  end.
Definition fmt_x (n : Z) : ustr := hex_digits 20 n [].
(** [{:#X}]. *)
Definition fmt_sharp_X (n : Z) : ustr :=
  lit "0x" ++ ((fun c => if (97 <=? c) && (c <=? 102) then c - 32 else c) <$> fmt_x n).

(** ** Lemmas shared by the components *)

Create HintDb notatin.
Create Rewrite HintDb lens.

Lemma len_nonneg {A} (l : list A) : 0 <= len l.
Proof. unfold len. lia. Qed.

Lemma len_app {A} (l k : list A) : len (l ++ k) = len l + len k.
Proof. unfold len. rewrite length_app. lia. Qed.

Lemma len_cons {A} (x : A) (l : list A) : len (x :: l) = 1 + len l.
Proof. unfold len. simpl. lia. Qed.

Lemma len_nil {A} : len ([] : list A) = 0.
Proof. reflexivity. Qed.

Lemma len_fmap {A B} (f : A -> B) (l : list A) : len (f <$> l) = len l.
Proof. unfold len. by rewrite length_fmap. Qed.

Lemma len_reverse {A} (l : list A) : len (reverse l) = len l.
Proof. unfold len. by rewrite length_reverse. Qed.

Lemma len_zdrop {A} (n : Z) (l : list A) :
  len (zdrop n l) = Z.max 0 (len l - Z.max 0 n).
Proof. unfold len, zdrop. rewrite length_drop. lia. Qed.

Lemma len_ztake {A} (n : Z) (l : list A) :
  len (ztake n l) = Z.min (len l) (Z.max 0 n).
Proof. unfold len, ztake. rewrite length_take. lia. Qed.

#[export] Hint Rewrite @len_app @len_cons @len_nil @len_fmap @len_reverse @len_zdrop @len_ztake : lens.

(** Arithmetic over the lengths of slices. *)
Ltac len_lia :=
  autorewrite with lens in *;
  repeat match goal with
         | |- context [len ?l] =>
             lazymatch goal with
             | _ : 0 <= len l |- _ => fail
             | _ => pose proof (len_nonneg l)
             end
         | _ : context [len ?l] |- _ =>
             lazymatch goal with
             | _ : 0 <= len l |- _ => fail
             | _ => pose proof (len_nonneg l)
             end
         end;
  lia.

Lemma ztake_zdrop {A} (n : Z) (l : list A) : ztake n l ++ zdrop n l = l.
Proof. apply take_drop. Qed.

Lemma zdrop_0 {A} (l : list A) : zdrop 0 l = l.
Proof. reflexivity. Qed.

Lemma zdrop_zdrop {A} (a b : Z) (l : list A) :
  0 <= a -> 0 <= b -> zdrop a (zdrop b l) = zdrop (b + a) l.
Proof. intros. unfold zdrop. rewrite drop_drop. f_equal. lia. Qed.

Lemma zdrop_app_len {A} (l k : list A) : zdrop (len l) (l ++ k) = k.
Proof. unfold zdrop, len. rewrite Nat2Z.id. apply drop_app_length. Qed.

Lemma ztake_app_len {A} (l k : list A) : ztake (len l) (l ++ k) = l.
Proof. unfold ztake, len. rewrite Nat2Z.id. apply take_app_length. Qed.

Lemma ztake_all {A} (n : Z) (l : list A) : len l <= n -> ztake n l = l.
Proof. unfold ztake, len. intros. apply take_ge. lia. Qed.

Lemma zdrop_all {A} (n : Z) (l : list A) : len l <= n -> zdrop n l = [].
Proof. unfold zdrop, len. intros. apply drop_ge. lia. Qed.

Lemma get_from_Some {A} (buf : list A) off s :
  get_from buf off = Some s <-> 0 <= off <= len buf /\ s = zdrop off buf.
Proof. unfold get_from. case_match; split; intros; naive_solver lia. Qed.

Lemma get_from_None {A} (buf : list A) off :
  get_from buf off = None <-> off < 0 \/ len buf < off.
Proof. unfold get_from. case_match; split; intros; naive_solver lia. Qed.

Lemma get_range_Some {A} (buf : list A) a b s :
  get_range buf a b = Some s <->
  0 <= a <= b /\ b <= len buf /\ s = ztake (b - a) (zdrop a buf).
Proof. unfold get_range. case_match; split; intros; naive_solver lia. Qed.

Lemma get_range_len {A} (buf : list A) a b s :
  get_range buf a b = Some s -> len s = b - a.
Proof. rewrite get_range_Some. intros (? & ? & ->). len_lia. Qed.

Lemma get_range_None {A} (buf : list A) a b :
  get_range buf a b = None <-> a < 0 \/ b < a \/ len buf < b.
Proof. unfold get_range. case_match; split; intros; naive_solver lia. Qed.

Lemma len_splice {A} off (src buf : list A) :
  0 <= off -> off + len src <= len buf -> len (splice off src buf) = len buf.
Proof. intros. unfold splice. len_lia. Qed.

(** Reading back a spliced range, and reading elsewhere. *)
Lemma splice_read {A} off (src buf : list A) :
  0 <= off -> off + len src <= len buf ->
  ztake (len src) (zdrop off (splice off src buf)) = src.
Proof.
  intros. unfold splice.
  assert (len (ztake off buf) = off) as Hl by len_lia.
  rewrite <- Hl at 1. rewrite zdrop_app_len. apply ztake_app_len.
Qed.

Lemma splice_before {A} off (src buf : list A) n :
  0 <= n <= off -> off <= len buf -> ztake n (splice off src buf) = ztake n buf.
Proof.
  intros. unfold splice, ztake, zdrop.
  rewrite take_app_le by (rewrite length_take; unfold len in *; lia).
  rewrite take_take. f_equal. lia.
Qed.

Lemma splice_after {A} off (src buf : list A) n :
  0 <= off -> off + len src <= n -> off + len src <= len buf ->
  zdrop n (splice off src buf) = zdrop n buf.
Proof.
  intros. unfold splice, ztake, zdrop, len in *.
  rewrite drop_app_ge by (rewrite length_take; lia).
  rewrite drop_app_ge by (rewrite length_take; lia).
  rewrite length_take, drop_drop. f_equal. lia.
Qed.

Lemma from_le_bytes_bound bs : 0 <= from_le_bytes bs < 2 ^ (8 * len bs).
Proof. apply le_combine_bound. Qed.

Lemma len_to_le_bytes n z : len (to_le_bytes n z) = Z.of_nat n.
Proof. unfold len, to_le_bytes. by rewrite length_le_split. Qed.

Lemma from_to_le_bytes n z :
  0 <= z < 2 ^ (Z.of_nat n * 8) -> from_le_bytes (to_le_bytes n z) = z.
Proof.
  intros. unfold from_le_bytes, to_le_bytes. rewrite le_combine_split.
  by apply Z.mod_small.
Qed.

#[export] Hint Rewrite len_to_le_bytes : lens.

Lemma wrap_signed_id w z : 0 < w -> - 2 ^ (w - 1) <= z < 2 ^ (w - 1) -> wrap_signed w z = z.
Proof.
  intros Hw Hz. unfold wrap_signed.
  assert (2 ^ w = 2 * 2 ^ (w - 1)) as E.
  { replace w with (1 + (w - 1)) at 1 by lia. rewrite Z.pow_add_r; lia. }
  rewrite Z.mod_small; lia.
Qed.

Lemma wrap_signed_range w z : 0 < w -> - 2 ^ (w - 1) <= wrap_signed w z < 2 ^ (w - 1).
Proof.
  intros Hw. unfold wrap_signed.
  assert (2 ^ w = 2 * 2 ^ (w - 1)) as E.
  { replace w with (1 + (w - 1)) at 1 by lia. rewrite Z.pow_add_r; lia. }
  assert (0 < 2 ^ (w - 1)) by (apply Z.pow_pos_nonneg; lia).
  pose proof (Z.mod_pos_bound (z + 2 ^ (w - 1)) (2 ^ w) ltac:(lia)). lia.
Qed.

Lemma bind_Ok {E A B} (m : res E A) (f : A -> res E B) b :
  m ≫= f = Ok b <-> exists a, m = Ok a /\ f a = Ok b.
Proof. destruct m; simpl; naive_solver. Qed.

Lemma returns_bind {E A B} (m : res E A) (f : A -> res E B) :
  returns m -> (forall a, m = Ok a -> returns (f a)) -> returns (m ≫= f).
Proof. destruct m; cbn; auto. Qed.

Lemma returns_ok_or {E A} (e : E) (o : option A) : returns (ok_or e o).
Proof. by destruct o. Qed.

Lemma returns_map_err {E F A} (f : E -> F) (m : res E A) : returns m -> returns (res_map_err f m).
Proof. by destruct m. Qed.
#[export] Hint Resolve @returns_ok_or @returns_map_err : notatin.

Lemma m_bind_Ok {S E A B} (m : M S E A) (f : A -> M S E B) s s' b :
  m_bind m f s = (s', Ok b) <-> exists s1 a, m s = (s1, Ok a) /\ f a s1 = (s', Ok b).
Proof. unfold m_bind. destruct (m s) as [s1 []]; naive_solver. Qed.
Lemma m_bind_run {S Er A B} (m : M S Er A) (f : A -> M S Er B) s s' a :
  m s = (s', Ok a) -> m_bind m f s = f a s'.
Proof. intros H. unfold m_bind. by rewrite H. Qed.

(** What [f] makes of the result, or nothing. *)
Definition on_ok {Er A B} (f : A -> B) (r : res Er A) : option B :=
  match r with Ok a => Some (f a) | _ => None end.
Lemma on_ok_Some {Er A B} (f : A -> B) (r : res Er A) b : on_ok f r = Some b -> exists a, r = Ok a /\ f a = b.
Proof. destruct r; [|done..]. intros [= <-]. by eexists. Qed.

Lemma utf8_len_pos c : 0 < utf8_len c.
Proof. unfold utf8_len. repeat case_match; lia. Qed.

Lemma str_split_nonempty c s : str_split c s <> [].
Proof. induction s as [|x s IH]; simpl; [done|]. repeat case_match; done. Qed.

(** Words of [n] bits, by their high bits. *)
Lemma bits_high n x i : 0 <= x < 2 ^ n -> n <= i -> Z.testbit x i = false.
Proof.
  intros Hx Hi. destruct (Z.ltb_spec n 0).
  { rewrite Z.pow_neg_r in Hx by lia. lia. }
  rewrite <- (Z.mod_small x (2 ^ n)) by lia. by apply Z.mod_pow2_bits_high.
Qed.

Lemma bits_bound n x :
  0 <= n -> (forall i, n <= i -> Z.testbit x i = false) -> 0 <= x < 2 ^ n.
Proof.
  intros Hn Hi. assert (x mod 2 ^ n = x) as <-.
  { apply Z.bits_inj'. intros i Hi0. destruct (Z.ltb_spec i n).
    - by apply Z.mod_pow2_bits_low.
    - rewrite Z.mod_pow2_bits_high by lia. by rewrite Hi. }
  apply Z.mod_pos_bound. apply Z.pow_pos_nonneg; lia.
Qed.

Lemma lor_range n a b :
  0 <= n -> 0 <= a < 2 ^ n -> 0 <= b < 2 ^ n -> 0 <= Z.lor a b < 2 ^ n.
Proof.
  intros Hn Ha Hb. apply bits_bound; [done|]. intros i Hi.
  by rewrite Z.lor_spec, !(bits_high n).
Qed.

Lemma lxor_range n a b :
  0 <= n -> 0 <= a < 2 ^ n -> 0 <= b < 2 ^ n -> 0 <= Z.lxor a b < 2 ^ n.
Proof.
  intros Hn Ha Hb. apply bits_bound; [done|]. intros i Hi.
  by rewrite Z.lxor_spec, !(bits_high n).
Qed.

(** Disjoint bit ranges add up. *)
Lemma lor_shiftl_add n a b :
  0 <= n -> 0 <= a < 2 ^ n -> 0 <= b -> Z.lor a (Z.shiftl b n) = a + 2 ^ n * b.
Proof.
  intros Hn Ha Hb. rewrite (Z.mul_comm (2 ^ n)), <- Z.shiftl_mul_pow2 by lia.
  assert (forall i, Z.testbit a i && Z.testbit (Z.shiftl b n) i = false) as Hd.
  { intros i. destruct (Z.ltb_spec i n).
    - rewrite Z.shiftl_spec_low by lia. apply andb_false_r.
    - by rewrite (bits_high n a) by lia. }
  rewrite Z.add_nocarry_lxor.
  - apply Z.bits_inj'. intros i Hi. rewrite Z.lor_spec, Z.lxor_spec.
    specialize (Hd i). by destruct (Z.testbit a i), (Z.testbit (Z.shiftl b n) i).
  - apply Z.bits_inj'. intros i Hi. rewrite Z.land_spec, Z.bits_0. apply Hd.
Qed.

(** Inverts a successful sequence of calls, one at a time. *)
Ltac inv_bind :=
  repeat match goal with
         | H : _ ≫= _ = Ok _ |- _ =>
             apply bind_Ok in H; let a := fresh "a" in let Ha := fresh "Ha" in
             destruct H as (a & Ha & H)
         | H : m_bind _ _ _ = (_, Ok _) |- _ =>
             apply m_bind_Ok in H; let s := fresh "s" in let a := fresh "a" in
             let Ha := fresh "Ha" in destruct H as (s & a & Ha & H)
         | H : match ?p with pair _ _ => _ end = _ |- _ => is_var p; destruct p as [? ?]
         | H : match ?p with pair _ _ => _ end _ = _ |- _ => is_var p; destruct p as [? ?]
         end; simplify_eq/=.

(** The little-endian integer of [n] bytes at [off]. *)
Definition le_at (n off : Z) (buf : list byte) : Z := from_le_bytes (ztake n (zdrop off buf)).

Lemma le_at_range n off buf : 0 <= n -> 0 <= le_at n off buf < 2 ^ (8 * n).
Proof.
  intros Hn. pose proof (from_le_bytes_bound (ztake n (zdrop off buf))) as Hb.
  assert (2 ^ (8 * len (ztake n (zdrop off buf))) <= 2 ^ (8 * n)).
  { apply Z.pow_le_mono_r; [lia|]. len_lia. }
  unfold le_at. lia.
Qed.

(** ** Stable sorting ([slice::sort_by]) and the order of strings *)

Section Sort.
Context {A : Type} (le : A -> A -> bool).
Fixpoint sort_insert (x : A) (l : list A) : list A :=
  match l with
  | [] => [x]
  | y :: l' => if le x y then x :: l else y :: sort_insert x l'
  end.
Definition sort_by (l : list A) : list A := foldr sort_insert [] l.
End Sort.

(** [str::cmp] is not greater: UTF-8 orders as the scalar values do. *)
Fixpoint str_le (a b : ustr) : bool :=
  match a, b with
  | [], _ => true
  | _ :: _, [] => false
  | x :: a, y :: b => if x =? y then str_le a b else x <? y
  end.

(** [Option<u32>::cmp] is not greater. *)
Definition opt_le (a b : option Z) : bool :=
  match a, b with
  | None, _ => true
  | Some _, None => false
  | Some x, Some y => x <=? y
  end.

Lemma sort_insert_Permutation {A} le (x : A) l : sort_insert le x l ≡ₚ x :: l.
Proof.
  induction l as [|y l IH]; cbn; [done|]. case_match; [done|].
  etransitivity; [apply perm_skip, IH|apply perm_swap].
Qed.

Lemma sort_by_Permutation {A} le (l : list A) : sort_by le l ≡ₚ l.
Proof. induction l as [|x l IH]; cbn; [done|].
  etransitivity; [apply sort_insert_Permutation|apply perm_skip, IH].
Qed.

Lemma sort_insert_sorted {A} le (x : A) l :
  (forall a b, le a b = false -> le b a = true) ->
  Sorted (fun a b => le a b = true) l -> Sorted (fun a b => le a b = true) (sort_insert le x l).
Proof.
  intros Ht. induction 1 as [|y l Hs IH Hh]; cbn; [by repeat constructor|].
  destruct (le x y) eqn:Hxy; [by repeat constructor|].
  constructor; [done|]. destruct l as [|z l]; cbn in *; [constructor; by apply Ht|].
  destruct (le x z); constructor; [by apply Ht|]. by inversion Hh.
Qed.

Lemma sort_by_sorted {A} le (l : list A) :
  (forall a b, le a b = false -> le b a = true) ->
  Sorted (fun a b => le a b = true) (sort_by le l).
Proof.
  intros Ht. induction l as [|x l IH]; cbn; [constructor|]. by apply sort_insert_sorted.
Qed.

Lemma mapM_Ok {E A B} (f : A -> res E B) (R : A -> B -> Prop) l :
  (forall x, x ∈ l -> exists y, f x = Ok y /\ R x y) ->
  exists l', mapM f l = Ok l' /\ Forall2 R l l'.
Proof.
  induction l as [|x l IH]; intros H; [by exists []|].
  destruct (H x) as (y & Hy & HR); [by constructor|].
  destruct IH as (l' & Hl & HF); [intros; apply H; by constructor|].
  exists (y :: l'). split; [|by constructor]. cbn. rewrite Hy. cbn. by rewrite Hl.
Qed.

Lemma mapM_Ok_Forall2 {E A B} (f : A -> res E B) l l' :
  mapM f l = Ok l' -> Forall2 (fun x y => f x = Ok y) l l'.
Proof.
  revert l'. induction l as [|x l IH]; intros l' H; cbn in H.
  { injection H as <-. constructor. }
  inv_bind. match goal with H : mret _ = Ok _ |- _ => injection H as <- end.
  constructor; auto.
Qed.

Lemma mapM_NoFuel_head {E A B} (f : A -> res E B) x l :
  f x = NoFuel -> mapM f (x :: l) = NoFuel.
Proof. intros H. cbn. by rewrite H. Qed.

Lemma opt_le_total a b : opt_le a b = false -> opt_le b a = true.
Proof. destruct a, b; cbn; try done. intros ?%Z.leb_gt. apply Z.leb_le. lia. Qed.

Lemma str_le_total a b : str_le a b = false -> str_le b a = true.
Proof.
  revert b. induction a as [|x a IH]; intros [|y b]; cbn; try done.
  rewrite (Z.eqb_sym y x). destruct (Z.eqb_spec x y); [apply IH|].
  intros ?%Z.ltb_ge. apply Z.ltb_lt. lia.
Qed.

(** ** Calls that return *)

(** A call from a state returns. *)
Definition m_returns {S Er A} (m : M S Er A) (s : S) : Prop := returns (m s).2.

Lemma m_returns_bind {S Er A B} (m : M S Er A) (f : A -> M S Er B) s :
  m_returns m s -> (forall s' a, m s = (s', Ok a) -> m_returns (f a) s') ->
  m_returns (m_bind m f) s.
Proof.
  unfold m_returns, m_bind. intros Hm Hf. destruct (m s) as [s' []]; cbn in *; auto.
Qed.

Lemma m_returns_lift {S Er A} (r : res Er A) (s : S) : returns r -> m_returns (m_lift r) s.
Proof. done. Qed.

Lemma m_returns_ret {S Er A} (a : A) (s : S) : m_returns (m_ret a : M S Er A) s.
Proof. exact I. Qed.

Lemma m_returns_modify {S Er} (f : S -> S) (s : S) : m_returns (m_modify f : M S Er ()) s.
Proof. exact I. Qed.

Lemma m_returns_get {S Er} (s : S) : m_returns (m_get : M S Er S) s.
Proof. exact I. Qed.

Lemma m_returns_try {S E1 E2 A} (m : M S E1 A) s :
  m_returns m s -> m_returns (m_try m : M S E2 (E1 + A)) s.
Proof. unfold m_returns, m_try. by destruct (m s) as [s' []]. Qed.
#[export] Hint Resolve m_returns_lift m_returns_ret m_returns_modify m_returns_get
  m_returns_try : notatin.

(** Proves that a sequence of calls on a state returns. *)
Ltac m_returns_tac :=
  repeat match goal with
         | |- m_returns (m_bind _ _) _ =>
             apply m_returns_bind;
             [auto with notatin|let s := fresh "s" in let a := fresh "a" in intros s a ?]
         | |- m_returns (match ?p with pair _ _ => _ end) _ => is_var p; destruct p as [? ?]
         | |- m_returns (let _ := _ in _) _ => cbv zeta
         | |- m_returns (if _ then _ else _) _ => case_match
         end; auto with notatin.

(** ** What calls do to the state

    [m_rel R m]: whatever the outcome, the state is left related to what it was. *)

Definition m_rel {S Er A} (R : relation S) (m : M S Er A) : Prop := forall s, R s (m s).1.

Section Rel.
Context {S : Type} (R : relation S) `{!PreOrder R}.

Lemma m_rel_bind {Er A B} (m : M S Er A) (f : A -> M S Er B) :
  m_rel R m -> (forall a, m_rel R (f a)) -> m_rel R (m_bind m f).
Proof.
  intros Hm Hf s. unfold m_bind. specialize (Hm s). destruct (m s) as [s' []]; cbn in *; try done.
  etransitivity; [exact Hm|]. apply Hf.
Qed.

Lemma m_rel_ret {Er A} (a : A) : m_rel R (m_ret a : M S Er A).
Proof. intros s. reflexivity. Qed.

Lemma m_rel_lift {Er A} (r : res Er A) : m_rel R (m_lift r : M S Er A).
Proof. intros s. reflexivity. Qed.

Lemma m_rel_get {Er} : m_rel R (m_get : M S Er S).
Proof. intros s. reflexivity. Qed.

Lemma m_rel_modify {Er} (f : S -> S) : (forall s, R s (f s)) -> m_rel R (m_modify f : M S Er ()).
Proof. intros Hf s. apply Hf. Qed.

Lemma m_rel_try {E1 E2 A} (m : M S E1 A) : m_rel R m -> m_rel R (m_try m : M S E2 (E1 + A)).
Proof. intros Hm s. specialize (Hm s). unfold m_try. by destruct (m s) as [s' []]. Qed.
End Rel.

(** Proves that a sequence of calls keeps the state related. *)
Ltac m_rel_tac :=
  repeat match goal with
         | |- m_rel _ (m_bind _ _) => apply m_rel_bind; [auto with notatin| |let a := fresh "a" in intros a]
         | |- m_rel _ (m_ret _) => apply m_rel_ret
         | |- m_rel _ (m_lift _) => apply m_rel_lift
         | |- m_rel _ m_get => apply m_rel_get
         | |- m_rel _ (m_try _) => apply m_rel_try
         | |- m_rel _ (m_modify _) => apply m_rel_modify
         | |- m_rel _ (match ?p with _ => _ end) => destruct p
         | |- m_rel _ (let _ := _ in _) => cbv zeta
         | |- PreOrder _ => apply _
         end; auto with notatin.
