(* ===== verification/Env.v ===== *)
(** * Env: what the program is linked against

    The crates whose code is not in the repository are parameters of the model,
    collected in the class [Env] with the documented behaviour the code relies on as
    its laws: the [nom] parsers, [bitflags], the derived [FromPrimitive], the [blake3]
    hash, [winstructs] (GUIDs and security descriptors), [chrono] date-times and
    [regex].  [Env] also holds the two compiler settings that change what the
    source means: overflow checks and debug assertions.  [env_ref] is an instance,
    so the laws are satisfiable and theorems can be evaluated on concrete bytes. *)

From S2P Require Import Prelude.

(** ** nom: parsers over byte slices *)

(** [nom::Err]: recoverable, or the input is incomplete (streaming parsers). *)
Inductive nom_err := NomError | NomIncomplete.

(** [IResult<&[u8], A>]: the rest of the input and the value. *)
Abbreviation presult A := (res nom_err (list byte * A)).
Abbreviation parser A := (list byte -> presult A).

(** The documented behaviour of the combinators the code uses. *)
Definition spec_take (n : Z) : parser (list byte) := fun i =>
  if n <=? len i then Ok (zdrop n i, ztake n i) else Err NomError.

Definition spec_take_streaming (n : Z) : parser (list byte) := fun i =>
  if n <=? len i then Ok (zdrop n i, ztake n i) else Err NomIncomplete.

Definition spec_tag (t : list byte) : parser (list byte) := fun i =>
  if decide (take (length t) i = t) then Ok (drop (length t) i, t) else Err NomError.

(** Little-endian integers of [n] bytes. *)
Definition spec_le (n : Z) : parser Z := fun i =>
  if n <=? len i then Ok (zdrop n i, from_le_bytes (ztake n i)) else Err NomError.

Fixpoint spec_count {A} (p : parser A) (n : nat) : parser (list A) := fun i =>
  match n with
  | O => Ok (i, [])
  | S k =>
      '(i1, a) ← p i;
      '(i2, l) ← spec_count p k i1;
      Ok (i2, a :: l)
  end.

Fixpoint spec_alt {A} (ps : list (parser A)) : parser A := fun i =>
  match ps with
  | [] => Err NomError
  | p :: ps' => match p i with Err NomError => spec_alt ps' i | r => r end
  end.

(** The [k] last decimal digits of [n]. *)
Fixpoint digits_of (k : nat) (n : Z) : ustr :=
  match k with
  | O => []
  | S j => digits_of j (n / 10) ++ [48 + n mod 10]
  end.

Class Env : Type := {
  overflow_checks : bool;
  debug_assertions : bool;

  nom_take : Z -> parser (list byte);
  nom_take_streaming : Z -> parser (list byte);
  nom_tag : list byte -> parser (list byte);
  nom_le_u16 : parser Z;
  nom_le_u32 : parser Z;
  nom_le_u64 : parser Z;
  nom_le_i32 : parser Z;
  nom_count : forall {A}, parser A -> Z -> parser (list A);
  nom_alt : forall {A}, list (parser A) -> parser A;
  nom_many0 : forall {A}, parser A -> parser (list A);

  nom_take_spec n i : nom_take n i = spec_take n i;
  nom_take_streaming_spec n i : nom_take_streaming n i = spec_take_streaming n i;
  nom_tag_spec t i : nom_tag t i = spec_tag t i;
  nom_le_u16_spec i : nom_le_u16 i = spec_le 2 i;
  nom_le_u32_spec i : nom_le_u32 i = spec_le 4 i;
  nom_le_u64_spec i : nom_le_u64 i = spec_le 8 i;
  nom_le_i32_spec i : nom_le_i32 i = ('(r, v) ← spec_le 4 i; Ok (r, as_i32 v));
  nom_count_spec {A} (p : parser A) n i : nom_count p n i = spec_count p (Z.to_nat n) i;
  nom_alt_spec {A} (ps : list (parser A)) i : nom_alt ps i = spec_alt ps i;
  (* many0: zero or more; stops at the first recoverable error, passes any other on *)
  nom_many0_stop {A} (p : parser A) i : p i = Err NomError -> nom_many0 p i = Ok (i, []);
  nom_many0_step {A} (p : parser A) i i1 a :
    p i = Ok (i1, a) -> len i1 < len i ->
    nom_many0 p i = ('(i2, l) ← nom_many0 p i1; Ok (i2, a :: l));
  nom_many0_fail {A} (p : parser A) i :
    match p i with Ok _ | Err NomError => False | _ => True end ->
    nom_many0 p i = match p i with Err e => Err e | NoFuel => NoFuel | _ => Panic end;

  (* bitflags: [all] is the union of the declared flags *)
  bf_from_bits_truncate : Z -> Z -> Z;
  bf_from_bits : Z -> Z -> option Z;
  bf_contains : Z -> Z -> bool;
  bf_debug : list (Z * ustr) -> Z -> ustr;     (* [{:?}] of a flags value *)
  bf_from_bits_truncate_spec all b : bf_from_bits_truncate all b = Z.land b all;
  bf_from_bits_spec all b :
    bf_from_bits all b = if Z.land b all =? b then Some b else None;
  bf_contains_spec a b : bf_contains a b = (Z.land a b =? b);

  (* enum_primitive_derive / num_traits: the variant with the given discriminant *)
  prim_from_u32 : forall {A}, list (Z * A) -> Z -> option A;
  prim_from_u32_spec {A} (tbl : list (Z * A)) v :
    prim_from_u32 tbl v = snd <$> head (filter (fun e => e.1 = v) tbl);

  (* blake3: the digest of everything fed to the hasher since its reset *)
  Hash : Type;
  Hash_eq : EqDecision Hash;
  blake3 : list byte -> Hash;

  (* winstructs *)
  Guid : Type;
  guid_from_buffer : list byte -> ustr + Guid;
  guid_from_buffer_ok bs : len bs = 16 -> exists g, guid_from_buffer bs = inr g;
  SecurityDescriptor : Type;
  sd_from_stream : list byte -> ustr + SecurityDescriptor;

  (* chrono: 1970-01-01T00:00:00Z plus a Duration of [n] nanoseconds, [n] an i64 *)
  DateTime : Type;
  dt_from_unix_nanos : Z -> DateTime;
  dt_timestamp_nanos : DateTime -> Z;
  dt_timestamp_nanos_spec n :
    - 2 ^ 63 <= n < 2 ^ 63 -> dt_timestamp_nanos (dt_from_unix_nanos n) = n;

  dt_format : ustr -> DateTime -> ustr;      (* [dt.format(..).to_string()] *)
  dt_to_rfc3339_nanos : DateTime -> ustr;
  (* [%9f]: the nanoseconds within the second, nine digits *)
  dt_format_9f n :
    - 2 ^ 63 <= n < 2 ^ 63 ->
    dt_format (lit "%9f") (dt_from_unix_nanos n) = digits_of 9 (n mod 10 ^ 9);

  (* regex *)
  Regex : Type;
  regex_new : ustr -> ustr + Regex;
  regex_is_match : Regex -> ustr -> bool;

  (* [{:?}] of a string: quoted, with the escapes of [char::escape_debug], whose table
     of printable characters is the standard library's *)
  debug_str : ustr -> ustr;
}.
#[export] Existing Instance Hash_eq.

(** [a + b] on a [w]-bit unsigned type: panics under overflow checks, else wraps. *)
Definition add_uw `{Env} {E} (m a b : Z) : res E Z :=
  if a + b <? m then Ok (a + b)
  else if overflow_checks then Panic else Ok ((a + b) mod m).
Definition add_u32 `{Env} {E} (a b : Z) : res E Z := add_uw U32_MOD a b.
Definition add_usize `{Env} {E} (a b : Z) : res E Z := add_uw U64_MOD a b.

(** [a - b] on a [w]-bit unsigned type. *)
Definition sub_uw `{Env} {E} (m a b : Z) : res E Z :=
  if b <=? a then Ok (a - b)
  else if overflow_checks then Panic else Ok ((a - b) mod m).
Definition sub_u32 `{Env} {E} (a b : Z) : res E Z := sub_uw U32_MOD a b.
Definition sub_usize `{Env} {E} (a b : Z) : res E Z := sub_uw U64_MOD a b.

(** [u32::checked_add]. *)
Definition checked_add_u32 (a b : Z) : option Z :=
  if a + b <? U32_MOD then Some (a + b) else None.

(** ** A reference instance *)

Fixpoint ref_many0_go {A} (p : parser A) (fuel : nat) : parser (list A) := fun i =>
  match fuel with
  | O => Err NomError
  | S k =>
      match p i with
      | Err NomError => Ok (i, [])
      | Ok (i1, a) =>
          if len i1 <? len i
          then '(i2, l) ← ref_many0_go p k i1; Ok (i2, a :: l)
          else Err NomError
      | Err e => Err e
      | Panic => Panic
      | NoFuel => NoFuel
      end
  end.
Definition ref_many0 {A} (p : parser A) : parser (list A) := fun i =>
  ref_many0_go p (S (length i)) i.

Lemma ref_many0_go_fuel {A} (p : parser A) n m i :
  (length i < n)%nat -> (length i < m)%nat -> ref_many0_go p n i = ref_many0_go p m i.
Proof.
  revert m i. induction n as [|n IH]; intros [|m] i Hn Hm; try lia. simpl.
  destruct (p i) as [[i1 a]| [] | |]; try done.
  case_match eqn:E; [|done]. unfold len in E.
  rewrite (IH m i1); [done|lia|lia].
Qed.

(** Identity digests and GUIDs, timestamps as date-times, literal patterns. *)
Definition env_ref_with (oc da : bool) : Env.
Proof.
  refine {|
    overflow_checks := oc;
    debug_assertions := da;
    nom_take := spec_take;
    nom_take_streaming := spec_take_streaming;
    nom_tag := spec_tag;
    nom_le_u16 := spec_le 2;
    nom_le_u32 := spec_le 4;
    nom_le_u64 := spec_le 8;
    nom_le_i32 := fun i => '(r, v) ← spec_le 4 i; Ok (r, as_i32 v);
    nom_count := fun A p n => spec_count p (Z.to_nat n);
    nom_alt := @spec_alt;
    nom_many0 := @ref_many0;
    bf_from_bits_truncate := fun all b => Z.land b all;
    bf_from_bits := fun all b => if Z.land b all =? b then Some b else None;
    bf_contains := fun a b => Z.land a b =? b;
    bf_debug := fun tbl b => (filter (fun e => Z.land b e.1 = e.1) tbl) ≫= snd;
    prim_from_u32 := fun A tbl v => snd <$> head (filter (fun e => e.1 = v) tbl);
    Hash := list byte;
    Hash_eq := _;
    blake3 := id;
    Guid := list byte;
    guid_from_buffer := fun bs => if len bs =? 16 then inr bs else inl (lit "short");
    SecurityDescriptor := list byte;
    sd_from_stream := inr;
    DateTime := Z;
    dt_from_unix_nanos := id;
    dt_timestamp_nanos := id;
    dt_format := fun f n => if decide (f = lit "%9f") then digits_of 9 (n mod 10 ^ 9) else f;
    dt_to_rfc3339_nanos := fun n => fmt_dec n;
    Regex := ustr;
    regex_new := inr;
    regex_is_match := fun r s => bool_decide (r = s);
    debug_str := fun s => 34 :: s ++ [34]
  |}; try reflexivity.
  - intros A p i Hp. unfold ref_many0. simpl. by rewrite Hp.
  - intros A p i i1 a Hp Hl. unfold ref_many0.
    change (ref_many0_go p (S (length i)) i) with
      (match p i with
       | Err NomError => Ok (i, [])
       | Ok (i1, a) =>
          if len i1 <? len i
          then '(i2, l) ← ref_many0_go p (length i) i1; Ok (i2, a :: l)
          else Err NomError
       | Err e => Err e
       | Panic => Panic
       | NoFuel => NoFuel
       end).
    rewrite Hp, (proj2 (Z.ltb_lt _ _) Hl).
    rewrite (ref_many0_go_fuel p (length i) (S (length i1)) i1);
      [done | unfold len in Hl; lia | lia].
  - intros A p i Hp. unfold ref_many0. simpl. by destruct (p i) as [|[]| |].
  - intros bs Hbs. exists bs. by rewrite (proj2 (Z.eqb_eq _ _) Hbs).
Defined.
(** The settings of a debug build, and of a release build. *)
Definition env_ref : Env := env_ref_with true true.
Definition env_release : Env := env_ref_with false false.

Lemma add_u32_fits `{Env} {E} a b : a + b < U32_MOD -> add_u32 (E:=E) a b = Ok (a + b).
Proof. intros. unfold add_u32, add_uw. by rewrite (proj2 (Z.ltb_lt _ _)). Qed.

Lemma add_u32_overflow `{Env} {E} a b :
  U32_MOD <= a + b -> overflow_checks = true -> add_u32 (E:=E) a b = Panic.
Proof.
  intros Hab Hoc. unfold add_u32, add_uw. rewrite (proj2 (Z.ltb_ge _ _) Hab). by rewrite Hoc.
Qed.

(** ** Consequences of the laws shared by the format parsers *)

Section Nom.
Context `{E : Env}.

Lemma spec_le_Ok n i r v :
  0 <= n -> spec_le n i = Ok (r, v) <->
  n <= len i /\ r = zdrop n i /\ v = from_le_bytes (ztake n i).
Proof. intros. unfold spec_le. case_match; split; intros; naive_solver lia. Qed.

Lemma spec_le_app n i r :
  len i = n -> spec_le n (i ++ r) = Ok (r, from_le_bytes i).
Proof.
  intros <-. unfold spec_le. rewrite zdrop_app_len, ztake_app_len.
  destruct (Z.leb_spec (len i) (len (i ++ r))); [done|]. len_lia.
Qed.

Lemma spec_take_app n i r : len i = n -> spec_take n (i ++ r) = Ok (r, i).
Proof.
  intros <-. unfold spec_take. rewrite zdrop_app_len, ztake_app_len.
  destruct (Z.leb_spec (len i) (len (i ++ r))); [done|]. len_lia.
Qed.

Lemma spec_tag_app t r : spec_tag t (t ++ r) = Ok (r, t).
Proof.
  unfold spec_tag. rewrite take_app_length, drop_app_length.
  by rewrite decide_True.
Qed.

Lemma spec_take_Ok n i r v :
  spec_take n i = Ok (r, v) <-> n <= len i /\ r = zdrop n i /\ v = ztake n i.
Proof. unfold spec_take. case_match; split; intros; naive_solver lia. Qed.

Lemma spec_take_streaming_Ok n i r v :
  spec_take_streaming n i = Ok (r, v) <-> n <= len i /\ r = zdrop n i /\ v = ztake n i.
Proof. unfold spec_take_streaming. case_match; split; intros; naive_solver lia. Qed.

Lemma spec_tag_Ok t i r v :
  spec_tag t i = Ok (r, v) <-> v = t /\ i = t ++ r.
Proof.
  unfold spec_tag. case_decide as Ht; split.
  - intros [=<- <-]. split; [done|]. rewrite <- Ht at 1. by rewrite take_drop.
  - intros [-> ->]. by rewrite drop_app_length.
  - done.
  - intros [-> ->]. exfalso. apply Ht. by rewrite take_app_length.
Qed.

Lemma spec_tag_drop t i r v :
  spec_tag t i = Ok (r, v) <->
  v = t /\ len t <= len i /\ r = zdrop (len t) i /\ ztake (len t) i = t.
Proof.
  unfold spec_tag, ztake, zdrop, len. rewrite Nat2Z.id. case_decide as Ht; split.
  - intros [=<- <-]. split_and!; [done| |done|done].
    assert (length (take (length t) i) = length t) as Hl by by rewrite Ht.
    rewrite length_take in Hl. lia.
  - by intros (-> & _ & -> & _).
  - done.
  - by intros (_ & _ & _ & ?).
Qed.

(** Running a primitive parser at a known position of the input. *)
Lemma spec_le_at n k i :
  0 <= n -> 0 <= k -> k + n <= len i ->
  spec_le n (zdrop k i) = Ok (zdrop (k + n) i, from_le_bytes (ztake n (zdrop k i))).
Proof. intros. apply spec_le_Ok; [done|]. rewrite zdrop_zdrop by lia. split; [len_lia|done]. Qed.

Lemma spec_take_at n k i :
  0 <= n -> 0 <= k -> k + n <= len i ->
  spec_take n (zdrop k i) = Ok (zdrop (k + n) i, ztake n (zdrop k i)).
Proof. intros. apply spec_take_Ok. rewrite zdrop_zdrop by lia. split; [len_lia|done]. Qed.

Lemma spec_take_streaming_at n k i :
  0 <= n -> 0 <= k -> k + n <= len i ->
  spec_take_streaming n (zdrop k i) = Ok (zdrop (k + n) i, ztake n (zdrop k i)).
Proof.
  intros. apply spec_take_streaming_Ok. rewrite zdrop_zdrop by lia. split; [len_lia|done].
Qed.

Lemma spec_tag_at t i :
  len t <= len i -> ztake (len t) i = t -> spec_tag t i = Ok (zdrop (len t) i, t).
Proof. intros. by apply spec_tag_drop. Qed.

(** A parser that only ever returns a suffix of its input. *)
Definition consumes_suffix {A} (p : parser A) : Prop :=
  forall i r v, p i = Ok (r, v) -> exists k, i = k ++ r.

Lemma nom_le_u32_range i r v : nom_le_u32 i = Ok (r, v) -> 0 <= v < U32_MOD.
Proof.
  rewrite nom_le_u32_spec, spec_le_Ok by lia. intros (H & _ & ->).
  pose proof (from_le_bytes_bound (ztake 4 i)) as Hb.
  replace (len (ztake 4 i)) with 4 in Hb by len_lia. exact Hb.
Qed.

Lemma nom_le_u16_range i r v : nom_le_u16 i = Ok (r, v) -> 0 <= v < U16_MOD.
Proof.
  rewrite nom_le_u16_spec, spec_le_Ok by lia. intros (H & _ & ->).
  pose proof (from_le_bytes_bound (ztake 2 i)) as Hb.
  replace (len (ztake 2 i)) with 2 in Hb by len_lia. exact Hb.
Qed.

Lemma nom_le_i32_Ok i r v :
  nom_le_i32 i = Ok (r, v) <->
  4 <= len i /\ r = zdrop 4 i /\ v = as_i32 (from_le_bytes (ztake 4 i)).
Proof.
  rewrite nom_le_i32_spec, bind_Ok. split.
  - intros ([r' v'] & H & [= <- <-]). apply spec_le_Ok in H; naive_solver lia.
  - intros (? & -> & ->). eexists (_, _). split; [|done].
    apply spec_le_Ok; [lia|done].
Qed.

Lemma nom_le_i32_range i r v : nom_le_i32 i = Ok (r, v) -> - 2 ^ 31 <= v < 2 ^ 31.
Proof. rewrite nom_le_i32_Ok. intros (_ & _ & ->). by apply (wrap_signed_range 32). Qed.

(** The primitive parsers return. *)
Lemma nom_le_u16_returns i : returns (nom_le_u16 i).
Proof. rewrite nom_le_u16_spec. unfold spec_le. by case_match. Qed.
Lemma nom_le_u32_returns i : returns (nom_le_u32 i).
Proof. rewrite nom_le_u32_spec. unfold spec_le. by case_match. Qed.
Lemma nom_le_u64_returns i : returns (nom_le_u64 i).
Proof. rewrite nom_le_u64_spec. unfold spec_le. by case_match. Qed.
Lemma nom_le_i32_returns i : returns (nom_le_i32 i).
Proof. rewrite nom_le_i32_spec. unfold spec_le. by case_match. Qed.
Lemma nom_tag_returns t i : returns (nom_tag t i).
Proof. rewrite nom_tag_spec. unfold spec_tag. by case_match. Qed.
Lemma nom_take_returns n i : returns (nom_take n i).
Proof. rewrite nom_take_spec. unfold spec_take. by case_match. Qed.
Lemma nom_take_streaming_returns n i : returns (nom_take_streaming n i).
Proof. rewrite nom_take_streaming_spec. unfold spec_take_streaming. by case_match. Qed.
Lemma nom_count_returns {A} (p : parser A) n i :
  (forall i, returns (p i)) -> returns (nom_count p n i).
Proof.
  intros Hp. rewrite nom_count_spec. generalize (Z.to_nat n) as k. intros k.
  revert i. induction k as [|k IH]; intros i; cbn; [done|].
  apply returns_bind; [apply Hp|]. intros [i1 a] _. apply returns_bind; [apply IH|].
  by intros [i2 l] _.
Qed.
End Nom.
#[export] Hint Resolve nom_le_u16_returns nom_le_u32_returns nom_le_u64_returns
  nom_le_i32_returns nom_tag_returns nom_take_returns nom_take_streaming_returns
  nom_count_returns : notatin.

(** Proves that a sequence of calls returns, from the hints for each call. *)
Ltac returns_tac :=
  repeat match goal with
         | |- returns (_ ≫= _) =>
             apply returns_bind; [auto with notatin|let a := fresh "a" in intros a ?]
         | |- returns (match ?p with pair _ _ => _ end) => is_var p; destruct p as [? ?]
         | |- returns (let _ := _ in _) => cbv zeta
         | |- returns (if _ then _ else _) => case_match
         end; auto with notatin; try exact I.

(** Replaces every crate call by its documented behaviour. *)
Ltac env_laws :=
  rewrite ?nom_take_spec, ?nom_take_streaming_spec, ?nom_tag_spec, ?nom_le_u16_spec,
    ?nom_le_u32_spec, ?nom_le_u64_spec, ?nom_le_i32_spec, ?nom_count_spec, ?nom_alt_spec,
    ?bf_from_bits_truncate_spec, ?bf_from_bits_spec, ?bf_contains_spec, ?prim_from_u32_spec.
Tactic Notation "env_laws" "in" hyp(H) :=
  rewrite ?nom_take_spec, ?nom_take_streaming_spec, ?nom_tag_spec, ?nom_le_u16_spec,
    ?nom_le_u32_spec, ?nom_le_u64_spec, ?nom_le_i32_spec, ?nom_count_spec, ?nom_alt_spec,
    ?bf_from_bits_truncate_spec, ?bf_from_bits_spec, ?bf_contains_spec,
    ?prim_from_u32_spec in H.

(** Inverts a successful run of the primitive parsers. *)
Ltac parse_inv :=
  repeat match goal with
         | H : nom_le_u16 _ = Ok _ |- _ =>
             rewrite nom_le_u16_spec, spec_le_Ok in H by lia; destruct H as (? & -> & ->)
         | H : nom_le_u32 _ = Ok _ |- _ =>
             rewrite nom_le_u32_spec, spec_le_Ok in H by lia; destruct H as (? & -> & ->)
         | H : nom_le_u64 _ = Ok _ |- _ =>
             rewrite nom_le_u64_spec, spec_le_Ok in H by lia; destruct H as (? & -> & ->)
         | H : nom_le_i32 _ = Ok _ |- _ =>
             rewrite nom_le_i32_Ok in H; destruct H as (? & -> & ->)
         | H : nom_take_streaming _ _ = Ok _ |- _ =>
             rewrite nom_take_streaming_spec, spec_take_streaming_Ok in H;
             destruct H as (? & -> & ->)
         | H : nom_take _ _ = Ok _ |- _ =>
             rewrite nom_take_spec, spec_take_Ok in H; destruct H as (? & -> & ->)
         | H : nom_tag _ _ = Ok _ |- _ =>
             rewrite nom_tag_spec, spec_tag_drop in H; destruct H as (-> & ? & -> & ?)
         end.

(** Evaluates the lengths of literal tags and merges successive drops. *)
Ltac drops :=
  repeat match goal with
         | H : context [len (bytes_of ?s)] |- _ =>
             let v := eval vm_compute in (len (bytes_of s)) in
             change (len (bytes_of s)) with v in H
         | |- context [len (bytes_of ?s)] =>
             let v := eval vm_compute in (len (bytes_of s)) in
             change (len (bytes_of s)) with v
         end;
  repeat match goal with
         | H : context [zdrop ?a (zdrop ?b ?l)] |- _ =>
             rewrite (zdrop_zdrop a b l) in H by lia;
             let v := eval vm_compute in (b + a) in change (b + a) with v in H
         | |- context [zdrop ?a (zdrop ?b ?l)] =>
             rewrite (zdrop_zdrop a b l) by lia;
             let v := eval vm_compute in (b + a) in change (b + a) with v
         end.

(** Keeps the range of every 32-bit field read so far. *)
Ltac le_ranges :=
  repeat match goal with
         | H : nom_le_u32 _ = Ok _ |- _ =>
             pose proof (nom_le_u32_range _ _ _ H); revert H
         | H : nom_le_u16 _ = Ok _ |- _ =>
             pose proof (nom_le_u16_range _ _ _ H); revert H
         | H : nom_le_i32 _ = Ok _ |- _ =>
             pose proof (nom_le_i32_range _ _ _ H); revert H
         end; intros.

(** Runs the primitive parsers whose input is long enough. *)
Ltac parse_run :=
  repeat (
    first
      [ rewrite nom_le_u16_spec, spec_le_at by lia
      | rewrite nom_le_u32_spec, spec_le_at by lia
      | rewrite nom_le_u64_spec, spec_le_at by lia
      | rewrite nom_le_i32_spec, spec_le_at by lia
      | rewrite nom_take_spec, spec_take_at by lia
      | rewrite nom_take_streaming_spec, spec_take_streaming_at by lia ];
    cbn [mbind res_bind];
    repeat match goal with
           | |- context [zdrop (?a + ?b) _] =>
               let v := eval vm_compute in (a + b) in
               lazymatch v with Z.pos _ => change (a + b) with v end
           end).

(** Where a field of [input] stood, from what was left after it. *)
Ltac field_offsets input :=
  repeat match goal with
         | |- context [len input - len (zdrop ?k input)] =>
             replace (len input - len (zdrop k input)) with k by len_lia
         end.
