(* ===== verification/Log.v ===== *)
(** * Log: warnings and errors

    [src/src/log.rs], [src/src/err.rs] and the two macros of [src/src/macros.rs] that
    report a conversion problem.  A [Logs] value distinguishes "no log was ever added"
    ([None]) from a list of logs; every component accumulates its warnings in one. *)

From S2P Require Import Prelude Env.

Inductive LogCode :=
  | WarningOther
  | WarningNom
  | WarningConversion
  | WarningContent
  | WarningBigDataContent
  | WarningUnrecognizedBitflag
  | WarningTransactionLog
  | WarningIterator
  | WarningBaseBlock
  | WarningParse
  | WarningRecovery
  | Info.
#[export] Instance LogCode_eq : EqDecision LogCode.
Proof. solve_decision. Defined.

Record Log := { code : LogCode; text : ustr }.
#[export] Instance Log_eq : EqDecision Log.
Proof. solve_decision. Defined.

Record Logs := { logs : option (list Log) }.
#[export] Instance Logs_eq : EqDecision Logs.
Proof. solve_decision. Defined.

Definition Logs_default : Logs := {| logs := None |}.

Definition Logs_add_internal (self : Logs) (warning : Log) : Logs :=
  match logs self with
  | Some l => {| logs := Some (l ++ [warning]) |}
  | None => {| logs := Some [warning] |}
  end.

Definition Logs_add (self : Logs) (c : LogCode) (t : ustr) : Logs :=
  Logs_add_internal self {| code := c; text := t |}.

Definition Logs_has_logs (self : Logs) : bool :=
  match logs self with
  | Some l => negb (bool_decide (l = []))
  | None => false
  end.

Definition Logs_get (self : Logs) : option (list Log) := logs self.

Definition Logs_get_option (self : Logs) : option Logs :=
  match logs self with
  | None => None
  | Some _ => Some self
  end.

Definition Logs_prepend_all (self : Logs) (prefix : ustr) : Logs :=
  match logs self with
  | Some l =>
      {| logs := Some ((fun g => {| code := code g; text := prefix ++ text g |}) <$> l) |}
  | None => self
  end.

Definition Logs_extend (self additional : Logs) : Logs :=
  match logs self with
  | Some l => {| logs := Some (l ++ default [] (logs additional)) |}
  | None => {| logs := Some (default [] (logs additional)) |}
  end.

(** [{:?}] of a [LogCode]. *)
Definition LogCode_debug (c : LogCode) : ustr :=
  match c with
  | WarningOther => lit "WarningOther"
  | WarningNom => lit "WarningNom"
  | WarningConversion => lit "WarningConversion"
  | WarningContent => lit "WarningContent"
  | WarningBigDataContent => lit "WarningBigDataContent"
  | WarningUnrecognizedBitflag => lit "WarningUnrecognizedBitflag"
  | WarningTransactionLog => lit "WarningTransactionLog"
  | WarningIterator => lit "WarningIterator"
  | WarningBaseBlock => lit "WarningBaseBlock"
  | WarningParse => lit "WarningParse"
  | WarningRecovery => lit "WarningRecovery"
  | Info => lit "Info"
  end.

(** The lines [Logs::write] sends to its writer. *)
Definition Logs_write (self : Logs) : list ustr :=
  match logs self with
  | Some l => (fun g => LogCode_debug (code g) ++ lit " " ++ text g) <$> l
  | None => []
  end.

Definition Logs_get_string (self : Logs) : ustr :=
  match logs self with
  | Some l =>
      foldl (fun ret g => ret ++ (LogCode_debug (code g) ++ lit " " ++ text g ++ lit ";")) [] l
  | None => []
  end.

(** [impl Display for Logs]. *)
Definition Logs_fmt (self : Logs) : ustr := Logs_get_string self.

(** ** [err.rs] *)

Inductive Error :=
  | Nom (detail : ustr)
  | Winstructs (detail : ustr)
  | Conversion (detail : ustr)
  | StripPrefix (detail : ustr)
  | Io (detail : ustr)
  | XlsxWriter (detail : ustr)
  | TryFromInt (detail : ustr)
  | Buffer (detail : ustr)
  | AnyError (detail : ustr).
#[export] Instance Error_eq : EqDecision Error.
Proof. solve_decision. Defined.

Definition Error_buffer (s : string) : Error := Buffer (lit s).

(** The [#[error(...)]] messages: [{}] of an [Error]. *)
Definition Error_display (e : Error) : ustr :=
  match e with
  | Nom d => lit "An error has occurred in the Nom library: " ++ d
  | Winstructs d => lit "An error has occurred in the Winstructs library: " ++ d
  | Conversion d => lit "An error has occurred while converting: " ++ d
  | StripPrefix d => lit "An error has occurred in StripPrefix: " ++ d
  | Io d => lit "An IO error has occurred: " ++ d
  | XlsxWriter d => lit "An error has occurred in the Xlsxwriter library: " ++ d
  | TryFromInt d => lit "An error has occurred: " ++ d
  | Buffer d => lit "Invalid buffer access: " ++ d
  | AnyError d => lit "An error has occurred when converting: " ++ d
  end.

Definition Error_from_nom (_ : nom_err) : Error := Nom (lit "Nom parsing error").

Section ErrorFrom.
Context `{E : Env}.
(** [msg] is the foreign error's [to_string()]. *)
Definition Error_from_winstructs (msg : ustr) : Error := Winstructs (debug_str msg).
Definition Error_from_slice (msg : ustr) : Error := Conversion (debug_str msg).
Definition Error_from_strip_prefix (msg : ustr) : Error := StripPrefix (debug_str msg).
Definition Error_from_io (msg : ustr) : Error := Io (debug_str msg).
Definition Error_from_int (msg : ustr) : Error := TryFromInt (debug_str msg).

(** [{:?}] of an [Error] (derived). *)
Definition Error_debug (e : Error) : ustr :=
  let go (name : string) (d : ustr) := lit name ++ lit " { detail: " ++ debug_str d ++ lit " }" in
  match e with
  | Nom d => go "Nom"%string d
  | Winstructs d => go "Winstructs"%string d
  | Conversion d => go "Conversion"%string d
  | StripPrefix d => go "StripPrefix"%string d
  | Io d => go "Io"%string d
  | XlsxWriter d => go "XlsxWriter"%string d
  | TryFromInt d => go "TryFromInt"%string d
  | Buffer d => go "Buffer"%string d
  | AnyError d => go "Any"%string d
  end.
End ErrorFrom.

(** [parse(...)?] in a function that returns [Result<_, Error>]. *)
Definition nom_q {A} (m : res nom_err A) : res Error A := res_map_err Error_from_nom m.

(** ** [macros.rs] *)

Section Macros.
Context `{E : Env}.

(** [$bitflag_type::from_bits_checked]: [all] is the union of the declared flags. *)
Definition from_bits_checked (all : Z) (fn_name : ustr) (flags : Z) (lg : Logs) : Z * Logs :=
  let flags_mapped := bf_from_bits_truncate all flags in
  if negb (flags =? flags_mapped)
  then (flags_mapped,
        Logs_add lg WarningUnrecognizedBitflag (fn_name ++ lit ": " ++ fmt_sharp_X flags))
  else (flags_mapped, lg).

(** [$enum_type::from_value]: [tbl] lists the discriminants. *)
Definition from_value {A} (tbl : list (Z * A)) (unknown : A) (enum_type : ustr)
    (value : Z) (lg : Logs) : A * Logs :=
  match prim_from_u32 tbl value with
  | Some a => (a, lg)
  | None =>
      (unknown,
       Logs_add lg WarningConversion (lit "Unrecognized " ++ enum_type ++ lit " value"))
  end.
End Macros.

(** ** Lemmas *)

(** The number of logs held. *)
Definition log_count (l : Logs) : nat := length (default [] (logs l)).

Lemma Logs_add_get l c t :
  default [] (Logs_get (Logs_add l c t)) =
  default [] (Logs_get l) ++ [{| code := c; text := t |}].
Proof. by destruct l as [[]]. Qed.

Lemma Logs_add_has_logs l c t : Logs_has_logs (Logs_add l c t) = true.
Proof.
  destruct l as [[l|]]; cbn; [|done]. rewrite bool_decide_false; [done|].
  by destruct l.
Qed.

Lemma Logs_extend_get l k :
  default [] (Logs_get (Logs_extend l k)) =
  default [] (Logs_get l) ++ default [] (Logs_get k).
Proof. by destruct l as [[]]. Qed.

Lemma nom_q_Ok {A} (m : res nom_err A) a : nom_q m = Ok a <-> m = Ok a.
Proof. destruct m; naive_solver. Qed.
