(* ===== verification/Marvin.v ===== *)
(** * Marvin: the Marvin32 hash of the transaction log entries

    [src/src/marvin32.rs].  Two 32-bit words are mixed once per four input bytes and
    twice after the padded tail; all arithmetic wraps at 32 bits.  The code's
    [data[i..i + 4]] accesses panic out of bounds, so the model returns a [res]. *)

From S2P Require Import Prelude Env.

Definition wrapping_add (a b : Z) : Z := (a + b) mod U32_MOD.
Definition rotate_left (x n : Z) : Z :=
  Z.lor (Z.shiftl x n mod U32_MOD) (Z.shiftr x (32 - n)).

(** [BLOCK!(a, b)]. *)
Definition BLOCK (ab : Z * Z) : Z * Z :=
  let (a, b) := ab in
  let b := Z.lxor b a in
  let a := rotate_left a 20 in
  let a := wrapping_add a b in
  let b := rotate_left b 9 in
  let b := Z.lxor b a in
  let a := rotate_left a 27 in
  let a := wrapping_add a b in
  let b := rotate_left b 19 in
  (a, b).

(** [u16::from_le_bytes(data[i..i + 2].try_into().unwrap())], and the [u32] version. *)
Definition read_le (data : list byte) (i n : Z) : res Empty_set Z :=
  from_le_bytes <$> expect (get_range data i (i + n)).
Definition read_byte (data : list byte) (i : Z) : res Empty_set Z :=
  byte.unsigned <$> expect (get_at data i).

(** The [while dlen > 3] loop; each turn takes four from [dlen], so [dlen] turns do. *)
Fixpoint marvin32_loop (fuel : nat) (data : list byte) (i dlen : Z) (s : Z * Z)
    : res Empty_set (Z * Z * (Z * Z)) :=
  if 3 <? dlen then
    match fuel with
    | O => NoFuel
    | S k =>
        w ← read_le data i 4;
        let s := BLOCK (wrapping_add s.1 w, s.2) in
        marvin32_loop k data (i + 4) (dlen - 4) s
    end
  else Ok (i, dlen, s).

(** The padded tail: a [match] on the zero to three bytes left. *)
Definition marvin32_tail (data : list byte) (i dlen : Z) : res Empty_set Z :=
  if dlen =? 0 then Ok 0x80
  else if dlen =? 1 then
    b ← read_byte data i;
    Ok (Z.lor 0x8000 b)
  else if dlen =? 2 then
    w ← read_le data i 2;
    Ok (Z.lor 0x800000 w)
  else if dlen =? 3 then
    b ← read_byte data (i + 2);
    w ← read_le data i 2;
    Ok (Z.lor (Z.lor 0x80000000 (Z.shiftl b 16)) w)
  else Panic.

Definition marvin32 (seed : Z) (data : list byte) (dlen : Z) : res Empty_set Z :=
  let s0 := Z.land seed 0xFFFFFFFF in
  let s1 := Z.shiftr seed 32 in
  '(i, dlen, s) ← marvin32_loop (Z.to_nat dlen) data 0 dlen (s0, s1);
  t ← marvin32_tail data i dlen;
  let s := BLOCK (wrapping_add s.1 t, s.2) in
  let s := BLOCK s in
  Ok (Z.lor s.1 (Z.shiftl s.2 32)).

(** ** Specification: a fold over the padded 32-bit words *)

(** The input as words: full groups of four bytes, then the tail with a [0x80] byte
    appended and zeros up to four bytes. *)
Fixpoint marvin_words (n : nat) (data : list byte) : list Z :=
  match n, data with
  | S k, b0 :: b1 :: b2 :: b3 :: rest => from_le_bytes [b0; b1; b2; b3] :: marvin_words k rest
  | _, tail => [from_le_bytes (take 4 (tail ++ [Byte.x80; Byte.x00; Byte.x00; Byte.x00]))]
  end.

Definition marvin_absorb (s : Z * Z) (w : Z) : Z * Z := BLOCK (wrapping_add s.1 w, s.2).

Definition marvin_spec (seed : Z) (data : list byte) : Z :=
  let s := foldl marvin_absorb (seed mod U32_MOD, seed / U32_MOD)
             (marvin_words (length data) data) in
  let s := BLOCK s in
  s.1 + U32_MOD * s.2.

(** A pair of 32-bit words. *)
Definition words (s : Z * Z) : Prop := 0 <= s.1 < U32_MOD /\ 0 <= s.2 < U32_MOD.

Lemma rotate_left_range x n :
  0 <= x < U32_MOD -> 0 < n < 32 -> 0 <= rotate_left x n < U32_MOD.
Proof.
  intros Hx Hn. unfold rotate_left, U32_MOD in *. apply lor_range; [lia| |].
  - by apply Z.mod_pos_bound.
  - apply bits_bound; [lia|]. intros i Hi. rewrite Z.shiftr_spec by lia.
    by apply (bits_high 32); [|lia].
Qed.

Lemma xor_words a b : 0 <= a < U32_MOD -> 0 <= b < U32_MOD -> 0 <= Z.lxor a b < U32_MOD.
Proof. by apply (lxor_range 32). Qed.

Lemma wrapping_add_range a b : 0 <= wrapping_add a b < U32_MOD.
Proof. apply Z.mod_pos_bound. done. Qed.

#[export] Hint Resolve rotate_left_range xor_words wrapping_add_range : notatin.

Lemma BLOCK_words s : words s -> words (BLOCK s).
Proof.
  destruct s as [a b]. unfold words, BLOCK. cbn [fst snd]. intros [Ha Hb].
  split; auto with notatin.
  apply rotate_left_range; [|lia]. apply xor_words; [|auto with notatin].
  apply rotate_left_range; [auto with notatin|lia].
Qed.

Lemma marvin_words_len4 n b0 b1 b2 b3 rest :
  (length (b0 :: b1 :: b2 :: b3 :: rest) <= n)%nat ->
  exists k, (length rest <= k)%nat /\
    marvin_words n (b0 :: b1 :: b2 :: b3 :: rest) =
    from_le_bytes [b0; b1; b2; b3] :: marvin_words k rest.
Proof. simpl. intros Hn. destruct n as [|n]; [lia|]. exists n. split; [lia|done]. Qed.

Lemma read_le_app pre k rest :
  read_le (pre ++ k ++ rest) (len pre) (len k) = Ok (from_le_bytes k).
Proof.
  unfold read_le. assert (get_range (pre ++ k ++ rest) (len pre) (len pre + len k) = Some k) as ->.
  { apply get_range_Some. split_and!; [len_lia..|].
    rewrite zdrop_app_len. replace (len pre + len k - len pre) with (len k) by lia.
    by rewrite ztake_app_len. }
  done.
Qed.

Lemma read_byte_app pre b rest i :
  i = len pre -> read_byte (pre ++ b :: rest) i = Ok (byte.unsigned b).
Proof.
  intros ->. unfold read_byte, get_at. pose proof (len_nonneg pre).
  destruct (Z.leb_spec 0 (len pre)); [|lia]. unfold len. rewrite Nat2Z.id.
  by rewrite list_lookup_middle.
Qed.

(** The last word: the remaining bytes, a [0x80] byte and zeros. *)
Definition last_word (tail : list byte) : Z :=
  from_le_bytes (take 4 (tail ++ [Byte.x80; Byte.x00; Byte.x00; Byte.x00])).

(** Decides an equation between unions of shifted bytes. *)
Local Ltac lor_bits :=
  rewrite ?Z.shiftl_lor, ?Z.shiftl_shiftl by lia;
  repeat match goal with
         | |- context [Z.shiftl (Zpos ?x) ?n] =>
             let v := eval vm_compute in (Z.shiftl (Zpos x) n) in
             change (Z.shiftl (Zpos x) n) with v
         | |- context [Z.shiftl 0 ?n] => rewrite (Z.shiftl_0_l n)
         | |- context [byte.unsigned (Byte.x00)] => change (byte.unsigned Byte.x00) with 0
         | |- context [byte.unsigned (Byte.x80)] => change (byte.unsigned Byte.x80) with 128
         | |- context [Z.shiftl ?x (8 + 8)] => change (8 + 8) with 16
         end;
  apply Z.bits_inj'; intros i _; rewrite !Z.lor_spec, ?Z.bits_0;
  by repeat match goal with |- context [Z.testbit ?x i] => destruct (Z.testbit x i) end.

Lemma marvin32_tail_eq pre tail :
  len tail <= 3 -> marvin32_tail (pre ++ tail) (len pre) (len tail) = Ok (last_word tail).
Proof.
  destruct tail as [|b0 [|b1 [|b2 [|]]]]; intros Hl;
    [..|exfalso; len_lia]; unfold marvin32_tail;
    match goal with
    | |- context [len ?l =? _] => let v := eval vm_compute in (len l) in change (len l) with v
    end; cbn [Z.eqb Pos.eqb].
  - done.
  - rewrite read_byte_app by done. cbn. f_equal.
    unfold last_word, from_le_bytes, le_combine. cbn [take app]. lor_bits.
  - pose proof (read_le_app pre [b0; b1] []) as Hr. change (len [b0; b1]) with 2 in Hr.
    cbn [app] in Hr. rewrite Hr. cbn. f_equal.
    unfold last_word, from_le_bytes, le_combine. cbn [take app]. lor_bits.
  - pose proof (read_le_app pre [b0; b1] [b2]) as Hr. change (len [b0; b1]) with 2 in Hr.
    cbn [app] in Hr. rewrite Hr.
    rewrite (cons_middle b0), (app_assoc pre), (cons_middle b1), app_assoc.
    rewrite read_byte_app by len_lia. cbn. f_equal.
    unfold last_word, from_le_bytes, le_combine. cbn [take app]. lor_bits.
Qed.

(** The loop consumes the whole groups and leaves at most three bytes. *)
Lemma marvin32_loop_spec fuel n pre rest s :
  (length rest <= fuel)%nat -> (length rest <= n)%nat ->
  exists pre' tail s',
    marvin32_loop fuel (pre ++ rest) (len pre) (len rest) s = Ok (len pre', len tail, s') /\
    pre ++ rest = pre' ++ tail /\ len tail <= 3 /\
    foldl marvin_absorb s (marvin_words n rest) = marvin_absorb s' (last_word tail).
Proof.
  revert n pre rest s. induction fuel as [|fuel IH]; intros n pre rest s Hf Hn.
  { destruct rest; [|simpl in Hf; lia]. exists pre, [], s. by destruct n. }
  destruct rest as [|b0 [|b1 [|b2 [|b3 rest]]]];
    [exists pre, [], s; by destruct n
    |exists pre, [b0], s; by destruct n
    |exists pre, [b0; b1], s; by destruct n
    |exists pre, [b0; b1; b2], s; by destruct n|].
  destruct (marvin_words_len4 n b0 b1 b2 b3 rest Hn) as (k & Hk & ->).
  change (b0 :: b1 :: b2 :: b3 :: rest) with ([b0; b1; b2; b3] ++ rest) in *.
  cbn [marvin32_loop]. destruct (Z.ltb_spec 3 (len ([b0; b1; b2; b3] ++ rest)));
    [|exfalso; len_lia].
  pose proof (read_le_app pre [b0; b1; b2; b3] rest) as Hr.
  change (len [b0; b1; b2; b3]) with 4 in Hr. rewrite Hr. cbn [mbind res_bind].
  replace (len pre + 4) with (len (pre ++ [b0; b1; b2; b3])) by len_lia.
  replace (len ([b0; b1; b2; b3] ++ rest) - 4) with (len rest) by len_lia.
  rewrite (app_assoc pre).
  apply (IH k); [rewrite length_app in Hf; simpl in Hf; lia|done].
Qed.

Lemma marvin_absorb_words s w : words s -> words (marvin_absorb s w).
Proof. intros [_ Hs]. apply BLOCK_words. split; cbn; auto with notatin. Qed.

Lemma marvin_absorb_all_words l s : words s -> words (foldl marvin_absorb s l).
Proof.
  revert s. induction l as [|w l IH]; intros s Hs; [done|]. apply IH.
  by apply marvin_absorb_words.
Qed.

Lemma marvin32_eq seed data :
  0 <= seed < U64_MOD ->
  marvin32 seed data (len data) = Ok (marvin_spec seed data) /\
  0 <= marvin_spec seed data < U64_MOD.
Proof.
  intros Hseed. unfold marvin32, marvin_spec.
  replace (Z.land seed 0xFFFFFFFF) with (seed mod U32_MOD)
    by (symmetry; apply (Z.land_ones seed 32); lia).
  replace (Z.shiftr seed 32) with (seed / U32_MOD) by (by rewrite Z.shiftr_div_pow2).
  set (s0 := (seed mod U32_MOD, seed / U32_MOD)).
  assert (words s0) as Hs0.
  { split; cbn; [by apply Z.mod_pos_bound|]. unfold U64_MOD, U32_MOD in *.
    split; [apply Z.div_pos; lia|]. apply Z.div_lt_upper_bound; lia. }
  assert (words (foldl marvin_absorb s0 (marvin_words (length data) data))) as Hw.
  { by apply marvin_absorb_all_words. }
  destruct (marvin32_loop_spec (Z.to_nat (len data)) (length data) [] data s0)
    as (pre & tail & s' & Hloop & Hd & Ht & Hf); [unfold len; lia|lia|].
  cbn [app] in Hloop, Hd. change (len (A:=byte) []) with 0 in Hloop. rewrite Hloop.
  cbn [mbind res_bind].
  assert (marvin32_tail data (len pre) (len tail) = Ok (last_word tail)) as ->
    by (rewrite Hd; by apply marvin32_tail_eq).
  cbn [mbind res_bind].
  fold (marvin_absorb s' (last_word tail)). rewrite <- Hf.
  destruct (BLOCK_words _ Hw) as [H1 H2]. unfold U32_MOD, U64_MOD in *. split; [|lia].
  f_equal. apply lor_shiftl_add; [lia|exact H1|apply H2].
Qed.

(** C36: on any [u64] seed, [marvin32] over a whole buffer returns (no panic, enough
    iterations), a [u64], and it is the fold of the mixing step over the buffer's
    little-endian words padded with [0x80] and zeros. *)
Theorem marvin32_correct seed data :
  0 <= seed < U64_MOD ->
  marvin32 seed data (len data) = Ok (marvin_spec seed data) /\
  0 <= marvin_spec seed data < U64_MOD.
Proof. apply marvin32_eq. Qed.

Lemma marvin32_correct_witness :
  0 <= 0x4FB61A001BDBCC < U64_MOD /\
  marvin32 0x4FB61A001BDBCC [Byte.x15; Byte.x3f; Byte.xb7; Byte.x98; Byte.x26] 5
  = Ok 0xE6C08C6DA2AFA997.
Proof.
  split; [unfold U64_MOD; lia|].
  refine (eq_trans (proj1 (marvin32_correct 0x4FB61A001BDBCC
    [Byte.x15; Byte.x3f; Byte.xb7; Byte.x98; Byte.x26] _)) _);
    [unfold U64_MOD; lia|vm_compute; reflexivity].
Defined.
