(* ===== verification/Util.v ===== *)
(** * Util: text decoding, time stamps, LZNT1

    [src/src/util.rs].  Decoding of UTF-16 and Latin-1 names, FILETIME conversion and
    formatting, hexadecimal and CSV output, ROT13 and the LZNT1 decompressor. *)

From S2P Require Import Prelude Env Log.

Section Util.
Context `{E : Env}.

Definition SIZE_OF_UTF16_CHAR : Z := 2.
Definition REPLACEMENT_CHARACTER : Z := 0xFFFD.

(** ** UTF-16 (the standard library's [char::decode_utf16], lazily) *)

(** An item of the decoder: a char, an unpaired surrogate, or the panic of reading a
    unit outside the slice. *)
Inductive utf16_item := UChar (c : Z) | UErr (u : Z) | UPanic.

Fixpoint decode_utf16 (units : list (option Z)) : list utf16_item :=
  match units with
  | [] => []
  | None :: _ => [UPanic]
  | Some u :: rest =>
      if negb (Z.land u 0xF800 =? 0xD800) then UChar u :: decode_utf16 rest
      else if 0xDC00 <=? u then UErr u :: decode_utf16 rest
      else match rest with
           | [] => [UErr u]
           | None :: _ => [UPanic]
           | Some u2 :: rest2 =>
               if (u2 <? 0xDC00) || (0xDFFF <? u2) then UErr u :: decode_utf16 rest
               else UChar (Z.lor (Z.shiftl (Z.land u 0x3FF) 10) (Z.land u2 0x3FF) + 0x10000)
                      :: decode_utf16 rest2
           end
  end.

(** [(0..n).map(|i| u16::from_le_bytes([slice[2 * i], slice[2 * i + 1]]))]. *)
Fixpoint utf16_units (n : nat) (slice : list byte) : list (option Z) :=
  match n with
  | O => []
  | S k =>
      match slice with
      | b0 :: b1 :: rest => Some (from_le_bytes [b0; b1]) :: utf16_units k rest
      | _ => [None]
      end
  end.

Definition unpaired_surrogate (u : Z) : ustr := lit "unpaired surrogate found: " ++ fmt_x u.

(** [.map(unwrap_or_else ..).take_while(..).collect()]: the text, the number of chars
    examined and the logs. *)
Fixpoint collect_until_nul {Er} (items : list utf16_item) (lg : Logs) (err_detail : ustr)
    : res Er (ustr * Z * Logs) :=
  match items with
  | [] => Ok ([], 0, lg)
  | UPanic :: _ => Panic
  | UChar c :: rest =>
      if c =? 0 then Ok ([], 1, lg)
      else '(s, n, lg) ← collect_until_nul rest lg err_detail; Ok (c :: s, n + 1, lg)
  | UErr u :: rest =>
      let lg := Logs_add lg WarningConversion
                  (err_detail ++ lit ": " ++ unpaired_surrogate u) in
      '(s, n, lg) ← collect_until_nul rest lg err_detail;
      Ok (REPLACEMENT_CHARACTER :: s, n + 1, lg)
  end.

Definition from_utf16_le_string_single {Er} (slice : list byte) (count : Z) (lg : Logs)
    (err_detail : ustr) : res Er (ustr * Z * Logs) :=
  let iter := utf16_units (Z.to_nat (count / SIZE_OF_UTF16_CHAR)) slice in
  '(s, char_count, lg) ← collect_until_nul (decode_utf16 iter) lg err_detail;
  let char_count := if 0 <? char_count then char_count - 1 else char_count in
  Ok (s, char_count, lg).

Definition from_utf16_le_string {Er} (slice : list byte) (count : Z) (lg : Logs)
    (err_detail : ustr) : res Er (ustr * Logs) :=
  if count <=? len slice then
    '(s, _, lg) ← from_utf16_le_string_single slice count lg err_detail;
    Ok (s, lg)
  else Panic.

(** The [while offset < count] loop. *)
Fixpoint utf16_strings_loop {Er} (fuel : nat) (slice : list byte) (count offset : Z)
    (strings : list ustr) (lg : Logs) (err_detail : ustr) : res Er (list ustr * Logs) :=
  if offset <? count then
    match fuel with
    | O => NoFuel
    | S k =>
        tail ← expect (get_from slice offset);
        '(decoded, size, lg) ← from_utf16_le_string_single tail (count - offset) lg err_detail;
        if bool_decide (trim decoded = []) then Ok (strings, lg)
        else utf16_strings_loop k slice count
               (offset + (size * SIZE_OF_UTF16_CHAR + 2)) (strings ++ [decoded]) lg err_detail
    end
  else Ok (strings, lg).

Definition from_utf16_le_strings {Er} (slice : list byte) (count : Z) (lg : Logs)
    (err_detail : ustr) : res Er (list ustr * Logs) :=
  utf16_strings_loop (Z.to_nat count) slice count 0 [] lg err_detail.

Definition is_ascii (c : Z) : bool := c <? 128.

(** [decode_utf16(vec![..]).map(unwrap_or_else ..).collect()] of one unit. *)
Fixpoint collect_all {Er} (items : list utf16_item) (lg : Logs) (err_detail : ustr)
    : res Er (ustr * Logs) :=
  match items with
  | [] => Ok ([], lg)
  | UPanic :: _ => Panic
  | UChar c :: rest =>
      '(s, lg) ← collect_all rest lg err_detail; Ok (c :: s, lg)
  | UErr u :: rest =>
      let lg := Logs_add lg WarningConversion
                  (err_detail ++ lit ": " ++ unpaired_surrogate u) in
      '(s, lg) ← collect_all rest lg err_detail; Ok (REPLACEMENT_CHARACTER :: s, lg)
  end.

Fixpoint from_ascii_loop {Er} (slice : list byte) (result : ustr) (lg : Logs)
    (err_detail : ustr) : res Er (ustr * Logs) :=
  match slice with
  | [] => Ok (result, lg)
  | b :: rest =>
      let c := byte.unsigned b in
      if is_ascii c then from_ascii_loop rest (result ++ [c]) lg err_detail
      else
        '(u, lg) ← collect_all (decode_utf16 [Some (from_le_bytes [b; Byte.x00])]) lg err_detail;
        from_ascii_loop rest (result ++ u) lg err_detail
  end.
Definition from_ascii {Er} (slice : list byte) (lg : Logs) (err_detail : ustr)
    : res Er (ustr * Logs) := from_ascii_loop slice [] lg err_detail.

Definition string_from_bytes {Er} (is_ascii : bool) (slice : list byte) (count : Z)
    (lg : Logs) (err_detail : ustr) : res Er (ustr * Logs) :=
  if is_ascii then from_ascii slice lg err_detail
  else from_utf16_le_string slice count lg err_detail.

Definition parser_eat_remaining (input : list byte) (cell_size bytes_consumed : Z)
    : presult (list byte) :=
  if bytes_consumed <? cell_size then nom_take (cell_size - bytes_consumed) input
  else Ok (input, []).

(** ** Time *)

Definition UNIX_EPOCH_SECONDS_SINCE_WINDOWS_EPOCH : Z := 11644473600.
Definition UNIX_EPOCH_NANOS : Z := UNIX_EPOCH_SECONDS_SINCE_WINDOWS_EPOCH * 1000000000.

Definition get_date_time_from_filetime (filetime : Z) : DateTime :=
  let filetime_nanos := filetime * 100 in
  dt_from_unix_nanos (as_i64 (filetime_nanos - UNIX_EPOCH_NANOS)).

Definition EXPECTED_FRACTIONAL_SECONDS_LEN : nat := 9.

Definition format_date_time (date_time : DateTime) : ustr :=
  let fractional_seconds := dt_format (lit "%9f") date_time in
  if (Nat.eqb EXPECTED_FRACTIONAL_SECONDS_LEN (length fractional_seconds))
     && bool_decide (fractional_seconds !! (EXPECTED_FRACTIONAL_SECONDS_LEN - 1)%nat = Some 48)
     && bool_decide (fractional_seconds !! (EXPECTED_FRACTIONAL_SECONDS_LEN - 2)%nat = Some 48)
  then dt_format (lit "%Y-%m-%dT%H:%M:%S") date_time ++ lit "."
         ++ take 7 fractional_seconds ++ lit "Z"
  else dt_to_rfc3339_nanos date_time.

Definition get_guid_from_buffer {Er} (buffer : list byte) (lg : Logs) : res Er (Guid * Logs) :=
  match guid_from_buffer buffer with
  | inr g => Ok (g, lg)
  | inl err =>
      let lg := Logs_add lg WarningConversion err in
      match guid_from_buffer (replicate 16 Byte.x00) with
      | inr g => Ok (g, lg)
      | inl _ => Panic
      end
  end.

(** ** Output *)

Definition get_pretty_name (name : ustr) : ustr :=
  if bool_decide (name = []) then lit "(default)" else name.

Definition to_hex_string (bytes : list byte) : ustr :=
  trim_end (foldl (fun s b => s ++ fmt_02X (byte.unsigned b) ++ [32]) [] bytes).

(** [str::replace(orig, QUOTE, QUOTE QUOTE)]. *)
Fixpoint double_quotes (s : ustr) : ustr :=
  match s with
  | [] => []
  | c :: s' => if c =? 34 then 34 :: 34 :: double_quotes s' else c :: double_quotes s'
  end.

Definition needs_escape (c : Z) : bool :=
  (c =? 9) || (c =? 13) || (c =? 10) || (c =? 44) || (c =? 34).

Definition escape_string (orig : ustr) : ustr :=
  if existsb needs_escape orig then [34] ++ double_quotes orig ++ [34] else orig.

Definition rot13_char (c : Z) : Z :=
  if ((65 <=? c) && (c <=? 77)) || ((97 <=? c) && (c <=? 109)) then c + 13
  else if ((78 <=? c) && (c <=? 90)) || ((110 <=? c) && (c <=? 122)) then c - 13
  else c.
Definition decode_rot13 (text : ustr) : ustr := rot13_char <$> text.

Definition get_root_path_offset (path : ustr) : Z :=
  match path with
  | c :: rest =>
      if c =? BACKSLASH then
        match str_find BACKSLASH rest with
        | Some second_backslash => second_backslash + 2
        | None => 0
        end
      else 0
  | [] => 0
  end.
End Util.

(** ** LZNT1 *)

Section Lznt1.
Context `{E : Env}.

(** The [while x < result.len()] loop of the const table: entry [x] is written, then
    the width grows when [x] reaches [y]. *)
Fixpoint compression_bits_loop (n : nat) (x y offset_bits : Z) : list Z :=
  match n with
  | O => []
  | S k =>
      (4 + offset_bits) ::
      (if x =? y then compression_bits_loop k (x + 1) (Z.shiftl y 1) (offset_bits + 1)
       else compression_bits_loop k (x + 1) y offset_bits)
  end.
Definition calc_compression_bits : list Z := compression_bits_loop 4096 0 0x10 0.
Definition COMPRESSION_BITS : list Z := calc_compression_bits.

(** [decompressed], [source_index] and [dest_index]. *)
Record lz_state := { lz_out : list byte; lz_src : Z; lz_dst : Z }.

Definition SUB_BLOCK_IS_COMPRESSED_FLAG : Z := 0x8000.
Definition SUB_BLOCK_SIZE_MASK : Z := 0x0fff.

Definition lz_read_u16 {Er} (source : list byte) (at_ : Z) : res Er Z :=
  from_le_bytes <$> expect (get_range source at_ (at_ + 2)).

(** [for _i in 0..length] of a phrase. *)
Fixpoint lz_copy {Er} (n : nat) (out : list byte) (dst back : Z)
    : res Er (list byte * Z) :=
  match n with
  | O => Ok (out, dst)
  | S k =>
      b ← expect (get_at out back);
      lz_copy k (out ++ [b]) (dst + 1) (back + 1)
  end.

(** One phrase token: displacement and length split by the position in the block. *)
Definition lz_phrase {Er} (source : list byte) (source_offset dest_sub_block_start : Z)
    (st : lz_state) : res Er lz_state :=
  bits ← expect (get_at COMPRESSION_BITS (lz_dst st - dest_sub_block_start));
  let length_bits := 16 - bits in
  let length_mask := Z.shiftl 1 length_bits - 1 in
  phrase_token ← lz_read_u16 source (lz_src st + source_offset);
  let src := lz_src st + 2 in
  back ← sub_usize (lz_dst st) (Z.shiftr phrase_token length_bits);
  dest_back_addr ← sub_usize back 1;
  let length := Z.land phrase_token length_mask + 3 in
  '(out, dst) ← lz_copy (Z.to_nat length) (lz_out st) (lz_dst st) dest_back_addr;
  Ok {| lz_out := out; lz_src := src; lz_dst := dst |}.

(** [for _token in 0..8]. *)
Fixpoint lz_tokens {Er} (n : nat) (source : list byte)
    (source_offset dest_sub_block_start src_sub_block_end tag : Z) (st : lz_state)
    : res Er lz_state :=
  match n with
  | O => Ok st
  | S k =>
      if src_sub_block_end <=? lz_src st then Ok st
      else
        st ← (if Z.land tag 1 =? 0 then
                b ← expect (get_at source (source_offset + lz_src st));
                Ok {| lz_out := lz_out st ++ [b]; lz_src := lz_src st + 1;
                      lz_dst := lz_dst st + 1 |}
              else lz_phrase source source_offset dest_sub_block_start st);
        lz_tokens k source source_offset dest_sub_block_start src_sub_block_end
          (Z.shiftr tag 1) st
  end.

(** [while source_index < src_sub_block_end]. *)
Fixpoint lz_block {Er} (fuel : nat) (source : list byte)
    (source_offset dest_sub_block_start src_sub_block_end : Z) (st : lz_state)
    : res Er lz_state :=
  if lz_src st <? src_sub_block_end then
    match fuel with
    | O => NoFuel
    | S k =>
        tag ← expect (get_at source (source_offset + lz_src st));
        let st := {| lz_out := lz_out st; lz_src := lz_src st + 1; lz_dst := lz_dst st |} in
        st ← lz_tokens 8 source source_offset dest_sub_block_start src_sub_block_end
               (byte.unsigned tag) st;
        lz_block k source source_offset dest_sub_block_start src_sub_block_end st
    end
  else Ok st.

(** [while source_index + source_offset < source_length]. *)
Fixpoint lz_loop {Er} (fuel : nat) (source : list byte) (source_offset source_length : Z)
    (st : lz_state) : res Er lz_state :=
  if lz_src st + source_offset <? source_length then
    match fuel with
    | O => NoFuel
    | S k =>
        header ← lz_read_u16 source (lz_src st + source_offset);
        let src := lz_src st + 2 in
        if header =? 0 then Ok {| lz_out := lz_out st; lz_src := src; lz_dst := lz_dst st |}
        else if Z.land header SUB_BLOCK_IS_COMPRESSED_FLAG =? 0 then
          let block_size := Z.land header SUB_BLOCK_SIZE_MASK + 1 in
          block ← expect (get_range source (source_offset + src)
                            (source_offset + src + block_size));
          lz_loop k source source_offset source_length
            {| lz_out := lz_out st ++ block; lz_src := src + block_size;
               lz_dst := lz_dst st + block_size |}
        else
          let src_sub_block_end := src + Z.land header SUB_BLOCK_SIZE_MASK + 1 in
          st ← lz_block (length source) source source_offset (lz_dst st) src_sub_block_end
                 {| lz_out := lz_out st; lz_src := src; lz_dst := lz_dst st |};
          lz_loop k source source_offset source_length st
    end
  else Ok st.

Definition decode_lznt1 (source : list byte) (source_offset source_length : Z)
    : res Error (list byte) :=
  lz_out <$> lz_loop (Z.to_nat source_length) source source_offset source_length
               {| lz_out := []; lz_src := 0; lz_dst := 0 |}.
End Lznt1.
