(* ===== verification/UtilFacts.v ===== *)
(** * UtilFacts: what the decoders of [util.rs] guarantee

    Round trips of the text decoders against the standard encoder, termination and
    absence of panics, the exact range of the FILETIME conversion and the CSV and ROT13
    inverses. *)

From S2P Require Import Prelude Env Log Util.

(** ** UTF-16 *)

Definition encode_utf16_char (c : Z) : list Z :=
  if c <? 0x10000 then [c]
  else [0xD800 + (c - 0x10000) / 1024; 0xDC00 + (c - 0x10000) mod 1024].
Definition encode_utf16 (s : ustr) : list Z := s ≫= encode_utf16_char.
Definition units_to_bytes (us : list Z) : list byte := us ≫= to_le_bytes 2.

Lemma land_F800 u : 0 <= u < 65536 -> Z.land u 0xF800 = u / 2048 * 2048.
Proof.
  intros Hu. change 0xF800 with (Z.ldiff (Z.ones 16) (Z.ones 11)).
  rewrite Z.ldiff_land, Z.land_assoc, Z.land_ones, (Z.mod_small u) by lia.
  rewrite <- Z.ldiff_land, Z.ldiff_ones_r by lia.
  by rewrite Z.shiftl_mul_pow2, Z.shiftr_div_pow2 by lia.
Qed.

Lemma surrogate_test u :
  0 <= u < 65536 ->
  (Z.land u 0xF800 =? 0xD800) = (0xD800 <=? u) && (u <=? 0xDFFF).
Proof.
  intros Hu. rewrite land_F800 by done. pose proof (Z.div_mod u 2048 ltac:(lia)).
  pose proof (Z.mod_pos_bound u 2048 ltac:(lia)). apply eq_true_iff_eq.
  rewrite Z.eqb_eq, andb_true_iff, !Z.leb_le. lia.
Qed.

Lemma land_3FF u : Z.land u 0x3FF = u mod 1024.
Proof. apply (Z.land_ones u 10). lia. Qed.

Lemma is_scalar_spec c :
  is_scalar c = true <-> 0 <= c < 0xD800 \/ 0xE000 <= c < 0x110000.
Proof. unfold is_scalar. lia. Qed.

Lemma decode_utf16_char c rest :
  is_scalar c = true ->
  decode_utf16 ((Some <$> encode_utf16_char c) ++ rest) = UChar c :: decode_utf16 rest.
Proof.
  rewrite is_scalar_spec. intros Hc. unfold encode_utf16_char.
  destruct (Z.ltb_spec c 0x10000) as [Hlt|Hge].
  - cbn [fmap list_fmap app decode_utf16]. rewrite surrogate_test by lia.
    destruct (Z.leb_spec 0xD800 c), (Z.leb_spec c 0xDFFF); cbn; done || lia.
  - set (d := c - 0x10000). assert (0 <= d < 1024 * 1024) as Hd by (subst d; lia).
    assert (0 <= d / 1024 < 1024) as Hq.
    { split; [apply Z.div_pos; lia|apply Z.div_lt_upper_bound; lia]. }
    pose proof (Z.mod_pos_bound d 1024 ltac:(lia)) as Hm.
    cbn [fmap list_fmap app decode_utf16]. rewrite surrogate_test by lia.
    destruct (Z.leb_spec 0xD800 (0xD800 + d / 1024)); [|lia].
    destruct (Z.leb_spec (0xD800 + d / 1024) 0xDFFF); [|lia].
    destruct (Z.leb_spec 0xDC00 (0xD800 + d / 1024)); [lia|].
    destruct (Z.ltb_spec (0xDC00 + d mod 1024) 0xDC00); [lia|].
    destruct (Z.ltb_spec 0xDFFF (0xDC00 + d mod 1024)); [lia|].
    cbn [negb andb orb]. f_equal. f_equal. rewrite !land_3FF.
    replace ((0xD800 + d / 1024) mod 1024) with (d / 1024)
      by (rewrite <- (Z.mod_small (d / 1024) 1024) at 1 by lia;
          rewrite <- (Z.mod_add (d / 1024) 54 1024) by lia; f_equal; lia).
    replace ((0xDC00 + d mod 1024) mod 1024) with (d mod 1024)
      by (rewrite <- (Z.mod_small (d mod 1024) 1024) at 1 by lia;
          rewrite <- (Z.mod_add (d mod 1024) 55 1024) by lia; f_equal; lia).
    rewrite Z.lor_comm, lor_shiftl_add by lia.
    change (2 ^ 10) with 1024. pose proof (Z.div_mod d 1024 ltac:(lia)). subst d. lia.
Qed.

Lemma decode_utf16_encode s rest :
  Forall (fun c => is_scalar c = true) s ->
  decode_utf16 ((Some <$> encode_utf16 s) ++ rest) = (UChar <$> s) ++ decode_utf16 rest.
Proof.
  induction 1 as [|c s Hc _ IH]; [done|]. unfold encode_utf16 in *.
  cbn [mbind list_bind]. rewrite fmap_app, <- app_assoc, decode_utf16_char by done.
  cbn. f_equal. apply IH.
Qed.

Lemma encode_utf16_units s :
  Forall (fun c => is_scalar c = true) s -> Forall (fun u => 0 <= u < 65536) (encode_utf16 s).
Proof.
  induction 1 as [|c s Hc _ IH]; [constructor|]. unfold encode_utf16 in *. cbn.
  apply Forall_app. split; [|done]. rewrite is_scalar_spec in Hc. unfold encode_utf16_char.
  assert (0x10000 <= c -> 0 <= (c - 0x10000) / 1024 < 1024).
  { intros. split; [apply Z.div_pos; lia|apply Z.div_lt_upper_bound; lia]. }
  pose proof (Z.mod_pos_bound (c - 0x10000) 1024 ltac:(lia)).
  destruct (Z.ltb_spec c 0x10000); repeat constructor; lia.
Qed.

Lemma le_split_2 u : exists b0 b1, to_le_bytes 2 u = [b0; b1].
Proof. unfold to_le_bytes, le_split. eauto. Qed.

Lemma utf16_units_bytes n us rest :
  Forall (fun u => 0 <= u < 65536) us ->
  utf16_units (length us + n) (units_to_bytes us ++ rest) = (Some <$> us) ++ utf16_units n rest.
Proof.
  induction 1 as [|u us Hu _ IH]; [done|]. unfold units_to_bytes in *. cbn [mbind list_bind].
  destruct (le_split_2 u) as (b0 & b1 & Hb). rewrite <- app_assoc.
  pose proof (from_to_le_bytes 2 u ltac:(simpl; lia)) as Hr. rewrite Hb in Hr |- *.
  cbn [length Nat.add utf16_units app]. rewrite Hr. cbn. f_equal. apply IH.
Qed.

Lemma len_units_to_bytes us : len (units_to_bytes us) = 2 * len us.
Proof.
  induction us as [|u us IH]; [done|].
  change (len (to_le_bytes 2 u ++ units_to_bytes us) = 2 * len (u :: us)).
  rewrite len_app, len_to_le_bytes, len_cons. lia.
Qed.

Lemma collect_until_nul_chars `{Env} {Er} s items lg d :
  Forall (fun c => c <> 0) s ->
  collect_until_nul (Er:=Er) ((UChar <$> s) ++ items) lg d =
  ('(t, n, lg') ← collect_until_nul items lg d; Ok (s ++ t, len s + n, lg')).
Proof.
  induction 1 as [|c s Hc _ IH]; cbn.
  - by destruct (collect_until_nul items lg d) as [[[]]| | |].
  - rewrite (proj2 (Z.eqb_neq c 0) Hc), IH.
    destruct (collect_until_nul items lg d) as [[[t n] lg']| | |]; cbn; try done.
    do 3 f_equal. rewrite len_cons. lia.
Qed.

(** Text a decoder can return: scalar values, none of them NUL. *)
Definition plain_text (s : ustr) : Prop :=
  Forall (fun c => is_scalar c = true) s /\ Forall (fun c => c <> 0) s.

(** One terminated string at the front of a buffer. *)
Lemma single_terminated `{Env} {Er} s rest count lg d :
  plain_text s ->
  2 * len (encode_utf16 s) + 2 <= count ->
  from_utf16_le_string_single (Er:=Er)
    (units_to_bytes (encode_utf16 s) ++ [Byte.x00; Byte.x00] ++ rest) count lg d
  = Ok (s, len s, lg).
Proof.
  intros [Hs Hn] Hc. unfold from_utf16_le_string_single, SIZE_OF_UTF16_CHAR.
  set (us := encode_utf16 s) in *.
  assert (exists k, Z.to_nat (count / 2) = (length us + S k)%nat) as [k ->].
  { exists (Z.to_nat (count / 2) - length us - 1)%nat.
    assert (len us + 1 <= count / 2) by (apply Z.div_le_lower_bound; lia).
    unfold len in *. lia. }
  rewrite utf16_units_bytes by by apply encode_utf16_units. cbn [app utf16_units].
  unfold us. rewrite decode_utf16_encode by done. rewrite collect_until_nul_chars by done.
  change (from_le_bytes [Byte.x00; Byte.x00]) with 0.
  change (decode_utf16 (Some 0 :: utf16_units k rest))
    with (UChar 0 :: decode_utf16 (utf16_units k rest)).
  cbn. rewrite app_nil_r.
  destruct (Z.ltb_spec 0 (len s + 1)); [|pose proof (len_nonneg s); lia].
  do 3 f_equal. lia.
Qed.

(** C37: decoding the UTF-16LE encoding of a NUL-free text followed by a terminator gives
    the text back with no warning, whatever follows the terminator in the buffer. *)
Theorem from_utf16_le_string_roundtrip `{Env} s rest count lg d :
  plain_text s ->
  2 * len (encode_utf16 s) + 2 <= count <= 2 * len (encode_utf16 s) + 2 + len rest ->
  from_utf16_le_string (Er:=Error)
    (units_to_bytes (encode_utf16 s) ++ [Byte.x00; Byte.x00] ++ rest) count lg d
  = Ok (s, lg).
Proof.
  intros Hs Hc. unfold from_utf16_le_string. rewrite single_terminated by (done || lia).
  destruct (Z.leb_spec count
    (len (units_to_bytes (encode_utf16 s) ++ [Byte.x00; Byte.x00] ++ rest))) as [|Hl]; [done|].
  rewrite !len_app, len_units_to_bytes, !len_cons, len_nil in Hl. lia.
Qed.

Lemma from_utf16_le_string_roundtrip_witness :
  from_utf16_le_string (Er:=Error)
    (units_to_bytes (encode_utf16 [0x28; 0x10437; 0x29]) ++ [Byte.x00; Byte.x00] ++ [Byte.x61])
    11 Logs_default [] = Ok ([0x28; 0x10437; 0x29], Logs_default).
Proof.
  apply (@from_utf16_le_string_roundtrip env_ref); [|vm_compute; split; discriminate].
  split; repeat constructor; discriminate.
Defined.

(** ** REG_MULTI_SZ lists *)

Definition encode_strings (ss : list ustr) : list byte :=
  ss ≫= (fun s => units_to_bytes (encode_utf16 s) ++ [Byte.x00; Byte.x00]).

(** Texts the list decoder can hand back: in the basic multilingual plane, not blank. *)
Definition list_text (s : ustr) : Prop :=
  plain_text s /\ Forall (fun c => c < 0x10000) s /\ trim s <> [].

Lemma encode_utf16_bmp s : Forall (fun c => c < 0x10000) s -> encode_utf16 s = s.
Proof.
  induction 1 as [|c s Hc _ IH]; [done|]. unfold encode_utf16 in *. cbn.
  rewrite IH. unfold encode_utf16_char. by rewrite (proj2 (Z.ltb_lt _ _) Hc).
Qed.

Lemma get_from_app {A} (pre rest : list A) : get_from (pre ++ rest) (len pre) = Some rest.
Proof. apply get_from_Some. rewrite zdrop_app_len. split; [len_lia|done]. Qed.

Lemma utf16_strings_loop_decodes `{Env} {Er} ss fuel pre rest count acc lg d :
  Forall list_text ss -> (length ss < fuel)%nat ->
  len pre + len (encode_strings ss) + 2 <= count ->
  utf16_strings_loop (Er:=Er) fuel (pre ++ encode_strings ss ++ [Byte.x00; Byte.x00] ++ rest)
    count (len pre) acc lg d = Ok (acc ++ ss, lg).
Proof.
  intros Hss. revert fuel pre acc. induction Hss as [|s ss Hs Hss IH]; intros fuel pre acc Hf Hc.
  - destruct fuel as [|fuel]; [simpl in Hf; lia|]. cbn [utf16_strings_loop].
    change (len (encode_strings [])) with 0 in Hc.
    destruct (Z.ltb_spec (len pre) count); [|len_lia]. rewrite get_from_app. cbn [expect mbind res_bind].
    pose proof (single_terminated (Er:=Er) [] rest (count - len pre) lg d) as Hd.
    change (encode_strings [] ++ [Byte.x00; Byte.x00] ++ rest)
      with (units_to_bytes (encode_utf16 []) ++ [Byte.x00; Byte.x00] ++ rest).
    rewrite Hd; [|split; constructor|change (len (encode_utf16 [])) with 0; lia].
    cbn. by rewrite app_nil_r.
  - destruct fuel as [|fuel]; [simpl in Hf; lia|]. cbn [utf16_strings_loop].
    destruct Hs as (Hp & Hb & Ht). unfold encode_strings in *. cbn [mbind list_bind] in *.
    fold (encode_strings ss) in *. rewrite (encode_utf16_bmp s) in * by done.
    rewrite !len_app, len_units_to_bytes in Hc. change (len [Byte.x00; Byte.x00]) with 2 in Hc.
    pose proof (len_nonneg s). pose proof (len_nonneg (encode_strings ss)).
    destruct (Z.ltb_spec (len pre) count); [|lia]. rewrite get_from_app. cbn [expect mbind res_bind].
    pose proof (single_terminated (Er:=Er) s (encode_strings ss ++ [Byte.x00; Byte.x00] ++ rest)
      (count - len pre) lg d Hp) as Hd.
    rewrite (encode_utf16_bmp s) in Hd by done. rewrite <- !app_assoc, Hd by lia.
    cbn [mbind res_bind]. rewrite bool_decide_false by done. unfold SIZE_OF_UTF16_CHAR.
    rewrite (app_assoc (units_to_bytes s)), (app_assoc pre).
    replace (len pre + (len s * 2 + 2)) with (len (pre ++ units_to_bytes s ++ [Byte.x00; Byte.x00]))
      by (rewrite !len_app, len_units_to_bytes; change (len [Byte.x00; Byte.x00]) with 2; lia).
    rewrite IH.
    + by rewrite <- app_assoc.
    + simpl in Hf; lia.
    + rewrite !len_app, len_units_to_bytes. change (len [Byte.x00; Byte.x00]) with 2. lia.
Qed.

Lemma encode_strings_len ss : Z.of_nat (length ss) <= len (encode_strings ss).
Proof.
  induction ss as [|s ss IH]; [done|]. unfold encode_strings in *. cbn [mbind list_bind].
  fold (encode_strings ss) in *. rewrite !len_app.
  change (len [Byte.x00; Byte.x00]) with 2. pose proof (len_nonneg (units_to_bytes (encode_utf16 s))).
  simpl length. lia.
Qed.

(** A REG_MULTI_SZ buffer, the concatenation of terminated non-blank texts of the basic
    plane closed by an empty string, decodes to exactly that list with no warning. *)
Theorem from_utf16_le_strings_roundtrip `{Env} ss rest count lg d :
  Forall list_text ss ->
  len (encode_strings ss) + 2 <= count ->
  from_utf16_le_strings (Er:=Error) (encode_strings ss ++ [Byte.x00; Byte.x00] ++ rest) count lg d
  = Ok (ss, lg).
Proof.
  intros Hss Hc. pose proof (encode_strings_len ss).
  apply (utf16_strings_loop_decodes ss (Z.to_nat count) [] rest count [] lg d);
    [done|lia|by rewrite len_nil].
Qed.

Lemma from_utf16_le_strings_roundtrip_witness :
  from_utf16_le_strings (Er:=Error)
    (encode_strings [lit "c:\users"; lit "d"] ++ [Byte.x00; Byte.x00] ++ []) 24 Logs_default []
  = Ok ([lit "c:\users"; lit "d"], Logs_default).
Proof.
  apply (@from_utf16_le_strings_roundtrip env_ref); [|vm_compute; discriminate].
  repeat constructor; vm_compute; discriminate.
Defined.

(** A list whose first text is outside the basic plane loses the texts after it: the
    decoder counts chars, not UTF-16 units, when it skips a decoded string. *)
Lemma from_utf16_le_strings_supplementary :
  from_utf16_le_strings (Er:=Error)
    (encode_strings [[0x1F600]; lit "a"] ++ [Byte.x00; Byte.x00]) 12 Logs_default []
  = Ok ([[0x1F600]], Logs_default).
Proof. vm_compute. reflexivity. Qed.

(** ** No panic on an in-bounds count *)

Definition no_upanic (i : utf16_item) : Prop := i <> UPanic.

Lemma decode_utf16_no_panic us :
  Forall (fun u => u <> None) us -> Forall no_upanic (decode_utf16 us).
Proof.
  assert (forall n us, (length us <= n)%nat -> Forall (fun u => u <> None) us ->
    Forall no_upanic (decode_utf16 us)) as Hgo; [|intros; by apply (Hgo (length us))].
  clear us. induction n as [|n IH]; intros us Hn Hus.
  { destruct us; [constructor|simpl in Hn; lia]. }
  destruct us as [|u us]; [constructor|]. simpl in Hn. apply Forall_cons in Hus as [Hu Hus].
  destruct u as [u|]; [|done]. cbn [decode_utf16].
  assert (Forall no_upanic (decode_utf16 us)) as Hr by (apply IH; [lia|done]).
  repeat case_match; subst; try (constructor; [done|]);
    first [ exact Hr | by constructor | by apply Forall_cons in Hus as [? _]
          | apply IH; [simpl in Hn; lia|by apply Forall_cons in Hus as [_ ?]] ].
Qed.

Lemma utf16_units_no_panic n slice :
  2 * Z.of_nat n <= len slice -> Forall (fun u => u <> None) (utf16_units n slice).
Proof.
  revert slice. induction n as [|n IH]; intros slice Hn; [constructor|].
  destruct slice as [|b0 [|b1 slice]]; [len_lia..|]. cbn. constructor; [done|].
  apply IH. rewrite !len_cons in Hn. lia.
Qed.

Lemma collect_until_nul_total `{Env} {Er} items lg d :
  Forall no_upanic items ->
  exists s n lg', collect_until_nul (Er:=Er) items lg d = Ok (s, n, lg') /\ 0 <= n.
Proof.
  intros Hi. revert lg. induction Hi as [|i items Hi _ IH]; intros lg.
  - exists [], 0, lg. done.
  - destruct i as [c|u|]; [| |done]; cbn.
    + destruct (c =? 0); [by exists [], 1, lg|].
      destruct (IH lg) as (s & n & lg' & -> & Hn). eexists _, _, _. split; [done|lia].
    + match goal with |- context [collect_until_nul _ ?l _] =>
        destruct (IH l) as (s & n & lg' & -> & Hn) end.
      eexists _, _, _. split; [done|lia].
Qed.

Lemma single_total `{Env} {Er} slice count lg d :
  0 <= count <= len slice ->
  exists s n lg', from_utf16_le_string_single (Er:=Er) slice count lg d = Ok (s, n, lg') /\ 0 <= n.
Proof.
  intros Hc. unfold from_utf16_le_string_single, SIZE_OF_UTF16_CHAR.
  destruct (collect_until_nul_total (Er:=Er)
    (decode_utf16 (utf16_units (Z.to_nat (count / 2)) slice)) lg d) as (s & n & lg' & -> & Hn).
  { apply decode_utf16_no_panic, utf16_units_no_panic.
    pose proof (Z.mul_div_le count 2). assert (0 <= count / 2) by (apply Z.div_pos; lia). lia. }
  cbn. eexists _, _, _. split; [done|]. case_match; lia.
Qed.

Lemma from_utf16_le_strings_Ok `{Env} {Er} slice count lg d :
  0 <= count <= len slice ->
  exists ss lg', from_utf16_le_strings (Er:=Er) slice count lg d = Ok (ss, lg').
Proof.
  intros Hc. unfold from_utf16_le_strings.
  assert (forall fuel offset acc lg, 0 <= offset -> count - offset <= Z.of_nat fuel ->
    exists ss lg', utf16_strings_loop (Er:=Er) fuel slice count offset acc lg d = Ok (ss, lg'))
    as Hgo; [|apply Hgo; lia].
  clear lg. induction fuel as [|fuel IH]; intros offset acc lg Ho Hf.
  { cbn. destruct (Z.ltb_spec offset count); [lia|]. eauto. }
  cbn. destruct (Z.ltb_spec offset count); [|eauto].
  assert (get_from slice offset = Some (zdrop offset slice)) as ->
    by (apply get_from_Some; split; [lia|done]).
  cbn. destruct (single_total (Er:=Er) (zdrop offset slice) (count - offset) lg d)
    as (s & n & lg' & -> & Hn); [len_lia|]. cbn.
  case_match; [eauto|]. apply IH; unfold SIZE_OF_UTF16_CHAR; lia.
Qed.

(** With [count] inside the slice, decoding a string list terminates (the loop always
    advances) and never panics. *)
Lemma from_utf16_le_strings_total `{Env} slice count lg d :
  0 <= count <= len slice ->
  exists ss lg', from_utf16_le_strings (Er:=Error) slice count lg d = Ok (ss, lg').
Proof. apply from_utf16_le_strings_Ok. Qed.

Lemma from_utf16_le_strings_total_witness :
  exists ss lg', from_utf16_le_strings (Er:=Error)
    [Byte.x41; Byte.xd8; Byte.x00; Byte.xd8; Byte.x20] 5 Logs_default [] = Ok (ss, lg').
Proof.
  apply (@from_utf16_le_strings_total env_ref). vm_compute. split; discriminate.
Defined.

(** ** Latin-1 names *)

Lemma from_ascii_loop_latin1 `{Env} {Er} slice acc lg d :
  from_ascii_loop (Er:=Er) slice acc lg d = Ok (acc ++ (byte.unsigned <$> slice), lg).
Proof.
  revert acc. induction slice as [|b slice IH]; intros acc; cbn.
  { by rewrite app_nil_r. }
  case_match; [by rewrite IH, <- app_assoc|].
  assert (from_le_bytes [b; Byte.x00] = byte.unsigned b) as ->.
  { unfold from_le_bytes, le_combine. change (byte.unsigned Byte.x00) with 0.
    cbn. apply Z.lor_0_r. }
  pose proof (byte.unsigned_range b). rewrite surrogate_test by lia.
  destruct (Z.leb_spec 0xD800 (byte.unsigned b)); [lia|]. cbn.
  by rewrite IH, <- app_assoc.
Qed.

(** A compressed (Latin-1) name decodes byte for byte to the code points of its bytes,
    never fails and never adds a warning. *)
Lemma from_ascii_latin1 `{Env} slice lg d :
  from_ascii (Er:=Error) slice lg d = Ok (byte.unsigned <$> slice, lg).
Proof. apply (from_ascii_loop_latin1 slice [] lg d). Qed.

(** ** FILETIME *)

(** The FILETIMEs whose Unix nanoseconds fit the [i64] the code casts to:
    1677-09-21 to 2262-04-11. *)
Definition filetime_in_range (ft : Z) : Prop :=
  - 2 ^ 63 <= ft * 100 - UNIX_EPOCH_NANOS < 2 ^ 63.

(** C38: inside that range the conversion is exact (hundreds of nanoseconds since 1601
    become nanoseconds since 1970), so it is injective there. *)
Theorem filetime_exact `{Env} ft :
  filetime_in_range ft ->
  dt_timestamp_nanos (get_date_time_from_filetime ft) = 100 * ft - UNIX_EPOCH_NANOS.
Proof.
  intros Hr. unfold get_date_time_from_filetime, as_i64.
  rewrite wrap_signed_id by (unfold filetime_in_range in Hr; lia).
  rewrite dt_timestamp_nanos_spec; [lia|]. unfold filetime_in_range in Hr. lia.
Qed.

Lemma filetime_exact_witness :
  filetime_in_range 129782011451468083 /\
  @dt_timestamp_nanos env_ref (get_date_time_from_filetime (E:=env_ref) 129782011451468083)
  = 1333727545146808300.
Proof.
  split; [split; vm_compute; done|].
  exact (@filetime_exact env_ref 129782011451468083 ltac:(split; vm_compute; done)).
Defined.

(** Outside the range the cast wraps: the zero FILETIME (1601-01-01, an unset time stamp)
    becomes a date in 2185. *)
Lemma filetime_zero_wraps `{Env} :
  get_date_time_from_filetime 0 = dt_from_unix_nanos 6802270473709551616.
Proof. reflexivity. Qed.

Lemma digits_of_snoc k n : digits_of (S k) n = digits_of k (n / 10) ++ [48 + n mod 10].
Proof. done. Qed.

Lemma length_digits_of k n : length (digits_of k n) = k.
Proof.
  revert n. induction k as [|k IH]; intros n; [done|].
  rewrite digits_of_snoc, length_app, IH. simpl. lia.
Qed.

(** A time stamp in range prints with exactly seven fractional digits, those of its
    hundreds of nanoseconds; the nanosecond fallback is not reached. *)
Lemma format_filetime `{Env} ft :
  filetime_in_range ft ->
  format_date_time (get_date_time_from_filetime ft) =
  dt_format (lit "%Y-%m-%dT%H:%M:%S") (get_date_time_from_filetime ft)
  ++ lit "." ++ digits_of 7 (ft mod 10 ^ 7) ++ lit "Z".
Proof.
  intros Hr. unfold format_date_time.
  assert (dt_format (lit "%9f") (get_date_time_from_filetime ft) =
          digits_of 7 (ft mod 10 ^ 7) ++ [48; 48]) as ->.
  { unfold get_date_time_from_filetime, as_i64.
    unfold filetime_in_range in Hr.
    rewrite wrap_signed_id, dt_format_9f by lia.
    assert ((ft * 100 - UNIX_EPOCH_NANOS) mod 10 ^ 9 = 100 * (ft mod 10 ^ 7)) as ->.
    { unfold UNIX_EPOCH_NANOS, UNIX_EPOCH_SECONDS_SINCE_WINDOWS_EPOCH.
      change (10 ^ 9) with (100 * 10 ^ 7).
      replace (ft * 100 - 11644473600 * 1000000000)
        with (100 * ft + (-11644473600) * (100 * 10 ^ 7)) by lia.
      rewrite Z.mod_add by lia. by rewrite Z.mul_mod_distr_l by lia. }
    set (m := ft mod 10 ^ 7). rewrite !digits_of_snoc, <- app_assoc.
    replace (100 * m / 10) with (10 * m) by (apply Z.div_unique_exact; lia).
    replace (10 * m / 10) with m by (apply Z.div_unique_exact; lia).
    replace (10 * m) with (0 + m * 10) by lia. rewrite Z.mod_add by lia.
    replace (100 * m) with (0 + (m * 10) * 10) by lia. by rewrite Z.mod_add by lia. }
  generalize (ft mod 10 ^ 7) as m. intros m.
  pose proof (length_digits_of 7 m) as Hl.
  rewrite length_app, Hl. rewrite !bool_decide_true.
  - cbn [andb Nat.eqb EXPECTED_FRACTIONAL_SECONDS_LEN Nat.add length].
    by rewrite take_app_length'.
  - rewrite lookup_app_r; rewrite Hl; [done|cbn; lia].
  - rewrite lookup_app_r; rewrite Hl; [done|cbn; lia].
Qed.

Lemma format_filetime_witness :
  filetime_in_range 129782011451468083 /\
  format_date_time (E:=env_ref) (get_date_time_from_filetime (E:=env_ref) 129782011451468083)
  = lit "%Y-%m-%dT%H:%M:%S.1468083Z".
Proof.
  split; [split; vm_compute; done|].
  rewrite (@format_filetime env_ref 129782011451468083 ltac:(split; vm_compute; done)).
  vm_compute. reflexivity.
Defined.

(** ** CSV and ROT13 *)

(** A CSV reader's view of a field: strip the quotes and collapse doubled ones. *)
Fixpoint collapse_quotes (s : ustr) : ustr :=
  match s with
  | c :: ((d :: rest) as s') =>
      if (c =? 34) && (d =? 34) then 34 :: collapse_quotes rest else c :: collapse_quotes s'
  | _ => s
  end.
Definition csv_field (s : ustr) : ustr :=
  match s with
  | c :: rest => if c =? 34 then collapse_quotes (removelast rest) else s
  | [] => []
  end.

Lemma collapse_double_quotes s : collapse_quotes (double_quotes s) = s.
Proof.
  induction s as [|c s IH]; [done|]. cbn [double_quotes].
  destruct (Z.eqb_spec c 34) as [->|Hc]; cbn; [by rewrite IH|].
  destruct (double_quotes s) as [|d t] eqn:Hd.
  - destruct s as [|x s]; [done|]. cbn in Hd. by case_match.
  - rewrite (proj2 (Z.eqb_neq c 34) Hc). cbn [andb]. by rewrite IH.
Qed.

Lemma csv_field_escape s : csv_field (escape_string s) = s.
Proof.
  unfold escape_string. case_match eqn:He.
  - cbn [app csv_field]. rewrite Z.eqb_refl, removelast_last. apply collapse_double_quotes.
  - destruct s as [|c s]; [done|]. cbn in He |- *. apply orb_false_iff in He as [Hc _].
    unfold needs_escape in Hc. destruct (Z.eqb_spec c 34); [|done]. subst. done.
Qed.

(** A field written by [escape_string] reads back as the original text, and a field
    with a tab, a line break, a comma or a quote is always written between quotes. *)
Lemma escape_string_roundtrip `{Env} s :
  csv_field (escape_string s) = s /\
  (Exists (fun c => needs_escape c = true) s -> exists t, escape_string s = [34] ++ t ++ [34]).
Proof.
  split; [apply csv_field_escape|]. unfold escape_string.
  intros Hex. assert (existsb needs_escape s = true) as ->; [|eauto].
  apply existsb_exists. apply Exists_exists in Hex as (c & Hin & Hc).
  exists c. split; [by apply list_elem_of_In|done].
Qed.

(** ROT13 decoding is its own inverse and leaves everything but ASCII letters alone. *)
Lemma decode_rot13_involutive s : decode_rot13 (decode_rot13 s) = s.
Proof.
  unfold decode_rot13. rewrite <- list_fmap_compose. rewrite <- (list_fmap_id s) at 2.
  apply list_fmap_ext. intros i c _. cbn. unfold rot13_char. repeat case_match; lia.
Qed.
