(* ===== verification/Lznt1Facts.v ===== *)
(** * Lznt1Facts: decompression inverts a reference compressor

    Theorems about [decode_lznt1] of [Util].  A compressed stream is a list of chunks; a
    compressed chunk is a list of groups of up to eight tokens, and a token is a byte or a
    copy of earlier output.  The encoder is the format's; the decoder is the code's. *)

From S2P Require Import Prelude Env Log Util.

(** ** The format *)

Inductive token := TLit (b : byte) | TCopy (back n : Z).

(** Copies [n] bytes, one at a time, from [back] bytes before the end: it may overlap what
    it writes. *)
Fixpoint copy_bytes (n : nat) (back : Z) (out : list byte) : list byte :=
  match n with
  | O => out
  | S k =>
      match out !! Z.to_nat (len out - back) with
      | Some b => copy_bytes k back (out ++ [b])
      | None => out
      end
  end.
Definition run_token (out : list byte) (t : token) : list byte :=
  match t with
  | TLit b => out ++ [b]
  | TCopy back n => copy_bytes (Z.to_nat n) back out
  end.
Definition run_tokens : list byte -> list token -> list byte := foldl run_token.

(** The width of the displacement field at a position of the chunk. *)
Definition field_bits (pos : Z) : Z := default 0 (COMPRESSION_BITS !! Z.to_nat pos).

Definition encode_token (pos : Z) (t : token) : list byte :=
  match t with
  | TLit b => [b]
  | TCopy back n => to_le_bytes 2 ((back - 1) * 2 ^ (16 - field_bits pos) + (n - 3))
  end.

(** A copy reads output that exists, and its two fields fit. *)
Definition token_ok (start : Z) (out : list byte) (t : token) : Prop :=
  match t with
  | TLit _ => True
  | TCopy back n =>
      let pos := len out - start in
      0 <= pos < 4096 /\ 1 <= back <= len out /\ back <= 2 ^ field_bits pos /\
      3 <= n < 2 ^ (16 - field_bits pos) + 3
  end.

Fixpoint tokens_ok (start : Z) (out : list byte) (ts : list token) : Prop :=
  match ts with
  | [] => True
  | t :: ts => token_ok start out t /\ tokens_ok start (run_token out t) ts
  end.
Fixpoint encode_tokens (start : Z) (out : list byte) (ts : list token) : list byte :=
  match ts with
  | [] => []
  | t :: ts => encode_token (len out - start) t ++ encode_tokens start (run_token out t) ts
  end.

(** One bit per token, the first in the lowest. *)
Fixpoint tag_of (ts : list token) : Z :=
  match ts with
  | [] => 0
  | TLit _ :: ts => 2 * tag_of ts
  | TCopy _ _ :: ts => 1 + 2 * tag_of ts
  end.
Definition encode_group (start : Z) (out : list byte) (ts : list token) : list byte :=
  byte.of_Z (tag_of ts) :: encode_tokens start out ts.

(** All groups but the last hold eight tokens, the last one to eight. *)
Fixpoint groups_ok (start : Z) (out : list byte) (gs : list (list token)) : Prop :=
  match gs with
  | [] => True
  | ts :: gs =>
      (0 < length ts <= 8)%nat /\ (gs = [] \/ length ts = 8%nat) /\ tokens_ok start out ts /\
      groups_ok start (run_tokens out ts) gs
  end.
Fixpoint encode_groups (start : Z) (out : list byte) (gs : list (list token)) : list byte :=
  match gs with
  | [] => []
  | ts :: gs => encode_group start out ts ++ encode_groups start (run_tokens out ts) gs
  end.
Definition run_groups : list byte -> list (list token) -> list byte := foldl run_tokens.

Inductive chunk := CRaw (bs : list byte) | CPacked (gs : list (list token)).
Definition run_chunk (out : list byte) (c : chunk) : list byte :=
  match c with
  | CRaw bs => out ++ bs
  | CPacked gs => run_groups out gs
  end.
Definition chunk_ok (out : list byte) (c : chunk) : Prop :=
  match c with
  | CRaw bs => 1 <= len bs <= 4096
  | CPacked gs => gs <> [] /\ groups_ok (len out) out gs /\
                  len (encode_groups (len out) out gs) <= 4096
  end.
Definition encode_chunk (out : list byte) (c : chunk) : list byte :=
  match c with
  | CRaw bs => to_le_bytes 2 (0x3000 + (len bs - 1)) ++ bs
  | CPacked gs =>
      let body := encode_groups (len out) out gs in
      to_le_bytes 2 (0xB000 + (len body - 1)) ++ body
  end.
Fixpoint chunks_ok (out : list byte) (cs : list chunk) : Prop :=
  match cs with
  | [] => True
  | c :: cs => chunk_ok out c /\ chunks_ok (run_chunk out c) cs
  end.
Fixpoint encode_chunks (out : list byte) (cs : list chunk) : list byte :=
  match cs with
  | [] => []
  | c :: cs => encode_chunk out c ++ encode_chunks (run_chunk out c) cs
  end.
Definition run_chunks : list byte -> list chunk -> list byte := foldl run_chunk.

(** ** The table *)

Lemma field_bits_range pos : 0 <= pos < 4096 -> 4 <= field_bits pos <= 12.
Proof.
  intros Hp. unfold field_bits.
  assert (forallb (fun b => (4 <=? b) && (b <=? 12)) COMPRESSION_BITS = true) as Hall
    by (vm_compute; reflexivity).
  assert (length COMPRESSION_BITS = 4096%nat) as Hl by (vm_compute; reflexivity).
  destruct (COMPRESSION_BITS !! Z.to_nat pos) as [b|] eqn:Hb.
  - rewrite forallb_forall in Hall. specialize (Hall b).
    cbn. rewrite andb_true_iff, !Z.leb_le in Hall. apply Hall.
    apply list_elem_of_In. by eapply list_elem_of_lookup_2.
  - apply lookup_ge_None in Hb. lia.
Qed.

(** The table in closed form: four bits up to 16, then one more at each power of two. *)
Lemma field_bits_closed pos :
  0 <= pos < 4096 -> field_bits pos = Z.max 4 (Z.log2_up pos).
Proof.
  intros Hp. unfold field_bits.
  assert (COMPRESSION_BITS = (fun x => Z.max 4 (Z.log2_up x)) <$> seqZ 0 4096) as ->
    by (vm_compute; reflexivity).
  rewrite list_lookup_fmap, lookup_seqZ_lt by lia. cbn. do 2 f_equal. lia.
Qed.

#[local] Opaque COMPRESSION_BITS to_le_bytes.

(** ** The decoder on encoded input *)

Section Decode.
Context `{E : Env}.

(** The decoder's state: what was written, and how much input was read. *)
Definition at_pos (out : list byte) (src : Z) : lz_state :=
  {| lz_out := out; lz_src := src; lz_dst := len out |}.

Lemma get_at_app {A} (pre : list A) x post i :
  i = len pre -> get_at (pre ++ x :: post) i = Some x.
Proof.
  intros ->. unfold get_at. destruct (Z.leb_spec 0 (len pre)); [|len_lia].
  unfold len. rewrite Nat2Z.id. by apply list_lookup_middle.
Qed.

Lemma lz_read_app {Er} pre v post i :
  0 <= v < 2 ^ 16 -> i = len pre ->
  lz_read_u16 (Er:=Er) (pre ++ to_le_bytes 2 v ++ post) i = Ok v.
Proof.
  intros Hv ->. unfold lz_read_u16.
  assert (get_range (pre ++ to_le_bytes 2 v ++ post) (len pre) (len pre + 2)
    = Some (to_le_bytes 2 v)) as ->.
  { apply get_range_Some. split_and!; [len_lia..|]. rewrite zdrop_app_len.
    replace (len pre + 2 - len pre) with (len (to_le_bytes 2 v)) by len_lia.
    by rewrite ztake_app_len. }
  cbn. f_equal. by apply (from_to_le_bytes 2).
Qed.

Lemma len_copy_bytes n back out :
  1 <= back <= len out -> len (copy_bytes n back out) = len out + Z.of_nat n.
Proof.
  revert out. induction n as [|n IH]; intros out Hb; cbn [copy_bytes]; [lia|].
  destruct (out !! Z.to_nat (len out - back)) eqn:Ho.
  - rewrite IH by len_lia. len_lia.
  - apply lookup_ge_None in Ho. unfold len in *. lia.
Qed.

Lemma lz_copy_eq {Er} n back out addr :
  1 <= back <= len out -> addr = len out - back ->
  lz_copy (Er:=Er) n out (len out) addr
    = Ok (copy_bytes n back out, len (copy_bytes n back out)).
Proof.
  revert out addr. induction n as [|n IH]; intros out addr Hb ->; [done|].
  cbn [lz_copy copy_bytes]. unfold get_at. destruct (Z.leb_spec 0 (len out - back)); [|lia].
  destruct (out !! Z.to_nat (len out - back)) as [b|] eqn:Ho.
  - cbn [expect mbind res_bind].
    replace (len out + 1) with (len (out ++ [b])) by len_lia.
    apply IH; len_lia.
  - apply lookup_ge_None in Ho. unfold len in *. lia.
Qed.

(** Splitting a phrase token into its two fields. *)
Lemma phrase_fields back n bits :
  4 <= bits <= 12 -> 1 <= back <= 2 ^ bits -> 3 <= n < 2 ^ (16 - bits) + 3 ->
  let v := (back - 1) * 2 ^ (16 - bits) + (n - 3) in
  0 <= v < 2 ^ 16 /\ Z.shiftr v (16 - bits) = back - 1 /\
  Z.land v (Z.shiftl 1 (16 - bits) - 1) = n - 3.
Proof.
  intros Hbits Hb Hn v. assert (0 < 2 ^ (16 - bits)) as Hpos by (apply Z.pow_pos_nonneg; lia).
  assert (2 ^ 16 = 2 ^ bits * 2 ^ (16 - bits)) as Hpow
    by (rewrite <- Z.pow_add_r by lia; f_equal; lia).
  split_and!.
  - unfold v. nia.
  - unfold v. nia.
  - rewrite Z.shiftr_div_pow2 by lia. unfold v.
    rewrite Z.add_comm, Z.div_add, Z.div_small by lia. lia.
  - rewrite Z.shiftl_1_l. change (2 ^ (16 - bits) - 1) with (Z.pred (2 ^ (16 - bits))).
    rewrite <- Z.ones_equiv, Z.land_ones by lia. unfold v.
    rewrite Z.add_comm, Z.mod_add by lia. apply Z.mod_small. lia.
Qed.

Lemma get_bits pos : 0 <= pos < 4096 -> get_at COMPRESSION_BITS pos = Some (field_bits pos).
Proof.
  intros Hp. pose proof (field_bits_range pos Hp) as Hb. unfold field_bits in *.
  revert Hb. generalize COMPRESSION_BITS as tbl. intros tbl Hb. unfold get_at.
  destruct (Z.leb_spec 0 pos); [|lia]. destruct (tbl !! _); [done|]. cbn in Hb. lia.
Qed.

Lemma lz_phrase_run {Er} source off start out src bits v back n :
  get_at COMPRESSION_BITS (len out - start) = Some bits ->
  lz_read_u16 (Er:=Er) source (src + off) = Ok v ->
  Z.shiftr v (16 - bits) = back - 1 -> Z.land v (Z.shiftl 1 (16 - bits) - 1) = n - 3 ->
  1 <= back <= len out ->
  lz_phrase (Er:=Er) source off start (at_pos out src)
  = Ok (at_pos (run_token out (TCopy back n)) (src + 2)).
Proof.
  intros Hbits Hv Hs Hl Hb. unfold lz_phrase, at_pos. cbn [lz_out lz_src lz_dst].
  rewrite Hbits. cbn [expect mbind res_bind]. rewrite Hv. cbn [mbind res_bind].
  rewrite Hs, Hl. unfold sub_usize, sub_uw.
  destruct (Z.leb_spec (back - 1) (len out)); [|lia].
  cbn [mbind res_bind]. destruct (Z.leb_spec 1 (len out - (back - 1))); [|lia].
  cbn [mbind res_bind]. replace (n - 3 + 3) with n by lia.
  rewrite (lz_copy_eq _ back) by lia. done.
Qed.

Lemma lz_phrase_eq {Er} pre post off start out back n :
  token_ok start out (TCopy back n) ->
  lz_phrase (Er:=Er) (pre ++ encode_token (len out - start) (TCopy back n) ++ post) off start
    (at_pos out (len pre - off))
  = Ok (at_pos (run_token out (TCopy back n)) (len pre - off + 2)).
Proof.
  intros (Hpos & Hb & Hb2 & Hn). pose proof (field_bits_range _ Hpos) as Hbits.
  pose proof (get_bits _ Hpos) as Hget. unfold encode_token.
  revert Hb2 Hn Hbits Hget. generalize (field_bits (len out - start)) as bits.
  intros bits Hb2 Hn Hbits Hget.
  destruct (phrase_fields back n bits) as (Hv & Hs & Hl); [lia..|].
  eapply lz_phrase_run; [exact Hget| |exact Hs|exact Hl|exact Hb].
  apply lz_read_app; [exact Hv|lia].
Qed.

Lemma len_encode_token pos t : 1 <= len (encode_token pos t).
Proof. destruct t; cbn [encode_token]; len_lia. Qed.

Lemma lz_token_bit t ts :
  (Z.land (tag_of (t :: ts)) 1 =? 0) = match t with TLit _ => true | TCopy _ _ => false end /\
  Z.shiftr (tag_of (t :: ts)) 1 = tag_of ts.
Proof.
  assert (0 <= tag_of ts) as Ht.
  { clear. induction ts as [|[|] ts IH]; cbn [tag_of]; lia. }
  change 1 with (Z.ones 1) at 1. rewrite Z.land_ones, Z.shiftr_div_pow2 by lia.
  change (2 ^ 1) with 2.
  destruct t; cbn [tag_of].
  - rewrite Z.mul_comm, Z.mod_mul, Z.div_mul by lia. done.
  - rewrite (Z.mul_comm 2), Z.mod_add, Z.div_add by lia. done.
Qed.

(** A group of tokens: either it uses all the turns, or it ends the chunk. *)
Lemma lz_tokens_eq {Er} ts n pre post off start out finish :
  tokens_ok start out ts -> (length ts <= n)%nat ->
  (length ts = n \/ finish = len pre - off + len (encode_tokens start out ts)) ->
  len pre - off + len (encode_tokens start out ts) <= finish ->
  lz_tokens (Er:=Er) n (pre ++ encode_tokens start out ts ++ post) off start finish (tag_of ts)
    (at_pos out (len pre - off))
  = Ok (at_pos (run_tokens out ts) (len pre + len (encode_tokens start out ts) - off)).
Proof.
  revert n pre out. induction ts as [|t ts IH]; intros n pre out Hok Hn Hend Hle.
  { cbn [encode_tokens run_tokens foldl] in *. rewrite len_nil in *. rewrite !Z.add_0_r in *.
    destruct n; [done|]. cbn [lz_tokens at_pos lz_src].
    destruct (Z.leb_spec finish (len pre - off)); [done|].
    destruct Hend; [done|lia]. }
  destruct Hok as [Ht Hok]. destruct n as [|n]; [cbn in Hn; lia|].
  cbn [encode_tokens] in *. rewrite len_app in *.
  set (e := encode_token (len out - start) t) in *.
  set (es := encode_tokens start (run_token out t) ts) in *.
  pose proof (len_encode_token (len out - start) t) as Hpos. fold e in Hpos.
  pose proof (len_nonneg es) as Hes.
  cbn [lz_tokens]. unfold at_pos at 1. cbn [lz_src].
  destruct (Z.leb_spec finish (len pre - off)); [lia|].
  destruct (lz_token_bit t ts) as [-> ->].
  assert ((if match t with TLit _ => true | TCopy _ _ => false end then
       b ← expect (get_at (pre ++ (e ++ es) ++ post) (off + lz_src (at_pos out (len pre - off))));
       Ok {| lz_out := lz_out (at_pos out (len pre - off)) ++ [b];
             lz_src := lz_src (at_pos out (len pre - off)) + 1;
             lz_dst := lz_dst (at_pos out (len pre - off)) + 1 |}
     else lz_phrase (pre ++ (e ++ es) ++ post) off start (at_pos out (len pre - off)))
    = Ok (at_pos (run_token out t) (len (pre ++ e) - off)) :> res Er lz_state) as ->.
  { rewrite <- app_assoc. destruct t as [b|back k].
    - unfold at_pos. cbn [lz_src lz_out lz_dst]. change e with [b]. cbn [app].
      rewrite get_at_app by lia. cbn [expect mbind res_bind run_token].
      do 2 f_equal; len_lia.
    - unfold e at 1. rewrite lz_phrase_eq by done. do 3 f_equal.
      unfold e. cbn [encode_token]. len_lia. }
  cbn [mbind res_bind]. rewrite <- (app_assoc e), (app_assoc pre).
  pose proof (IH n (pre ++ e) (run_token out t)) as IH'. fold es in IH'. rewrite IH'.
  - do 3 f_equal. cbn [foldl run_tokens]. len_lia.
  - done.
  - cbn in Hn. lia.
  - destruct Hend as [He|He]; [left; cbn in He; lia|right; len_lia].
  - len_lia.
Qed.

Lemma tag_of_range ts : (length ts <= 8)%nat -> 0 <= tag_of ts < 256.
Proof.
  intros Hl. assert (forall ts, 0 <= tag_of ts < 2 ^ Z.of_nat (length ts)) as H.
  { clear. intros ts. induction ts as [|[b|back n] ts IH]; cbn [tag_of length]; [done| |];
      rewrite Nat2Z.inj_succ, Z.pow_succ_r by lia; lia. }
  specialize (H ts). assert (2 ^ Z.of_nat (length ts) <= 2 ^ 8); [|lia].
  apply Z.pow_le_mono_r; lia.
Qed.

Lemma lz_block_eq {Er} gs fuel pre post off start out finish :
  groups_ok start out gs -> (length gs <= fuel)%nat ->
  finish = len pre - off + len (encode_groups start out gs) ->
  lz_block (Er:=Er) fuel (pre ++ encode_groups start out gs ++ post) off start finish
    (at_pos out (len pre - off))
  = Ok (at_pos (run_groups out gs) finish).
Proof.
  revert fuel pre out. induction gs as [|ts gs IH]; intros fuel pre out Hok Hf Hfin.
  { rewrite Hfin. cbn [encode_groups run_groups foldl]. rewrite len_nil, Z.add_0_r.
    destruct fuel; cbn [lz_block at_pos lz_src]; by rewrite Z.ltb_irrefl. }
  destruct Hok as (Hl & Hlast & Htok & Hok). destruct fuel as [|fuel]; [cbn in Hf; lia|].
  cbn [encode_groups] in *. unfold encode_group in *. set (tb := byte.of_Z (tag_of ts)) in *.
  set (es := encode_tokens start out ts) in *. set (rest := encode_groups start (run_tokens out ts) gs) in *.
  assert (pre ++ ((tb :: es) ++ rest) ++ post = (pre ++ [tb]) ++ es ++ (rest ++ post)) as Hsplit.
  { cbn [app]. by rewrite <- !app_assoc. }
  pose proof (len_nonneg es) as Hes. pose proof (len_nonneg rest) as Hrest.
  assert (len ((tb :: es) ++ rest) = 1 + len es + len rest) as Hlen by len_lia.
  cbn [lz_block at_pos lz_src lz_out lz_dst].
  destruct (Z.ltb_spec (len pre - off) finish); [|lia].
  cbn [app]. rewrite get_at_app by lia. cbn [expect mbind res_bind].
  change (pre ++ tb :: (es ++ rest) ++ post) with (pre ++ ((tb :: es) ++ rest) ++ post).
  assert (byte.unsigned tb = tag_of ts) as ->.
  { unfold tb. rewrite byte.unsigned_of_Z. apply Z.mod_small, tag_of_range. lia. }
  rewrite Hsplit.
  replace (len pre - off + 1) with (len (pre ++ [tb]) - off) by len_lia.
  fold (at_pos out (len (pre ++ [tb]) - off)).
  rewrite (lz_tokens_eq ts 8 (pre ++ [tb]) (rest ++ post) off start out).
  - cbn [mbind res_bind]. fold es. rewrite (app_assoc (pre ++ [tb])).
    replace (len (pre ++ [tb]) + len es - off) with (len ((pre ++ [tb]) ++ es) - off) by len_lia.
    apply IH; [done|cbn in Hf; lia|]. fold rest. len_lia.
  - done.
  - lia.
  - fold es. destruct Hlast as [->|Hlast]; [right|by left].
    assert (len rest = 0) by done. len_lia.
  - fold es. len_lia.
Qed.

(** The header of a chunk: the flag and the size. *)
Lemma chunk_header flag n :
  (flag = 0x3000 \/ flag = 0xB000) -> 0 <= n < 4096 ->
  0 <= flag + n < 2 ^ 16 /\ Z.land (flag + n) SUB_BLOCK_SIZE_MASK = n /\
  (Z.land (flag + n) SUB_BLOCK_IS_COMPRESSED_FLAG =? 0) = (flag =? 0x3000).
Proof.
  intros Hf Hn. unfold SUB_BLOCK_SIZE_MASK, SUB_BLOCK_IS_COMPRESSED_FLAG.
  assert (Z.land (flag + n) 0xFFF = n) as Hm.
  { change 0xFFF with (Z.ones 12). rewrite Z.land_ones by lia.
    destruct Hf as [-> | ->].
    - change 0x3000 with (3 * 2 ^ 12). rewrite Z.add_comm, Z.mod_add by lia.
      by apply Z.mod_small.
    - change 0xB000 with (11 * 2 ^ 12). rewrite Z.add_comm, Z.mod_add by lia.
      by apply Z.mod_small. }
  split; [destruct Hf as [-> | ->]; lia|]. split; [done|].
  assert (Z.testbit (flag + n) 15 = negb (flag =? 0x3000)) as Hb.
  { rewrite Z.testbit_eqb by lia.
    destruct Hf as [-> | ->].
    - rewrite (Z.div_small (0x3000 + n)) by lia. reflexivity.
    - replace (0xB000 + n) with ((0x3000 + n) + 1 * 2 ^ 15) by lia.
      rewrite Z.div_add, Z.div_small by lia. reflexivity. }
  change 0x8000 with (2 ^ 15). destruct (flag =? 0x3000); cbn [negb] in Hb.
  - apply Z.eqb_eq, Z.bits_inj'. intros i Hi. rewrite Z.land_spec, Z.bits_0, Z.pow2_bits_eqb by lia.
    destruct (Z.eqb_spec 15 i) as [<-|]; [by rewrite Hb|apply andb_false_r].
  - apply Z.eqb_neq. intros H0. apply (f_equal (fun x => Z.testbit x 15)) in H0.
    rewrite Z.land_spec, Hb, Z.bits_0, Z.pow2_bits_true in H0 by lia. done.
Qed.

Lemma length_groups start out gs : (length gs <= length (encode_groups start out gs))%nat.
Proof.
  revert out. induction gs as [|ts gs IH]; intros out; [done|].
  cbn [encode_groups encode_group app length]. rewrite length_app.
  specialize (IH (run_tokens out ts)). lia.
Qed.

(** One turn of the chunk loop on an encoded chunk. *)
Lemma lz_loop_chunk {Er} c k pre post off total out :
  chunk_ok out c -> len pre < total ->
  lz_loop (Er:=Er) (S k) (pre ++ encode_chunk out c ++ post) off total (at_pos out (len pre - off))
  = lz_loop k (pre ++ encode_chunk out c ++ post) off total
      (at_pos (run_chunk out c) (len pre + len (encode_chunk out c) - off)).
Proof.
  intros Hok Ht.
  assert (exists flag body, encode_chunk out c = to_le_bytes 2 (flag + (len body - 1)) ++ body /\
    1 <= len body <= 4096 /\
    (c = CRaw body /\ flag = 0x3000 \/
     exists gs, c = CPacked gs /\ flag = 0xB000 /\ body = encode_groups (len out) out gs))
    as (flag & body & He & Hb & Hc).
  { destruct c as [bs|gs]; cbn in Hok.
    - exists 0x3000, bs. split; [done|]. split; [lia|by left].
    - destruct Hok as (Hne & Hg & Hl). exists 0xB000, (encode_groups (len out) out gs).
      split; [done|]. split; [|right; by exists gs]. split; [|lia].
      destruct gs as [|ts gs]; [done|]. cbn [encode_groups]. unfold encode_group. len_lia. }
  rewrite He. destruct (chunk_header flag (len body - 1)) as (Hv & Hm & Hf);
    [destruct Hc as [[_ ->]|(? & _ & -> & _)]; auto|lia|].
  cbn [lz_loop]. cbn [at_pos lz_src lz_out lz_dst].
  replace (len pre - off + off) with (len pre) by lia.
  destruct (Z.ltb_spec (len pre) total); [|lia].
  rewrite <- app_assoc, lz_read_app by done. cbn [mbind res_bind].
  destruct (Z.eqb_spec (flag + (len body - 1)) 0);
    [destruct Hc as [[_ ->]|(? & _ & -> & _)]; lia|].
  rewrite Hf, Hm. rewrite (app_assoc pre).
  set (pre2 := pre ++ to_le_bytes 2 _).
  assert (len pre2 = len pre + 2) as Hp2 by (unfold pre2; len_lia).
  destruct Hc as [[-> ->]|(gs & -> & -> & Hbody)].
  - cbn [Z.eqb Pos.eqb].
    assert (get_range (pre2 ++ body ++ post) (off + (len pre - off + 2))
      (off + (len pre - off + 2) + (len body - 1 + 1)) = Some body) as ->.
    { apply get_range_Some. split_and!; [len_lia..|].
      replace (off + (len pre - off + 2)) with (len pre2) by lia. rewrite zdrop_app_len.
      replace (_ - len pre2) with (len body) by lia. by rewrite ztake_app_len. }
    cbn [expect mbind res_bind run_chunk]. unfold at_pos. f_equal. f_equal; len_lia.
  - change (0xB000 =? 0x3000) with false. cbn [run_chunk].
    cbn [chunk_ok] in Hok. destruct Hok as (_ & Hg & _).
    replace (len pre - off + 2) with (len pre2 - off) by lia.
    fold (at_pos out (len pre2 - off)). rewrite Hbody.
    rewrite (lz_block_eq gs _ pre2 post off (len out) out).
    + cbn [mbind res_bind]. rewrite <- Hbody. unfold at_pos. f_equal. f_equal. len_lia.
    + done.
    + unfold pre2. rewrite !length_app, Hbody. pose proof (length_groups (len out) out gs). lia.
    + rewrite <- Hbody. lia.
Qed.

Lemma len_encode_chunk out c : 2 <= len (encode_chunk out c).
Proof. destruct c; cbn [encode_chunk]; len_lia. Qed.

Lemma lz_loop_chunks {Er} cs fuel pre post off total out :
  chunks_ok out cs -> (length cs <= fuel)%nat ->
  total = len pre + len (encode_chunks out cs) ->
  lz_loop (Er:=Er) fuel (pre ++ encode_chunks out cs ++ post) off total (at_pos out (len pre - off))
  = Ok (at_pos (run_chunks out cs) (total - off)).
Proof.
  revert fuel pre out. induction cs as [|c cs IH]; intros fuel pre out Hok Hf Ht.
  { cbn [encode_chunks] in *. rewrite len_nil in Ht. cbn [run_chunks foldl].
    replace total with (len pre) by lia.
    destruct fuel; cbn [lz_loop at_pos lz_src];
      (replace (len pre - off + off) with (len pre) by lia); by rewrite Z.ltb_irrefl. }
  destruct Hok as [Hc Hok]. destruct fuel as [|k]; [cbn in Hf; lia|].
  cbn [encode_chunks] in *. pose proof (len_encode_chunk out c) as Hec.
  set (rest := encode_chunks (run_chunk out c) cs) in *.
  rewrite <- app_assoc, lz_loop_chunk; [|done|len_lia].
  rewrite (app_assoc pre).
  replace (len pre + len (encode_chunk out c)) with (len (pre ++ encode_chunk out c)) by len_lia.
  unfold rest. apply IH; [done|cbn in Hf; lia|]. fold rest. len_lia.
Qed.

Lemma length_chunks out cs : (length cs <= length (encode_chunks out cs))%nat.
Proof.
  revert out. induction cs as [|c cs IH]; intros out; [done|].
  cbn [encode_chunks length]. rewrite length_app.
  pose proof (len_encode_chunk out c) as Hc. unfold len in Hc.
  specialize (IH (run_chunk out c)). lia.
Qed.

(** C7: decompression inverts compression: a stream of raw chunks and of chunks of literal
    and copy tokens, in the format's encoding and at any offset of the buffer, decodes to what
    the tokens mean, overlapping copies included. *)
Theorem decode_lznt1_inverts cs pre post :
  chunks_ok [] cs ->
  decode_lznt1 (pre ++ encode_chunks [] cs ++ post) (len pre)
    (len pre + len (encode_chunks [] cs)) = Ok (run_chunks [] cs).
Proof.
  intros Hok. unfold decode_lznt1.
  pose proof (lz_loop_chunks (Er:=Error) cs (Z.to_nat (len pre + len (encode_chunks [] cs))) pre post
    (len pre) (len pre + len (encode_chunks [] cs)) [] Hok) as H.
  rewrite Z.sub_diag in H. change {| lz_out := []; lz_src := 0; lz_dst := 0 |} with (at_pos [] 0).
  rewrite H; [done| |done]. pose proof (length_chunks [] cs). unfold len. lia.
Qed.

(** ** Malformed input panics *)

(** Neither an error nor out of iterations. *)
Definition ok_or_panic {Er A} (r : res Er A) : Prop :=
  match r with Ok _ | Panic => True | _ => False end.

Lemma ok_or_panic_bind {Er A B} (m : res Er A) (f : A -> res Er B) :
  ok_or_panic m -> (forall a, m = Ok a -> ok_or_panic (f a)) -> ok_or_panic (m ≫= f).
Proof. destruct m; cbn; auto. Qed.

Lemma ok_or_panic_expect {Er A} (o : option A) : ok_or_panic (expect o : res Er A).
Proof. by destruct o. Qed.

Lemma lz_read_in {Er} source i v : lz_read_u16 (Er:=Er) source i = Ok v -> i + 2 <= len source.
Proof.
  unfold lz_read_u16. destruct (get_range _ _ _) eqn:Hg; [|done].
  apply get_range_Some in Hg. lia.
Qed.

Lemma ok_or_panic_read {Er} source i : ok_or_panic (lz_read_u16 (Er:=Er) source i).
Proof. unfold lz_read_u16. by destruct (get_range _ _ _). Qed.

Lemma get_at_Some {A} (l : list A) i x : get_at l i = Some x -> 0 <= i < len l.
Proof.
  unfold get_at. destruct (Z.leb_spec 0 i); [|done].
  intros Hl%lookup_lt_Some. unfold len. lia.
Qed.

Lemma ok_or_panic_sub {Er} a b : ok_or_panic (sub_usize (E:=Er) a b).
Proof. unfold sub_usize, sub_uw. repeat case_match; done. Qed.

Lemma ok_or_panic_copy {Er} n out dst back : ok_or_panic (lz_copy (Er:=Er) n out dst back).
Proof.
  revert out dst back. induction n as [|n IH]; intros out dst back; [done|].
  apply ok_or_panic_bind; [apply ok_or_panic_expect|]. intros b _. apply IH.
Qed.

(** The call panics, or goes on from further in the buffer. *)
Definition advances {Er} (by_ : Z) (source : list byte) (off : Z) (st : lz_state)
    (r : res Er lz_state) : Prop :=
  match r with
  | Ok st' => lz_src st + by_ <= lz_src st' /\ off + lz_src st' <= len source
  | Panic => True
  | _ => False
  end.

Lemma lz_phrase_advances {Er} source off start st :
  advances 2 source off st (lz_phrase (Er:=Er) source off start st).
Proof.
  unfold lz_phrase. destruct (get_at COMPRESSION_BITS _) as [bits|]; [|done].
  cbn [expect mbind res_bind].
  pose proof (ok_or_panic_read (Er:=Er) source (lz_src st + off)) as Hr.
  destruct (lz_read_u16 _ _) as [v| | |] eqn:Hv; try done. cbn [mbind res_bind].
  apply lz_read_in in Hv.
  pose proof (ok_or_panic_sub (Er:=Er) (lz_dst st) (Z.shiftr v (16 - bits))) as H1.
  destruct (sub_usize _ _) as [b| | |]; try done. cbn [mbind res_bind].
  pose proof (ok_or_panic_sub (Er:=Er) b 1) as H2.
  destruct (sub_usize b 1) as [b'| | |]; try done. cbn [mbind res_bind].
  match goal with |- context [lz_copy ?n ?o ?d ?k] =>
    pose proof (ok_or_panic_copy (Er:=Er) n o d k) as H3;
    destruct (lz_copy n o d k) as [[out dst]| | |] end; try done.
  cbn. lia.
Qed.

Lemma lz_tokens_advances {Er} n source off start finish tag st :
  off + lz_src st <= len source ->
  advances 0 source off st (lz_tokens (Er:=Er) n source off start finish tag st).
Proof.
  revert tag st. induction n as [|n IH]; intros tag st Hst; cbn [lz_tokens advances]; [lia|].
  destruct (Z.leb_spec finish (lz_src st)); [cbn; lia|]. destruct (Z.land tag 1 =? 0).
  - destruct (get_at source _) as [b|] eqn:Hg; [|done]. cbn [expect mbind res_bind].
    apply get_at_Some in Hg.
    match goal with |- context [lz_tokens n _ _ _ _ ?t ?s] => specialize (IH t s) end.
    cbn [lz_src] in IH. specialize (IH ltac:(lia)).
    destruct (lz_tokens _ _ _ _ _ _ _); try done. cbn in *. lia.
  - pose proof (lz_phrase_advances (Er:=Er) source off start st) as Hp.
    destruct (lz_phrase _ _ _ _) as [st1| | |]; try done. cbn [mbind res_bind advances] in *.
    specialize (IH (Z.shiftr tag 1) st1 ltac:(lia)).
    destruct (lz_tokens _ _ _ _ _ _ _); try done. cbn in *. lia.
Qed.

(** Every turn reads a tag inside the buffer, so the buffer's length is enough. *)
Lemma lz_block_advances {Er} fuel source off start finish st :
  off + lz_src st <= len source -> len source - (off + lz_src st) < Z.of_nat fuel ->
  advances 0 source off st (lz_block (Er:=Er) fuel source off start finish st).
Proof.
  revert st. induction fuel as [|k IH]; intros st Hst Hf; [lia|]. cbn [lz_block].
  destruct (Z.ltb_spec (lz_src st) finish); [|cbn; lia].
  destruct (get_at source _) as [tag|] eqn:Hg; [|done]. cbn [expect mbind res_bind].
  apply get_at_Some in Hg.
  match goal with |- context [lz_tokens 8 ?a ?b ?c ?d ?t ?s] =>
    pose proof (lz_tokens_advances (Er:=Er) 8 a b c d t s) as Ht;
    destruct (lz_tokens 8 a b c d t s) as [st1| | |] end; cbn [lz_src advances] in Ht;
    specialize (Ht ltac:(lia)); try done.
  cbn [mbind res_bind]. specialize (IH st1 ltac:(lia) ltac:(lia)).
  destruct (lz_block _ _ _ _ _ _); try done. cbn in *. lia.
Qed.

Lemma lz_loop_ok_or_panic {Er} fuel source off total st :
  0 <= off -> 0 <= lz_src st -> total - (off + lz_src st) <= Z.of_nat fuel ->
  ok_or_panic (lz_loop (Er:=Er) fuel source off total st).
Proof.
  intros Ho. revert st. induction fuel as [|k IH]; intros st Hs Hf; cbn [lz_loop];
    (destruct (Z.ltb_spec (lz_src st + off) total); [|done]); [lia|].
  pose proof (ok_or_panic_read (Er:=Er) source (lz_src st + off)) as Hr.
  destruct (lz_read_u16 _ _) as [v| | |] eqn:Hv; try done. cbn [mbind res_bind].
  apply lz_read_in in Hv. destruct (v =? 0); [done|].
  assert (0 <= Z.land v SUB_BLOCK_SIZE_MASK) as Hm by (apply Z.land_nonneg; right; done).
  destruct (Z.land v SUB_BLOCK_IS_COMPRESSED_FLAG =? 0).
  - destruct (get_range _ _ _); [|done]. cbn [expect mbind res_bind]. apply IH; cbn; lia.
  - match goal with |- context [lz_block ?n ?a ?b ?c ?d ?s] =>
      pose proof (lz_block_advances (Er:=Er) n a b c d s) as Hb;
      destruct (lz_block n a b c d s) as [st1| | |] end; cbn [lz_src advances] in Hb;
      unfold len in *; specialize (Hb ltac:(lia) ltac:(lia)); try done.
    cbn [mbind res_bind]. apply IH; lia.
Qed.

(** Decompression ends on every input, and never with the error its signature announces:
    input that is not well formed makes it panic. *)
Lemma decode_lznt1_ok_or_panics source source_offset source_length :
  0 <= source_offset -> ok_or_panic (decode_lznt1 source source_offset source_length).
Proof.
  intros Ho. unfold decode_lznt1.
  pose proof (lz_loop_ok_or_panic (Er:=Error) (Z.to_nat source_length) source source_offset
    source_length {| lz_out := []; lz_src := 0; lz_dst := 0 |} Ho) as H.
  cbn [lz_src] in H. specialize (H ltac:(lia) ltac:(lia)).
  by destruct (lz_loop _ _ _ _ _).
Qed.
End Decode.

(** "aabaab..." as two literals and an overlapping copy, then a raw chunk. *)
Lemma decode_lznt1_inverts_witness :
  let cs := [CPacked [[TLit Byte.x61; TLit Byte.x62; TCopy 2 5]]; CRaw [Byte.x21]] in
  let pre := [Byte.xff] in
  decode_lznt1 (E:=env_ref) (pre ++ encode_chunks [] cs ++ [Byte.x00]) (len pre)
    (len pre + len (encode_chunks [] cs)) = Ok (run_chunks [] cs) /\
  run_chunks [] cs = bytes_of "abababa!".
Proof.
  intros cs pre. split; [|vm_compute; reflexivity].
  apply (@decode_lznt1_inverts env_ref cs pre [Byte.x00]).
  assert (forall pos, pos = 2 -> field_bits pos = 4) as Hbits
    by (intros pos ->; vm_compute; reflexivity).
  cbn [chunks_ok chunk_ok groups_ok tokens_ok cs]. unfold token_ok.
  rewrite Hbits by reflexivity.
  repeat match goal with
         | |- _ /\ _ => split
         | |- _ \/ _ => left; reflexivity
         end; try exact I; try (vm_compute; lia); try (cbn; lia);
    vm_compute; first [reflexivity | discriminate].
Defined.

(** A stream cut inside its header. *)
Lemma decode_lznt1_ok_or_panics_witness :
  0 <= 0 /\ ok_or_panic (decode_lznt1 (E:=env_ref) [Byte.x01] 0 1).
Proof. split; [lia|]. apply (@decode_lznt1_ok_or_panics env_ref [Byte.x01] 0 1). lia. Defined.
