(* ===== verification/Cells.v ===== *)
(** * Cells: cell kinds and states, fields, files and hive bin headers

    [src/src/cell.rs], [src/src/field_offset_len.rs], [src/src/file_info.rs],
    [src/src/hive_bin_header.rs] and [src/src/field_serializers.rs]. *)

From S2P Require Import Prelude Env Log Util.

(** ** [cell.rs] *)

Inductive CellState :=
  | DeletedTransactionLog
  | DeletedPrimaryFile
  | DeletedPrimaryFileSlack
  | Allocated
  | ModifiedTransactionLog.
#[export] Instance CellState_eq : EqDecision CellState.
Proof. solve_decision. Defined.

(** The declared discriminants ([self as i8]). *)
Definition CellState_as_i8 (s : CellState) : Z :=
  match s with
  | DeletedTransactionLog => -3
  | DeletedPrimaryFile => -2
  | DeletedPrimaryFileSlack => -1
  | Allocated => 0
  | ModifiedTransactionLog => 1
  end.

Definition CellState_default : CellState := Allocated.
Definition is_deleted (s : CellState) : bool := CellState_as_i8 s <? 0.
Definition is_deleted_primary_file (s : CellState) : bool :=
  bool_decide (s = DeletedPrimaryFile) || bool_decide (s = DeletedPrimaryFileSlack).

Inductive CellType :=
  | CellOther
  | CellKey
  | CellValue_
  | CellSecurity
  | CellBigData_
  | CellIndexRoot
  | CellHashLeaf
  | CellFastLeaf
  | CellIndexLeaf.
#[export] Instance CellType_eq : EqDecision CellType.
Proof. solve_decision. Defined.

Section CellType.
Context `{E : Env}.

(** [map(tag(t), |_| v)]. *)
Definition map_tag {A} (t : string) (v : A) : parser A := fun i =>
  '(r, _) ← nom_tag (bytes_of t) i; Ok (r, v).

Definition cell_type : parser CellType :=
  nom_alt [map_tag "nk" CellKey; map_tag "vk" CellValue_; map_tag "sk" CellSecurity;
           map_tag "lf" CellFastLeaf; map_tag "li" CellIndexLeaf; map_tag "lh" CellHashLeaf;
           map_tag "ri" CellIndexRoot; map_tag "db" CellBigData_].

Definition read_cell_type (input : list byte) : CellType :=
  match cell_type input with
  | Ok (_, t) => t
  | _ => CellOther
  end.
End CellType.

(** [trait Cell]. *)
Class Cell `{Env} (A : Type) := {
  get_file_offset_absolute : A -> Z;
  get_hash : A -> option Hash;
  get_logs : A -> Logs;
  has_or_is_recovered : A -> bool;
}.

(** ** [field_offset_len.rs] *)

Record FieldFull (T : Type) := { ff_value : T; ff_offset : Z; ff_len : Z }.
Record FieldLight (T : Type) := { fl_value : T }.
Arguments ff_value {T} _.
Arguments ff_offset {T} _.
Arguments ff_len {T} _.
Arguments fl_value {T} _.

(** [FieldFull::new_with_len] ([new] passes [size_of::<T>()]) and [FieldLight::new]. *)
Definition FieldFull_new_with_len {T} (v : T) (offset len : Z) : FieldFull T :=
  {| ff_value := v; ff_offset := offset; ff_len := len |}.
Definition FieldFull_default {T} (d : T) : FieldFull T := FieldFull_new_with_len d 0 0.
Definition FieldLight_new {T} (v : T) : FieldLight T := {| fl_value := v |}.

(** [trait FieldTrait<T>]. *)
Class FieldTrait (F : Type -> Type) := {
  field_value : forall {T}, F T -> T;
  field_set : forall {T}, T -> F T -> F T;
  field_offset : forall {T}, F T -> Z;
  field_len : forall {T}, F T -> Z;
  get_field_light : forall {T}, F T -> option (FieldLight T);
  get_field_full : forall {T}, F T -> option (FieldFull T);
}.
#[export] Instance FieldFull_FieldTrait : FieldTrait FieldFull := {
  field_value T x := ff_value x;
  field_set T v x := {| ff_value := v; ff_offset := ff_offset x; ff_len := ff_len x |};
  field_offset T x := ff_offset x;
  field_len T x := ff_len x;
  get_field_light T x := None;
  get_field_full T x := Some x;
}.
#[export] Instance FieldLight_FieldTrait : FieldTrait FieldLight := {
  field_value T x := fl_value x;
  field_set T v x := {| fl_value := v |};
  field_offset T x := 0;
  field_len T x := 0;
  get_field_light T x := Some x;
  get_field_full T x := None;
}.

(** [make_file_offset_structs!]: the [Light] and [Full] structs are one record over the
    kind of its fields, the [Enum] is either. *)
Inductive FieldEnum (D : (Type -> Type) -> Type) :=
  | Light (d : D FieldLight)
  | Full (d : D FieldFull).
Arguments Light {D} d.
Arguments Full {D} d.

(** [impl_enum!]: the accessor [$field] and the setter [set_$field_full]. *)
Definition field_get {D T} (sel : forall F, D F -> F T) (e : FieldEnum D) : T :=
  match e with
  | Light d => fl_value (sel FieldLight d)
  | Full d => ff_value (sel FieldFull d)
  end.
Definition field_set_full {D T} (upd : forall F, F T -> D F -> D F) (v : T) (offset len : Z)
    (e : FieldEnum D) : FieldEnum D :=
  match e with
  | Light d => Light (upd FieldLight (FieldLight_new v) d)
  | Full d => Full (upd FieldFull (FieldFull_new_with_len v offset len) d)
  end.

(** [init_value_enum!] followed by the setters: [b] lists the fields with the value,
    offset and length each setter is given. *)
Definition make_enum {D} (get_full_field_info : bool)
    (b : forall F : Type -> Type, (forall T, T -> Z -> Z -> F T) -> D F) : FieldEnum D :=
  if get_full_field_info
  then Full (b FieldFull (fun T v offset len => FieldFull_new_with_len v offset len))
  else Light (b FieldLight (fun T v _ _ => FieldLight_new v)).

(** [read_value_offset_length!]: the value and the offset for its setter; [start] is the
    length of the input at [start_pos]. *)
Definition read_value_offset_length (get_full_field_info : bool) (start : Z)
    (nom_fn : parser Z) : parser (Z * Z) := fun input =>
  let cur_offset := if get_full_field_info then start - len input else 0 in
  '(input, val) ← nom_fn input;
  Ok (input, (val, cur_offset)).

(** ** [file_info.rs] *)

Record FileInfo := { hbin_offset_absolute : Z; buffer : list byte }.

(** [from_read_seek], given everything [read_to_end] returned. *)
Definition FileInfo_from_read_seek (data_primary : list byte) : FileInfo :=
  {| hbin_offset_absolute := 0; buffer := data_primary |}.

(** [input.as_ptr() - self.buffer.as_ptr()], for [input] a suffix of the buffer. *)
Definition get_file_offset (self : FileInfo) (input : list byte) : Z :=
  len (buffer self) - len input.

(** ** [hive_bin_header.rs] *)

Section HiveBinHeader.
Context `{E : Env}.

Record HiveBinHeader := {
  hbh_file_offset_absolute : Z;
  hbh_offset_from_first_hbin : Z;
  hbh_size : Z;
  hbh_unknown1 : Z;
  hbh_unknown2 : Z;
  hbh_timestamp : DateTime;
  hbh_spare : Z;
}.

Definition HiveBinHeader_from_bytes (file_info : FileInfo) (input : list byte)
    : presult HiveBinHeader :=
  let file_offset_absolute := get_file_offset file_info input in
  '(input, _) ← nom_tag (bytes_of "hbin") input;
  '(input, offset_from_first_hbin) ← nom_le_u32 input;
  '(input, size) ← nom_le_u32 input;
  '(input, unknown1) ← nom_le_u32 input;
  '(input, unknown2) ← nom_le_u32 input;
  '(input, timestamp) ← nom_le_u64 input;
  '(input, spare) ← nom_le_u32 input;
  Ok (input,
      {| hbh_file_offset_absolute := file_offset_absolute;
         hbh_offset_from_first_hbin := offset_from_first_hbin;
         hbh_size := size;
         hbh_unknown1 := unknown1;
         hbh_unknown2 := unknown2;
         hbh_timestamp := get_date_time_from_filetime timestamp;
         hbh_spare := spare |}).
End HiveBinHeader.

(** ** [field_serializers.rs]

    A serializer is modelled by the calls it receives: the announced struct and the
    fields, in order. *)

Section Serializers.
Context `{E : Env}.

Inductive ser_val := SNum (n : Z) | SText (s : ustr).
Record ser_struct := { ss_name : ustr; ss_announced : Z; ss_fields : list (ustr * ser_val) }.

Definition field_data_as_hex (x : list byte) : ser_val := SText (to_hex_string x).

Definition get_field_count {F T} `{FieldTrait F} (x : F T) : Z :=
  if bool_decide (is_Some (get_field_full x)) then 4 else 2.

Definition get_field_count_with_logs {F T} `{FieldTrait F} (x : F T) (lg : Logs) : Z :=
  get_field_count x + Z.b2z (Logs_has_logs lg).

(** [ser_t] is [T]'s own serialization. *)
Definition serialize_base_field {F T} `{FieldTrait F} (ser_t : T -> ser_val) (x : F T)
    : list (ustr * ser_val) :=
  match get_field_full x with
  | Some full =>
      [(lit "value", ser_t (field_value full)); (lit "offset", SNum (field_offset full));
       (lit "len", SNum (field_len full))]
  | None => [(lit "value", ser_t (field_value x))]
  end.

Definition field_last_key_written_date_and_time_interpreted {F} `{FieldTrait F} (x : F Z)
    : ser_struct :=
  {| ss_name := lit "last_key_written_date_and_time";
     ss_announced := get_field_count x;
     ss_fields := serialize_base_field SNum x ++
       [(lit "interpreted",
         SText (format_date_time (get_date_time_from_filetime (field_value x))))] |}.

(** The two flag serializers; [tbl] names the flags and [all] is their union. *)
Definition field_flag_bits_interpreted {F} `{FieldTrait F} (name fn_name : ustr) (all : Z)
    (tbl : list (Z * ustr)) (x : F Z) : ser_struct :=
  let '(flags, lg) := from_bits_checked all fn_name (field_value x) Logs_default in
  {| ss_name := name;
     ss_announced := get_field_count_with_logs x lg;
     ss_fields := serialize_base_field SNum x ++
       [(lit "interpreted", SText (bf_debug tbl flags))] ++
       (if Logs_has_logs lg then [(lit "logs", SText (Logs_get_string lg))] else []) |}.

Definition field_value_name_interpreted {F} `{FieldTrait F} (x : F ustr) : ser_struct :=
  {| ss_name := lit "value_name";
     ss_announced := get_field_count x;
     ss_fields := serialize_base_field SText x ++
       [(lit "interpreted", SText (get_pretty_name (field_value x)))] |}.

Lemma serialize_base_field_count {F T} `{FieldTrait F} (ser_t : T -> ser_val) (x : F T) :
  len (serialize_base_field ser_t x) + 1 = get_field_count x.
Proof.
  unfold serialize_base_field, get_field_count.
  destruct (get_field_full x); [by rewrite bool_decide_true by eauto|done].
Qed.

(** The flag serializers announce exactly the number of fields they write, whether or
    not the flags hold unknown bits (an extra logs field) and for both kinds of field. *)
Lemma field_flag_bits_count {F} `{FieldTrait F} name fn_name all tbl (x : F Z) :
  let s := field_flag_bits_interpreted name fn_name all tbl x in
  len (ss_fields s) = ss_announced s.
Proof.
  unfold field_flag_bits_interpreted.
  destruct (from_bits_checked _ _ _ _) as [flags lg]. cbn.
  unfold get_field_count_with_logs. rewrite <- (serialize_base_field_count SNum).
  destruct (Logs_has_logs lg); cbn; rewrite !len_app, !len_cons, len_nil; lia.
Qed.
End Serializers.

(** ** Facts *)

Lemma is_deleted_spec s : is_deleted s = true <-> s <> Allocated /\ s <> ModifiedTransactionLog.
Proof. destruct s; cbn; naive_solver. Qed.

Section Facts.
Context `{E : Env}.

(** A hive bin header is 32 bytes. *)
Lemma HiveBinHeader_from_bytes_Ok fi input r h :
  HiveBinHeader_from_bytes fi input = Ok (r, h) ->
  32 <= len input /\ r = zdrop 32 input /\ 0 <= hbh_size h < U32_MOD.
Proof.
  unfold HiveBinHeader_from_bytes. intros H. inv_bind. le_ranges. parse_inv. drops.
  split_and!; [len_lia|done|lia..].
Qed.
End Facts.
