(* ===== verification/BaseBlock.v ===== *)
(** * BaseBlock: the 4096-byte header of a registry file

    [src/src/base_block.rs].  [BaseBlockBase] is the 512-byte part a primary file and a
    transaction log share, [BaseBlockExtended] the rest of the primary file's header. *)

From S2P Require Import Prelude Env Log Util UtilFacts Cells.

Inductive FileType := FT_Primary | FT_TransactionLog | FT_TransactionLogNewFormat | FT_Unknown.
#[export] Instance FileType_eq : EqDecision FileType.
Proof. solve_decision. Defined.
Definition FileType_table : list (Z * FileType) :=
  [(0, FT_Primary); (1, FT_TransactionLog); (6, FT_TransactionLogNewFormat);
   (0x0fffffff, FT_Unknown)].

Inductive FileFormat := FF_DirectMemoryLoad | FF_Unknown.
#[export] Instance FileFormat_eq : EqDecision FileFormat.
Proof. solve_decision. Defined.
Definition FileFormat_table : list (Z * FileFormat) :=
  [(1, FF_DirectMemoryLoad); (0x0fffffff, FF_Unknown)].

Inductive FileBaseBlockReservedFlags := RF_None | RF_KtmLockedHive | RF_Ktm2 | RF_Unknown.
#[export] Instance FileBaseBlockReservedFlags_eq : EqDecision FileBaseBlockReservedFlags.
Proof. solve_decision. Defined.
Definition ReservedFlags_table : list (Z * FileBaseBlockReservedFlags) :=
  [(0, RF_None); (1, RF_KtmLockedHive); (2, RF_Ktm2); (0x0fffffff, RF_Unknown)].

Section BaseBlock.
Context `{E : Env}.

Record BaseBlockBase := {
  primary_sequence_number : Z;
  secondary_sequence_number : Z;
  last_modification_date_and_time : DateTime;
  major_version : Z;
  minor_version : Z;
  file_type : FileType;
  format : FileFormat;
  root_cell_offset_relative : Z;
  hive_bins_data_size : Z;
  clustering_factor : Z;
  filename : ustr;
  unk2 : list byte;
  checksum : Z;
  bb_logs : Logs;
}.

Record FileBaseBlockReserved := {
  rm_id : Guid;
  log_id : Guid;
  flags : FileBaseBlockReservedFlags;
  tm_id : Guid;
  signature : Z;
  last_reorganized_timestamp : DateTime;
  remaining : list byte;
  res_logs : Logs;
}.

Record BaseBlockExtended := {
  reserved : FileBaseBlockReserved;
  boot_type : Z;
  boot_recover : Z;
}.

Record BaseBlock := { base : BaseBlockBase; ext : BaseBlockExtended }.

Definition CHECKSUM_OFFSET : Z := 508.
Definition BASE_BLOCK_LEN : Z := 512.

Definition FileType_from_value (value : Z) (lg : Logs) : FileType * Logs :=
  from_value FileType_table FT_Unknown (lit "FileType") value lg.
Definition FileFormat_from_value (value : Z) (lg : Logs) : FileFormat * Logs :=
  from_value FileFormat_table FF_Unknown (lit "FileFormat") value lg.
Definition ReservedFlags_from_value (value : Z) (lg : Logs)
    : FileBaseBlockReservedFlags * Logs :=
  from_value ReservedFlags_table RF_Unknown (lit "FileBaseBlockReservedFlags") value lg.

Definition BaseBlockBase_from_bytes (input : list byte) : presult BaseBlockBase :=
  '(input, _) ← nom_tag (bytes_of "regf") input;
  '(input, psn) ← nom_le_u32 input;
  '(input, ssn) ← nom_le_u32 input;
  '(input, last_modification) ← nom_le_u64 input;
  '(input, major) ← nom_le_u32 input;
  '(input, minor) ← nom_le_u32 input;
  '(input, file_type_bytes) ← nom_le_u32 input;
  '(input, format_bytes) ← nom_le_u32 input;
  '(input, root_cell) ← nom_le_i32 input;
  '(input, hive_bins) ← nom_le_u32 input;
  '(input, clustering) ← nom_le_u32 input;
  '(input, filename_bytes) ← nom_take_streaming 64 input;
  '(input, unk2_bytes) ← nom_take_streaming 396 input;
  '(input, sum) ← nom_le_u32 input;
  let (ft, lg) := FileType_from_value file_type_bytes Logs_default in
  let (ff, lg) := FileFormat_from_value format_bytes lg in
  '(name, lg) ← from_utf16_le_string filename_bytes 64 lg (lit "Filename");
  Ok (input,
      {| primary_sequence_number := psn;
         secondary_sequence_number := ssn;
         last_modification_date_and_time := get_date_time_from_filetime last_modification;
         major_version := major;
         minor_version := minor;
         file_type := ft;
         format := ff;
         root_cell_offset_relative := root_cell;
         hive_bins_data_size := hive_bins;
         clustering_factor := clustering;
         filename := name;
         unk2 := unk2_bytes;
         checksum := sum;
         bb_logs := lg |}).

(** The [while index <= 0x01FB] loop: 127 words. *)
Fixpoint checksum_loop (fuel : nat) (bytes : list byte) (index xsum : Z) : res Error Z :=
  if index <=? 0x01FB then
    match fuel with
    | O => NoFuel
    | S k =>
        slice ← ok_or (Error_buffer "calculate_checksum") (get_range bytes index (index + 4));
        checksum_loop k bytes (index + 4) (Z.lxor xsum (from_le_bytes slice))
    end
  else Ok xsum.

Definition calculate_checksum (bytes : list byte) : res Error Z :=
  xsum ← checksum_loop 127 bytes 0 0;
  Ok (if xsum =? 0 then 1
      else if xsum =? 0xFFFFFFFF then 0xFFFFFFFE
      else xsum).

Definition FileBaseBlockReserved_from_bytes (input : list byte)
    : presult FileBaseBlockReserved :=
  '(input, rm) ← nom_take_streaming 16 input;
  '(input, log) ← nom_take_streaming 16 input;
  '(input, flag_bits) ← nom_le_u32 input;
  '(input, tm) ← nom_take_streaming 16 input;
  '(input, sig) ← nom_le_u32 input;
  '(input, last_reorganized) ← nom_le_u64 input;
  '(input, rest) ← nom_take_streaming 3512 input;
  '(rm_guid, lg) ← get_guid_from_buffer rm Logs_default;
  '(log_guid, lg) ← get_guid_from_buffer log lg;
  let (fl, lg) := ReservedFlags_from_value flag_bits lg in
  '(tm_guid, lg) ← get_guid_from_buffer tm lg;
  Ok (input,
      {| rm_id := rm_guid;
         log_id := log_guid;
         flags := fl;
         tm_id := tm_guid;
         signature := sig;
         last_reorganized_timestamp := get_date_time_from_filetime last_reorganized;
         remaining := rest;
         res_logs := lg |}).

Definition BaseBlockExtended_from_bytes (input : list byte) : presult BaseBlockExtended :=
  '(input, r) ← FileBaseBlockReserved_from_bytes input;
  '(input, bt) ← nom_le_u32 input;
  '(input, br) ← nom_le_u32 input;
  Ok (input, {| reserved := r; boot_type := bt; boot_recover := br |}).

Definition BaseBlock_from_bytes (input : list byte) : presult BaseBlock :=
  '(input, b) ← BaseBlockBase_from_bytes input;
  '(input, e) ← BaseBlockExtended_from_bytes input;
  Ok (input, {| base := b; ext := e |}).

(** [impl PartialEq for FileBaseBlockReserved]: the logs are not compared. *)
Definition FileBaseBlockReserved_eqb `{!EqDecision Guid, !EqDecision DateTime}
    (self other : FileBaseBlockReserved) : bool :=
  bool_decide (rm_id self = rm_id other)
  && bool_decide (log_id self = log_id other)
  && bool_decide (flags self = flags other)
  && bool_decide (tm_id self = tm_id other)
  && (signature self =? signature other)
  && bool_decide (last_reorganized_timestamp self = last_reorganized_timestamp other)
  && bool_decide (remaining self = remaining other).

(** ** The checksum *)

(** The 32-bit little-endian words at the front of a buffer. *)
Fixpoint le_words (n : nat) (bs : list byte) : list Z :=
  match n with
  | O => []
  | S k => from_le_bytes (ztake 4 bs) :: le_words k (zdrop 4 bs)
  end.

Lemma checksum_loop_fold n bytes index xsum :
  index = 508 - 4 * Z.of_nat n -> 0 <= index -> 508 <= len bytes ->
  checksum_loop n bytes index xsum = Ok (foldl Z.lxor xsum (le_words n (zdrop index bytes))).
Proof.
  revert index xsum. induction n as [|n IH]; intros index xsum Hi H0 Hl; cbn [checksum_loop].
  { subst. cbn. done. }
  destruct (Z.leb_spec index 0x1FB); [|lia].
  assert (get_range bytes index (index + 4) = Some (ztake 4 (zdrop index bytes))) as ->.
  { apply get_range_Some. split_and!; [lia..|]. do 2 f_equal. lia. }
  cbn [ok_or mbind res_bind le_words foldl]. rewrite IH by lia.
  by rewrite zdrop_zdrop by lia.
Qed.

Lemma checksum_loop_short n bytes index xsum :
  index = 508 - 4 * Z.of_nat n -> 0 <= index -> len bytes < 508 -> (0 < n)%nat ->
  checksum_loop n bytes index xsum = Err (Error_buffer "calculate_checksum").
Proof.
  revert index xsum. induction n as [|n IH]; intros index xsum Hi H0 Hl Hn; [lia|].
  cbn [checksum_loop]. destruct (Z.leb_spec index 0x1FB); [|lia].
  destruct (get_range bytes index (index + 4)) as [s|] eqn:Hg; [|done].
  apply get_range_Some in Hg as (? & ? & ->). cbn [ok_or mbind res_bind].
  apply IH; lia.
Qed.

Lemma le_words_range n bs : Forall (fun w => 0 <= w < U32_MOD) (le_words n bs).
Proof.
  revert bs. induction n as [|n IH]; intros bs; constructor; [|apply IH].
  pose proof (from_le_bytes_bound (ztake 4 bs)).
  assert (2 ^ (8 * len (ztake 4 bs)) <= U32_MOD).
  { apply Z.pow_le_mono_r; [lia|]. len_lia. }
  lia.
Qed.

Lemma foldl_lxor_range l x :
  Forall (fun w => 0 <= w < U32_MOD) l -> 0 <= x < U32_MOD -> 0 <= foldl Z.lxor x l < U32_MOD.
Proof.
  intros Hl. revert x. induction Hl as [|w l Hw _ IH]; intros x Hx; [done|].
  apply IH. by apply (lxor_range 32).
Qed.

(** Only the first 508 bytes matter. *)
Lemma le_words_ztake n bs m : 4 * Z.of_nat n <= m -> 4 * Z.of_nat n <= len bs ->
  le_words n (ztake m bs) = le_words n bs.
Proof.
  revert bs m. induction n as [|n IH]; intros bs m Hm Hb; [done|]. cbn. f_equal.
  - f_equal. unfold ztake. rewrite take_take. f_equal. lia.
  - rewrite <- (IH (zdrop 4 bs) (m - 4)) by len_lia.
    f_equal. unfold ztake, zdrop. rewrite take_drop_commute. f_equal. f_equal. lia.
Qed.

Lemma calculate_checksum_total bytes :
  508 <= len bytes ->
  exists c, calculate_checksum bytes = Ok c /\ 0 < c < 0xFFFFFFFF /\
    calculate_checksum (ztake 508 bytes) = Ok c /\
    let x := foldl Z.lxor 0 (le_words 127 bytes) in
    (x = 0 -> c = 1) /\ (x = 0xFFFFFFFF -> c = 0xFFFFFFFE) /\
    (x <> 0 -> x <> 0xFFFFFFFF -> c = x).
Proof.
  intros Hl. unfold calculate_checksum.
  rewrite checksum_loop_fold, zdrop_0 by (done || lia).
  rewrite checksum_loop_fold, zdrop_0 by (done || len_lia).
  rewrite le_words_ztake by lia. set (x := foldl Z.lxor 0 (le_words 127 bytes)).
  assert (0 <= x < U32_MOD) as Hx by (apply foldl_lxor_range; [apply le_words_range|done]).
  unfold U32_MOD in Hx. cbn [mbind res_bind]. eexists. split; [done|].
  destruct (Z.eqb_spec x 0), (Z.eqb_spec x 0xFFFFFFFF); split_and!; intros; try done; lia.
Qed.

(** C30: the checksum of a buffer of at least 508 bytes is the XOR of its first 127
    little-endian words, except that [0] becomes [1] and [0xFFFFFFFF] becomes [0xFFFFFFFE], so
    it is never one of these two; it reads nothing past byte 508.  A shorter buffer is an
    error. *)
Theorem calculate_checksum_spec bytes :
  (508 <= len bytes ->
   exists c, calculate_checksum bytes = Ok c /\ 0 < c < 0xFFFFFFFF /\
     calculate_checksum (ztake 508 bytes) = Ok c /\
     let x := foldl Z.lxor 0 (le_words 127 bytes) in
     (x = 0 -> c = 1) /\ (x = 0xFFFFFFFF -> c = 0xFFFFFFFE) /\
     (x <> 0 -> x <> 0xFFFFFFFF -> c = x)) /\
  (len bytes < 508 -> calculate_checksum bytes = Err (Error_buffer "calculate_checksum")).
Proof.
  split; intros Hl; [by apply calculate_checksum_total|]. unfold calculate_checksum.
  by rewrite checksum_loop_short by (done || lia).
Qed.

Lemma calculate_checksum_spec_witness :
  calculate_checksum (replicate 508 Byte.x00) = Ok 1 /\
  calculate_checksum (replicate 508 Byte.xff) = Ok 0xFFFFFFFE /\
  calculate_checksum [] = Err (Error_buffer "calculate_checksum").
Proof.
  split; [|split].
  - destruct (proj1 (calculate_checksum_spec (replicate 508 Byte.x00))
      ltac:(vm_compute; discriminate)) as (c & H1 & _ & _ & H0 & _).
    rewrite H1, H0 by (vm_compute; reflexivity). reflexivity.
  - destruct (proj1 (calculate_checksum_spec (replicate 508 Byte.xff))
      ltac:(vm_compute; discriminate)) as (c & H1 & _ & _ & _ & Hf & _).
    rewrite H1, Hf by (vm_compute; reflexivity). reflexivity.
  - exact (proj2 (calculate_checksum_spec []) ltac:(vm_compute; reflexivity)).
Defined.

(** ** The header *)

Lemma get_guid_total {Er} bs lg : exists g lg', get_guid_from_buffer (Er:=Er) bs lg = Ok (g, lg').
Proof.
  unfold get_guid_from_buffer. destruct (guid_from_buffer bs); [|eauto].
  destruct (guid_from_buffer_ok (replicate 16 Byte.x00)) as [g ->]; [done|eauto].
Qed.

(** Where the fields of the base block are read from. *)
Lemma BaseBlockBase_from_bytes_Ok input r b :
  BaseBlockBase_from_bytes input = Ok (r, b) ->
  512 <= len input /\ r = zdrop 512 input /\ ztake 4 input = bytes_of "regf" /\
  primary_sequence_number b = from_le_bytes (ztake 4 (zdrop 4 input)) /\
  secondary_sequence_number b = from_le_bytes (ztake 4 (zdrop 8 input)) /\
  root_cell_offset_relative b = as_i32 (from_le_bytes (ztake 4 (zdrop 36 input))) /\
  hive_bins_data_size b = from_le_bytes (ztake 4 (zdrop 40 input)) /\
  checksum b = from_le_bytes (ztake 4 (zdrop 508 input)) /\
  file_type b =
    (FileType_from_value (from_le_bytes (ztake 4 (zdrop 28 input))) Logs_default).1.
Proof.
  unfold BaseBlockBase_from_bytes. intros H. inv_bind.
  destruct (FileType_from_value _ _) as [ft lg1] eqn:Hft.
  destruct (FileFormat_from_value _ _) as [ff lg2] eqn:Hff. inv_bind. parse_inv. drops.
  cbn. split_and!; try done; [len_lia|]. by rewrite Hft.
Qed.

Lemma BaseBlockBase_from_bytes_total input :
  512 <= len input -> ztake 4 input = bytes_of "regf" ->
  exists r b, BaseBlockBase_from_bytes input = Ok (r, b).
Proof.
  intros Hl Ht. unfold BaseBlockBase_from_bytes. rewrite nom_tag_spec, spec_tag_at;
    [|change (len (bytes_of "regf")) with 4; lia|done].
  change (len (bytes_of "regf")) with 4. cbn [mbind res_bind]. parse_run.
  destruct (FileType_from_value _ _) as [ft lg1].
  destruct (FileFormat_from_value _ _) as [ff lg2].
  unfold from_utf16_le_string. rewrite (proj2 (Z.leb_le _ _)) by len_lia.
  destruct (single_total (Er:=nom_err) (ztake 64 (zdrop 48 input)) 64 lg2 (lit "Filename"))
    as (s & n & lg' & -> & _); [len_lia|]. cbn. eauto.
Qed.

Lemma BaseBlockExtended_from_bytes_Ok input r e :
  BaseBlockExtended_from_bytes input = Ok (r, e) -> 3584 <= len input /\ r = zdrop 3584 input.
Proof.
  unfold BaseBlockExtended_from_bytes, FileBaseBlockReserved_from_bytes. intros H. inv_bind.
  destruct (ReservedFlags_from_value _ _) as [fl lg]. inv_bind. parse_inv. drops.
  split; [len_lia|done].
Qed.

Lemma BaseBlockExtended_from_bytes_total k input :
  0 <= k -> k + 3584 <= len input ->
  exists r e, BaseBlockExtended_from_bytes (zdrop k input) = Ok (r, e).
Proof.
  intros Hk Hl. unfold BaseBlockExtended_from_bytes, FileBaseBlockReserved_from_bytes.
  rewrite <- (zdrop_0 (zdrop k input)).
  assert (3584 <= len (zdrop k input)) as Hl' by len_lia.
  revert Hl'. generalize (zdrop k input) as i. clear Hl. intros i Hl. parse_run.
  edestruct (@get_guid_total nom_err) as (g1 & lg1 & ->). cbn.
  edestruct (@get_guid_total nom_err) as (g2 & lg2 & ->). cbn.
  destruct (ReservedFlags_from_value _ _) as [fl lg3]. cbn.
  edestruct (@get_guid_total nom_err) as (g3 & lg4 & ->). cbn.
  parse_run. eauto.
Qed.

Lemma BaseBlock_from_bytes_total input :
  4096 <= len input -> ztake 4 input = bytes_of "regf" ->
  exists r b, BaseBlock_from_bytes input = Ok (r, b).
Proof.
  intros Hl Ht. unfold BaseBlock_from_bytes.
  destruct (BaseBlockBase_from_bytes_total input ltac:(lia) Ht) as (r1 & b1 & H1).
  rewrite H1. apply BaseBlockBase_from_bytes_Ok in H1 as (_ & -> & _). cbn.
  destruct (BaseBlockExtended_from_bytes_total 512 input ltac:(lia) ltac:(lia))
    as (r2 & e & ->). cbn. eauto.
Qed.

(** The kinds of files by number. *)
Definition file_kind (n : Z) : FileType :=
  match n with
  | 0 => FT_Primary
  | 1 => FT_TransactionLog
  | 6 => FT_TransactionLogNewFormat
  | _ => FT_Unknown
  end.
Lemma file_kind_from_value n lg : (FileType_from_value n lg).1 = file_kind n.
Proof.
  unfold FileType_from_value, from_value. rewrite prim_from_u32_spec. unfold FileType_table.
  repeat (rewrite filter_cons; cbn [fst]; case_decide; [by subst|]).
  cbn. unfold file_kind. destruct n as [|p|p]; try done. do 3 (destruct p as [p|p|]; try done).
Qed.

Lemma BaseBlockBase_fields input r b :
  BaseBlockBase_from_bytes input = Ok (r, b) ->
  primary_sequence_number b = le_at 4 4 input /\
  secondary_sequence_number b = le_at 4 8 input /\
  last_modification_date_and_time b = get_date_time_from_filetime (le_at 8 12 input) /\
  major_version b = le_at 4 20 input /\ minor_version b = le_at 4 24 input /\
  file_type b = file_kind (le_at 4 28 input) /\
  root_cell_offset_relative b = as_i32 (le_at 4 36 input) /\
  hive_bins_data_size b = le_at 4 40 input /\ clustering_factor b = le_at 4 44 input /\
  unk2 b = ztake 396 (zdrop 112 input) /\ checksum b = le_at 4 508 input.
Proof.
  unfold BaseBlockBase_from_bytes. intros H. inv_bind.
  destruct (FileType_from_value _ _) as [ft lg1] eqn:Hft.
  destruct (FileFormat_from_value _ _) as [ff lg2] eqn:Hff. inv_bind. parse_inv. drops.
  cbn. split_and!; try done. rewrite <- (file_kind_from_value _ Logs_default). unfold le_at. by rewrite Hft.
Qed.
Lemma BaseBlockExtended_fields input r e :
  BaseBlockExtended_from_bytes input = Ok (r, e) ->
  signature (reserved e) = le_at 4 52 input /\
  last_reorganized_timestamp (reserved e) = get_date_time_from_filetime (le_at 8 56 input) /\
  remaining (reserved e) = ztake 3512 (zdrop 64 input) /\
  boot_type e = le_at 4 3576 input /\ boot_recover e = le_at 4 3580 input.
Proof.
  unfold BaseBlockExtended_from_bytes, FileBaseBlockReserved_from_bytes. intros H. inv_bind.
  destruct (ReservedFlags_from_value _ _) as [fl lg]. inv_bind. parse_inv. drops. by cbn.
Qed.

Lemma BaseBlock_from_bytes_Ok input r b :
  BaseBlock_from_bytes input = Ok (r, b) ->
  4096 <= len input /\ r = zdrop 4096 input /\
  BaseBlockBase_from_bytes input = Ok (zdrop 512 input, base b).
Proof.
  unfold BaseBlock_from_bytes. intros H. inv_bind.
  match goal with H1 : BaseBlockBase_from_bytes _ = _ |- _ =>
    pose proof H1 as Hb; apply BaseBlockBase_from_bytes_Ok in H1 as (? & -> & ? & _) end.
  match goal with H1 : BaseBlockExtended_from_bytes _ = _ |- _ =>
    apply BaseBlockExtended_from_bytes_Ok in H1 as (? & ->) end.
  drops. split_and!; [len_lia|done|done].
Qed.

End BaseBlock.

(** A header with sequence numbers 7 and 6 and the root at 32, and a byte after it. *)
Definition header_sample : list byte :=
  bytes_of "regf" ++ to_le_bytes 4 7 ++ to_le_bytes 4 6 ++ replicate 24 Byte.x00
  ++ to_le_bytes 4 32 ++ replicate (Z.to_nat 4056) Byte.x00 ++ [Byte.x2a].

