(* ===== verification/SubKeyLists.v ===== *)
(** * SubKeyLists: the lists that hold the offsets of a key's subkeys

    [src/src/sub_key_list_lf.rs], [sub_key_list_lh.rs], [sub_key_list_li.rs],
    [sub_key_list_ri.rs], [src/src/hive_bin_cell.rs] and
    [CellKeyNode::parse_sub_key_list] ([src/src/cell_key_node.rs]).  An [ri] list points
    to other lists, so following one recurses with no bound on the depth; the model
    takes the depth as fuel. *)

From S2P Require Import Prelude Env Log Util UtilFacts Cells.

Section SubKeyLists.
Context `{E : Env}.

(** ** [hive_bin_cell.rs] *)

(** [Box<dyn CellSubKeyList>]. *)
Record dyn_CellSubKeyList := {
  dyn_size : Z;
  dyn_get_offset_list : Z -> res Error (list Z);
}.

(** [impl PartialEq for dyn CellSubKeyList]; the second pair of calls is made only when
    the sizes agree. *)
Definition dyn_eq (self other : dyn_CellSubKeyList) : res Error bool :=
  if dyn_size self =? dyn_size other then
    a ← dyn_get_offset_list self 0;
    b ← dyn_get_offset_list other 0;
    Ok (bool_decide (a = b))
  else Ok false.

Definition dyn_debug (self : dyn_CellSubKeyList) : ustr :=
  lit "CellSubKeyList size:" ++ fmt_dec (dyn_size self).

(** ** [lf] *)

Record SubKeyListLfItem := {
  lf_named_key_offset_relative : Z;
  lf_name_hint : ustr;
  lf_item_logs : Logs;
}.
Record SubKeyListLf := { lf_size : Z; lf_count : Z; lf_items : list SubKeyListLfItem }.

Definition SubKeyListLfItem_from_bytes : parser SubKeyListLfItem := fun input =>
  '(input, named_key_offset_relative) ← nom_le_u32 input;
  '(input, name_hint) ← nom_take 4 input;
  '(hint, lg) ← from_ascii name_hint Logs_default (lit "SubKeyListLfItem::key_name");
  Ok (input, {| lf_named_key_offset_relative := named_key_offset_relative;
                lf_name_hint := hint; lf_item_logs := lg |}).

Definition SubKeyListLf_from_bytes_internal : parser SubKeyListLf := fun input =>
  '(input, size) ← nom_le_i32 input;
  '(input, _) ← nom_tag (bytes_of "lf") input;
  '(input, count) ← nom_le_u16 input;
  '(input, items) ← nom_count SubKeyListLfItem_from_bytes count input;
  Ok (input, {| lf_size := unsigned_abs size; lf_count := count; lf_items := items |}).

Definition SubKeyListLf_get_offset_list (self : SubKeyListLf) (hbin_offset_absolute : Z)
    : res Error (list Z) :=
  mapM (fun x => add_u32 (lf_named_key_offset_relative x) hbin_offset_absolute) (lf_items self).

Definition SubKeyListLf_dyn (self : SubKeyListLf) : dyn_CellSubKeyList :=
  {| dyn_size := lf_size self; dyn_get_offset_list := SubKeyListLf_get_offset_list self |}.

Definition SubKeyListLf_from_bytes : parser dyn_CellSubKeyList := fun input =>
  '(input, r) ← SubKeyListLf_from_bytes_internal input; Ok (input, SubKeyListLf_dyn r).

(** ** [lh] *)

Record SubKeyListLhItem := { lh_named_key_offset_relative : Z; lh_name_hash : Z }.
Record SubKeyListLh := { lh_size : Z; lh_count : Z; lh_items : list SubKeyListLhItem }.

Definition SubKeyListLhItem_from_bytes : parser SubKeyListLhItem := fun input =>
  '(input, named_key_offset_relative) ← nom_le_u32 input;
  '(input, name_hash) ← nom_le_u32 input;
  Ok (input, {| lh_named_key_offset_relative := named_key_offset_relative;
                lh_name_hash := name_hash |}).

Definition SubKeyListLh_from_bytes_internal : parser SubKeyListLh := fun input =>
  '(input, size) ← nom_le_i32 input;
  '(input, _) ← nom_tag (bytes_of "lh") input;
  '(input, count) ← nom_le_u16 input;
  '(input, items) ← nom_count SubKeyListLhItem_from_bytes count input;
  Ok (input, {| lh_size := unsigned_abs size; lh_count := count; lh_items := items |}).

Definition SubKeyListLh_get_offset_list (self : SubKeyListLh) (hbin_offset_absolute : Z)
    : res Error (list Z) :=
  Ok (omap (fun x => checked_add_u32 (lh_named_key_offset_relative x) hbin_offset_absolute)
        (lh_items self)).

Definition SubKeyListLh_dyn (self : SubKeyListLh) : dyn_CellSubKeyList :=
  {| dyn_size := lh_size self; dyn_get_offset_list := SubKeyListLh_get_offset_list self |}.

Definition SubKeyListLh_from_bytes : parser dyn_CellSubKeyList := fun input =>
  '(input, r) ← SubKeyListLh_from_bytes_internal input; Ok (input, SubKeyListLh_dyn r).

(** ** [li] *)

Record SubKeyListLiItem := { li_named_key_offset_relative : Z }.
Record SubKeyListLi := { li_size : Z; li_count : Z; li_items : list SubKeyListLiItem }.

Definition SubKeyListLiItem_from_bytes : parser SubKeyListLiItem := fun input =>
  '(input, named_key_offset_relative) ← nom_le_u32 input;
  Ok (input, {| li_named_key_offset_relative := named_key_offset_relative |}).

Definition SubKeyListLi_from_bytes_internal : parser SubKeyListLi := fun input =>
  '(input, size) ← nom_le_i32 input;
  '(input, _) ← nom_tag (bytes_of "li") input;
  '(input, count) ← nom_le_u16 input;
  '(input, items) ← nom_count SubKeyListLiItem_from_bytes count input;
  Ok (input, {| li_size := unsigned_abs size; li_count := count; li_items := items |}).

Definition SubKeyListLi_get_offset_list (self : SubKeyListLi) (hbin_offset_absolute : Z)
    : res Error (list Z) :=
  mapM (fun x => add_u32 (li_named_key_offset_relative x) hbin_offset_absolute) (li_items self).

Definition SubKeyListLi_dyn (self : SubKeyListLi) : dyn_CellSubKeyList :=
  {| dyn_size := li_size self; dyn_get_offset_list := SubKeyListLi_get_offset_list self |}.

Definition SubKeyListLi_from_bytes : parser dyn_CellSubKeyList := fun input =>
  '(input, r) ← SubKeyListLi_from_bytes_internal input; Ok (input, SubKeyListLi_dyn r).

(** ** [ri] *)

Record SubKeyListRiItem := { ri_sub_key_list_offset_relative : Z }.
Record SubKeyListRi := { ri_size : Z; ri_count : Z; ri_items : list SubKeyListRiItem }.

Definition parse_sub_key_list_ri_item : parser SubKeyListRiItem := fun input =>
  '(input, sub_key_list_offset_relative) ← nom_le_u32 input;
  Ok (input, {| ri_sub_key_list_offset_relative := sub_key_list_offset_relative |}).

Definition SubKeyListRi_from_bytes : parser SubKeyListRi := fun input =>
  '(input, size) ← nom_le_i32 input;
  '(input, _) ← nom_tag (bytes_of "ri") input;
  '(input, count) ← nom_le_u16 input;
  '(input, list_offsets) ← nom_count parse_sub_key_list_ri_item count input;
  Ok (input, {| ri_size := unsigned_abs size; ri_count := count; ri_items := list_offsets |}).

Definition SubKeyListRi_get_offset_list (self : SubKeyListRi) (hbin_offset_absolute : Z)
    : res Error (list Z) :=
  mapM (fun x => add_u32 (ri_sub_key_list_offset_relative x) hbin_offset_absolute)
    (ri_items self).

(** [SubKeyListRi::parse_offsets], over the recursive call. *)
Fixpoint parse_offsets_items (rec : Z -> res Error (list Z)) (items : list SubKeyListRiItem)
    (list_ : list Z) : res Error (list Z) :=
  match items with
  | [] => Ok list_
  | item :: items =>
      sub_list ← rec (ri_sub_key_list_offset_relative item);
      parse_offsets_items rec items (list_ ++ sub_list)
  end.
Definition parse_offsets (rec : Z -> res Error (list Z)) (self : SubKeyListRi)
    : res Error (list Z) := parse_offsets_items rec (ri_items self) [].

(** [CellKeyNode::parse_sub_key_list]; the state it is passed is not used. *)
Fixpoint parse_sub_key_list (fuel : nat) (file_info : FileInfo) (list_offset_relative : Z)
    : res Error (list Z) :=
  match fuel with
  | O => NoFuel
  | S k =>
      let file_offset_absolute := list_offset_relative + hbin_offset_absolute file_info in
      slice ← ok_or (Error_buffer "parse_sub_key_list")
                (get_from (buffer file_info) file_offset_absolute);
      match SubKeyListRi_from_bytes slice with
      | Ok (_, sub_key_list_ri) =>
          parse_offsets (parse_sub_key_list k file_info) sub_key_list_ri
      | Err _ =>
          '(_, cell_sub_key_list) ← nom_q (nom_alt
             [SubKeyListLf_from_bytes; SubKeyListLh_from_bytes; SubKeyListLi_from_bytes] slice);
          dyn_get_offset_list cell_sub_key_list (hbin_offset_absolute file_info mod U32_MOD)
      | Panic => Panic
      | NoFuel => NoFuel
      end
  end.

(** ** Encodings *)

Definition encode_list {A} (tag : string) (enc : A -> list byte) (size : Z) (items : list A)
    : list byte :=
  to_le_bytes 4 size ++ bytes_of tag ++ to_le_bytes 2 (len items) ++ (items ≫= enc).

(** An [lh] element: offset and name hash; an [lf] element: offset and hint; an [li]
    element: offset. *)
Definition encode_lh_item (x : SubKeyListLhItem) : list byte :=
  to_le_bytes 4 (lh_named_key_offset_relative x) ++ to_le_bytes 4 (lh_name_hash x).
Definition encode_li_item (x : SubKeyListLiItem) : list byte :=
  to_le_bytes 4 (li_named_key_offset_relative x).
Definition encode_lf_item (x : Z * list byte) : list byte := to_le_bytes 4 x.1 ++ x.2.

Lemma spec_count_encode {A B} (p : parser B) (enc : A -> list byte) (f : A -> B) items rest :
  Forall (fun a => forall r, p (enc a ++ r) = Ok (r, f a)) items ->
  spec_count p (length items) ((items ≫= enc) ++ rest) = Ok (rest, f <$> items).
Proof.
  induction 1 as [|a items Ha _ IH]; [done|]. cbn [mbind list_bind length spec_count].
  rewrite <- app_assoc, Ha. cbn [mbind res_bind].
  change (list_bind A byte enc items) with (items ≫= enc). rewrite IH. done.
Qed.

Lemma nom_le_u32_app z r :
  0 <= z < U32_MOD -> nom_le_u32 (to_le_bytes 4 z ++ r) = Ok (r, z).
Proof.
  intros Hz. rewrite nom_le_u32_spec, spec_le_app by done.
  by rewrite from_to_le_bytes by (unfold U32_MOD in Hz; simpl; lia).
Qed.

Lemma nom_le_u16_app z r :
  0 <= z < U16_MOD -> nom_le_u16 (to_le_bytes 2 z ++ r) = Ok (r, z).
Proof.
  intros Hz. rewrite nom_le_u16_spec, spec_le_app by done.
  by rewrite from_to_le_bytes by (unfold U16_MOD in Hz; simpl; lia).
Qed.

Lemma nom_le_i32_app z r :
  0 <= z < U32_MOD -> nom_le_i32 (to_le_bytes 4 z ++ r) = Ok (r, as_i32 z).
Proof.
  intros Hz. rewrite nom_le_i32_spec, spec_le_app by done.
  by rewrite from_to_le_bytes by (unfold U32_MOD in Hz; simpl; lia).
Qed.

Lemma nom_tag_app t r : nom_tag t (t ++ r) = Ok (r, t).
Proof. by rewrite nom_tag_spec, spec_tag_app. Qed.

(** The size field read back: a free cell has a positive size, an allocated one negative. *)
Definition u32_of_i32 (z : Z) : Z := z mod U32_MOD.

Lemma as_i32_u32_of_i32 z : - 2 ^ 31 <= z < 2 ^ 31 -> as_i32 (u32_of_i32 z) = z.
Proof.
  intros Hz. unfold as_i32, u32_of_i32, wrap_signed, U32_MOD.
  rewrite Zplus_mod_idemp_l, Z.mod_small; lia.
Qed.

(** An [lh] cell of any size field and up to 65535 elements parses back to its elements,
    leaving exactly the bytes after it. *)
Lemma SubKeyListLh_roundtrip size items rest :
  - 2 ^ 31 <= size < 2 ^ 31 -> len items < U16_MOD ->
  Forall (fun x => 0 <= lh_named_key_offset_relative x < U32_MOD /\
                   0 <= lh_name_hash x < U32_MOD) items ->
  SubKeyListLh_from_bytes_internal
    (encode_list "lh" encode_lh_item (u32_of_i32 size) items ++ rest)
  = Ok (rest, {| lh_size := Z.abs size; lh_count := len items; lh_items := items |}).
Proof.
  intros Hs Hl Hi. unfold SubKeyListLh_from_bytes_internal, encode_list.
  rewrite <- !app_assoc, nom_le_i32_app by (by apply Z.mod_pos_bound). cbn [mbind res_bind].
  rewrite nom_tag_app. cbn [mbind res_bind]. pose proof (len_nonneg items).
  rewrite nom_le_u16_app by lia. cbn [mbind res_bind].
  rewrite nom_count_spec. replace (Z.to_nat (len items)) with (length items) by (unfold len; lia).
  rewrite (spec_count_encode _ _ id).
  - cbn. by rewrite list_fmap_id, as_i32_u32_of_i32.
  - eapply Forall_impl; [exact Hi|]. intros [o h] [Ho Hh] r. cbn in Ho, Hh.
    unfold SubKeyListLhItem_from_bytes, encode_lh_item. cbn [lh_named_key_offset_relative lh_name_hash].
    rewrite <- app_assoc, nom_le_u32_app by done. cbn.
    by rewrite nom_le_u32_app by done.
Qed.

(** The same for [lf], whose hints are decoded, and [li]. *)
Lemma SubKeyListLf_roundtrip size items rest :
  - 2 ^ 31 <= size < 2 ^ 31 -> len items < U16_MOD ->
  Forall (fun x => 0 <= x.1 < U32_MOD /\ len x.2 = 4) items ->
  SubKeyListLf_from_bytes_internal
    (encode_list "lf" encode_lf_item (u32_of_i32 size) items ++ rest)
  = Ok (rest, {| lf_size := Z.abs size; lf_count := len items;
                 lf_items := (fun x => {| lf_named_key_offset_relative := x.1;
                                          lf_name_hint := byte.unsigned <$> x.2;
                                          lf_item_logs := Logs_default |}) <$> items |}).
Proof.
  intros Hs Hl Hi. unfold SubKeyListLf_from_bytes_internal, encode_list.
  rewrite <- !app_assoc, nom_le_i32_app by (by apply Z.mod_pos_bound). cbn [mbind res_bind].
  rewrite nom_tag_app. cbn [mbind res_bind]. pose proof (len_nonneg items).
  rewrite nom_le_u16_app by lia. cbn [mbind res_bind].
  rewrite nom_count_spec. replace (Z.to_nat (len items)) with (length items) by (unfold len; lia).
  erewrite spec_count_encode.
  - cbn. by rewrite as_i32_u32_of_i32.
  - eapply Forall_impl; [exact Hi|]. intros [o h] [Ho Hh] r. cbn in Ho, Hh.
    unfold SubKeyListLfItem_from_bytes, encode_lf_item. cbn [fst snd].
    rewrite <- app_assoc, nom_le_u32_app by done. cbn [mbind res_bind].
    rewrite nom_take_spec, spec_take_app by done. cbn [mbind res_bind].
    unfold from_ascii. rewrite from_ascii_loop_latin1. done.
Qed.

Lemma SubKeyListLi_roundtrip size items rest :
  - 2 ^ 31 <= size < 2 ^ 31 -> len items < U16_MOD ->
  Forall (fun x => 0 <= li_named_key_offset_relative x < U32_MOD) items ->
  SubKeyListLi_from_bytes_internal
    (encode_list "li" encode_li_item (u32_of_i32 size) items ++ rest)
  = Ok (rest, {| li_size := Z.abs size; li_count := len items; li_items := items |}).
Proof.
  intros Hs Hl Hi. unfold SubKeyListLi_from_bytes_internal, encode_list.
  rewrite <- !app_assoc, nom_le_i32_app by (by apply Z.mod_pos_bound). cbn [mbind res_bind].
  rewrite nom_tag_app. cbn [mbind res_bind]. pose proof (len_nonneg items).
  rewrite nom_le_u16_app by lia. cbn [mbind res_bind].
  rewrite nom_count_spec. replace (Z.to_nat (len items)) with (length items) by (unfold len; lia).
  rewrite (spec_count_encode _ _ id).
  - cbn. by rewrite list_fmap_id, as_i32_u32_of_i32.
  - eapply Forall_impl; [exact Hi|]. intros [o] Ho r. cbn in Ho.
    unfold SubKeyListLiItem_from_bytes, encode_li_item. cbn [li_named_key_offset_relative].
    by rewrite nom_le_u32_app by done.
Qed.

(** ** Offset lists *)

Lemma mapM_add_u32_fits {A} (f : A -> Z) h items :
  Forall (fun x => f x + h < U32_MOD) items ->
  mapM (M:=res Error) (fun x => add_u32 (f x) h) items = Ok ((fun x => f x + h) <$> items).
Proof.
  induction 1 as [|x items Hx _ IH]; [done|]. cbn [mapM].
  rewrite add_u32_fits by done. cbn [mbind res_bind]. by rewrite IH.
Qed.

Lemma mapM_add_u32_overflow {A} (f : A -> Z) h items x :
  x ∈ items -> U32_MOD <= f x + h -> overflow_checks = true ->
  mapM (M:=res Error) (fun x => add_u32 (f x) h) items = Panic.
Proof.
  intros Hin Hx Hoc. induction items as [|y items IH]; [by apply not_elem_of_nil in Hin|].
  cbn [mapM]. apply elem_of_cons in Hin.
  destruct (Z.ltb_spec (f y + h) U32_MOD) as [Hy|Hy].
  - destruct Hin as [->|Hin]; [lia|]. rewrite add_u32_fits by done.
    cbn [mbind res_bind]. by rewrite IH.
  - by rewrite add_u32_overflow.
Qed.

(** Element offsets become absolute by adding the start of the hive bins.  The [lh] list
    drops the elements whose sum does not fit 32 bits and never fails; the [lf] list
    agrees with it when every sum fits, and with overflow checks panics otherwise. *)
Lemma get_offset_list_overflow (lh : SubKeyListLh) (lf : SubKeyListLf) h :
  lh_named_key_offset_relative <$> lh_items lh = lf_named_key_offset_relative <$> lf_items lf ->
  let offs := lh_named_key_offset_relative <$> lh_items lh in
  SubKeyListLh_get_offset_list lh h =
    Ok ((fun o => o + h) <$> filter (fun o => o + h < U32_MOD) offs) /\
  (Forall (fun o => o + h < U32_MOD) offs ->
   SubKeyListLf_get_offset_list lf h = SubKeyListLh_get_offset_list lh h) /\
  (~ Forall (fun o => o + h < U32_MOD) offs -> overflow_checks = true ->
   SubKeyListLf_get_offset_list lf h = Panic).
Proof.
  intros Heq offs.
  assert (SubKeyListLh_get_offset_list lh h =
    Ok ((fun o => o + h) <$> filter (fun o => o + h < U32_MOD) offs)) as Hlh.
  { unfold SubKeyListLh_get_offset_list, offs. f_equal. clear.
    induction (lh_items lh) as [|x items IH]; [done|]. cbn [omap list_omap].
    rewrite fmap_cons.
    rewrite filter_cons. unfold checked_add_u32 at 1.
    destruct (Z.ltb_spec (lh_named_key_offset_relative x + h) U32_MOD) as [Hx|Hx].
    - rewrite decide_True by done. cbn. by rewrite IH.
    - rewrite decide_False by lia. done. }
  split_and!; [done| |].
  - intros Hf. rewrite Hlh. unfold SubKeyListLf_get_offset_list.
    assert (filter (fun o => o + h < U32_MOD) offs = offs) as ->.
    { clear -Hf. induction Hf as [|o l Ho _ IH]; [done|].
      rewrite filter_cons, decide_True by done. by rewrite IH. }
    unfold offs in *. rewrite Heq in *. rewrite Forall_fmap in Hf.
    rewrite mapM_add_u32_fits by done. by rewrite <- list_fmap_compose.
  - intros Hn Hoc. apply not_Forall_Exists in Hn; [|intros o; apply _].
    apply Exists_exists in Hn as (o & Hin & Ho). unfold offs in Hin. rewrite Heq in Hin.
    apply list_elem_of_fmap in Hin as (x & -> & Hin).
    apply (mapM_add_u32_overflow lf_named_key_offset_relative h (lf_items lf) x); [done| |done].
    cbn beta in Ho. apply Z.nlt_ge in Ho. exact Ho.
Qed.

(** ** Following lists *)

Lemma parse_offsets_items_mono (rec1 rec2 : Z -> res Error (list Z)) items acc :
  (forall o, rec1 o <> NoFuel -> rec2 o = rec1 o) ->
  parse_offsets_items rec1 items acc <> NoFuel ->
  parse_offsets_items rec2 items acc = parse_offsets_items rec1 items acc.
Proof.
  intros Hrec. revert acc. induction items as [|x items IH]; intros acc Hn; [done|].
  cbn in *. destruct (rec1 (ri_sub_key_list_offset_relative x)) eqn:Hx;
    try (rewrite Hrec by (by rewrite Hx)); rewrite ?Hx in *; cbn in *; auto.
Qed.

(** More depth never changes an answer. *)
Lemma parse_sub_key_list_mono n m fi off :
  (n <= m)%nat -> parse_sub_key_list n fi off <> NoFuel ->
  parse_sub_key_list m fi off = parse_sub_key_list n fi off.
Proof.
  revert m off. induction n as [|n IH]; intros m off Hm Hn; [done|].
  destruct m as [|m]; [lia|]. cbn [parse_sub_key_list] in *.
  destruct (get_from _ _) as [slice|]; [|done]. cbn [ok_or mbind res_bind] in *.
  destruct (SubKeyListRi_from_bytes slice) as [[r ri]|e| |]; [|done..].
  unfold parse_offsets in *. apply parse_offsets_items_mono; [|done].
  intros o Ho. apply IH; [lia|done].
Qed.

Definition list_slice (fi : FileInfo) (off : Z) : list byte :=
  zdrop (off + hbin_offset_absolute fi) (buffer fi).

Definition in_file (fi : FileInfo) (off : Z) : Prop :=
  0 <= off + hbin_offset_absolute fi <= len (buffer fi).

Lemma parse_sub_key_list_ri_step n fi off r ri :
  in_file fi off -> SubKeyListRi_from_bytes (list_slice fi off) = Ok (r, ri) ->
  parse_sub_key_list (S n) fi off = parse_offsets (parse_sub_key_list n fi) ri.
Proof.
  intros Hin Hri. cbn [parse_sub_key_list].
  assert (get_from (buffer fi) (off + hbin_offset_absolute fi) = Some (list_slice fi off)) as ->
    by (by apply get_from_Some).
  cbn [ok_or mbind res_bind]. by rewrite Hri.
Qed.

(** An [ri] list whose first element points back to the list itself is followed for
    ever: no recursion depth is enough. *)
Lemma parse_sub_key_list_ri_cycle fi off r ri item items :
  in_file fi off -> SubKeyListRi_from_bytes (list_slice fi off) = Ok (r, ri) ->
  ri_items ri = item :: items -> ri_sub_key_list_offset_relative item = off ->
  forall fuel, parse_sub_key_list fuel fi off = NoFuel.
Proof.
  intros Hin Hri Hit Hoff. induction fuel as [|fuel IH]; [done|].
  rewrite (parse_sub_key_list_ri_step fuel fi off r ri) by done.
  unfold parse_offsets. rewrite Hit. cbn. by rewrite Hoff, IH.
Qed.

(** A one-level [ri] list (the form Windows writes: elements are [lf], [lh] or [li]
    lists) is followed with depth two, and yields the elements' offsets in order. *)
Lemma parse_sub_key_list_ri_flat fi off r ri subs fuel :
  in_file fi off -> SubKeyListRi_from_bytes (list_slice fi off) = Ok (r, ri) ->
  Forall2 (fun item sub =>
    parse_sub_key_list 1 fi (ri_sub_key_list_offset_relative item) = Ok sub)
    (ri_items ri) subs ->
  parse_sub_key_list (S (S fuel)) fi off = Ok (mjoin subs).
Proof.
  intros Hin Hri Hs. rewrite (parse_sub_key_list_ri_step (S fuel) fi off r ri) by done.
  unfold parse_offsets. rewrite <- (app_nil_l (mjoin subs)). generalize (@nil Z) as acc.
  induction Hs as [|item sub items subs Hi Hs IH]; intros acc; cbn.
  { by rewrite app_nil_r. }
  pose proof (parse_sub_key_list_mono 1 (S fuel) fi (ri_sub_key_list_offset_relative item)
    ltac:(lia)) as Hm.
  rewrite Hi in Hm. cbn [parse_sub_key_list] in Hm. rewrite Hm by done. cbn. rewrite IH.
  by rewrite <- app_assoc.
Qed.
End SubKeyLists.

Lemma SubKeyListLh_roundtrip_witness :
  SubKeyListLh_from_bytes_internal (E:=env_ref)
    (encode_list "lh" encode_lh_item (u32_of_i32 (-24))
       [{| lh_named_key_offset_relative := 4600; lh_name_hash := 129374869 |};
        {| lh_named_key_offset_relative := 7008; lh_name_hash := 97615 |}] ++ [Byte.x01])
  = Ok ([Byte.x01],
        {| lh_size := 24; lh_count := 2;
           lh_items := [{| lh_named_key_offset_relative := 4600; lh_name_hash := 129374869 |};
                        {| lh_named_key_offset_relative := 7008; lh_name_hash := 97615 |}] |}).
Proof.
  apply (@SubKeyListLh_roundtrip env_ref (-24));
    [lia|vm_compute; reflexivity|repeat constructor; vm_compute; done].
Defined.

(** A file whose hive bins start at 0 and that holds one [ri] list at 0 pointing to itself. *)
Definition ri_loop_file : FileInfo :=
  {| hbin_offset_absolute := 0;
     buffer := to_le_bytes 4 16 ++ bytes_of "ri" ++ to_le_bytes 2 1 ++ to_le_bytes 4 0 |}.

Lemma parse_sub_key_list_ri_cycle_witness :
  parse_sub_key_list (E:=env_ref) 1000 ri_loop_file 0 = NoFuel.
Proof.
  apply (@parse_sub_key_list_ri_cycle env_ref ri_loop_file 0 []
    {| ri_size := 16; ri_count := 1; ri_items := [{| ri_sub_key_list_offset_relative := 0 |}] |}
    {| ri_sub_key_list_offset_relative := 0 |} []);
    [vm_compute; split; discriminate|vm_compute; reflexivity|reflexivity|reflexivity].
Defined.

(** An [ri] list at 0 with one element, the [li] list at 12 that names offset 7. *)
Definition ri_flat_file : FileInfo :=
  {| hbin_offset_absolute := 0;
     buffer := to_le_bytes 4 12 ++ bytes_of "ri" ++ to_le_bytes 2 1 ++ to_le_bytes 4 12
       ++ to_le_bytes 4 12 ++ bytes_of "li" ++ to_le_bytes 2 1 ++ to_le_bytes 4 7 |}.

Lemma parse_sub_key_list_ri_flat_witness :
  parse_sub_key_list (E:=env_ref) 2 ri_flat_file 0 = Ok [7].
Proof.
  apply (@parse_sub_key_list_ri_flat env_ref ri_flat_file 0 (zdrop 12 (buffer ri_flat_file))
    {| ri_size := 12; ri_count := 1; ri_items := [{| ri_sub_key_list_offset_relative := 12 |}] |}
    [[7]] 0);
    [vm_compute; split; discriminate|vm_compute; reflexivity
    |repeat constructor; vm_compute; reflexivity].
Defined.
