(* ===== verification/Values.v ===== *)
(** * Values: registry values and their contents

    [src/src/cell_value.rs], [src/src/cell_key_value.rs] and [src/src/cell_big_data.rs]:
    the vk cell, the bytes its data field leads to (resident in the cell, in a data cell,
    or in the segments of a big-data cell) and their interpretation by data type. *)

From S2P Require Import Prelude Env Log Util UtilFacts Cells.

(** ** [cell_value.rs] *)

Inductive CellValue :=
  | CV_None
  | CV_Binary (v : list byte)
  | CV_String (v : ustr)
  | CV_MultiString (v : list ustr)
  | CV_U32 (v : Z)
  | CV_I32 (v : Z)
  | CV_U64 (v : Z)
  | CV_I64 (v : Z)
  | CV_Error.
#[export] Instance CellValue_eq : EqDecision CellValue.
Proof. solve_decision. Defined.

Definition CellValue_get_type (self : CellValue) : ustr :=
  match self with
  | CV_None => lit "None"
  | CV_Binary _ => lit "Binary"
  | CV_String _ => lit "String"
  | CV_MultiString _ => lit "MultiString"
  | CV_U32 _ => lit "U32"
  | CV_I32 _ => lit "I32"
  | CV_U64 _ => lit "U64"
  | CV_I64 _ => lit "I64"
  | CV_Error => lit "Error"
  end.

Inductive DecodeFormat := DF_Lznt1 | DF_Rot13 | DF_Utf16 | DF_Utf16Multiple.

Section CellValue.
Context `{E : Env}.

(** [{:?}] of a [Vec] whose elements print as [items]. *)
Fixpoint debug_items (items : list ustr) : ustr :=
  match items with
  | [] => []
  | [x] => x
  | x :: rest => x ++ lit ", " ++ debug_items rest
  end.
Definition debug_vec (items : list ustr) : ustr := lit "[" ++ debug_items items ++ lit "]".

(** [impl Display for CellValue]. *)
Definition CellValue_display (self : CellValue) : ustr :=
  match self with
  | CV_Binary v => to_hex_string v
  | CV_String v => v
  | CV_MultiString v => debug_vec (debug_str <$> v)
  | CV_U32 v => fmt_dec v
  | CV_I32 v => fmt_dec v
  | CV_U64 v => fmt_dec v
  | CV_I64 v => fmt_dec v
  | _ => []
  end.

Definition decode_bytes {Er} (self : DecodeFormat) (value_bytes : list byte) (offset : Z)
    : res Er (CellValue * option Logs) :=
  let warnings := Logs_default in
  match self with
  | DF_Lznt1 =>
      match decode_lznt1 value_bytes offset (len value_bytes) with
      | Ok decompressed => Ok (CV_Binary decompressed, None)
      | Err _ =>
          let warnings := Logs_add warnings WarningConversion
                            (lit "Error decompressing lznt1") in
          Ok (CV_Error, Some warnings)
      | Panic => Panic
      | NoFuel => NoFuel
      end
  | DF_Utf16 =>
      match get_from value_bytes offset with
      | Some slice =>
          '(s, warnings) ← from_utf16_le_string slice (len value_bytes - offset) warnings
                             (lit "decode_content");
          Ok (CV_String s, Logs_get_option warnings)
      | None =>
          let warnings := Logs_add warnings WarningConversion (lit "Buffer too small") in
          Ok (CV_Error, Some warnings)
      end
  | DF_Utf16Multiple =>
      match get_from value_bytes offset with
      | Some slice =>
          '(m, warnings) ← from_utf16_le_strings slice (len value_bytes) warnings
                             (lit "decode_content");
          Ok (CV_MultiString m, Logs_get_option warnings)
      | None =>
          let warnings := Logs_add warnings WarningConversion (lit "Buffer too small") in
          Ok (CV_Error, Some warnings)
      end
  | _ => Ok (CV_None, Logs_get_option warnings)
  end.

Definition decode_string (cell_value : CellValue) : CellValue * option Logs :=
  match cell_value with
  | CV_String s => (CV_String (decode_rot13 s), None)
  | CV_MultiString m => (CV_MultiString (decode_rot13 <$> m), None)
  | _ =>
      (CV_Error, Some (Logs_add Logs_default WarningConversion
                         (lit "Unsupported CellValue/format pair")))
  end.

Definition decode {Er} (self : DecodeFormat) (cell_value : CellValue) (offset : Z)
    : res Er (CellValue * option Logs) :=
  match self with
  | DF_Lznt1 | DF_Utf16 | DF_Utf16Multiple =>
      match cell_value with
      | CV_Binary b => decode_bytes self b offset
      | _ =>
          Ok (CV_Error, Some (Logs_add Logs_default WarningConversion
                                (lit "Unsupported CellValue/format pair")))
      end
  | DF_Rot13 => Ok (decode_string cell_value)
  end.

(** [trait DecodableValue]. *)
Class DecodableValue (A : Type) := {
  decode_content : forall {Er}, A -> DecodeFormat -> Z -> res Er (CellValue * option Logs);
}.
#[export] Instance CellValue_DecodableValue : DecodableValue CellValue := {
  decode_content Er self format offset := decode format self offset;
}.
End CellValue.

(** ** [cell_key_value.rs]: data types *)

Inductive CellKeyValueDataTypes :=
  | REG_NONE | REG_SZ | REG_EXPAND_SZ | REG_BIN | REG_DWORD | REG_DWORD_BIG_ENDIAN
  | REG_LINK | REG_MULTI_SZ | REG_RESOURCE_LIST | REG_FULL_RESOURCE_DESCRIPTOR
  | REG_RESOURCE_REQUIREMENTS_LIST | REG_QWORD | REG_FILETIME
  | REG_COMPOSITE_UINT8 | REG_COMPOSITE_INT16 | REG_COMPOSITE_UINT16 | REG_COMPOSITE_INT32
  | REG_COMPOSITE_UINT32 | REG_COMPOSITE_INT64 | REG_COMPOSITE_UINT64 | REG_COMPOSITE_FLOAT
  | REG_COMPOSITE_DOUBLE | REG_COMPOSITE_UNICODE_CHAR | REG_COMPOSITE_BOOLEAN
  | REG_COMPOSITE_UNICODE_STRING | REG_COMPOSITE_COMPOSITE_VALUE
  | REG_COMPOSITE_DATE_TIME_OFFSET | REG_COMPOSITE_TIME_SPAN | REG_COMPOSITE_GUID
  | REG_COMPOSITE_UNK_111 | REG_COMPOSITE_UNK_112 | REG_COMPOSITE_UNK_113
  | REG_COMPOSITE_BYTES_ARRAY | REG_COMPOSITE_INT16_ARRAY | REG_COMPOSITE_UINT16_ARRAY
  | REG_COMPOSITE_INT32_ARRAY | REG_COMPOSITE_UINT32_ARRAY | REG_COMPOSITE_INT64_ARRAY
  | REG_COMPOSITE_UINT64_ARRAY | REG_COMPOSITE_FLOAT_ARRAY | REG_COMPOSITE_DOUBLE_ARRAY
  | REG_COMPOSITE_UNICODE_CHAR_ARRAY | REG_COMPOSITE_BOOLEAN_ARRAY
  | REG_COMPOSITE_UNICODE_STRING_ARRAY | REG_UNKNOWN.
#[export] Instance CellKeyValueDataTypes_eq : EqDecision CellKeyValueDataTypes.
Proof. solve_decision. Defined.

Definition CellKeyValueDataTypes_table : list (Z * CellKeyValueDataTypes) :=
  [(0x0000, REG_NONE); (0x0001, REG_SZ); (0x0002, REG_EXPAND_SZ); (0x0003, REG_BIN);
   (0x0004, REG_DWORD); (0x0005, REG_DWORD_BIG_ENDIAN); (0x0006, REG_LINK);
   (0x0007, REG_MULTI_SZ); (0x0008, REG_RESOURCE_LIST);
   (0x0009, REG_FULL_RESOURCE_DESCRIPTOR); (0x000A, REG_RESOURCE_REQUIREMENTS_LIST);
   (0x000B, REG_QWORD); (0x0010, REG_FILETIME);
   (0x0101, REG_COMPOSITE_UINT8); (0x0102, REG_COMPOSITE_INT16);
   (0x0103, REG_COMPOSITE_UINT16); (0x0104, REG_COMPOSITE_INT32);
   (0x0105, REG_COMPOSITE_UINT32); (0x0106, REG_COMPOSITE_INT64);
   (0x0107, REG_COMPOSITE_UINT64); (0x0108, REG_COMPOSITE_FLOAT);
   (0x0109, REG_COMPOSITE_DOUBLE); (0x010A, REG_COMPOSITE_UNICODE_CHAR);
   (0x010B, REG_COMPOSITE_BOOLEAN); (0x010C, REG_COMPOSITE_UNICODE_STRING);
   (0x010D, REG_COMPOSITE_COMPOSITE_VALUE); (0x010E, REG_COMPOSITE_DATE_TIME_OFFSET);
   (0x010F, REG_COMPOSITE_TIME_SPAN); (0x0110, REG_COMPOSITE_GUID);
   (0x0111, REG_COMPOSITE_UNK_111); (0x0112, REG_COMPOSITE_UNK_112);
   (0x0113, REG_COMPOSITE_UNK_113); (0x0114, REG_COMPOSITE_BYTES_ARRAY);
   (0x0115, REG_COMPOSITE_INT16_ARRAY); (0x0116, REG_COMPOSITE_UINT16_ARRAY);
   (0x0117, REG_COMPOSITE_INT32_ARRAY); (0x0118, REG_COMPOSITE_UINT32_ARRAY);
   (0x0119, REG_COMPOSITE_INT64_ARRAY); (0x011A, REG_COMPOSITE_UINT64_ARRAY);
   (0x011B, REG_COMPOSITE_FLOAT_ARRAY); (0x011C, REG_COMPOSITE_DOUBLE_ARRAY);
   (0x011D, REG_COMPOSITE_UNICODE_CHAR_ARRAY); (0x011E, REG_COMPOSITE_BOOLEAN_ARRAY);
   (0x011F, REG_COMPOSITE_UNICODE_STRING_ARRAY); (999, REG_UNKNOWN)].

Definition VALUE_COMP_NAME_ASCII : Z := 1.
Definition IS_TOMBSTONE : Z := 2.
Definition CellKeyValueFlags_all : Z := 3.

Section KeyValue.
Context `{E : Env}.

(** A function on [&mut Logs] in the state monad. *)
Definition with_logs {Er A} (f : Logs -> res Er (A * Logs)) : M Logs Er A := fun lg =>
  match f lg with
  | Ok (a, lg) => (lg, Ok a)
  | Err e => (lg, Err e)
  | Panic => (lg, Panic)
  | NoFuel => (lg, NoFuel)
  end.

(** [<[u8; n]>::try_from(slice)?]. *)
Definition try_into_array (n : Z) (slice : list byte) : res Error (list byte) :=
  if len slice =? n then Ok slice
  else Err (Error_from_slice (lit "could not convert slice to array")).

Definition handle_invalid_input (input_vec : list byte) : M Logs Error CellValue :=
  m_modify (fun lg => Logs_add lg WarningConversion
                        (lit "Too few input bytes for data type"));;;
  m_ret (CV_Binary input_vec).

(** An integer arm of [get_value_content]: [n] bytes, converted by [conv]. *)
Definition int_content (n : Z) (conv : list byte -> CellValue) (input : list byte)
    : M Logs Error CellValue :=
  match get_range input 0 n with
  | Some val => let* a := m_lift (try_into_array n val) in m_ret (conv a)
  | None => handle_invalid_input input
  end.

Definition get_value_content (self : CellKeyValueDataTypes) (input_vec : option (list byte))
    : M Logs Error CellValue :=
  match input_vec with
  | None => m_ret CV_None
  | Some input =>
      match self with
      | REG_SZ | REG_EXPAND_SZ | REG_LINK =>
          let* s := with_logs (fun lg =>
                      from_utf16_le_string input (len input) lg (lit "Get value content")) in
          m_ret (CV_String s)
      | REG_COMPOSITE_UINT8 | REG_COMPOSITE_BOOLEAN =>
          int_content 1 (fun b => CV_U32 (from_le_bytes b)) input
      | REG_COMPOSITE_INT16 =>
          int_content 2 (fun b => CV_I32 (as_i16 (from_le_bytes b))) input
      | REG_COMPOSITE_UINT16 => int_content 2 (fun b => CV_U32 (from_le_bytes b)) input
      | REG_DWORD | REG_COMPOSITE_UINT32 =>
          int_content 4 (fun b => CV_U32 (from_le_bytes b)) input
      | REG_DWORD_BIG_ENDIAN => int_content 4 (fun b => CV_U32 (from_be_bytes b)) input
      | REG_COMPOSITE_INT32 =>
          int_content 4 (fun b => CV_I32 (as_i32 (from_le_bytes b))) input
      | REG_COMPOSITE_INT64 =>
          int_content 8 (fun b => CV_I64 (as_i64 (from_le_bytes b))) input
      | REG_QWORD | REG_COMPOSITE_UINT64 | REG_FILETIME =>
          int_content 8 (fun b => CV_U64 (from_le_bytes b)) input
      | REG_BIN => m_ret (CV_Binary input)
      | REG_MULTI_SZ =>
          let* m := with_logs (fun lg =>
                      from_utf16_le_strings input (len input) lg (lit "Get value content")) in
          m_ret (CV_MultiString m)
      | _ => m_ret (CV_Binary input)
      end
  end.

Definition get_data_type_len (self : CellKeyValueDataTypes) : option Z :=
  match self with
  | REG_COMPOSITE_UINT8 => Some 1
  | REG_COMPOSITE_INT16 => Some 2
  | REG_COMPOSITE_UINT16 => Some 2
  | REG_DWORD | REG_COMPOSITE_UINT32 | REG_DWORD_BIG_ENDIAN => Some 4
  | REG_COMPOSITE_INT32 => Some 4
  | REG_COMPOSITE_INT64 => Some 8
  | REG_QWORD | REG_COMPOSITE_UINT64 | REG_FILETIME => Some 8
  | _ => None
  end.

Definition get_value_bytes (self : CellKeyValueDataTypes) (input : list byte) : list byte :=
  match get_data_type_len self with
  | Some data_type_len => ztake (Z.min data_type_len (len input)) input
  | None => input
  end.

(** ** [cell_big_data.rs] *)

Record CellBigData := {
  bd_size : Z;
  bd_count : Z;
  bd_segment_list_offset_relative : Z;
  bd_logs : Logs;
}.

Definition BIG_DATA_SIZE_THRESHOLD : Z := 16344.

Definition is_big_data_block (input : list byte) : bool :=
  match get_from input 4 with
  | Some slice => is_ok (nom_tag (bytes_of "db") slice)
  | None => false
  end.

(** The second component is the address of the input: here its length, which identifies
    a suffix of the file. *)
Definition CellBigData_from_bytes : parser (CellBigData * Z) := fun input =>
  let offset := len input in
  '(input, size) ← nom_le_i32 input;
  '(input, _) ← nom_tag (bytes_of "db") input;
  '(input, count) ← nom_le_u16 input;
  '(input, segment_list) ← nom_le_u32 input;
  Ok (input, ({| bd_size := unsigned_abs size; bd_count := count;
                 bd_segment_list_offset_relative := segment_list;
                 bd_logs := Logs_default |}, offset)).

Definition parse_big_data_size (file_info : FileInfo) (offset : Z) : presult Z :=
  slice ← ok_or NomError (get_from (buffer file_info) (hbin_offset_absolute file_info + offset));
  nom_le_i32 slice.

Definition parse_big_data_offsets (self : CellBigData) (file_info : FileInfo)
    : presult (list Z) :=
  slice ← ok_or NomError (get_from (buffer file_info)
            (hbin_offset_absolute file_info + bd_segment_list_offset_relative self));
  '(input, _) ← nom_le_u32 slice;
  '(_, list_) ← nom_count nom_le_u32 (bd_count self) input;
  Ok (input, list_).

(** [for offset in data_offsets_absolute.iter()]. *)
Fixpoint big_data_loop (file_info : FileInfo) (offsets : list Z) (big_data_buffer : list byte)
    (data_size_remaining : Z) : res Error (list byte * Z) :=
  match offsets with
  | [] => Ok (big_data_buffer, data_size_remaining)
  | offset :: offsets =>
      if 0 <? data_size_remaining then
        '(input, size) ← nom_q (parse_big_data_size file_info offset);
        let size_to_read := Z.min (unsigned_abs size)
                              (Z.min data_size_remaining BIG_DATA_SIZE_THRESHOLD) in
        slice ← ok_or (Error_buffer "get_big_data_bytes") (get_range input 0 size_to_read);
        data_size_remaining ← sub_u32 data_size_remaining size_to_read;
        big_data_loop file_info offsets (big_data_buffer ++ slice) data_size_remaining
      else big_data_loop file_info offsets big_data_buffer data_size_remaining
  end.

Definition get_big_data_bytes (file_info : FileInfo) (offset : Z)
    (data_type : CellKeyValueDataTypes) (data_size : Z) : res Error (list byte * list Z) :=
  slice ← ok_or (Error_buffer "get_big_data_bytes") (get_from (buffer file_info) offset);
  '(_, (hive_bin_cell_big_data, _)) ← nom_q (CellBigData_from_bytes slice);
  '(_, data_offsets_absolute) ← nom_q (parse_big_data_offsets hive_bin_cell_big_data file_info);
  '(big_data_buffer, _) ← big_data_loop file_info data_offsets_absolute [] data_size;
  Ok (get_value_bytes data_type big_data_buffer, data_offsets_absolute).

(** ** [cell_key_value.rs]: the vk cell *)

Record CellKeyValueDetail (F : Type -> Type) := {
  kv_size : F Z;
  kv_signature : F ustr;
  kv_value_name_size : F Z;
  kv_data_size_raw : F Z;
  kv_data_offset_relative : F Z;
  kv_data_type_raw : F Z;
  kv_flags_raw : F Z;
  kv_padding : F Z;
  kv_value_name : F ustr;
  kv_slack : F (list byte);
  kv_value_bytes : F (option (list byte));
}.
Definition set_kv_value_bytes (F : Type -> Type) (v : F (option (list byte)))
    (d : CellKeyValueDetail F) : CellKeyValueDetail F :=
  {| kv_size := kv_size F d; kv_signature := kv_signature F d;
     kv_value_name_size := kv_value_name_size F d; kv_data_size_raw := kv_data_size_raw F d;
     kv_data_offset_relative := kv_data_offset_relative F d;
     kv_data_type_raw := kv_data_type_raw F d; kv_flags_raw := kv_flags_raw F d;
     kv_padding := kv_padding F d; kv_value_name := kv_value_name F d;
     kv_slack := kv_slack F d; kv_value_bytes := v |}.
Definition CellKeyValueDetailEnum : Type := FieldEnum CellKeyValueDetail.

Inductive CellKeyValue : Type := {
  cv_file_offset_absolute : Z;
  cv_detail : CellKeyValueDetailEnum;
  cv_data_type : CellKeyValueDataTypes;
  cv_flags : Z;
  cv_data_offsets_absolute : list Z;
  cv_cell_state : CellState;
  cv_logs : Logs;
  cv_versions : list CellKeyValue;
  cv_hash : option Hash;
  cv_sequence_num : option Z;
  cv_updated_by_sequence_num : option Z;
}.

Definition MIN_CELL_VALUE_SIZE : Z := 24.
Definition CellKeyValue_SIGNATURE : string := "vk".
Definition DEVPROP_MASK_TYPE : Z := 0x00000FFF.

Definition CellKeyValue_check_size (size : Z) (input : list byte) : bool :=
  let size_abs := unsigned_abs size in
  (MIN_CELL_VALUE_SIZE <=? size_abs) && (size_abs <=? len input).

Definition CellKeyValue_from_bytes (input_orig : list byte) (file_offset_absolute : Z)
    (sequence_num : option Z) (get_full_field_info : bool) : presult CellKeyValue :=
  let start := len input_orig in
  let read := read_value_offset_length get_full_field_info start in
  '(input, (size, size_at)) ← read nom_le_i32 input_orig;
  if negb (CellKeyValue_check_size size input_orig) then Err NomError
  else
    let signature_offset := start - len input in
    '(input, _) ← nom_tag (bytes_of CellKeyValue_SIGNATURE) input;
    '(input, (value_name_size, name_size_at)) ← read nom_le_u16 input;
    '(input, (data_size_raw, data_size_at)) ← read nom_le_u32 input;
    '(input, (data_offset_relative, data_offset_at)) ← read nom_le_u32 input;
    '(input, (data_type_raw, data_type_at)) ← read nom_le_u32 input;
    '(input, (flags_raw, flags_at)) ← read nom_le_u16 input;
    '(input, (padding, padding_at)) ← read nom_le_u16 input;
    let value_name_offset := start - len input in
    '(input, value_name_bytes) ← nom_take value_name_size input;
    let flags := default 0 (bf_from_bits CellKeyValueFlags_all flags_raw) in
    let data_type_bytes := Z.land data_type_raw DEVPROP_MASK_TYPE in
    let data_type := match prim_from_u32 CellKeyValueDataTypes_table data_type_bytes with
                     | None => REG_UNKNOWN
                     | Some data_type => data_type
                     end in
    '(value_name, lg) ←
      (if value_name_size =? 0 then Ok ([], Logs_default)
       else string_from_bytes (bf_contains flags VALUE_COMP_NAME_ASCII) value_name_bytes
              value_name_size Logs_default (lit "value_name"));
    let slack_offset := start - len input in
    let size_abs := unsigned_abs size in
    '(input, slack_bytes) ← parser_eat_remaining input size_abs slack_offset;
    Ok (input,
        {| cv_file_offset_absolute := file_offset_absolute;
           cv_detail := make_enum get_full_field_info (fun F mk =>
             {| kv_size := mk _ size size_at 4;
                kv_signature := mk _ (lit CellKeyValue_SIGNATURE) signature_offset 2;
                kv_value_name_size := mk _ value_name_size name_size_at 2;
                kv_data_size_raw := mk _ data_size_raw data_size_at 4;
                kv_data_offset_relative := mk _ data_offset_relative data_offset_at 4;
                kv_data_type_raw := mk _ data_type_raw data_type_at 4;
                kv_flags_raw := mk _ flags_raw flags_at 2;
                kv_padding := mk _ padding padding_at 2;
                kv_value_name := mk _ value_name value_name_offset value_name_size;
                kv_slack := mk _ slack_bytes slack_offset (len slack_bytes);
                kv_value_bytes := mk _ None 0 0 |});
           cv_data_type := data_type;
           cv_flags := flags;
           cv_data_offsets_absolute := [];
           cv_cell_state := Allocated;
           cv_logs := lg;
           cv_versions := [];
           cv_hash := None;
           cv_sequence_num := sequence_num;
           cv_updated_by_sequence_num := None |}).

(** The field accessors [impl_enum!] generates. *)
Definition value_size (v : CellKeyValue) : Z := field_get kv_size (cv_detail v).
Definition value_name (v : CellKeyValue) : ustr := field_get kv_value_name (cv_detail v).
Definition value_data_size_raw (v : CellKeyValue) : Z :=
  field_get kv_data_size_raw (cv_detail v).
Definition value_data_offset_relative (v : CellKeyValue) : Z :=
  field_get kv_data_offset_relative (cv_detail v).
Definition value_data_type_raw (v : CellKeyValue) : Z :=
  field_get kv_data_type_raw (cv_detail v).
Definition value_flags_raw (v : CellKeyValue) : Z := field_get kv_flags_raw (cv_detail v).
Definition value_slack (v : CellKeyValue) : list byte := field_get kv_slack (cv_detail v).
Definition value_bytes (v : CellKeyValue) : option (list byte) :=
  field_get kv_value_bytes (cv_detail v).

Definition DATA_IS_RESIDENT_MASK : Z := 0x80000000.
Definition DATA_OFFSET_RELATIVE_OFFSET : Z := 12.

(** The value bytes, the absolute offsets of the data and the logs. *)
Definition read_value_bytes_direct {Er} (file_offset_absolute data_size_raw
    data_offset_relative : Z) (data_type : CellKeyValueDataTypes) (file_info : FileInfo)
    (lg : Logs) : res Er (list byte * list Z * Logs) :=
  if Z.land data_size_raw DATA_IS_RESIDENT_MASK =? 0 then
    let offset := data_offset_relative + hbin_offset_absolute file_info in
    match get_from (buffer file_info) offset with
    | Some slice =>
        if (BIG_DATA_SIZE_THRESHOLD <? data_size_raw) && is_big_data_block slice then
          match get_big_data_bytes file_info offset data_type data_size_raw with
          | Ok (vb, offsets) => Ok (vb, offsets, lg)
          | Err err => Ok ([], [], Logs_add lg WarningBigDataContent (Error_display err))
          | Panic => Panic
          | NoFuel => NoFuel
          end
        else
          let offset := offset + 4 in
          match get_range (buffer file_info) offset (offset + data_size_raw) with
          | Some slice => Ok (get_value_bytes data_type slice, [offset], lg)
          | None =>
              Ok ([], [offset], Logs_add lg WarningParse (Error_display
                    (Error_buffer "read_value_bytes_direct: file_offset and length")))
          end
    | None =>
        Ok ([], [], Logs_add lg WarningParse (Error_display
              (Error_buffer "read_value_bytes_direct: file_offset")))
    end
  else
    let data_offsets_absolute := [file_offset_absolute + DATA_OFFSET_RELATIVE_OFFSET] in
    let data_size := Z.lxor data_size_raw DATA_IS_RESIDENT_MASK in
    let resident_value := to_le_bytes 4 data_offset_relative in
    match get_range resident_value 0 data_size with
    | Some slice => Ok (get_value_bytes data_type slice, data_offsets_absolute, lg)
    | None =>
        Ok ([], data_offsets_absolute, Logs_add lg WarningBigDataContent (Error_display
              (Error_buffer "read_value_bytes_direct: resident_value")))
    end.

(** [hasher.reset()], the three updates, [finalize()]; a hasher is what it was fed. *)
Definition CellKeyValue_hash (hasher : list byte) (data_type_raw flags_raw : Z)
    (value_bytes : list byte) : list byte * Hash :=
  let hasher := [] in
  let hasher := hasher ++ to_le_bytes 4 data_type_raw in
  let hasher := hasher ++ to_le_bytes 2 flags_raw in
  let hasher := hasher ++ value_bytes in
  (hasher, blake3 hasher).

(** Of the state, only the hasher is used. *)
Definition read_value_bytes {Er} (self : CellKeyValue) (file_info : FileInfo)
    (hasher : list byte) : res Er (CellKeyValue * list byte) :=
  '(vb, data_offsets_absolute, lg) ←
    read_value_bytes_direct (cv_file_offset_absolute self) (value_data_size_raw self)
      (value_data_offset_relative self) (cv_data_type self) file_info (cv_logs self);
  let '(hasher, h) := CellKeyValue_hash hasher (value_data_type_raw self)
                        (value_flags_raw self) vb in
  let value_bytes_len := len vb mod U32_MOD in
  Ok ({| cv_file_offset_absolute := cv_file_offset_absolute self;
         cv_detail := field_set_full set_kv_value_bytes (Some vb)
                        (cv_file_offset_absolute self) value_bytes_len (cv_detail self);
         cv_data_type := cv_data_type self;
         cv_flags := cv_flags self;
         cv_data_offsets_absolute := cv_data_offsets_absolute self ++ data_offsets_absolute;
         cv_cell_state := cv_cell_state self;
         cv_logs := lg;
         cv_versions := cv_versions self;
         cv_hash := Some h;
         cv_sequence_num := cv_sequence_num self;
         cv_updated_by_sequence_num := cv_updated_by_sequence_num self |}, hasher).

Definition get_content {Er} (self : CellKeyValue) : res Er (CellValue * option Logs) :=
  let '(warnings, r) := get_value_content (cv_data_type self) (value_bytes self) Logs_default in
  '(cell_value, warnings) ←
    match r with
    | Ok v => Ok (v, warnings)
    | Err err => Ok (CV_Error, Logs_add warnings WarningContent (Error_display err))
    | Panic => Panic
    | NoFuel => NoFuel
    end;
  Ok (cell_value, match Logs_get warnings with Some _ => Some warnings | None => None end).

Definition CellKeyValue_get_pretty_name (self : CellKeyValue) : ustr :=
  get_pretty_name (value_name self).
Definition CellKeyValue_get_cell_size (self : CellKeyValue) : Z :=
  unsigned_abs (value_size self).
Definition CellKeyValue_is_free (self : CellKeyValue) : bool := 0 <? value_size self.
Definition CellKeyValue_slack_offset_absolute {Er} (self : CellKeyValue) : res Er Z :=
  sub_usize (cv_file_offset_absolute self + CellKeyValue_get_cell_size self)
    (len (value_slack self)).

#[export] Instance CellKeyValue_DecodableValue : DecodableValue CellKeyValue := {
  decode_content Er self format offset :=
    '(content, _) ← get_content self; decode format content offset;
}.

#[export] Instance CellKeyValue_Cell : Cell CellKeyValue := {
  get_file_offset_absolute := cv_file_offset_absolute;
  get_hash := cv_hash;
  get_logs := cv_logs;
  has_or_is_recovered self :=
    is_deleted (cv_cell_state self) || bool_decide (cv_cell_state self = ModifiedTransactionLog)
    || negb (bool_decide (length (cv_versions self) = 0%nat));
}.

(** The serialized form: the value name and content are computed when it is built. *)
Record CellKeyValueForSerialization := {
  cvs_file_offset_absolute : Z;
  cvs_detail : CellKeyValueDetailEnum;
  cvs_data_type : CellKeyValueDataTypes;
  cvs_flags : Z;
  cvs_value_name : ustr;
  cvs_cell_parse_warnings : Logs;
  cvs_sequence_num : option Z;
  cvs_updated_by_sequence_num : option Z;
  cvs_data_offsets_absolute : list Z;
  cvs_state : CellState;
  cvs_value : CellValue;
  cvs_value_parse_warnings : option Logs;
  cvs_versions : list CellKeyValue;
}.
Definition CellKeyValueForSerialization_from {Er} (other : CellKeyValue)
    : res Er CellKeyValueForSerialization :=
  '(value, value_parse_warnings) ← get_content other;
  Ok {| cvs_file_offset_absolute := cv_file_offset_absolute other;
        cvs_detail := cv_detail other;
        cvs_data_type := cv_data_type other;
        cvs_flags := cv_flags other;
        cvs_value_name := CellKeyValue_get_pretty_name other;
        cvs_cell_parse_warnings := cv_logs other;
        cvs_sequence_num := cv_sequence_num other;
        cvs_updated_by_sequence_num := cv_updated_by_sequence_num other;
        cvs_data_offsets_absolute := cv_data_offsets_absolute other;
        cvs_state := cv_cell_state other;
        cvs_value := value;
        cvs_value_parse_warnings := value_parse_warnings;
        cvs_versions := cv_versions other |}.
End KeyValue.
