(* ===== verification/ValueFacts.v ===== *)
(** * ValueFacts: what the value parser promises

    Theorems about [Values]: which bytes are a vk cell and where its fields come from, the
    total interpretation of value bytes by data type, resident data and big data. *)

From S2P Require Import Prelude Env Log Util UtilFacts Cells SubKeyLists Values.

(** ** Names, flags and types *)

(** A stored name: Latin-1, or UTF-16 without terminator. *)
Definition stores_name (ascii : bool) (bytes : list byte) (name : ustr) : Prop :=
  if ascii then name = byte.unsigned <$> bytes
  else plain_text name /\ bytes = units_to_bytes (encode_utf16 name).

(** The flags of a vk cell: none when a bit is unknown. *)
Definition vk_flags (c : list byte) : Z :=
  if Z.land (le_at 2 20 c) 3 =? le_at 2 20 c then le_at 2 20 c else 0.

(** The types of registry values by number: those of Windows, then those of the composite values
    of application settings. *)
Definition registry_type (n : Z) : CellKeyValueDataTypes :=
  match n with
  | 0x0000 => REG_NONE | 0x0001 => REG_SZ
  | 0x0002 => REG_EXPAND_SZ | 0x0003 => REG_BIN
  | 0x0004 => REG_DWORD | 0x0005 => REG_DWORD_BIG_ENDIAN
  | 0x0006 => REG_LINK | 0x0007 => REG_MULTI_SZ
  | 0x0008 => REG_RESOURCE_LIST | 0x0009 => REG_FULL_RESOURCE_DESCRIPTOR
  | 0x000A => REG_RESOURCE_REQUIREMENTS_LIST | 0x000B => REG_QWORD
  | 0x0010 => REG_FILETIME | 0x0101 => REG_COMPOSITE_UINT8
  | 0x0102 => REG_COMPOSITE_INT16 | 0x0103 => REG_COMPOSITE_UINT16
  | 0x0104 => REG_COMPOSITE_INT32 | 0x0105 => REG_COMPOSITE_UINT32
  | 0x0106 => REG_COMPOSITE_INT64 | 0x0107 => REG_COMPOSITE_UINT64
  | 0x0108 => REG_COMPOSITE_FLOAT | 0x0109 => REG_COMPOSITE_DOUBLE
  | 0x010A => REG_COMPOSITE_UNICODE_CHAR | 0x010B => REG_COMPOSITE_BOOLEAN
  | 0x010C => REG_COMPOSITE_UNICODE_STRING | 0x010D => REG_COMPOSITE_COMPOSITE_VALUE
  | 0x010E => REG_COMPOSITE_DATE_TIME_OFFSET | 0x010F => REG_COMPOSITE_TIME_SPAN
  | 0x0110 => REG_COMPOSITE_GUID | 0x0111 => REG_COMPOSITE_UNK_111
  | 0x0112 => REG_COMPOSITE_UNK_112 | 0x0113 => REG_COMPOSITE_UNK_113
  | 0x0114 => REG_COMPOSITE_BYTES_ARRAY | 0x0115 => REG_COMPOSITE_INT16_ARRAY
  | 0x0116 => REG_COMPOSITE_UINT16_ARRAY | 0x0117 => REG_COMPOSITE_INT32_ARRAY
  | 0x0118 => REG_COMPOSITE_UINT32_ARRAY | 0x0119 => REG_COMPOSITE_INT64_ARRAY
  | 0x011A => REG_COMPOSITE_UINT64_ARRAY | 0x011B => REG_COMPOSITE_FLOAT_ARRAY
  | 0x011C => REG_COMPOSITE_DOUBLE_ARRAY | 0x011D => REG_COMPOSITE_UNICODE_CHAR_ARRAY
  | 0x011E => REG_COMPOSITE_BOOLEAN_ARRAY | 0x011F => REG_COMPOSITE_UNICODE_STRING_ARRAY
  | _ => REG_UNKNOWN
  end.

Section ValueFacts.
Context `{E : Env}.

(** The type a raw type field stands for. *)
Definition value_type (raw : Z) : CellKeyValueDataTypes :=
  default REG_UNKNOWN
    (prim_from_u32 CellKeyValueDataTypes_table (Z.land raw DEVPROP_MASK_TYPE)).
Lemma value_type_registry_type raw : value_type raw = registry_type (Z.land raw 0xFFF).
Proof.
  unfold value_type. rewrite prim_from_u32_spec. change DEVPROP_MASK_TYPE with (Z.ones 12).
  change 0xFFF with (Z.ones 12). rewrite Z.land_ones by done.
  assert (forallb (fun n => bool_decide
    (default REG_UNKNOWN (snd <$> head (filter (fun e => e.1 = n) CellKeyValueDataTypes_table))
     = registry_type n)) (seqZ 0 (2 ^ 12)) = true) as H by (vm_compute; reflexivity).
  rewrite forallb_forall in H. apply (bool_decide_eq_true_1 _), H, list_elem_of_In, elem_of_seqZ.
  pose proof (Z.mod_pos_bound raw (2 ^ 12)). lia.
Qed.

Lemma from_utf16_le_string_unterminated {Er} s lg d :
  plain_text s ->
  from_utf16_le_string (Er:=Er) (units_to_bytes (encode_utf16 s))
    (len (units_to_bytes (encode_utf16 s))) lg d = Ok (s, lg).
Proof.
  intros [Hs Hn]. unfold from_utf16_le_string, from_utf16_le_string_single, SIZE_OF_UTF16_CHAR.
  rewrite (proj2 (Z.leb_le _ _)) by lia. rewrite len_units_to_bytes.
  replace (Z.to_nat (2 * len (encode_utf16 s) / 2)) with (length (encode_utf16 s) + 0)%nat
    by (rewrite Z.mul_comm, Z.div_mul by lia; unfold len; lia).
  rewrite <- (app_nil_r (units_to_bytes _)).
  rewrite utf16_units_bytes by by apply encode_utf16_units.
  cbn [utf16_units]. rewrite decode_utf16_encode by done. rewrite collect_until_nul_chars by done.
  cbn. by rewrite app_nil_r.
Qed.

Lemma string_from_bytes_stored {Er} ascii bytes name lg d :
  stores_name ascii bytes name ->
  string_from_bytes (Er:=Er) ascii bytes (len bytes) lg d = Ok (name, lg).
Proof.
  unfold stores_name, string_from_bytes. destruct ascii.
  - intros ->. unfold from_ascii. apply from_ascii_loop_latin1.
  - intros [Hp ->]. by apply from_utf16_le_string_unterminated.
Qed.

Lemma stores_name_nil ascii name : stores_name ascii [] name -> name = [].
Proof.
  unfold stores_name. destruct ascii; [done|]. intros [_ H]. destruct name as [|c name]; [done|].
  exfalso. apply (f_equal len) in H. rewrite len_units_to_bytes in H.
  change (encode_utf16 (c :: name)) with (encode_utf16_char c ++ encode_utf16 name) in H.
  rewrite len_app, len_nil in H. pose proof (len_nonneg (encode_utf16 name)).
  assert (0 < len (encode_utf16_char c)) by (unfold encode_utf16_char; case_match; reflexivity).
  lia.
Qed.


Lemma read_value_offset_length_Ok full start p i r v off :
  read_value_offset_length full start p i = Ok (r, (v, off)) <->
  p i = Ok (r, v) /\ off = (if full : bool then start - len i else 0).
Proof.
  unfold read_value_offset_length. destruct (p i) as [[r' v']| | |]; cbn; naive_solver.
Qed.

Lemma from_ascii_total {Er} slice lg d :
  exists s lg', from_ascii (Er:=Er) slice lg d = Ok (s, lg').
Proof. unfold from_ascii. rewrite from_ascii_loop_latin1. eauto. Qed.

Lemma from_utf16_le_string_total {Er} slice count lg d :
  0 <= count <= len slice ->
  exists s lg', from_utf16_le_string (Er:=Er) slice count lg d = Ok (s, lg').
Proof.
  intros Hc. unfold from_utf16_le_string. rewrite (proj2 (Z.leb_le _ _)) by lia.
  destruct (single_total (Er:=Er) slice count lg d) as (s & n & lg' & -> & _); [lia|].
  cbn. eauto.
Qed.

Lemma string_from_bytes_total {Er} b slice count lg d :
  0 <= count <= len slice ->
  exists s lg', string_from_bytes (Er:=Er) b slice count lg d = Ok (s, lg').
Proof.
  intros Hc. unfold string_from_bytes. destruct b.
  - apply from_ascii_total.
  - by apply from_utf16_le_string_total.
Qed.

(** ** The vk cell *)

Definition vk_size (input : list byte) : Z := Z.abs (as_i32 (le_at 4 0 input)).
Definition vk_name_end (input : list byte) : Z := 24 + le_at 2 6 input.
Definition is_vk (input : list byte) : Prop :=
  24 <= vk_size input <= len input /\ ztake 2 (zdrop 4 input) = bytes_of "vk" /\
  vk_name_end input <= len input.

Lemma parser_eat_remaining_at k size input :
  0 <= k <= len input -> size <= len input ->
  parser_eat_remaining (zdrop k input) size k =
  Ok (zdrop (Z.max k size) input, ztake (Z.max 0 (size - k)) (zdrop k input)).
Proof.
  intros Hk Hs. unfold parser_eat_remaining. destruct (Z.ltb_spec k size).
  - rewrite nom_take_spec, spec_take_at by lia. f_equal. f_equal; [|f_equal; lia].
    f_equal. lia.
  - rewrite Z.max_l, (Z.max_l 0) by lia. reflexivity.
Qed.

(** The record a vk cell is read as: each field with its value, its offset in the cell and its
    length (the latter two are only kept in the full form of a record). *)
Definition vk_slack (input : list byte) : list byte :=
  ztake (Z.max 0 (vk_size input - vk_name_end input)) (zdrop (vk_name_end input) input).
Definition vk_name_bytes (input : list byte) : list byte := ztake (le_at 2 6 input) (zdrop 24 input).
Definition vk_name_ascii (input : list byte) : bool := Z.land (vk_flags input) 1 =? 1.
Definition vk_detail (full : bool) (input : list byte) (name : ustr) : CellKeyValueDetailEnum :=
  make_enum full (fun F mk =>
    {| kv_size := mk _ (as_i32 (le_at 4 0 input)) 0 4;
       kv_signature := mk _ (lit "vk") 4 2;
       kv_value_name_size := mk _ (le_at 2 6 input) 6 2;
       kv_data_size_raw := mk _ (le_at 4 8 input) 8 4;
       kv_data_offset_relative := mk _ (le_at 4 12 input) 12 4;
       kv_data_type_raw := mk _ (le_at 4 16 input) 16 4;
       kv_flags_raw := mk _ (le_at 2 20 input) 20 2;
       kv_padding := mk _ (le_at 2 22 input) 22 2;
       kv_value_name := mk _ name 24 (le_at 2 6 input);
       kv_slack := mk _ (vk_slack input) (vk_name_end input) (len (vk_slack input));
       kv_value_bytes := mk _ None 0 0 |}).
Definition vk_record (full : bool) (input : list byte) (fo : Z) (sn : option Z) (name : ustr)
    (lg : Logs) : CellKeyValue :=
  {| cv_file_offset_absolute := fo;
     cv_detail := vk_detail full input name;
     cv_data_type := registry_type (Z.land (le_at 4 16 input) 0xFFF);
     cv_flags := vk_flags input;
     cv_data_offsets_absolute := [];
     cv_cell_state := Allocated;
     cv_logs := lg;
     cv_versions := [];
     cv_hash := None;
     cv_sequence_num := sn;
     cv_updated_by_sequence_num := None |}.

Lemma CellKeyValue_from_bytes_record input fo sn full :
  is_vk input ->
  exists name lg,
    CellKeyValue_from_bytes input fo sn full
      = Ok (zdrop (Z.max (vk_name_end input) (vk_size input)) input,
            vk_record full input fo sn name lg) /\
    string_from_bytes (Er:=nom_err) (vk_name_ascii input) (vk_name_bytes input)
      (len (vk_name_bytes input)) Logs_default (lit "value_name") = Ok (name, lg) /\
    forall s, stores_name (vk_name_ascii input) (vk_name_bytes input) s -> name = s.
Proof.
  intros (Hs & Ht & Hn). unfold CellKeyValue_from_bytes, read_value_offset_length.
  pose proof (le_at_range 2 6 input ltac:(lia)) as Hr. unfold vk_name_end in *.
  rewrite nom_le_i32_spec. change (spec_le 4 input) with (spec_le 4 (zdrop 0 input)).
  rewrite spec_le_at by lia. cbn [mbind res_bind]. change (0 + 4) with 4.
  assert (CellKeyValue_check_size (as_i32 (from_le_bytes (ztake 4 (zdrop 0 input)))) input = true)
    as ->.
  { unfold CellKeyValue_check_size, MIN_CELL_VALUE_SIZE, unsigned_abs.
    unfold vk_size, le_at in Hs. apply andb_true_iff. split; apply Z.leb_le; lia. }
  cbn [negb]. rewrite nom_tag_spec, spec_tag_at;
    [|change (len (bytes_of CellKeyValue_SIGNATURE)) with 2; len_lia|exact Ht].
  change (len (bytes_of CellKeyValue_SIGNATURE)) with 2. cbn [mbind res_bind].
  rewrite zdrop_zdrop by lia. change (4 + 2) with 6. parse_run.
  change (from_le_bytes (ztake 2 (zdrop 6 input))) with (le_at 2 6 input).
  rewrite nom_take_spec, spec_take_at by lia. cbn [mbind res_bind].
  assert (len (vk_name_bytes input) = le_at 2 6 input) as Hlen by (unfold vk_name_bytes; len_lia).
  destruct (string_from_bytes_total (Er:=nom_err) (vk_name_ascii input) (vk_name_bytes input)
    (le_at 2 6 input) Logs_default (lit "value_name")) as (name & lg & Hname); [lia|].
  assert (default 0 (bf_from_bits CellKeyValueFlags_all (from_le_bytes (ztake 2 (zdrop 20 input))))
    = vk_flags input) as ->.
  { rewrite bf_from_bits_spec. fold (le_at 2 20 input). unfold vk_flags.
    change CellKeyValueFlags_all with 3. by case_match. }
  rewrite bf_contains_spec. change VALUE_COMP_NAME_ASCII with 1.
  fold (vk_name_ascii input) (vk_name_bytes input).
  exists name, lg. rewrite Hlen. split; [|split; [done|]].
  2: { intros s Hst. rewrite <- Hlen, (string_from_bytes_stored _ _ s) in Hname by done. congruence. }
  assert ((if le_at 2 6 input =? 0 then Ok ([], Logs_default)
    else string_from_bytes (vk_name_ascii input) (vk_name_bytes input) (le_at 2 6 input)
           Logs_default (lit "value_name")) = Ok (E:=nom_err) (name, lg)) as ->.
  { destruct (Z.eqb_spec (le_at 2 6 input) 0) as [Hz|]; [|done]. rewrite <- Hname, <- Hlen.
    assert (vk_name_bytes input = []) as -> by (apply length_zero_iff_nil; unfold len in Hlen; lia).
    symmetry. apply string_from_bytes_stored. by destruct (vk_name_ascii input). }
  cbn [mbind res_bind].
  assert (match prim_from_u32 CellKeyValueDataTypes_table
      (Z.land (from_le_bytes (ztake 4 (zdrop 16 input))) DEVPROP_MASK_TYPE) with
    | Some data_type => data_type | None => REG_UNKNOWN end
    = registry_type (Z.land (le_at 4 16 input) 0xFFF)) as ->.
  { rewrite <- value_type_registry_type. unfold value_type, le_at. by case_match. }
  replace (len input - len (zdrop (24 + le_at 2 6 input) input)) with (24 + le_at 2 6 input)
    by len_lia.
  change (unsigned_abs (as_i32 (from_le_bytes (ztake 4 (zdrop 0 input))))) with (vk_size input).
  rewrite parser_eat_remaining_at by lia. cbn [mbind res_bind]. field_offsets input.
  rewrite Z.sub_diag. by destruct full.
Qed.

Lemma CellKeyValue_from_bytes_run input fo sn full :
  is_vk input ->
  exists v, CellKeyValue_from_bytes input fo sn full =
    Ok (zdrop (Z.max (vk_name_end input) (vk_size input)) input, v) /\
    value_size v = as_i32 (le_at 4 0 input) /\
    value_data_size_raw v = le_at 4 8 input /\
    value_data_offset_relative v = le_at 4 12 input /\
    value_data_type_raw v = le_at 4 16 input /\
    value_flags_raw v = le_at 2 20 input /\
    value_slack v = ztake (Z.max 0 (vk_size input - vk_name_end input))
                      (zdrop (vk_name_end input) input) /\
    value_bytes v = None /\ cv_versions v = [] /\ cv_cell_state v = Allocated /\
    cv_file_offset_absolute v = fo /\ cv_sequence_num v = sn /\
    cv_flags v = (if Z.land (le_at 2 20 input) 3 =? le_at 2 20 input
                  then le_at 2 20 input else 0).
Proof.
  intros Hvk. destruct (CellKeyValue_from_bytes_record input fo sn full Hvk) as (name & lg & -> & _).
  eexists. split; [done|]. by destruct full.
Qed.

(** The checks a successful parse has passed. *)
Lemma CellKeyValue_from_bytes_is_vk input fo sn full r v :
  CellKeyValue_from_bytes input fo sn full = Ok (r, v) -> is_vk input.
Proof.
  unfold CellKeyValue_from_bytes. intros H. inv_bind.
  destruct (CellKeyValue_check_size _ _) eqn:Hc; [|done]. cbn [negb] in *. inv_bind.
  repeat match goal with H : read_value_offset_length _ _ _ _ = _ |- _ =>
    apply read_value_offset_length_Ok in H as [H _] end.
  unfold CellKeyValue_SIGNATURE in *. parse_inv. drops.
  unfold CellKeyValue_check_size, MIN_CELL_VALUE_SIZE, unsigned_abs in Hc.
  apply andb_true_iff in Hc as [?%Z.leb_le ?%Z.leb_le].
  pose proof (le_at_range 2 6 input ltac:(lia)).
  fold (le_at 2 6 input) in *. split_and!; [assumption..|done|unfold vk_name_end; len_lia].
Qed.

(** C28: the bytes at an offset are a vk cell exactly when the size field's magnitude is at
    least 24 and within the buffer, the signature matches and the name is within the buffer.
    The parser then leaves what follows the larger of the cell and the name, and what it reads is
    [vk_record]: every field from its place in the cell (with that place and its length in the
    full form), the data type the masked type field stands for, the known flags.  The name is
    that of its bytes: Latin-1 when the first flag is set, and else UTF-16. *)
Theorem CellKeyValue_from_bytes_iff input fo sn full :
  ((exists r v, CellKeyValue_from_bytes input fo sn full = Ok (r, v)) <-> is_vk input) /\
  (forall r v, CellKeyValue_from_bytes input fo sn full = Ok (r, v) ->
    r = zdrop (Z.max (vk_name_end input) (vk_size input)) input /\
    CellKeyValue_get_cell_size v = vk_size input /\
    exists name lg, v = vk_record full input fo sn name lg /\
      let bytes := ztake (le_at 2 6 input) (zdrop 24 input) in
      let ascii := Z.land (vk_flags input) 1 =? 1 in
      (if ascii then name = byte.unsigned <$> bytes
       else forall s, plain_text s -> bytes = units_to_bytes (encode_utf16 s) -> name = s) /\
      string_from_bytes (Er:=nom_err) ascii bytes (len bytes) Logs_default (lit "value_name")
        = Ok (name, lg)).
Proof.
  split; [split|].
  - intros (r & v & H). by eapply CellKeyValue_from_bytes_is_vk.
  - intros H. destruct (CellKeyValue_from_bytes_run input fo sn full H) as (v & -> & _). eauto.
  - intros r v H. pose proof (CellKeyValue_from_bytes_is_vk _ _ _ _ _ _ H) as Hvk.
    destruct (CellKeyValue_from_bytes_record input fo sn full Hvk) as (name & lg & Hv & Hn & Hst).
    rewrite Hv in H. injection H as <- <-. split; [done|]. split; [by destruct full|].
    exists name, lg. split; [done|]. split; [|exact Hn].
    unfold vk_name_ascii, stores_name in Hst. fold (vk_name_bytes input).
    destruct (_ =? 1); [by apply Hst|]. intros s H1 H2. by apply Hst.
Qed.

Lemma parser_eat_remaining_returns i a b : returns (parser_eat_remaining i a b).
Proof. unfold parser_eat_remaining. case_match; auto with notatin. exact I. Qed.

Lemma read_value_offset_length_returns full start p i :
  (forall i, returns (p i)) -> returns (read_value_offset_length full start p i).
Proof. intros Hp. unfold read_value_offset_length. returns_tac. Qed.
#[local] Hint Resolve parser_eat_remaining_returns read_value_offset_length_returns : notatin.

Lemma CellKeyValue_from_bytes_returns input fo sn full :
  returns (CellKeyValue_from_bytes input fo sn full).
Proof.
  unfold CellKeyValue_from_bytes. returns_tac.
  match goal with H : nom_take _ _ = Ok _ |- _ =>
    rewrite nom_take_spec, spec_take_Ok in H; destruct H as (? & -> & ->) end.
  match goal with H : read_value_offset_length _ _ nom_le_u16 _ = Ok (_, (?z, _))
    |- returns (string_from_bytes ?b ?s ?z ?lg ?d) =>
      apply read_value_offset_length_Ok in H as [H%nom_le_u16_range _];
      destruct (string_from_bytes_total (Er:=nom_err) b s z lg d) as (? & ? & ->);
        [len_lia|exact I] end.
Qed.

(** ** Contents *)

Definition in_range (v : CellValue) : Prop :=
  match v with
  | CV_U32 n => 0 <= n < 2 ^ 32
  | CV_I32 n => - 2 ^ 31 <= n < 2 ^ 31
  | CV_U64 n => 0 <= n < 2 ^ 64
  | CV_I64 n => - 2 ^ 63 <= n < 2 ^ 63
  | _ => True
  end.

Definition is_integer (v : CellValue) : bool :=
  match v with CV_U32 _ | CV_I32 _ | CV_U64 _ | CV_I64 _ => true | _ => false end.

Lemma int_content_run n conv input lg :
  0 <= n ->
  int_content n conv input lg =
  if n <=? len input then (lg, Ok (conv (ztake n input)))
  else (Logs_add lg WarningConversion (lit "Too few input bytes for data type"),
        Ok (CV_Binary input)).
Proof.
  intros Hn. unfold int_content. destruct (Z.leb_spec n (len input)).
  - assert (get_range input 0 n = Some (ztake n input)) as ->.
    { apply get_range_Some. split_and!; [lia|lia|lia|]. by rewrite Z.sub_0_r, zdrop_0. }
    unfold m_bind, m_lift, try_into_array.
    assert (len (ztake n input) = n) as -> by len_lia. by rewrite Z.eqb_refl.
  - assert (get_range input 0 n = None) as -> by (apply get_range_None; lia). done.
Qed.

Lemma le_bytes_small k n input :
  0 <= n -> 8 * n <= k -> 0 <= from_le_bytes (ztake n input) < 2 ^ k.
Proof.
  intros Hn Hk. pose proof (le_at_range n 0 input Hn) as H.
  unfold le_at in H. rewrite zdrop_0 in H.
  assert (2 ^ (8 * n) <= 2 ^ k) by (apply Z.pow_le_mono_r; lia). lia.
Qed.

Lemma be_bytes_small input : 0 <= from_be_bytes (ztake 4 input) < 2 ^ 32.
Proof.
  unfold from_be_bytes. pose proof (from_le_bytes_bound (reverse (ztake 4 input))) as H.
  assert (2 ^ (8 * len (reverse (ztake 4 input))) <= 2 ^ 32).
  { apply Z.pow_le_mono_r; [lia|]. len_lia. }
  unfold from_le_bytes in H. lia.
Qed.

Lemma signed_small w z k : 0 < w <= k -> - 2 ^ (k - 1) <= wrap_signed w z < 2 ^ (k - 1).
Proof.
  intros Hw. pose proof (wrap_signed_range w z ltac:(lia)).
  assert (2 ^ (w - 1) <= 2 ^ (k - 1)) by (apply Z.pow_le_mono_r; lia). lia.
Qed.

Lemma with_logs_Ok {Er A} (f : Logs -> res Er (A * Logs)) lg a lg' :
  f lg = Ok (a, lg') -> with_logs f lg = (lg', Ok a).
Proof. unfold with_logs. by intros ->. Qed.

(** Every arm of [get_value_content]. *)
Lemma get_value_content_run t bs lg :
  exists c lg', get_value_content t (Some bs) lg = (lg', Ok c) /\
    c <> CV_Error /\ c <> CV_None /\ in_range c /\
    (forall n, get_data_type_len t = Some n ->
      if len bs <? n
      then c = CV_Binary bs /\
           lg' = Logs_add lg WarningConversion (lit "Too few input bytes for data type")
      else is_integer c = true /\ lg' = lg).
Proof.
  assert (forall n conv k, 0 <= n -> get_value_content t (Some bs) lg = int_content n conv bs lg ->
    (forall m, get_data_type_len t = Some m -> m = n) ->
    (k = true -> forall x, is_integer (conv (ztake n x)) = k /\ in_range (conv (ztake n x))) ->
    k = true ->
    exists c lg', get_value_content t (Some bs) lg = (lg', Ok c) /\
    c <> CV_Error /\ c <> CV_None /\ in_range c /\
    (forall n, get_data_type_len t = Some n ->
      if len bs <? n
      then c = CV_Binary bs /\
           lg' = Logs_add lg WarningConversion (lit "Too few input bytes for data type")
      else is_integer c = true /\ lg' = lg)) as Hint.
  { intros n conv k Hn -> Hm Hconv ->. rewrite int_content_run by done.
    specialize (Hconv eq_refl bs) as [Hi Hr].
    destruct (Z.leb_spec n (len bs)); eexists _, _; (split; [reflexivity|]);
      (split_and!; [| |done|]); try by destruct (conv _).
    - intros m ->%Hm. destruct (Z.ltb_spec (len bs) n); [lia|]. done.
    - intros m ->%Hm. destruct (Z.ltb_spec (len bs) n); [|lia]. done. }
  pose proof (fun k n => le_bytes_small k n) as Hle. pose proof be_bytes_small as Hbe.
  pose proof signed_small as Hs.
  destruct t;
    try (eexists (CV_Binary bs), lg; split_and!; [reflexivity|done..]);
    try (eapply (Hint _ _ true);
         [| reflexivity | by intros ? [= <-] | intros _ x; split; [reflexivity|]
          | reflexivity]; [lia|];
         cbn [in_range]; first [ apply (Hle 32); lia | apply (Hle 64); lia | apply Hbe | apply (Hs 16 _ 32); lia
               | apply (Hs 32 _ 32); lia | apply (Hs 64 _ 64); lia ]).
  all: cbn [get_value_content].
  all: first
    [ edestruct (@from_utf16_le_string_total Error bs (len bs) lg) as (s & lg' & Hu); [len_lia|];
      eexists (CV_String s), lg'; split_and!; [|done..];
      unfold m_bind; erewrite with_logs_Ok by exact Hu; done
    | edestruct (@from_utf16_le_strings_Ok E Error bs (len bs) lg) as (s & lg' & Hu); [len_lia|];
      eexists (CV_MultiString s), lg'; split_and!; [|done..];
      unfold m_bind; erewrite with_logs_Ok by exact Hu; done ].
Qed.

(** C35: reading a value's content never fails: it is never [Error], it is [None] exactly when
    the data was not read, integers are within their variant's width, and a fixed-width
    type with too few bytes degrades to the raw bytes with one warning. *)
Theorem get_content_total (v : CellKeyValue) :
  exists c w, get_content (Er:=Error) v = Ok (c, w) /\
    c <> CV_Error /\ in_range c /\ (c = CV_None <-> value_bytes v = None) /\
    (forall n bs, get_data_type_len (cv_data_type v) = Some n -> value_bytes v = Some bs ->
       if len bs <? n then c = CV_Binary bs /\ log_count <$> w = Some 1%nat
       else is_integer c = true /\ w = None).
Proof.
  unfold get_content. destruct (value_bytes v) as [bs|].
  - destruct (get_value_content_run (cv_data_type v) bs Logs_default)
      as (c & lg & -> & ? & ? & ? & Hn). cbn.
    eexists _, _. split; [reflexivity|]. split_and!; try done.
    intros n bs' Ht [= <-]. specialize (Hn n Ht). by destruct (len bs <? n), Hn as [? ->].
  - cbn. eexists _, _. split; [reflexivity|]. done.
Qed.

(** The bytes kept for a value are cut to its type's width, and the cut loses nothing:
    the content read from the cut bytes is the content read from all of them. *)
Lemma get_value_bytes_content t bs lg :
  get_value_content t (Some (get_value_bytes t bs)) lg = get_value_content t (Some bs) lg.
Proof.
  assert (forall n conv, 0 <= n ->
    int_content n conv (ztake (Z.min n (len bs)) bs) lg = int_content n conv bs lg) as Hc.
  { intros n conv Hn. rewrite !int_content_run by done.
    replace (len (ztake (Z.min n (len bs)) bs)) with (Z.min n (len bs)) by len_lia.
    destruct (Z.leb_spec n (len bs)).
    - rewrite (Z.min_l n) by lia. rewrite (proj2 (Z.leb_le n n)) by lia.
      rewrite (ztake_all n (ztake n bs)); [done|len_lia].
    - rewrite (proj2 (Z.leb_gt _ _)) by lia. rewrite ztake_all; [done|lia]. }
  destruct t; try reflexivity; cbn; apply Hc; lia.
Qed.

(** ** Data *)

Lemma land_bit31 z : 0 <= z < 2 ^ 31 -> Z.land z DATA_IS_RESIDENT_MASK = 0.
Proof.
  intros Hz. apply Z.bits_inj'. intros i Hi. rewrite Z.land_spec, Z.bits_0.
  destruct (Z.eq_dec i 31) as [->|Hne].
  - by rewrite (bits_high 31) by lia.
  - change DATA_IS_RESIDENT_MASK with (2 ^ 31). rewrite Z.pow2_bits_false by lia.
    apply andb_false_r.
Qed.

Lemma lor_bit31 z : 0 <= z < 2 ^ 31 -> 2 ^ 31 + z = Z.lxor z (2 ^ 31).
Proof.
  intros Hz. rewrite Z.add_comm. apply Z.add_nocarry_lxor.
  apply (land_bit31 z). done.
Qed.

(** A size field with the resident bit set. *)
Lemma resident_size n :
  0 <= n < 2 ^ 31 ->
  Z.land (2 ^ 31 + n) DATA_IS_RESIDENT_MASK <> 0 /\
  Z.lxor (2 ^ 31 + n) DATA_IS_RESIDENT_MASK = n.
Proof.
  intros Hn. rewrite lor_bit31 by done. change DATA_IS_RESIDENT_MASK with (2 ^ 31). split.
  - intros H. assert (Z.testbit (Z.land (Z.lxor n (2 ^ 31)) (2 ^ 31)) 31 = true) as Ht.
    { rewrite Z.land_spec, Z.lxor_spec, (bits_high 31 n), !Z.pow2_bits_true by lia. done. }
    rewrite H in Ht. by rewrite Z.bits_0 in Ht.
  - by rewrite Z.lxor_assoc, Z.lxor_nilpotent, Z.lxor_0_r.
Qed.

Lemma resident_bytes {Er} fo n off t fi lg :
  0 <= n < 2 ^ 31 ->
  read_value_bytes_direct (Er:=Er) fo (2 ^ 31 + n) off t fi lg =
  if n <=? 4
  then Ok (get_value_bytes t (ztake n (to_le_bytes 4 off)), [fo + 12], lg)
  else Ok ([], [fo + 12], Logs_add lg WarningBigDataContent
             (lit "Invalid buffer access: read_value_bytes_direct: resident_value")).
Proof.
  intros Hn. destruct (resident_size n Hn) as [Hland Hlxor].
  unfold read_value_bytes_direct. rewrite (proj2 (Z.eqb_neq _ _) Hland), Hlxor.
  destruct (Z.leb_spec n 4).
  - assert (get_range (to_le_bytes 4 off) 0 n = Some (ztake n (to_le_bytes 4 off))) as ->; [|done].
    apply get_range_Some. split_and!; [lia|lia|len_lia|]. by rewrite Z.sub_0_r, zdrop_0.
  - assert (get_range (to_le_bytes 4 off) 0 n = None) as ->; [|done].
    apply get_range_None. right. right. len_lia.
Qed.

(** A size field with the top bit set means the data is the offset field itself: up to
    four of its bytes, found at offset 12 of the cell; a larger size yields no bytes and a
    warning, and the file is not read in either case. *)
Lemma read_value_bytes_resident fo n off t fi lg :
  0 <= n < 2 ^ 31 ->
  read_value_bytes_direct (Er:=Error) fo (2 ^ 31 + n) off t fi lg =
  if n <=? 4
  then Ok (get_value_bytes t (ztake n (to_le_bytes 4 off)), [fo + 12], lg)
  else Ok ([], [fo + 12], Logs_add lg WarningBigDataContent
             (lit "Invalid buffer access: read_value_bytes_direct: resident_value")).
Proof. apply resident_bytes. Qed.

(** The segment at [off]: a size field of at least the chunk's length, then the chunk. *)
Definition seg_holds (fi : FileInfo) (off : Z) (chunk : list byte) : Prop :=
  0 <= hbin_offset_absolute fi + off /\
  exists size rest,
    zdrop (hbin_offset_absolute fi + off) (buffer fi) = to_le_bytes 4 (u32_of_i32 size) ++ chunk ++ rest /\
    - 2 ^ 31 <= size < 2 ^ 31 /\ len chunk <= Z.abs size.

(** Data cut into segments: all full but the last. *)
Inductive segmented (fi : FileInfo) : list Z -> list byte -> Prop :=
  | seg_last off chunk :
      seg_holds fi off chunk -> 0 < len chunk <= BIG_DATA_SIZE_THRESHOLD ->
      segmented fi [off] chunk
  | seg_more off offs chunk data :
      seg_holds fi off chunk -> len chunk = BIG_DATA_SIZE_THRESHOLD ->
      segmented fi offs data -> segmented fi (off :: offs) (chunk ++ data).

(** The db cell at absolute offset [at_], its segment list holding [offs]. *)
Definition db_cell (fi : FileInfo) (at_ : Z) (offs : list Z) : Prop :=
  0 <= at_ /\ len offs < U16_MOD /\ Forall (fun o => 0 <= o < U32_MOD) offs /\
  exists size slo r1 lsize r2,
    zdrop at_ (buffer fi) =
      to_le_bytes 4 (u32_of_i32 size) ++ bytes_of "db" ++ to_le_bytes 2 (len offs)
      ++ to_le_bytes 4 slo ++ r1 /\
    0 <= slo < U32_MOD /\ 0 <= hbin_offset_absolute fi + slo /\
    zdrop (hbin_offset_absolute fi + slo) (buffer fi) =
      to_le_bytes 4 lsize ++ (offs ≫= to_le_bytes 4) ++ r2.

Lemma get_from_zdrop {A} (buf : list A) off x :
  0 <= off -> zdrop off buf = x -> x <> [] -> get_from buf off = Some x.
Proof.
  intros Ho <- Hne. apply get_from_Some. split; [|done].
  assert (0 < len (zdrop off buf)). { destruct (zdrop off buf); [done|]. len_lia. }
  len_lia.
Qed.

Lemma app_le_bytes_nonempty n z (r : list byte) : to_le_bytes (S n) z ++ r <> [].
Proof. intros H. apply (f_equal len) in H. len_lia. Qed.

Lemma segmented_len fi offs data : segmented fi offs data -> 0 < len data.
Proof.
  induction 1; unfold BIG_DATA_SIZE_THRESHOLD in *; len_lia.
Qed.

Lemma seg_step fi off offs chunk acc remaining :
  seg_holds fi off chunk -> 0 < len chunk ->
  len chunk = Z.min remaining BIG_DATA_SIZE_THRESHOLD ->
  big_data_loop fi (off :: offs) acc remaining =
  big_data_loop fi offs (acc ++ chunk) (remaining - len chunk).
Proof.
  intros (Ho & size & rest & Hz & Hsz & Hc) Hpos Hlen. cbn [big_data_loop].
  destruct (Z.ltb_spec 0 remaining) as [_|]; [|unfold BIG_DATA_SIZE_THRESHOLD in *; lia].
  unfold parse_big_data_size.
  rewrite (get_from_zdrop _ _ _ Ho Hz) by apply app_le_bytes_nonempty.
  cbn [ok_or mbind res_bind]. rewrite nom_le_i32_app by (by apply Z.mod_pos_bound).
  rewrite as_i32_u32_of_i32 by done. cbn [nom_q res_map_err mbind res_bind].
  unfold unsigned_abs. rewrite <- Hlen, Z.min_r by lia.
  assert (get_range (chunk ++ rest) 0 (len chunk) = Some chunk) as ->.
  { apply get_range_Some. split_and!; [lia|lia|len_lia|].
    by rewrite Z.sub_0_r, zdrop_0, ztake_app_len. }
  cbn [ok_or mbind res_bind]. unfold sub_u32, sub_uw.
  rewrite (proj2 (Z.leb_le _ _)); [done|]. lia.
Qed.

Lemma big_data_loop_segmented fi offs data acc :
  segmented fi offs data ->
  big_data_loop fi offs acc (len data) = Ok (acc ++ data, 0).
Proof.
  intros Hs. revert acc. induction Hs as [off chunk Hh Hl|off offs chunk data Hh Hl Hs IH];
    intros acc.
  - rewrite (seg_step fi off [] chunk) by (done || lia). by rewrite Z.sub_diag.
  - pose proof (segmented_len _ _ _ Hs).
    rewrite (seg_step fi off offs chunk); [|done|unfold BIG_DATA_SIZE_THRESHOLD in *; lia|len_lia].
    replace (len (chunk ++ data) - len chunk) with (len data) by len_lia.
    by rewrite IH, <- app_assoc.
Qed.

(** A db cell is read by following its segment list. *)
Lemma get_big_data_bytes_run fi at_ offs data t :
  db_cell fi at_ offs -> segmented fi offs data ->
  get_big_data_bytes fi at_ t (len data) = Ok (get_value_bytes t data, offs).
Proof.
  intros (Hat & Hlen & Hoffs & size & slo & r1 & lsize & r2 & Hdb & Hslo & Hsl & Hlist) Hs.
  unfold get_big_data_bytes.
  rewrite (get_from_zdrop _ _ _ Hat Hdb) by apply app_le_bytes_nonempty.
  cbn [ok_or mbind res_bind]. unfold CellBigData_from_bytes.
  rewrite nom_le_i32_app by (by apply Z.mod_pos_bound). cbn [mbind res_bind].
  rewrite nom_tag_app. cbn [mbind res_bind]. pose proof (len_nonneg offs).
  rewrite nom_le_u16_app by lia. cbn [mbind res_bind].
  rewrite nom_le_u32_app by done. cbn [mbind res_bind nom_q res_map_err].
  unfold parse_big_data_offsets. cbn [bd_segment_list_offset_relative bd_count].
  rewrite (get_from_zdrop _ _ _ Hsl Hlist) by apply app_le_bytes_nonempty.
  cbn [ok_or mbind res_bind].
  rewrite nom_le_u32_spec, spec_le_app by done. cbn [mbind res_bind].
  rewrite nom_count_spec. replace (Z.to_nat (len offs)) with (length offs) by (unfold len; lia).
  rewrite (spec_count_encode _ _ id).
  - cbn [mbind res_bind nom_q res_map_err]. rewrite list_fmap_id.
    rewrite (big_data_loop_segmented fi offs data []) by done. done.
  - eapply Forall_impl; [exact Hoffs|]. intros o Ho r. by rewrite nom_le_u32_app.
Qed.

(** C14: data stored in a big-data cell is read back whole: for a db cell whose segment list
    names segments that hold the data in full 16344-byte chunks (the last one shorter), the
    bytes are the concatenation of the chunks, cut to the type's width, and the
    offsets are the segment list. *)
Theorem get_big_data_bytes_segmented fi at_ offs data t :
  db_cell fi at_ offs -> segmented fi offs data ->
  get_big_data_bytes fi at_ t (len data) = Ok (get_value_bytes t data, offs).
Proof. apply get_big_data_bytes_run. Qed.

(** Whatever the file holds, reading big data does not panic, and the bytes read never
    exceed the announced size. *)
Lemma big_data_loop_bound fi offs acc remaining :
  0 <= remaining ->
  match big_data_loop fi offs acc remaining with
  | Ok (bs, rest) => 0 <= rest /\ len bs + rest = len acc + remaining
  | Err _ => True
  | _ => False
  end.
Proof.
  revert acc remaining. induction offs as [|o offs IH]; intros acc remaining Hr; cbn; [lia|].
  destruct (Z.ltb_spec 0 remaining); [|by apply IH].
  unfold parse_big_data_size. destruct (get_from _ _) as [s|]; [|done]. cbn.
  destruct (nom_le_i32 s) as [[i sz]| | |] eqn:Hs; cbn; [|done| |];
    [|rewrite nom_le_i32_spec in Hs; unfold spec_le in Hs; by case_match..].
  destruct (get_range _ _ _) as [sl|] eqn:Hg; [|done]. cbn.
  unfold sub_u32, sub_uw. unfold unsigned_abs, BIG_DATA_SIZE_THRESHOLD in *.
  rewrite (proj2 (Z.leb_le _ _)) by lia. cbn.
  pose proof (get_range_len _ _ _ _ Hg).
  specialize (IH (acc ++ sl) (remaining - Z.min (Z.abs sz) (Z.min remaining 16344)) ltac:(lia)).
  destruct (big_data_loop _ _ _ _) as [[bs lft]| | |]; try done.
  split; [lia|]. rewrite len_app in IH. lia.
Qed.

Lemma big_data_loop_returns fi offs acc remaining :
  0 <= remaining -> returns (big_data_loop fi offs acc remaining).
Proof.
  intros Hr. pose proof (big_data_loop_bound fi offs acc remaining Hr) as H.
  by destruct (big_data_loop _ _ _ _).
Qed.

Lemma get_value_bytes_len t bs : len (get_value_bytes t bs) <= len bs.
Proof. unfold get_value_bytes. case_match; len_lia. Qed.

Lemma CellBigData_from_bytes_returns i : returns (CellBigData_from_bytes i).
Proof. unfold CellBigData_from_bytes. returns_tac. Qed.

Lemma parse_big_data_offsets_returns bd fi : returns (parse_big_data_offsets bd fi).
Proof. unfold parse_big_data_offsets. returns_tac. Qed.

Lemma get_big_data_bytes_total fi at_ t size :
  0 <= size ->
  returns (get_big_data_bytes fi at_ t size) /\
  (forall bs offs, get_big_data_bytes fi at_ t size = Ok (bs, offs) -> len bs <= size).
Proof.
  intros Hs. unfold get_big_data_bytes. split.
  - pose proof CellBigData_from_bytes_returns. pose proof parse_big_data_offsets_returns.
    unfold nom_q. returns_tac. by apply big_data_loop_returns.
  - intros bs offs H. inv_bind.
    match goal with H : big_data_loop ?f ?o ?a ?r = Ok (?b, ?l) |- _ =>
      pose proof (big_data_loop_bound f o a r Hs) as Hb; rewrite H in Hb;
      pose proof (get_value_bytes_len t b) end.
    change (len (@nil byte)) with 0 in Hb. lia.
Qed.

Lemma read_value_bytes_direct_Ok {Er} fo size off t fi lg :
  0 <= size < U32_MOD ->
  exists bs offs lg', read_value_bytes_direct (Er:=Er) fo size off t fi lg = Ok (bs, offs, lg')
    /\ len bs <= (if size <? 2 ^ 31 then size else size - 2 ^ 31).
Proof.
  intros Hs. destruct (Z.ltb_spec size (2 ^ 31)) as [Hlt|Hge].
  - unfold read_value_bytes_direct. rewrite land_bit31 by lia. change (0 =? 0) with true.
    cbn iota beta zeta.
    destruct (get_from _ _) as [s|]; [|eexists _, _, _; split; [done|]; rewrite len_nil; lia].
    case_match.
    + set (at_ := off + hbin_offset_absolute fi).
      destruct (get_big_data_bytes_total fi at_ t size ltac:(lia)) as [Hret Hlen].
      destruct (get_big_data_bytes fi at_ t size) as [[vb offs]|e| |]; try done.
      * eexists _, _, _. split; [done|]. by eapply Hlen.
      * eexists _, _, _. split; [done|]. rewrite len_nil. lia.
    + destruct (get_range _ _ _) as [sl|] eqn:Hg.
      * eexists _, _, _. split; [done|]. apply get_range_len in Hg.
        pose proof (get_value_bytes_len t sl). lia.
      * eexists _, _, _. split; [done|]. rewrite len_nil. lia.
  - unfold U32_MOD in Hs. assert (exists n, size = 2 ^ 31 + n) as [n ->] by (exists (size - 2 ^ 31); lia).
    replace (2 ^ 31 + n - 2 ^ 31) with n by lia.
    rewrite resident_bytes by lia. destruct (Z.leb_spec n 4).
    + eexists _, _, _. split; [done|].
      pose proof (get_value_bytes_len t (ztake n (to_le_bytes 4 off))). len_lia.
    + eexists _, _, _. split; [done|]. rewrite len_nil. lia.
Qed.

(** C15: reading value bytes never panics, whatever the offsets and sizes in the file, and
    never yields more bytes than the announced data size. *)
Theorem read_value_bytes_direct_total fo size off t fi lg :
  0 <= size < U32_MOD ->
  exists bs offs lg', read_value_bytes_direct (Er:=Error) fo size off t fi lg = Ok (bs, offs, lg')
    /\ len bs <= (if size <? 2 ^ 31 then size else size - 2 ^ 31).
Proof. apply read_value_bytes_direct_Ok. Qed.

(** ** Reading a value returns *)

(** What a parsed vk cell guarantees to its users. *)
Lemma CellKeyValue_from_bytes_facts input fo sn full r v :
  CellKeyValue_from_bytes input fo sn full = Ok (r, v) ->
  24 <= CellKeyValue_get_cell_size v <= len input /\
  len (value_slack v) <= CellKeyValue_get_cell_size v - 24 /\
  0 <= value_data_size_raw v < U32_MOD /\ cv_file_offset_absolute v = fo /\
  cv_cell_state v = Allocated.
Proof.
  intros H. pose proof (CellKeyValue_from_bytes_is_vk _ _ _ _ _ _ H) as Hvk.
  destruct (CellKeyValue_from_bytes_run input fo sn full Hvk)
    as (v' & Hv & Hz & Hs & ? & ? & ? & Hsl & ? & ? & Hst & Hfo & ? & ?).
  rewrite Hv in H. simplify_eq. destruct Hvk as (Hsize & _ & _).
  unfold CellKeyValue_get_cell_size, unsigned_abs. rewrite Hz. fold (vk_size input).
  pose proof (le_at_range 4 8 input ltac:(lia)). pose proof (le_at_range 2 6 input ltac:(lia)).
  unfold U32_MOD. split_and!; try done; [lia|lia| |lia|lia].
  rewrite Hsl. unfold vk_name_end. len_lia.
Qed.

Lemma read_value_bytes_total {Er} v fi h :
  0 <= value_data_size_raw v < U32_MOD ->
  exists v' h', read_value_bytes (Er:=Er) v fi h = Ok (v', h') /\
    value_size v' = value_size v /\ cv_versions v' = cv_versions v.
Proof.
  intros Hs. unfold read_value_bytes.
  destruct (read_value_bytes_direct_Ok (Er:=Er) (cv_file_offset_absolute v)
    (value_data_size_raw v) (value_data_offset_relative v) (cv_data_type v) fi (cv_logs v) Hs)
    as (bs & offs & lg & -> & _). cbn.
  eexists _, _. split; [done|]. split; [|done]. unfold value_size. cbn. by destruct (cv_detail v).
Qed.

Lemma slack_offset_total {Er} v :
  0 <= cv_file_offset_absolute v -> len (value_slack v) <= CellKeyValue_get_cell_size v ->
  exists o, CellKeyValue_slack_offset_absolute (Er:=Er) v = Ok o /\ 0 <= o.
Proof.
  intros Ho Hl. unfold CellKeyValue_slack_offset_absolute, sub_usize, sub_uw.
  rewrite (proj2 (Z.leb_le _ _)) by lia. eexists. split; [done|lia].
Qed.
End ValueFacts.

(** A vk cell for the value [n] with four resident bytes [78 56 34 12] of type REG_DWORD. *)
Definition vk_sample : list byte :=
  to_le_bytes 4 (u32_of_i32 (-32)) ++ bytes_of "vk" ++ to_le_bytes 2 1 ++
  to_le_bytes 4 0x80000004 ++ to_le_bytes 4 0x12345678 ++ to_le_bytes 4 4 ++
  to_le_bytes 2 1 ++ to_le_bytes 2 0 ++ bytes_of "n" ++ replicate 7 Byte.x00.

Lemma CellKeyValue_from_bytes_iff_witness :
  exists r v, CellKeyValue_from_bytes (E:=env_ref) vk_sample 4128 None true = Ok (r, v) /\
    value_name v = lit "n" /\ cv_data_type v = REG_DWORD /\
    value_data_offset_relative v = 0x12345678.
Proof.
  destruct (@CellKeyValue_from_bytes_iff env_ref vk_sample 4128 None true) as [[_ Hex] Hok].
  destruct Hex as (r & v & Hp); [split_and!; vm_compute; congruence|].
  exists r, v. split; [exact Hp|]. destruct (Hok r v Hp) as (_ & _ & name & lg & -> & Hname & _).
  vm_compute in Hname. subst name. split_and!; vm_compute; reflexivity.
Defined.

(** A REG_DWORD value whose data is [bs]. *)
Definition dword_sample `{Env} (bs : list byte) : CellKeyValue :=
  {| cv_file_offset_absolute := 4128;
     cv_detail := make_enum false (fun F mk =>
       {| kv_size := mk _ (-32) 0 0; kv_signature := mk _ (lit "vk") 0 0;
          kv_value_name_size := mk _ 1 0 0; kv_data_size_raw := mk _ 0x80000004 0 0;
          kv_data_offset_relative := mk _ 0x12345678 0 0; kv_data_type_raw := mk _ 4 0 0;
          kv_flags_raw := mk _ 1 0 0; kv_padding := mk _ 0 0 0;
          kv_value_name := mk _ (lit "n") 0 0; kv_slack := mk _ [] 0 0;
          kv_value_bytes := mk _ (Some bs) 0 0 |});
     cv_data_type := REG_DWORD; cv_flags := 1; cv_data_offsets_absolute := [];
     cv_cell_state := Allocated; cv_logs := Logs_default; cv_versions := [];
     cv_hash := None; cv_sequence_num := None; cv_updated_by_sequence_num := None |}.

Lemma get_content_total_witness :
  get_content (E:=env_ref) (Er:=Error)
    (dword_sample [Byte.x78; Byte.x56; Byte.x34; Byte.x12]) = Ok (CV_U32 0x12345678, None).
Proof.
  destruct (@get_content_total env_ref (dword_sample [Byte.x78; Byte.x56; Byte.x34; Byte.x12]))
    as (c & w & Hc & _ & _ & _ & Hn).
  destruct (Hn 4 _ eq_refl eq_refl) as [_ Hw].
  rewrite Hc, Hw. vm_compute in Hc. injection Hc as <- _. reflexivity.
Defined.

Lemma read_value_bytes_resident_witness :
  read_value_bytes_direct (Er:=Error) (E:=env_ref) 4128 (2 ^ 31 + 2) 0x12345678 REG_SZ
    ri_loop_file Logs_default = Ok ([Byte.x78; Byte.x56], [4140], Logs_default).
Proof. rewrite (@read_value_bytes_resident env_ref 4128 2) by lia. reflexivity. Defined.

Lemma read_value_bytes_direct_total_witness :
  exists bs offs lg',
    read_value_bytes_direct (Er:=Error) (E:=env_ref) 0 20000 0 REG_BIN ri_loop_file Logs_default
    = Ok (bs, offs, lg') /\ len bs <= 20000.
Proof.
  exact (@read_value_bytes_direct_total env_ref 0 20000 0 REG_BIN ri_loop_file Logs_default
    ltac:(vm_compute; split; congruence)).
Defined.

(** A db cell at 0 with one segment, at 24, that holds three bytes. *)
Definition db_sample : FileInfo :=
  {| hbin_offset_absolute := 0;
     buffer := to_le_bytes 4 (u32_of_i32 (-16)) ++ bytes_of "db" ++ to_le_bytes 2 1
       ++ to_le_bytes 4 16 ++ to_le_bytes 4 0
       ++ to_le_bytes 4 (u32_of_i32 (-8)) ++ to_le_bytes 4 24
       ++ to_le_bytes 4 (u32_of_i32 (-8)) ++ bytes_of "abc" |}.

Lemma get_big_data_bytes_segmented_witness :
  get_big_data_bytes (E:=env_ref) db_sample 0 REG_BIN 3 = Ok (bytes_of "abc", [24]).
Proof.
  apply (@get_big_data_bytes_segmented env_ref db_sample 0 [24] (bytes_of "abc") REG_BIN).
  - unfold db_cell. split; [lia|]. split; [vm_compute; reflexivity|].
    split; [repeat constructor; vm_compute; congruence|].
    exists (-16), 16, (zdrop 12 (buffer db_sample)), (u32_of_i32 (-8)), (zdrop 24 (buffer db_sample)).
    split_and!; vm_compute; congruence.
  - apply seg_last; [|vm_compute; split; congruence].
    split; [vm_compute; congruence|]. exists (-8), [].
    split_and!; vm_compute; congruence.
Defined.

(** Decoding a multi-string from an offset reads past the slice: the length of the whole
    value is passed with the slice that starts at the offset. *)
Lemma decode_utf16_multiple_offset_panics :
  decode (E:=env_ref) (Er:=Error) DF_Utf16Multiple
    (CV_Binary [Byte.x41; Byte.x00; Byte.x42; Byte.x00]) 2 = Panic.
Proof. vm_compute. reflexivity. Qed.
