(* ===== verification/State.v ===== *)
(** * State: the key node, the reader's state and its maps

    The data of [src/src/cell_key_node.rs], [src/src/state.rs] and
    [src/src/reg_item_map.rs].  While a hive is read, the state accumulates the deleted and
    modified items found by transaction-log application and by recovery, keyed by path. *)

From S2P Require Import Prelude Env Log Util Cells Values ValueFacts.

Section State.
Context `{E : Env}.

(** ** [cell_key_node.rs]: data *)

Record CellKeyNodeDetail (F : Type -> Type) := {
  kn_size : F Z;
  kn_signature : F ustr;
  kn_key_node_flag_bits : F Z;
  kn_last_key_written_date_and_time : F Z;
  kn_access_flag_bits : F Z;
  kn_parent_key_offset_relative : F Z;
  kn_number_of_sub_keys : F Z;
  kn_number_of_volatile_sub_keys : F Z;
  kn_sub_keys_list_offset_relative : F Z;
  kn_volatile_sub_keys_list_offset_relative : F Z;
  kn_number_of_key_values : F Z;
  kn_key_values_list_offset_relative : F Z;
  kn_security_key_offset_relative : F Z;
  kn_class_name_offset_relative : F Z;
  kn_largest_sub_key_name_size : F Z;
  kn_largest_sub_key_class_name_size : F Z;
  kn_largest_value_name_size : F Z;
  kn_largest_value_data_size : F Z;
  kn_work_var : F Z;
  kn_key_name_size : F Z;
  kn_class_name_size : F Z;
  kn_slack : F (list byte);
}.
Definition CellKeyNodeDetailEnum : Type := FieldEnum CellKeyNodeDetail.

Inductive FilterMatchState := FMS_None | FMS_Descendent | FMS_Exact.
#[export] Instance FilterMatchState_eq : EqDecision FilterMatchState.
Proof. solve_decision. Defined.

Record CellKeyNodeIteration := {
  it_to_return : Z;
  it_track_returned : Z;
  it_filter_state : option FilterMatchState;
  it_sub_keys_iter_index : Z;
}.
Definition CellKeyNodeIteration_default : CellKeyNodeIteration :=
  {| it_to_return := 0; it_track_returned := 0; it_filter_state := None;
     it_sub_keys_iter_index := 0 |}.

Inductive CellKeyNode : Type := {
  n_file_offset_absolute : Z;
  n_detail : CellKeyNodeDetailEnum;
  n_key_name : ustr;
  n_path : ustr;
  n_cell_state : CellState;
  n_sequence_num : option Z;
  n_updated_by_sequence_num : option Z;
  n_sub_values : list CellKeyValue;
  n_logs : Logs;
  n_cell_sub_key_offsets_absolute : list Z;
  n_hash : option Hash;
  n_versions : list CellKeyNode;
  n_deleted_keys : list CellKeyNode;
  n_iteration_state : CellKeyNodeIteration;
}.

(** Assignments to the fields of a [&mut CellKeyNode]. *)
Definition n_set_sub_values (v : list CellKeyValue) (n : CellKeyNode) : CellKeyNode :=
  match n with Build_CellKeyNode a b c d e f g _ i j k l m o =>
    Build_CellKeyNode a b c d e f g v i j k l m o end.
Definition n_set_logs (v : Logs) (n : CellKeyNode) : CellKeyNode :=
  match n with Build_CellKeyNode a b c d e f g h _ j k l m o =>
    Build_CellKeyNode a b c d e f g h v j k l m o end.
Definition n_set_cell_sub_key_offsets_absolute (v : list Z) (n : CellKeyNode) : CellKeyNode :=
  match n with Build_CellKeyNode a b c d e f g h i _ k l m o =>
    Build_CellKeyNode a b c d e f g h i v k l m o end.
Definition n_set_versions (v : list CellKeyNode) (n : CellKeyNode) : CellKeyNode :=
  match n with Build_CellKeyNode a b c d e f g h i j k _ m o =>
    Build_CellKeyNode a b c d e f g h i j k v m o end.
Definition n_set_deleted_keys (v : list CellKeyNode) (n : CellKeyNode) : CellKeyNode :=
  match n with Build_CellKeyNode a b c d e f g h i j k l _ o =>
    Build_CellKeyNode a b c d e f g h i j k l v o end.
Definition n_set_iteration_state (v : CellKeyNodeIteration) (n : CellKeyNode) : CellKeyNode :=
  match n with Build_CellKeyNode a b c d e f g h i j k l m _ =>
    Build_CellKeyNode a b c d e f g h i j k l m v end.
Definition n_set_path (v : ustr) (n : CellKeyNode) : CellKeyNode :=
  match n with Build_CellKeyNode a b c _ e f g h i j k l m o =>
    Build_CellKeyNode a b c v e f g h i j k l m o end.
Definition n_set_cell_state (v : CellState) (n : CellKeyNode) : CellKeyNode :=
  match n with Build_CellKeyNode a b c d _ f g h i j k l m o =>
    Build_CellKeyNode a b c d v f g h i j k l m o end.
Definition n_set_sequence_num (v : option Z) (n : CellKeyNode) : CellKeyNode :=
  match n with Build_CellKeyNode a b c d e _ g h i j k l m o =>
    Build_CellKeyNode a b c d e v g h i j k l m o end.
Definition n_set_updated_by_sequence_num (v : option Z) (n : CellKeyNode) : CellKeyNode :=
  match n with Build_CellKeyNode a b c d e f _ h i j k l m o =>
    Build_CellKeyNode a b c d e f v h i j k l m o end.

Definition n_add_log (c : LogCode) (t : ustr) (n : CellKeyNode) : CellKeyNode :=
  n_set_logs (Logs_add (n_logs n) c t) n.
Definition n_set_filter_state (v : option FilterMatchState) (n : CellKeyNode) : CellKeyNode :=
  let it := n_iteration_state n in
  n_set_iteration_state {| it_to_return := it_to_return it;
                           it_track_returned := it_track_returned it;
                           it_filter_state := v;
                           it_sub_keys_iter_index := it_sub_keys_iter_index it |} n.

(** ** [cell_key_node.rs]: flags *)

Definition KEY_HIVE_ENTRY : Z := 0x0004.
Definition KEY_COMP_NAME : Z := 0x0020.
Definition KeyNodeFlags_table : list (Z * ustr) :=
  [(0x0001, lit "KEY_VOLATILE"); (0x0002, lit "KEY_HIVE_EXIT"); (0x0004, lit "KEY_HIVE_ENTRY");
   (0x0008, lit "KEY_NO_DELETE"); (0x0010, lit "KEY_SYM_LINK"); (0x0020, lit "KEY_COMP_NAME");
   (0x0040, lit "KEY_PREDEF_HANDLE"); (0x0080, lit "KEY_VIRTUAL_SOURCE");
   (0x0100, lit "KEY_VIRTUAL_TARGET"); (0x0200, lit "KEY_VIRTUAL_STORE");
   (0x1000, lit "KEY_UNKNOWN1"); (0x4000, lit "KEY_UNKNOWN2")].
Definition KeyNodeFlags_all : Z := 0x53FF.
Definition AccessFlags_table : list (Z * ustr) :=
  [(0x00000001, lit "ACCESSED_BEFORE_INIT"); (0x00000002, lit "ACCESSED_AFTER_INIT")].
Definition AccessFlags_all : Z := 3.

Definition KeyNodeFlags_from_bits_checked (flags : Z) (lg : Logs) : Z * Logs :=
  from_bits_checked KeyNodeFlags_all
    (lit "notatin::cell_key_node::KeyNodeFlags::from_bits_checked") flags lg.
Definition AccessFlags_from_bits_checked (flags : Z) (lg : Logs) : Z * Logs :=
  from_bits_checked AccessFlags_all
    (lit "notatin::cell_key_node::AccessFlags::from_bits_checked") flags lg.

(** The field accessors [impl_enum!] generates. *)
Definition node_size (n : CellKeyNode) : Z := field_get kn_size (n_detail n).
Definition node_flag_bits (n : CellKeyNode) : Z := field_get kn_key_node_flag_bits (n_detail n).
Definition node_access_flag_bits (n : CellKeyNode) : Z :=
  field_get kn_access_flag_bits (n_detail n).
Definition node_last_key_written (n : CellKeyNode) : Z :=
  field_get kn_last_key_written_date_and_time (n_detail n).
Definition node_parent_key_offset_relative (n : CellKeyNode) : Z :=
  field_get kn_parent_key_offset_relative (n_detail n).
Definition node_number_of_sub_keys (n : CellKeyNode) : Z :=
  field_get kn_number_of_sub_keys (n_detail n).
Definition node_sub_keys_list_offset_relative (n : CellKeyNode) : Z :=
  field_get kn_sub_keys_list_offset_relative (n_detail n).
Definition node_number_of_key_values (n : CellKeyNode) : Z :=
  field_get kn_number_of_key_values (n_detail n).
Definition node_key_values_list_offset_relative (n : CellKeyNode) : Z :=
  field_get kn_key_values_list_offset_relative (n_detail n).
Definition node_security_key_offset_relative (n : CellKeyNode) : Z :=
  field_get kn_security_key_offset_relative (n_detail n).
Definition node_slack (n : CellKeyNode) : list byte := field_get kn_slack (n_detail n).

Definition CellKeyNode_key_node_flags (self : CellKeyNode) (lg : Logs) : Z * Logs :=
  KeyNodeFlags_from_bits_checked (node_flag_bits self) lg.
Definition CellKeyNode_access_flags (self : CellKeyNode) (lg : Logs) : Z * Logs :=
  AccessFlags_from_bits_checked (node_access_flag_bits self) lg.
Definition is_key_root (self : CellKeyNode) : bool :=
  bf_contains (CellKeyNode_key_node_flags self Logs_default).1 KEY_HIVE_ENTRY.
Definition lowercase (self : CellKeyNode) : ustr := to_ascii_lowercase (n_path self).

(** ** [state.rs]: the maps *)

(** Appends to the vector at [k], creating it. *)
Definition map_push {K V} `{Countable K} (k : K) (v : V) (m : gmap K (list V))
    : gmap K (list V) :=
  match m !! k with
  | Some vec => <[k := vec ++ [v]]> m
  | None => <[k := [v]]> m
  end.

Definition ModifiedValueMap : Type := gmap (ustr * ustr) (list CellKeyValue).
Definition ModifiedValueMap_add (self : ModifiedValueMap) (key_path value_name : ustr)
    (value : CellKeyValue) : ModifiedValueMap := map_push (key_path, value_name) value self.
Definition ModifiedValueMap_get (self : ModifiedValueMap) (key_path value_name : ustr)
    : option (list CellKeyValue) := self !! (key_path, value_name).

Definition DeletedValueMap : Type := gmap ustr (list CellKeyValue).
Definition DeletedValueMap_add (self : DeletedValueMap) (key_path : ustr)
    (value : CellKeyValue) : DeletedValueMap := map_push key_path value self.
Definition DeletedValueMap_get (self : DeletedValueMap) (key_path : ustr)
    : option (list CellKeyValue) := self !! key_path.

Definition value_matches (name : ustr) (h : Hash) (value : CellKeyValue) : Prop :=
  value_name value = name /\ cv_hash value = Some h.
#[export] Instance value_matches_dec name h v : Decision (value_matches name h v).
Proof. unfold value_matches. apply _. Defined.

Definition DeletedValueMap_remove (self : DeletedValueMap) (key_path value_name : ustr)
    (hash : Hash) : DeletedValueMap :=
  match self !! key_path with
  | Some values =>
      match list_find (value_matches value_name hash) values with
      | Some (index, _) =>
          let values := delete index values in
          if bool_decide (length values = 0%nat) then delete key_path self
          else <[key_path := values]> self
      | None => self
      end
  | None => self
  end.

Definition ModifiedDeletedKeyMap : Type := gmap ustr (list CellKeyNode).
Definition ModifiedDeletedKeyMap_add (self : ModifiedDeletedKeyMap) (path : ustr)
    (value : CellKeyNode) : ModifiedDeletedKeyMap := map_push path value self.
Definition ModifiedDeletedKeyMap_get (self : ModifiedDeletedKeyMap) (path : ustr)
    : option (list CellKeyNode) := self !! path.

Definition key_matches (path : ustr) (h : Hash) (key : CellKeyNode) : Prop :=
  n_hash key = Some h /\ n_path key = path.
#[export] Instance key_matches_dec path h k : Decision (key_matches path h k).
Proof. unfold key_matches. apply _. Defined.

(** [&path[0..path.rfind('\\').unwrap_or_default()]]. *)
Definition parent_path (path : ustr) : ustr :=
  default [] (str_upto path (default 0 (str_rfind BACKSLASH path))).

Definition ModifiedDeletedKeyMap_remove (self : ModifiedDeletedKeyMap) (path : ustr)
    (hash : Hash) : ModifiedDeletedKeyMap :=
  let parent := parent_path path in
  match self !! parent with
  | Some keys =>
      match list_find (key_matches path hash) keys with
      | Some (index, _) =>
          let keys := delete index keys in
          let self := <[parent := keys]> self in
          if bool_decide (length keys = 0%nat) then delete path self else self
      | None => self
      end
  | None => self
  end.

(** ** [State] *)

Record State := {
  root_key_path_offset : Z;
  get_full_field_info : bool;
  info : Logs;
  hasher : list byte;
  deleted_keys : ModifiedDeletedKeyMap;
  modified_keys : ModifiedDeletedKeyMap;
  deleted_values : DeletedValueMap;
  modified_values : ModifiedValueMap;
}.
Definition State_default : State :=
  {| root_key_path_offset := 0; get_full_field_info := false; info := Logs_default;
     hasher := []; deleted_keys := ∅; modified_keys := ∅; deleted_values := ∅;
     modified_values := ∅ |}.

Definition st_set_root_key_path_offset (v : Z) (s : State) : State :=
  match s with Build_State _ b c d e f g h => Build_State v b c d e f g h end.
Definition st_set_get_full_field_info (v : bool) (s : State) : State :=
  match s with Build_State a _ c d e f g h => Build_State a v c d e f g h end.
Definition st_set_info (v : Logs) (s : State) : State :=
  match s with Build_State a b _ d e f g h => Build_State a b v d e f g h end.
Definition st_set_hasher (v : list byte) (s : State) : State :=
  match s with Build_State a b c _ e f g h => Build_State a b c v e f g h end.
Definition st_set_deleted_keys (v : ModifiedDeletedKeyMap) (s : State) : State :=
  match s with Build_State a b c d _ f g h => Build_State a b c d v f g h end.
Definition st_set_modified_keys (v : ModifiedDeletedKeyMap) (s : State) : State :=
  match s with Build_State a b c d e _ g h => Build_State a b c d e v g h end.
Definition st_set_deleted_values (v : DeletedValueMap) (s : State) : State :=
  match s with Build_State a b c d e f _ h => Build_State a b c d e f v h end.
Definition st_set_modified_values (v : ModifiedValueMap) (s : State) : State :=
  match s with Build_State a b c d e f g _ => Build_State a b c d e f g v end.

Definition State_get_root_path_offset (key_path : ustr) (self : State) : State * Z :=
  let self := if root_key_path_offset self =? 0
              then st_set_root_key_path_offset (get_root_path_offset key_path) self
              else self in
  (self, root_key_path_offset self).

(** ** [reg_item_map.rs] *)

Record RegItemMapKey := { rk_key_path : ustr; rk_value_name : option ustr }.
Record RegItemMapValue := {
  rv_hash : Hash;
  rv_file_offset_absolute : Z;
  rv_sequence_num : Z;
}.
#[export] Instance RegItemMapKey_eq : EqDecision RegItemMapKey.
Proof. solve_decision. Defined.
#[export] Instance RegItemMapKey_countable : Countable RegItemMapKey.
Proof.
  refine (inj_countable' (fun k => (rk_key_path k, rk_value_name k))
            (fun p => {| rk_key_path := p.1; rk_value_name := p.2 |}) _).
  by intros [].
Defined.
Definition RegItemMap : Type := gmap RegItemMapKey RegItemMapValue.
Definition RegItemMapKey_new (key_path : ustr) (value_name : option ustr) : RegItemMapKey :=
  {| rk_key_path := key_path; rk_value_name := value_name |}.
Definition RegItemMapValue_new (hash : Hash) (file_offset_absolute sequence_num : Z)
    : RegItemMapValue :=
  {| rv_hash := hash; rv_file_offset_absolute := file_offset_absolute;
     rv_sequence_num := sequence_num |}.
End State.

(** ** The maps' contracts *)

(** A map of vectors as the vector at a key, empty when absent. *)
Definition vec_at {K V} `{Countable K} (m : gmap K (list V)) (k : K) : list V :=
  default [] (m !! k).

(** No entry is an empty vector: [get] finds something exactly when there is an item. *)
Definition no_empty {K V} `{Countable K} (m : gmap K (list V)) : Prop :=
  forall k, m !! k <> Some [].

Lemma vec_at_push {K V} `{Countable K} (k k' : K) (v : V) m :
  vec_at (map_push k v m) k' = if decide (k = k') then vec_at m k' ++ [v] else vec_at m k'.
Proof.
  unfold vec_at, map_push. destruct (m !! k) eqn:Hk; case_decide; simplify_map_eq; done.
Qed.

Lemma no_empty_push {K V} `{Countable K} (k : K) (v : V) m :
  no_empty m -> no_empty (map_push k v m).
Proof.
  intros Hm k' Hk'. unfold map_push in Hk'.
  destruct (m !! k) as [vec|] eqn:Hk; (destruct (decide (k = k')) as [<-|];
    [|rewrite lookup_insert_ne in Hk' by done; by eapply Hm]);
    rewrite lookup_insert_eq in Hk'; [|done]. by destruct vec.
Qed.

Section Facts.
Context `{E : Env}.

(** Removes the first element that satisfies [P]. *)
Fixpoint remove_first {A} (P : A -> Prop) `{forall x, Decision (P x)} (l : list A) : list A :=
  match l with
  | [] => []
  | x :: l => if decide (P x) then l else x :: remove_first P l
  end.

Lemma delete_list_find {A} (P : A -> Prop) `{forall x, Decision (P x)} (l : list A) :
  match list_find P l with
  | Some (i, _) => delete i l = remove_first P l
  | None => remove_first P l = l
  end.
Proof.
  induction l as [|x l IH]; [done|]. cbn. case_decide; [done|].
  destruct (list_find P l) as [[i y]|]; cbn; f_equal; exact IH.
Qed.

(** The deleted-value map as a map from paths to lists: [add] appends to the list of its
    path only; [remove] deletes the first value with the name and hash from the list of its
    path only; neither leaves an empty vector behind, so [get] succeeds exactly for the
    paths with a deleted value. *)
Theorem DeletedValueMap_contract (m : DeletedValueMap) path name h v path' :
  vec_at (DeletedValueMap_add m path v) path' =
    (if decide (path = path') then vec_at m path' ++ [v] else vec_at m path') /\
  vec_at (DeletedValueMap_remove m path name h) path' =
    (if decide (path = path') then remove_first (value_matches name h) (vec_at m path')
     else vec_at m path') /\
  (no_empty m ->
   no_empty (DeletedValueMap_add m path v) /\ no_empty (DeletedValueMap_remove m path name h)).
Proof.
  unfold DeletedValueMap in *.
  split; [apply vec_at_push|]. unfold DeletedValueMap_remove, DeletedValueMap_add, vec_at.
  unfold DeletedValueMap in *.
  destruct (m !! path) as [values|] eqn:Hp.
  - pose proof (delete_list_find (value_matches name h) values) as Hd.
    destruct (list_find _ values) as [[i x]|].
    + split.
      * case_bool_decide as Hl; (case_decide as Heq; [subst path'|by rewrite ?lookup_delete_ne, ?lookup_insert_ne by done]);
          rewrite ?lookup_insert_eq, ?lookup_delete_eq, Hp; cbn; rewrite <- Hd; [|done].
        by destruct (delete i values).
      * intros Hne. split; [by apply no_empty_push|]. intros k Hk.
        case_bool_decide as Hl; (destruct (decide (path = k)) as [<-|Hneq];
          [|rewrite ?lookup_delete_ne, ?lookup_insert_ne in Hk by done; by eapply Hne]).
        -- by rewrite lookup_delete_eq in Hk.
        -- rewrite lookup_insert_eq in Hk. injection Hk as Hk. by rewrite Hk in Hl.
    + split; [|intros; split; [by apply no_empty_push|done]].
      case_decide; [subst; rewrite Hp; cbn; by rewrite Hd|done].
  - split; [|intros; split; [by apply no_empty_push|done]].
    case_decide; [subst; by rewrite Hp|done].
Qed.

(** Removing the last key recorded under a parent leaves an empty vector at the parent
    (where the value map would drop the entry), and drops what is recorded under the removed
    key's own path: its deleted children are forgotten. *)
Lemma ModifiedDeletedKeyMap_remove_last (m : ModifiedDeletedKeyMap) path h key :
  m !! parent_path path = Some [key] -> key_matches path h key -> parent_path path <> path ->
  ModifiedDeletedKeyMap_remove m path h !! parent_path path = Some [] /\
  ModifiedDeletedKeyMap_remove m path h !! path = None.
Proof.
  unfold ModifiedDeletedKeyMap_remove, ModifiedDeletedKeyMap in *. intros Hm Hk Hne.
  rewrite Hm. cbn [list_find].
  rewrite decide_True by done. cbn. by simplify_map_eq.
Qed.
End Facts.

(** ** Samples *)

(** A deleted key with the given flag bits, name, path and hash. *)
Definition key_sample `{Env} (size flag_bits : Z) (name path : ustr) (offset : Z)
    (h : option Hash) : CellKeyNode :=
  {| n_file_offset_absolute := offset;
     n_detail := make_enum false (fun F mk =>
       {| kn_size := mk _ size 0 0; kn_signature := mk _ (lit "nk") 0 0;
          kn_key_node_flag_bits := mk _ flag_bits 0 0;
          kn_last_key_written_date_and_time := mk _ 0 0 0;
          kn_access_flag_bits := mk _ 0 0 0; kn_parent_key_offset_relative := mk _ 0 0 0;
          kn_number_of_sub_keys := mk _ 0 0 0; kn_number_of_volatile_sub_keys := mk _ 0 0 0;
          kn_sub_keys_list_offset_relative := mk _ 0 0 0;
          kn_volatile_sub_keys_list_offset_relative := mk _ 0 0 0;
          kn_number_of_key_values := mk _ 0 0 0;
          kn_key_values_list_offset_relative := mk _ 0 0 0;
          kn_security_key_offset_relative := mk _ 0 0 0;
          kn_class_name_offset_relative := mk _ 0 0 0;
          kn_largest_sub_key_name_size := mk _ 0 0 0;
          kn_largest_sub_key_class_name_size := mk _ 0 0 0;
          kn_largest_value_name_size := mk _ 0 0 0; kn_largest_value_data_size := mk _ 0 0 0;
          kn_work_var := mk _ 0 0 0; kn_key_name_size := mk _ (len name) 0 0;
          kn_class_name_size := mk _ 0 0 0; kn_slack := mk _ [] 0 0 |});
     n_key_name := name; n_path := path; n_cell_state := DeletedTransactionLog;
     n_sequence_num := None; n_updated_by_sequence_num := None; n_sub_values := [];
     n_logs := Logs_default; n_cell_sub_key_offsets_absolute := []; n_hash := h;
     n_versions := []; n_deleted_keys := [];
     n_iteration_state := CellKeyNodeIteration_default |}.

Lemma DeletedValueMap_contract_witness :
  let m := DeletedValueMap_add (E:=env_ref) ∅ (lit "\a") (@dword_sample env_ref []) in
  vec_at m (lit "\a") = [@dword_sample env_ref []] /\ no_empty m.
Proof.
  destruct (@DeletedValueMap_contract env_ref ∅ (lit "\a") [] ([] : list byte) (dword_sample []) (lit "\a"))
    as (H1 & _ & H2).
  split; [rewrite H1; by rewrite decide_True|]. by apply H2.
Defined.

Lemma ModifiedDeletedKeyMap_remove_last_witness :
  let k := @key_sample env_ref 80 32 (lit "b") (lit "\a\b") 0 (Some ([] : list byte)) in
  let m : @ModifiedDeletedKeyMap env_ref := <[lit "\a\b" := [k]]> {[ lit "\a" := [k] ]} in
  ModifiedDeletedKeyMap_remove (E:=env_ref) m (lit "\a\b") ([] : list byte) !! lit "\a\b" = None.
Proof.
  intros k m.
  destruct (@ModifiedDeletedKeyMap_remove_last env_ref m (lit "\a\b") ([] : list byte) k) as [_ H];
    [reflexivity|split; reflexivity|discriminate|exact H].
Defined.
