(* ===== verification/Filter.v ===== *)
(** * Filter: selecting keys by path

    [src/src/filter.rs].  A filter is a list of path segments, each a literal or a regular
    expression.  Matching a key says whether it is the key sought, a key on the way to it,
    or neither, which is what prunes the traversals. *)

From S2P Require Import Prelude Env Log Util Cells Values ValueFacts State.

Definition FILTER_NO_MATCH : Z := 0x0001.
Definition FILTER_ITERATE_KEYS : Z := 0x0002.
Definition FILTER_KEY_MATCH : Z := 0x0004.

Section Filter.
Context `{E : Env}.

Inductive RegQueryComponent :=
  | ComponentString (s : ustr)
  | ComponentRegex (r : Regex).

Record RegQuery := {
  rq_key_path : list RegQueryComponent;
  rq_key_path_has_root : bool;
  rq_children : bool;
}.

Record Filter := { reg_query : option RegQuery }.
Definition Filter_new : Filter := {| reg_query := None |}.
Definition Filter_is_valid (self : Filter) : bool := bool_decide (is_Some (reg_query self)).

(** The [for key_path_segment in key_path_iterator] loop, over the filter iterator. *)
Fixpoint match_segments (segments : list ustr) (filter_iterator : list RegQueryComponent) : Z :=
  match segments with
  | [] =>
      match filter_iterator with
      | [] => Z.lor FILTER_ITERATE_KEYS FILTER_KEY_MATCH
      | _ :: _ => FILTER_ITERATE_KEYS
      end
  | key_path_segment :: segments =>
      match filter_iterator with
      | ComponentString s :: filter_iterator =>
          if negb (bool_decide (s = to_ascii_lowercase key_path_segment)) then FILTER_NO_MATCH
          else match_segments segments filter_iterator
      | ComponentRegex r :: filter_iterator =>
          if regex_is_match r (to_ascii_lowercase key_path_segment)
          then match_segments segments filter_iterator
          else FILTER_NO_MATCH
      | [] => FILTER_NO_MATCH
      end
  end.

Definition check_key_match {Er} (self : RegQuery) (key_path : ustr) (root_key_name_offset : Z)
    : res Er Z :=
  let root_key_name_offset := if rq_key_path_has_root self then 0 else root_key_name_offset in
  tail ← expect (str_from key_path root_key_name_offset);
  Ok (match_segments (str_split BACKSLASH tail) (rq_key_path self)).

Definition match_key {Er} (self : Filter) (key_path : ustr) : M State Er Z :=
  match reg_query self with
  | Some reg_query =>
      let* state := m_get in
      let '(state, offset) := State_get_root_path_offset key_path state in
      m_modify (fun _ => state);;;
      m_lift (check_key_match reg_query key_path offset)
  | None => m_ret FILTER_ITERATE_KEYS
  end.

Definition match_cell {Er} (self : Filter) (cell : CellKeyNode) : M State Er Z :=
  match reg_query self with
  | Some reg_query =>
      if is_key_root cell && negb (rq_key_path_has_root reg_query)
      then m_ret FILTER_ITERATE_KEYS
      else match_key self (lowercase cell)
  | None => match_key self (lowercase cell)
  end.

Definition check_cell {Er} (self : Filter) (cell : CellKeyNode) : M State Er Z :=
  if Filter_is_valid self then match_cell self cell else m_ret FILTER_ITERATE_KEYS.

Definition return_sub_keys (self : Filter) : bool :=
  match reg_query self with
  | Some fp => rq_children fp
  | _ => false
  end.

(** ** [FilterBuilder] *)

Record FilterBuilder := {
  fb_key_path : list RegQueryComponent;
  fb_key_path_has_root : bool;
  fb_children : bool;
  fb_regex_errors : list ustr;
}.
Definition FilterBuilder_new : FilterBuilder :=
  {| fb_key_path := []; fb_key_path_has_root := false; fb_children := false;
     fb_regex_errors := [] |}.

Definition fb_set_key_path (v : list RegQueryComponent) (b : FilterBuilder) : FilterBuilder :=
  {| fb_key_path := v; fb_key_path_has_root := fb_key_path_has_root b;
     fb_children := fb_children b; fb_regex_errors := fb_regex_errors b |}.

Definition add_literal_segment_internal (key_path : list RegQueryComponent) (segment : ustr)
    : list RegQueryComponent := key_path ++ [ComponentString (to_ascii_lowercase segment)].

Definition add_key_path (self : FilterBuilder) (key_path : ustr) : FilterBuilder :=
  fb_set_key_path
    (foldl add_literal_segment_internal (fb_key_path self)
       (str_split BACKSLASH (trim_end_char BACKSLASH key_path))) self.

Definition add_literal_segment (self : FilterBuilder) (segment : ustr) : FilterBuilder :=
  fb_set_key_path
    (add_literal_segment_internal (fb_key_path self) (trim_char BACKSLASH segment)) self.

Definition add_regex_segment (self : FilterBuilder) (regex : ustr) : FilterBuilder :=
  match regex_new (to_ascii_lowercase regex) with
  | inr r => fb_set_key_path (fb_key_path self ++ [ComponentRegex r]) self
  | inl e =>
      {| fb_key_path := fb_key_path self; fb_key_path_has_root := fb_key_path_has_root self;
         fb_children := fb_children self; fb_regex_errors := fb_regex_errors self ++ [e] |}
  end.

Definition key_path_has_root (self : FilterBuilder) (v : bool) : FilterBuilder :=
  {| fb_key_path := fb_key_path self; fb_key_path_has_root := v;
     fb_children := fb_children self; fb_regex_errors := fb_regex_errors self |}.
Definition return_child_keys (self : FilterBuilder) (v : bool) : FilterBuilder :=
  {| fb_key_path := fb_key_path self; fb_key_path_has_root := fb_key_path_has_root self;
     fb_children := v; fb_regex_errors := fb_regex_errors self |}.

(** [v.join(", ")]. *)
Fixpoint join_comma (v : list ustr) : ustr :=
  match v with
  | [] => []
  | [x] => x
  | x :: v => x ++ lit ", " ++ join_comma v
  end.

Definition FilterBuilder_build (self : FilterBuilder) : res Error Filter :=
  if bool_decide (fb_regex_errors self = []) then
    Ok {| reg_query := Some {| rq_key_path := fb_key_path self;
                               rq_key_path_has_root := fb_key_path_has_root self;
                               rq_children := fb_children self |} |}
  else Err (AnyError (lit "Regex errors encountered: " ++ join_comma (fb_regex_errors self))).

(** ** What a match means *)

Definition component_matches (c : RegQueryComponent) (segment : ustr) : Prop :=
  match c with
  | ComponentString s => s = to_ascii_lowercase segment
  | ComponentRegex r => regex_is_match r (to_ascii_lowercase segment) = true
  end.

(** The key at [segments] is the one sought, or one on the way to it. *)
Definition path_matches (q : list RegQueryComponent) (segments : list ustr) : Prop :=
  Forall2 component_matches q segments.
Definition path_leads (q : list RegQueryComponent) (segments : list ustr) : Prop :=
  exists pre rest, q = pre ++ rest /\ rest <> [] /\ Forall2 component_matches pre segments.

Lemma match_segments_spec segments q :
  (path_matches q segments /\
   match_segments segments q = Z.lor FILTER_ITERATE_KEYS FILTER_KEY_MATCH) \/
  (path_leads q segments /\ match_segments segments q = FILTER_ITERATE_KEYS) \/
  (~ path_matches q segments /\ ~ path_leads q segments /\
   match_segments segments q = FILTER_NO_MATCH).
Proof.
  assert (forall c x segments q, ~ component_matches c x ->
    ~ path_matches (c :: q) (x :: segments) /\ ~ path_leads (c :: q) (x :: segments)) as Hno.
  { intros c x segs q' Hc. split; [by intros [? _]%Forall2_cons|].
    intros (pre & rest & Heq & Hr & Hf). destruct pre as [|c' pre]; [by inversion Hf|].
    simplify_eq/=. by apply Forall2_cons in Hf as [? _]. }
  revert q. induction segments as [|x segments IH]; intros q; cbn [match_segments].
  { destruct q as [|c q]; [left; split; [constructor|done]|].
    right; left. split; [|done]. exists [], (c :: q). split_and!; [done|done|constructor]. }
  assert (forall c q, component_matches c x ->
    (path_matches q segments -> path_matches (c :: q) (x :: segments)) /\
    (path_leads q segments -> path_leads (c :: q) (x :: segments)) /\
    (path_matches (c :: q) (x :: segments) -> path_matches q segments) /\
    (path_leads (c :: q) (x :: segments) -> path_leads q segments)) as Hyes.
  { intros c q' Hc. split_and!.
    - by constructor.
    - intros (pre & rest & -> & Hr & Hf). exists (c :: pre), rest. split_and!; [done|done|].
      by constructor.
    - by intros [_ ?]%Forall2_cons.
    - intros (pre & rest & Heq & Hr & Hf). destruct pre as [|c' pre]; [by inversion Hf|].
      simplify_eq/=. apply Forall2_cons in Hf as [_ Hf]. by exists pre, rest. }
  destruct q as [|[s|r] q].
  - right; right. split_and!; [by intros H; inversion H| |done].
    intros (pre & rest & Heq & Hr & Hf). symmetry in Heq. by apply app_nil in Heq as [-> ->].
  - case_bool_decide as Hs; cbn [negb].
    + destruct (Hyes (ComponentString s) q Hs) as (H1 & H2 & H3 & H4).
      destruct (IH q) as [[? ?]|[[? ?]|(? & ? & ?)]]; [left|right; left|right; right]; tauto.
    + right; right. destruct (Hno (ComponentString s) x segments q Hs). done.
  - destruct (regex_is_match r _) eqn:Hs.
    + destruct (Hyes (ComponentRegex r) q Hs) as (H1 & H2 & H3 & H4).
      destruct (IH q) as [[? ?]|[[? ?]|(? & ? & ?)]]; [left|right; left|right; right]; tauto.
    + right; right. destruct (Hno (ComponentRegex r) x segments q) as [? ?]; [|done].
      cbn. by rewrite Hs.
Qed.

(** C32: on a key path whose root part can be cut off, matching yields exactly one of three
    answers: the key is sought (every segment matches its component, none left over), is on
    the way (the components match its segments and more remain), or neither. *)
Theorem check_key_match_spec q key_path off tail :
  str_from key_path (if rq_key_path_has_root q then 0 else off) = Some tail ->
  let segments := str_split BACKSLASH tail in
  exists flags, check_key_match (Er:=Error) q key_path off = Ok flags /\
    (bf_contains flags FILTER_KEY_MATCH = true <-> path_matches (rq_key_path q) segments) /\
    (bf_contains flags FILTER_NO_MATCH = true <->
       ~ path_matches (rq_key_path q) segments /\ ~ path_leads (rq_key_path q) segments) /\
    (bf_contains flags FILTER_ITERATE_KEYS = negb (bf_contains flags FILTER_NO_MATCH)).
Proof.
  intros Ht segments. unfold check_key_match. rewrite Ht. cbn.
  eexists. split; [done|]. fold segments. rewrite !bf_contains_spec.
  assert (path_matches (rq_key_path q) segments -> path_leads (rq_key_path q) segments -> False).
  { intros H1 (pre & rest & Heq & Hr & H2). unfold path_matches in H1. rewrite Heq in H1.
    apply Forall2_length in H1, H2. rewrite length_app in H1. destruct rest; [done|].
    cbn in H1. lia. }
  destruct (match_segments_spec segments (rq_key_path q)) as [[? ->]|[[? ->]|(? & ? & ->)]];
    vm_compute (Z.land _ _ =? _); repeat split; try done; try tauto; intros; exfalso; tauto.
Qed.

(** ** Literal paths *)

Lemma to_ascii_lowercase_app s t :
  to_ascii_lowercase (s ++ t) = to_ascii_lowercase s ++ to_ascii_lowercase t.
Proof. apply fmap_app. Qed.

Lemma ascii_lower_backslash c : (ascii_lower c =? BACKSLASH) = (c =? BACKSLASH).
Proof. unfold ascii_lower, BACKSLASH. repeat case_match; lia. Qed.

Lemma str_split_lowercase s :
  str_split BACKSLASH (to_ascii_lowercase s) = to_ascii_lowercase <$> str_split BACKSLASH s.
Proof.
  induction s as [|c s IH]; [done|].
  change (to_ascii_lowercase (c :: s)) with (ascii_lower c :: to_ascii_lowercase s).
  cbn [str_split].
  rewrite ascii_lower_backslash, IH. destruct (c =? BACKSLASH); [done|].
  by destruct (str_split BACKSLASH s).
Qed.

(** [split] is undone by joining with the separator. *)
Fixpoint str_join (c : Z) (segs : list ustr) : ustr :=
  match segs with
  | [] => []
  | [x] => x
  | x :: segs => x ++ c :: str_join c segs
  end.

Lemma str_join_split c s : str_join c (str_split c s) = s.
Proof.
  induction s as [|x s IH]; [done|]. cbn [str_split].
  pose proof (str_split_nonempty c s). destruct (Z.eqb_spec x c) as [->|].
  - cbn [str_join]. destruct (str_split c s); [done|]. by rewrite IH.
  - destruct (str_split c s) as [|seg [|seg2 rest]]; [done|by rewrite <- IH..].
Qed.

Lemma str_split_inj c s t : str_split c s = str_split c t -> s = t.
Proof. intros H. by rewrite <- (str_join_split c s), H, str_join_split. Qed.

Lemma foldl_add_literal q segs :
  foldl add_literal_segment_internal q segs =
  q ++ ((fun s => ComponentString (to_ascii_lowercase s)) <$> segs).
Proof.
  revert q. induction segs as [|s segs IH]; intros q; cbn; [by rewrite app_nil_r|].
  unfold add_literal_segment_internal at 2. by rewrite IH, <- app_assoc.
Qed.

Lemma Forall2_literal segs path :
  Forall2 component_matches
    ((fun s => ComponentString (to_ascii_lowercase s)) <$> segs) path <->
  to_ascii_lowercase <$> segs = to_ascii_lowercase <$> path.
Proof.
  split.
  - revert path. induction segs as [|s segs IH]; intros path H.
    + by inversion H.
    + inversion H; subst. cbn in *. f_equal; auto.
  - revert path. induction segs as [|s segs IH]; intros [|p path] H; try done.
    cbn in H. injection H as H1 H2. constructor; [done|]. by apply IH.
Qed.

(** The filter built from a full key path (how a subkey is looked up by path) matches
    exactly the key with that path, up to ASCII case and trailing backslashes. *)
Lemma add_key_path_match p0 key_path off :
  exists q flags,
    FilterBuilder_build (key_path_has_root (add_key_path FilterBuilder_new p0) true)
      = Ok {| reg_query := Some q |} /\
    check_key_match (Er:=Error) q key_path off = Ok flags /\
    (bf_contains flags FILTER_KEY_MATCH = true <->
     to_ascii_lowercase (trim_end_char BACKSLASH p0) = to_ascii_lowercase key_path).
Proof.
  eexists _, _. split; [reflexivity|].
  split.
  { unfold check_key_match. cbn [rq_key_path_has_root fb_key_path_has_root key_path_has_root].
    assert (str_from key_path 0 = Some key_path) as -> by by destruct key_path.
    reflexivity. }
  cbn [rq_key_path key_path_has_root fb_key_path add_key_path fb_set_key_path FilterBuilder_new].
  rewrite foldl_add_literal. cbn [app].
  set (segs := str_split BACKSLASH (trim_end_char BACKSLASH p0)).
  set (path := str_split BACKSLASH key_path).
  assert (to_ascii_lowercase (trim_end_char BACKSLASH p0) = to_ascii_lowercase key_path <->
          to_ascii_lowercase <$> segs = to_ascii_lowercase <$> path) as ->.
  { unfold segs, path. rewrite <- !str_split_lowercase. split; [by intros ->|].
    apply str_split_inj. }
  rewrite <- Forall2_literal, bf_contains_spec.
  destruct (match_segments_spec path ((fun s => ComponentString (to_ascii_lowercase s)) <$> segs))
    as [[? ->]|[[(pre & rest & Heq & Hr & Hp) ->]|(? & ? & ->)]];
    vm_compute (Z.land _ _ =? _); split; try done.
  intros H. exfalso. rewrite Heq in H. apply Forall2_length in H, Hp.
  rewrite length_app in H. destruct rest; [done|]. cbn in H. lia.
Qed.
End Filter.

Lemma check_key_match_spec_witness :
  let q := {| rq_key_path := [ComponentString (lit "software"); ComponentString (lit "run")];
              rq_key_path_has_root := false; rq_children := false |} in
  exists flags, check_key_match (E:=env_ref) (Er:=Error) q (lit "\root\Software\Run") 6 = Ok flags
    /\ path_matches (E:=env_ref) (rq_key_path q) [lit "Software"; lit "Run"].
Proof.
  intros q.
  destruct (@check_key_match_spec env_ref q (lit "\root\Software\Run") 6
    (lit "Software\Run") eq_refl) as (flags & Hc & Hm & _).
  exists flags. split; [exact Hc|]. apply Hm. cbn in Hc. injection Hc as <-. reflexivity.
Defined.
