(* ===== verification/KeyNode.v ===== *)
(** * KeyNode: reading keys, their values and their subkeys

    The operations of [src/src/cell_key_node.rs].  A call that takes [&mut self] and the
    reader's state runs over the pair of both, so what it did to the node before an
    error is kept.  [fuel] bounds the depth of the two recursions the file's contents drive:
    following ri lists and expanding deleted keys. *)

From S2P Require Import Prelude Env Log Util UtilFacts Cells SubKeyLists Values ValueFacts State Filter.

Section KeyNode.
Context `{E : Env}.

Definition MIN_CELL_KEY_SIZE : Z := 72.
Definition CellKeyNode_SIGNATURE : string := "nk".

Record CellKeyNodeReadOptions := {
  o_offset : Z;
  o_cur_path : ustr;
  o_filter : option Filter;
  o_self_is_filter_match_or_descendent : bool;
  o_sequence_num : option Z;
  o_get_deleted_and_modified : bool;
}.

Definition CellKeyNode_get_cell_size (self : CellKeyNode) : Z := unsigned_abs (node_size self).
Definition CellKeyNode_is_free (self : CellKeyNode) : bool := 0 <? node_size self.
Definition CellKeyNode_slack_offset_absolute {Er} (self : CellKeyNode) : res Er Z :=
  sub_usize (n_file_offset_absolute self + CellKeyNode_get_cell_size self)
    (len (node_slack self)).
Definition CellKeyNode_last_key_written_date_and_time (self : CellKeyNode) : DateTime :=
  get_date_time_from_filetime (node_last_key_written self).
Definition CellKeyNode_get_pretty_path {Er} (self : CellKeyNode) : res Er ustr :=
  expect (str_from (n_path self) (get_root_path_offset (n_path self))).

Definition is_filter_match_or_descendent (self : CellKeyNode) : bool :=
  match it_filter_state (n_iteration_state self) with
  | Some FMS_Exact | Some FMS_Descendent => true
  | _ => false
  end.

(** ** Parsing *)

Definition CellKeyNode_check_size (size input_len : Z) : bool :=
  let size_abs := unsigned_abs size in
  (MIN_CELL_KEY_SIZE <=? size_abs) && (size_abs <=? input_len).

(** [from_bytes] up to the hash. *)
Definition CellKeyNode_parse (get_full_field_info : bool) (input : list byte)
    (file_offset_absolute : Z) (cur_path : ustr) (sequence_num : option Z)
    : presult CellKeyNode :=
  let start := len input in
  let read := read_value_offset_length get_full_field_info start in
  '(input, (size, size_at)) ← read nom_le_i32 input;
  if negb (CellKeyNode_check_size size (len input + 4)) then Err NomError
  else
    let signature_offset := start - len input in
    '(input, _) ← nom_tag (bytes_of CellKeyNode_SIGNATURE) input;
    '(input, (key_node_flag_bits, flag_bits_at)) ← read nom_le_u16 input;
    '(input, (last_key_written, last_key_written_at)) ← read nom_le_u64 input;
    '(input, (access_flag_bits, access_flag_bits_at)) ← read nom_le_u32 input;
    '(input, (parent_key_offset, parent_key_offset_at)) ← read nom_le_i32 input;
    '(input, (number_of_sub_keys, number_of_sub_keys_at)) ← read nom_le_u32 input;
    '(input, (number_of_volatile, number_of_volatile_at)) ← read nom_le_u32 input;
    '(input, (sub_keys_list, sub_keys_list_at)) ← read nom_le_u32 input;
    '(input, (volatile_list, volatile_list_at)) ← read nom_le_i32 input;
    '(input, (number_of_key_values, number_of_key_values_at)) ← read nom_le_u32 input;
    '(input, (key_values_list, key_values_list_at)) ← read nom_le_i32 input;
    '(input, (security_key, security_key_at)) ← read nom_le_u32 input;
    '(input, (class_name, class_name_at)) ← read nom_le_i32 input;
    '(input, (largest_key_name, largest_key_name_at)) ← read nom_le_u32 input;
    '(input, (largest_key_class, largest_key_class_at)) ← read nom_le_u32 input;
    '(input, (largest_value_name, largest_value_name_at)) ← read nom_le_u32 input;
    '(input, (largest_value_data, largest_value_data_at)) ← read nom_le_u32 input;
    '(input, (work_var, work_var_at)) ← read nom_le_u32 input;
    '(input, (key_name_size, key_name_size_at)) ← read nom_le_u16 input;
    '(input, (class_name_size, class_name_size_at)) ← read nom_le_u16 input;
    let lg := Logs_default in
    '(input, key_name_bytes) ← nom_take key_name_size input;
    let '(key_node_flags, lg) := KeyNodeFlags_from_bits_checked key_node_flag_bits lg in
    '(key_name, lg) ←
      string_from_bytes (bf_contains key_node_flags KEY_COMP_NAME) key_name_bytes
        key_name_size lg (lit "key_name_bytes");
    let path := cur_path ++ [BACKSLASH] ++ key_name in
    let slack_offset := start - len input in
    let size_abs := unsigned_abs size in
    '(input, slack_bytes) ← parser_eat_remaining input size_abs slack_offset;
    Ok (input,
        {| n_detail := make_enum get_full_field_info (fun F mk =>
             {| kn_size := mk _ size size_at 4;
                kn_signature := mk _ (lit CellKeyNode_SIGNATURE) signature_offset 2;
                kn_key_node_flag_bits := mk _ key_node_flag_bits flag_bits_at 2;
                kn_last_key_written_date_and_time :=
                  mk _ last_key_written last_key_written_at 8;
                kn_access_flag_bits := mk _ access_flag_bits access_flag_bits_at 4;
                kn_parent_key_offset_relative := mk _ parent_key_offset parent_key_offset_at 4;
                kn_number_of_sub_keys := mk _ number_of_sub_keys number_of_sub_keys_at 4;
                kn_number_of_volatile_sub_keys :=
                  mk _ number_of_volatile number_of_volatile_at 4;
                kn_sub_keys_list_offset_relative := mk _ sub_keys_list sub_keys_list_at 4;
                kn_volatile_sub_keys_list_offset_relative :=
                  mk _ volatile_list volatile_list_at 4;
                kn_number_of_key_values := mk _ number_of_key_values number_of_key_values_at 4;
                kn_key_values_list_offset_relative :=
                  mk _ key_values_list key_values_list_at 4;
                kn_security_key_offset_relative := mk _ security_key security_key_at 4;
                kn_class_name_offset_relative := mk _ class_name class_name_at 4;
                kn_largest_sub_key_name_size := mk _ largest_key_name largest_key_name_at 4;
                kn_largest_sub_key_class_name_size :=
                  mk _ largest_key_class largest_key_class_at 4;
                kn_largest_value_name_size := mk _ largest_value_name largest_value_name_at 4;
                kn_largest_value_data_size := mk _ largest_value_data largest_value_data_at 4;
                kn_work_var := mk _ work_var work_var_at 4;
                kn_key_name_size := mk _ key_name_size key_name_size_at 2;
                kn_class_name_size := mk _ class_name_size class_name_size_at 2;
                kn_slack := mk _ slack_bytes slack_offset (len slack_bytes) |});
           n_file_offset_absolute := file_offset_absolute;
           n_key_name := key_name;
           n_path := path;
           n_cell_state := Allocated;
           n_sub_values := [];
           n_logs := lg;
           n_cell_sub_key_offsets_absolute := [];
           n_iteration_state := CellKeyNodeIteration_default;
           n_versions := [];
           n_deleted_keys := [];
           n_hash := None;
           n_sequence_num := sequence_num;
           n_updated_by_sequence_num := None |}).

Definition CellKeyNode_hash (flags_raw last_key_written_raw access_bits_raw : Z) (state : State)
    : State * Hash :=
  let hasher := [] in
  let hasher := hasher ++ to_le_bytes 2 flags_raw in
  let hasher := hasher ++ to_le_bytes 8 last_key_written_raw in
  let hasher := hasher ++ to_le_bytes 4 access_bits_raw in
  (st_set_hasher hasher state, blake3 hasher).

Definition n_set_hash (v : option Hash) (n : CellKeyNode) : CellKeyNode :=
  match n with Build_CellKeyNode a b c d e f g h i j _ l m o =>
    Build_CellKeyNode a b c d e f g h i j v l m o end.

Definition CellKeyNode_from_bytes (input : list byte) (file_offset_absolute : Z)
    (cur_path : ustr) (sequence_num : option Z) : M State nom_err (list byte * CellKeyNode) :=
  let* state := m_get in
  let* (input, cell_key_node) :=
    m_lift (CellKeyNode_parse (get_full_field_info state) input file_offset_absolute cur_path
              sequence_num) in
  let '(state, h) := CellKeyNode_hash (node_flag_bits cell_key_node)
                       (node_last_key_written cell_key_node)
                       (node_access_flag_bits cell_key_node) state in
  m_modify (fun _ => state);;;
  m_ret (input, n_set_hash (Some h) cell_key_node).

Definition m_map_err {S E1 E2 A} (f : E1 -> E2) (m : M S E1 A) : M S E2 A := fun s =>
  match m s with (s, r) => (s, res_map_err f r) end.

(** ** Values *)

Definition parse_key_values (file_info : FileInfo) (key_values_count list_offset_relative : Z)
    : presult (list Z) :=
  slice ← ok_or NomError (get_from (buffer file_info)
            (as_usize list_offset_relative + hbin_offset_absolute file_info));
  '(slice, _) ← nom_le_u32 slice;
  '(_, list_) ← nom_count nom_le_u32 key_values_count slice;
  Ok (slice, list_).

(** The node and the state of a call that mutates both. *)
Abbreviation NM := (M (CellKeyNode * State)).
Definition nm_node {Er} (f : CellKeyNode -> CellKeyNode) : NM Er () :=
  m_modify (fun s => (f s.1, s.2)).
Definition nm_state {Er A} (m : M State Er A) : NM Er A := fun s =>
  match m s.2 with (st, r) => ((s.1, st), r) end.
Definition nm_log {Er} (c : LogCode) (t : ustr) : NM Er () := nm_node (n_add_log c t).

(** [for val in key_values.iter()]. *)
Fixpoint read_values_loop (file_info : FileInfo) (sequence_num : option Z) (vals : list Z)
    : NM Error () :=
  match vals with
  | [] => m_ret ()
  | val :: vals =>
      let offset := val + hbin_offset_absolute file_info in
      match get_at (buffer file_info) offset with
      | None =>
          nm_log WarningParse (lit "read_values error: offset " ++ fmt_dec offset
                                 ++ lit " out of range")
      | Some _ =>
          let* slice := m_lift (ok_or (Error_buffer "read_values")
                                  (get_from (buffer file_info) offset)) in
          let* s := m_get in
          let* (_, cell_key_value) :=
            m_lift (nom_q (CellKeyValue_from_bytes slice offset sequence_num
                             (get_full_field_info s.2))) in
          let* (cell_key_value, h) :=
            m_lift (read_value_bytes cell_key_value file_info (hasher s.2)) in
          m_modify (fun s => (n_set_sub_values (n_sub_values s.1 ++ [cell_key_value]) s.1,
                              st_set_hasher h s.2));;;
          read_values_loop file_info sequence_num vals
      end
  end.

Definition read_values (file_info : FileInfo) (sequence_num : option Z) : NM Error () :=
  let* s := m_get in
  let self := s.1 in
  let list_offset := node_key_values_list_offset_relative self in
  if (0 <? list_offset) && (as_usize list_offset <? len (buffer file_info)) then
    if 1024 * 1024 <? node_number_of_key_values self then
      nm_log WarningParse (lit "read_values error: too many values: "
                             ++ fmt_dec (node_number_of_key_values self))
    else
      nm_node (n_set_sub_values []);;;
      let* (_, key_values) :=
        m_lift (nom_q (parse_key_values file_info (node_number_of_key_values self)
                         list_offset)) in
      read_values_loop file_info sequence_num key_values
  else m_ret ().

(** ** Deleted and modified items *)

Definition by_sequence_desc {A} (seq : A -> option Z) : list A -> list A :=
  sort_by (fun a b => opt_le (seq b) (seq a)).

Definition cv_set_versions (v : list CellKeyValue) (c : CellKeyValue) : CellKeyValue :=
  match c with Build_CellKeyValue a b d e f g h _ j k l =>
    Build_CellKeyValue a b d e f g h v j k l end.

Fixpoint update_modified_lists {Er} (fuel : nat) (state : State) (self : CellKeyNode)
    : res Er CellKeyNode :=
  match fuel with
  | O => NoFuel
  | S k =>
      let path := if is_key_root self then [] else n_path self in
      if negb (is_deleted_primary_file (n_cell_state self)) then
        self ← match ModifiedDeletedKeyMap_get (deleted_keys state) path with
               | Some dks =>
                   dks ← mapM (fun dk =>
                           if negb (n_file_offset_absolute dk =? n_file_offset_absolute self)
                           then update_modified_lists k state dk
                           else Ok dk) dks;
                   Ok (n_set_deleted_keys dks self)
               | None => Ok self
               end;
        let self := match ModifiedDeletedKeyMap_get (modified_keys state) path with
                    | Some mks => n_set_versions (by_sequence_desc n_sequence_num mks) self
                    | None => self
                    end in
        let self := n_set_sub_values
              ((fun val =>
                  match ModifiedValueMap_get (modified_values state) path (value_name val) with
                  | Some mvs => cv_set_versions (by_sequence_desc cv_sequence_num mvs) val
                  | None => val
                  end) <$> n_sub_values self) self in
        Ok (match DeletedValueMap_get (deleted_values state) path with
            | Some dvs =>
                n_set_sub_values (n_sub_values self ++
                  sort_by (fun a b => str_le (value_name a) (value_name b)) dvs) self
            | None => self
            end)
      else Ok self
  end.

(** ** Reading a key *)

Definition should_read_values (filter_ : option Filter) (filter_flags : Z)
    (self_is_filter_match_or_descendent : bool) : bool :=
  self_is_filter_match_or_descendent
  || bool_decide (filter_ = None :> option Filter)
  || match filter_ with Some f => negb (Filter_is_valid f) | None => false end
  || bf_contains filter_flags FILTER_KEY_MATCH.

(** Runs a call on a node and the state, and hands its result to the caller as a value. *)
Definition nm_run {Er F A} (self : CellKeyNode) (m : NM Er A)
    : M State F (CellKeyNode * (Er + A)) := fun st =>
  match m (self, st) with
  | ((self, st), Ok a) => (st, Ok (self, inr a))
  | ((self, st), Err e) => (st, Ok (self, inl e))
  | ((self, st), Panic) => (st, Panic)
  | ((self, st), NoFuel) => (st, NoFuel)
  end.

Definition read_from_slice (fuel : nat) (file_info : FileInfo) (slice : list byte)
    (options : CellKeyNodeReadOptions) : M State Error (option CellKeyNode) :=
  let* (_, cell_key_node) :=
    m_map_err Error_from_nom
      (CellKeyNode_from_bytes slice (o_offset options) (o_cur_path options)
         (o_sequence_num options)) in
  let* filter_flags :=
    match o_filter options with
    | Some filter_ => check_cell filter_ cell_key_node
    | None => m_ret FILTER_ITERATE_KEYS
    end in
  if bf_contains filter_flags FILTER_NO_MATCH then m_ret None
  else
    let* cell_key_node :=
      if (0 <? node_number_of_key_values cell_key_node)
         && should_read_values (o_filter options) filter_flags
              (o_self_is_filter_match_or_descendent options)
      then
        let* (cell_key_node, r) :=
          nm_run cell_key_node (read_values file_info (o_sequence_num options)) in
        m_ret match r with
              | inl _ =>
                  n_add_log WarningParse
                    (lit "Unable to parse values for cell key node " ++ n_path cell_key_node
                     ++ lit " (offset: " ++ fmt_dec (n_file_offset_absolute cell_key_node)
                     ++ lit ")") cell_key_node
              | inr _ => cell_key_node
              end
      else m_ret cell_key_node in
    let cell_key_node := if bf_contains filter_flags FILTER_KEY_MATCH
                         then n_set_filter_state (Some FMS_Exact) cell_key_node
                         else cell_key_node in
    let* state := m_get in
    let* cell_key_node :=
      if o_get_deleted_and_modified options
      then m_lift (update_modified_lists fuel state cell_key_node)
      else m_ret cell_key_node in
    m_ret (Some cell_key_node).

Definition CellKeyNode_read (fuel : nat) (file_info : FileInfo)
    (options : CellKeyNodeReadOptions) : M State Error (option CellKeyNode) :=
  let* slice := m_lift (ok_or (Error_buffer "cell_key_node::read")
                          (get_from (buffer file_info) (o_offset options))) in
  read_from_slice fuel file_info slice options.

(** ** Subkeys *)

Definition sub_key_error (path : ustr) (offset : Z) : ustr :=
  path ++ lit ": Unable to parse sub_key at offset " ++ fmt_dec offset.
Definition sub_key_list_error (path : ustr) (offset : Z) : ustr :=
  path ++ lit ": Unable to parse sub_key_list at offset " ++ fmt_dec offset.

(** The [filter_state] a child gets once read, and whether it is an exact match. *)
Definition classify_child (self_is_filter_match_or_descendent filter_is_valid : bool)
    (kn : CellKeyNode) : CellKeyNode * bool :=
  match it_filter_state (n_iteration_state kn) with
  | None =>
      (if self_is_filter_match_or_descendent then n_set_filter_state (Some FMS_Descendent) kn
       else if filter_is_valid then n_set_filter_state (Some FMS_None) kn
       else kn, false)
  | Some fs => (kn, bool_decide (fs = FMS_Exact))
  end.

(** [for val in cell_sub_key_offsets_absolute.iter()]. *)
Fixpoint read_sub_keys_loop {Er} (fuel : nat) (file_info : FileInfo) (filter_ : Filter)
    (sub_filter : option Filter) (self_is_filter_match_or_descendent : bool)
    (sequence_num : option Z) (get_deleted_and_modified : bool) (vals : list Z)
    (children : list CellKeyNode) (found_key : bool) : NM Er (list CellKeyNode * bool) :=
  match vals with
  | [] => m_ret (children, found_key)
  | val :: vals =>
      let continue := read_sub_keys_loop fuel file_info filter_ sub_filter
                        self_is_filter_match_or_descendent sequence_num
                        get_deleted_and_modified vals in
      let* s := m_get in
      let* ret :=
        nm_state (m_try (CellKeyNode_read fuel file_info
          {| o_offset := val;
             o_cur_path := n_path s.1;
             o_filter := sub_filter;
             o_self_is_filter_match_or_descendent := self_is_filter_match_or_descendent;
             o_sequence_num := sequence_num;
             o_get_deleted_and_modified := get_deleted_and_modified |})) in
      match ret with
      | inl _ =>
          nm_log WarningParse (sub_key_error (n_path s.1) val);;;
          continue children found_key
      | inr None => continue children found_key
      | inr (Some kn) =>
          let '(kn, exact) := classify_child self_is_filter_match_or_descendent
                                (Filter_is_valid filter_) kn in
          continue (children ++ [kn]) (found_key || exact)
      end
  end.

Definition read_sub_keys_internal {Er} (fuel : nat) (file_info : FileInfo) (filter_ : Filter)
    (sequence_num : option Z) (get_deleted_and_modified : bool)
    : NM Er (list CellKeyNode * bool) :=
  let* s := m_get in
  let self := s.1 in
  if bool_decide (n_cell_state self = Allocated) then
    if 1024 * 1024 <? node_number_of_sub_keys self then
      nm_log WarningParse (lit "read_values error: too many subkeys: "
                             ++ fmt_dec (node_number_of_sub_keys self));;;
      m_ret ([], false)
    else if 0 <? node_number_of_sub_keys self then
      let* r := nm_state (m_try (m_lift
                  (parse_sub_key_list fuel file_info
                     (node_sub_keys_list_offset_relative self)))) in
      match r with
      | inr offsets =>
          let self_is := is_filter_match_or_descendent self in
          let sub_filter := if self_is && return_sub_keys filter_ then None
                            else Some filter_ in
          let* ret := read_sub_keys_loop fuel file_info filter_ sub_filter self_is sequence_num
                        get_deleted_and_modified offsets [] false in
          nm_node (n_set_cell_sub_key_offsets_absolute offsets);;;
          m_ret ret
      | inl _ =>
          nm_log WarningParse (sub_key_list_error (n_path self)
            (node_sub_keys_list_offset_relative self + hbin_offset_absolute file_info));;;
          m_ret ([], false)
      end
    else m_ret ([], false)
  else m_ret ([], false).

Definition read_sub_keys {Er} (fuel : nat) (file_info : FileInfo) : NM Er (list CellKeyNode) :=
  let* (sub_keys, _) := read_sub_keys_internal fuel file_info Filter_new None true in
  m_ret sub_keys.

(** The recursion descends one level of the tree per call. *)
Fixpoint get_sub_key_internal {Er} (fuel : nat) (file_info : FileInfo) (filter_ : Filter)
    (sequence_num : option Z) : NM Er (option CellKeyNode) :=
  match fuel with
  | O => m_lift NoFuel
  | S k =>
      let* (children, found_key) :=
        read_sub_keys_internal fuel file_info filter_ sequence_num false in
      if found_key : bool then m_ret (head children)
      else
        (fix go (children : list CellKeyNode) : NM Er (option CellKeyNode) :=
           match children with
           | [] => m_ret None
           | child :: children =>
               let* r := fun s =>
                 match get_sub_key_internal k file_info filter_ sequence_num (child, s.2) with
                 | ((_, st), r) => ((s.1, st), r)
                 end in
               match r with
               | Some key => m_ret (Some key)
               | None => go children
               end
           end) children
  end.

(** [build().unwrap_or_default()]: without regex segments [build] succeeds. *)
Definition get_sub_key_by_path {Er} (fuel : nat) (file_info : FileInfo) (sub_path : ustr)
    : NM Er (option CellKeyNode) :=
  let* s := m_get in
  let self := s.1 in
  if bool_decide (sub_path = []) then m_ret (Some self)
  else
    let filter_ :=
      match FilterBuilder_build
              (key_path_has_root
                 (add_key_path FilterBuilder_new (n_path self ++ [BACKSLASH] ++ sub_path))
                 true) with
      | Ok f => f
      | _ => Filter_new
      end in
    get_sub_key_internal fuel file_info filter_ None.

Definition get_sub_key_by_index {Er} (fuel : nat) (file_info : FileInfo) (index : Z)
    : NM Er (option CellKeyNode) :=
  let* s := m_get in
  let self := s.1 in
  if 0 <? node_number_of_sub_keys self then
    let* r := nm_state (m_try (m_lift
                (parse_sub_key_list fuel file_info
                   (node_sub_keys_list_offset_relative self)))) in
    match r with
    | inr offsets =>
        match get_at offsets index with
        | Some offset =>
            let* ret :=
              nm_state (m_try (CellKeyNode_read fuel file_info
                {| o_offset := offset;
                   o_cur_path := n_path self;
                   o_filter := None;
                   o_self_is_filter_match_or_descendent := is_filter_match_or_descendent self;
                   o_sequence_num := None;
                   o_get_deleted_and_modified := true |})) in
            match ret with
            | inl _ => nm_log WarningParse (sub_key_error (n_path self) offset);;; m_ret None
            | inr sub_key => m_ret sub_key
            end
        | None => m_ret None
        end
    | inl _ =>
        nm_log WarningParse (sub_key_list_error (n_path self)
          (node_sub_keys_list_offset_relative self + hbin_offset_absolute file_info));;;
        m_ret None
    end
  else m_ret None.

Definition n_set_sub_keys_iter_index (v : Z) (n : CellKeyNode) : CellKeyNode :=
  let it := n_iteration_state n in
  n_set_iteration_state {| it_to_return := it_to_return it;
                           it_track_returned := it_track_returned it;
                           it_filter_state := it_filter_state it;
                           it_sub_keys_iter_index := v |} n.

Definition init_sub_key_iter (self : CellKeyNode) : CellKeyNode :=
  n_set_sub_keys_iter_index 0 self.

Definition next_sub_key {Er} (fuel : nat) (file_info : FileInfo) : NM Er (option CellKeyNode) :=
  let* s := m_get in
  let index := it_sub_keys_iter_index (n_iteration_state s.1) in
  let* r := get_sub_key_by_index fuel file_info index in
  match r with
  | Some sub_key =>
      nm_node (fun self => n_set_sub_keys_iter_index
        (it_sub_keys_iter_index (n_iteration_state self) + 1) self);;;
      m_ret (Some sub_key)
  | None => m_ret None
  end.

(** ** Values of a key *)

Definition get_value (self : CellKeyNode) (find_value_name : ustr) : option CellKeyValue :=
  let find_value_name := to_ascii_lowercase find_value_name in
  snd <$> list_find (fun v => to_ascii_lowercase (value_name v) = find_value_name)
            (n_sub_values self).

Definition next_value (self : CellKeyNode) (sub_values_iter_index : Z)
    : option (CellKeyValue * Z) :=
  match get_at (n_sub_values self) sub_values_iter_index with
  | Some value => Some (value, sub_values_iter_index + 1)
  | None => None
  end.

Record CellKeyNodeValueIterator := { vi_inner : CellKeyNode; vi_sub_values_iter_index : Z }.
Definition value_iter (self : CellKeyNode) : CellKeyNodeValueIterator :=
  {| vi_inner := self; vi_sub_values_iter_index := 0 |}.
Definition ValueIterator_next (self : CellKeyNodeValueIterator)
    : CellKeyNodeValueIterator * option CellKeyValue :=
  match next_value (vi_inner self) (vi_sub_values_iter_index self) with
  | Some (val, index) =>
      ({| vi_inner := vi_inner self; vi_sub_values_iter_index := index |}, Some val)
  | None => (self, None)
  end.

#[export] Instance CellKeyNode_Cell : Cell CellKeyNode := {
  get_file_offset_absolute := n_file_offset_absolute;
  get_hash := n_hash;
  get_logs := n_logs;
  has_or_is_recovered self :=
    is_deleted (n_cell_state self) || bool_decide (n_cell_state self = ModifiedTransactionLog)
    || negb (bool_decide (length (n_versions self) = 0%nat));
}.
End KeyNode.
