(* ===== verification/KeyNodeFacts.v ===== *)
(** * KeyNodeFacts: what reading a key promises

    Theorems about [KeyNode]: which bytes are an nk cell, how the children of a key are
    classified against a filter, and the expansion of deleted and modified items. *)

From S2P Require Import Prelude Env Log Util UtilFacts Cells SubKeyLists Values ValueFacts State Filter KeyNode.

(** Texts and encodings stay folded under simplification. *)
#[local] Opaque lit to_le_bytes fmt_dec.

Section KeyNodeFacts.
Context `{E : Env}.

(** ** The nk cell *)

Definition nk_size (input : list byte) : Z := Z.abs (as_i32 (le_at 4 0 input)).
Definition nk_name_end (input : list byte) : Z := 80 + le_at 2 76 input.
Definition is_nk (input : list byte) : Prop :=
  72 <= nk_size input <= len input /\ ztake 2 (zdrop 4 input) = bytes_of "nk" /\
  nk_name_end input <= len input.

(** The record an nk cell is read as: each field with its value, its offset in the cell and its
    length (the latter two are only kept in the full form of a record). *)
Definition nk_slack (input : list byte) : list byte :=
  ztake (Z.max 0 (nk_size input - nk_name_end input)) (zdrop (nk_name_end input) input).
Definition nk_name_bytes (input : list byte) : list byte := ztake (le_at 2 76 input) (zdrop 80 input).
Definition nk_name_ascii (input : list byte) : bool :=
  Z.land (le_at 2 6 input) KEY_COMP_NAME =? KEY_COMP_NAME.
Definition nk_detail (full : bool) (input : list byte) : CellKeyNodeDetailEnum :=
  make_enum full (fun F mk =>
    {| kn_size := mk _ (as_i32 (le_at 4 0 input)) 0 4;
       kn_signature := mk _ (lit "nk") 4 2;
       kn_key_node_flag_bits := mk _ (le_at 2 6 input) 6 2;
       kn_last_key_written_date_and_time := mk _ (le_at 8 8 input) 8 8;
       kn_access_flag_bits := mk _ (le_at 4 16 input) 16 4;
       kn_parent_key_offset_relative := mk _ (as_i32 (le_at 4 20 input)) 20 4;
       kn_number_of_sub_keys := mk _ (le_at 4 24 input) 24 4;
       kn_number_of_volatile_sub_keys := mk _ (le_at 4 28 input) 28 4;
       kn_sub_keys_list_offset_relative := mk _ (le_at 4 32 input) 32 4;
       kn_volatile_sub_keys_list_offset_relative := mk _ (as_i32 (le_at 4 36 input)) 36 4;
       kn_number_of_key_values := mk _ (le_at 4 40 input) 40 4;
       kn_key_values_list_offset_relative := mk _ (as_i32 (le_at 4 44 input)) 44 4;
       kn_security_key_offset_relative := mk _ (le_at 4 48 input) 48 4;
       kn_class_name_offset_relative := mk _ (as_i32 (le_at 4 52 input)) 52 4;
       kn_largest_sub_key_name_size := mk _ (le_at 4 56 input) 56 4;
       kn_largest_sub_key_class_name_size := mk _ (le_at 4 60 input) 60 4;
       kn_largest_value_name_size := mk _ (le_at 4 64 input) 64 4;
       kn_largest_value_data_size := mk _ (le_at 4 68 input) 68 4;
       kn_work_var := mk _ (le_at 4 72 input) 72 4;
       kn_key_name_size := mk _ (le_at 2 76 input) 76 2;
       kn_class_name_size := mk _ (le_at 2 78 input) 78 2;
       kn_slack := mk _ (nk_slack input) (nk_name_end input) (len (nk_slack input)) |}).
Definition nk_record (full : bool) (input : list byte) (fo : Z) (cur_path : ustr)
    (sn : option Z) (name : ustr) (lg : Logs) (h : option Hash) : CellKeyNode :=
  {| n_file_offset_absolute := fo;
     n_detail := nk_detail full input;
     n_key_name := name;
     n_path := cur_path ++ [BACKSLASH] ++ name;
     n_cell_state := Allocated;
     n_sequence_num := sn;
     n_updated_by_sequence_num := None;
     n_sub_values := [];
     n_logs := lg;
     n_cell_sub_key_offsets_absolute := [];
     n_hash := h;
     n_versions := [];
     n_deleted_keys := [];
     n_iteration_state := CellKeyNodeIteration_default |}.

(** The flag that the name is Latin-1 is one of the known flags. *)
Lemma flags_checked_name flags lg :
  bf_contains (KeyNodeFlags_from_bits_checked flags lg).1 KEY_COMP_NAME
    = (Z.land flags KEY_COMP_NAME =? KEY_COMP_NAME).
Proof.
  unfold KeyNodeFlags_from_bits_checked, from_bits_checked. rewrite bf_contains_spec.
  match goal with |- (Z.land ?x _ =? _) = _ => assert (x = Z.land flags KeyNodeFlags_all) as -> end.
  { rewrite bf_from_bits_truncate_spec. by case_match. }
  by rewrite <- Z.land_assoc.
Qed.

Lemma CellKeyNode_parse_record full input fo cur_path sn :
  is_nk input ->
  exists name lg,
    CellKeyNode_parse full input fo cur_path sn
      = Ok (zdrop (Z.max (nk_name_end input) (nk_size input)) input,
            nk_record full input fo cur_path sn name lg None) /\
    string_from_bytes (Er:=nom_err) (nk_name_ascii input) (nk_name_bytes input)
      (len (nk_name_bytes input))
      (KeyNodeFlags_from_bits_checked (le_at 2 6 input) Logs_default).2 (lit "key_name_bytes")
      = Ok (name, lg).
Proof.
  intros (Hs & Ht & Hn). unfold CellKeyNode_parse, read_value_offset_length.
  pose proof (le_at_range 2 76 input ltac:(lia)) as Hr. unfold nk_name_end in *.
  rewrite nom_le_i32_spec. change (spec_le 4 input) with (spec_le 4 (zdrop 0 input)).
  rewrite spec_le_at by lia. cbn [mbind res_bind]. change (0 + 4) with 4.
  assert (CellKeyNode_check_size (as_i32 (from_le_bytes (ztake 4 (zdrop 0 input))))
            (len (zdrop 4 input) + 4) = true) as ->.
  { unfold CellKeyNode_check_size, MIN_CELL_KEY_SIZE, unsigned_abs.
    unfold nk_size, le_at in Hs. apply andb_true_iff. split; apply Z.leb_le; [lia|len_lia]. }
  cbn [negb]. rewrite nom_tag_spec, spec_tag_at;
    [|change (len (bytes_of CellKeyNode_SIGNATURE)) with 2; len_lia|exact Ht].
  change (len (bytes_of CellKeyNode_SIGNATURE)) with 2. cbn [mbind res_bind].
  rewrite zdrop_zdrop by lia. change (4 + 2) with 6. parse_run.
  change (from_le_bytes (ztake 2 (zdrop 76 input))) with (le_at 2 76 input).
  rewrite nom_take_spec, spec_take_at by lia. cbn [mbind res_bind].
  assert (len (nk_name_bytes input) = le_at 2 76 input) as Hlen by (unfold nk_name_bytes; len_lia).
  change (from_le_bytes (ztake 2 (zdrop 6 input))) with (le_at 2 6 input).
  pose proof (flags_checked_name (le_at 2 6 input) Logs_default) as Hfl.
  destruct (KeyNodeFlags_from_bits_checked _ _) as [fl lg0]. cbn [fst snd] in *. rewrite Hfl.
  fold (nk_name_ascii input) (nk_name_bytes input).
  destruct (string_from_bytes_total (Er:=nom_err) (nk_name_ascii input) (nk_name_bytes input)
    (le_at 2 76 input) lg0 (lit "key_name_bytes")) as (name & lg & Hname); [lia|].
  exists name, lg. rewrite Hlen. split; [|done]. rewrite Hname. cbn [mbind res_bind].
  replace (len input - len (zdrop (80 + le_at 2 76 input) input)) with (80 + le_at 2 76 input)
    by len_lia.
  change (unsigned_abs (as_i32 (from_le_bytes (ztake 4 (zdrop 0 input))))) with (nk_size input).
  rewrite parser_eat_remaining_at by lia. cbn [mbind res_bind]. field_offsets input.
  rewrite Z.sub_diag. by destruct full.
Qed.

Lemma CellKeyNode_parse_run full input fo cur_path sn :
  is_nk input ->
  exists n, CellKeyNode_parse full input fo cur_path sn =
    Ok (zdrop (Z.max (nk_name_end input) (nk_size input)) input, n) /\
    n_path n = cur_path ++ [BACKSLASH] ++ n_key_name n /\
    n_file_offset_absolute n = fo /\ n_sequence_num n = sn /\ n_cell_state n = Allocated /\
    node_size n = as_i32 (le_at 4 0 input) /\
    node_flag_bits n = le_at 2 6 input /\
    node_last_key_written n = le_at 8 8 input /\
    node_access_flag_bits n = le_at 4 16 input /\
    node_parent_key_offset_relative n = as_i32 (le_at 4 20 input) /\
    node_number_of_sub_keys n = le_at 4 24 input /\
    node_sub_keys_list_offset_relative n = le_at 4 32 input /\
    node_number_of_key_values n = le_at 4 40 input /\
    node_key_values_list_offset_relative n = as_i32 (le_at 4 44 input) /\
    node_security_key_offset_relative n = le_at 4 48 input /\
    node_slack n = ztake (Z.max 0 (nk_size input - nk_name_end input))
                     (zdrop (nk_name_end input) input) /\
    n_iteration_state n = CellKeyNodeIteration_default.
Proof.
  intros Hnk. destruct (CellKeyNode_parse_record full input fo cur_path sn Hnk) as (name & lg & -> & _).
  eexists. split; [done|]. by destruct full.
Qed.

Lemma CellKeyNode_parse_is_nk full input fo cur_path sn r n :
  CellKeyNode_parse full input fo cur_path sn = Ok (r, n) -> is_nk input.
Proof.
  unfold CellKeyNode_parse. intros H. inv_bind.
  destruct (CellKeyNode_check_size _ _) eqn:Hc; [|done]. cbn [negb] in *. inv_bind.
  destruct (KeyNodeFlags_from_bits_checked _ _) as [fl lg]. inv_bind.
  repeat match goal with H : read_value_offset_length _ _ _ _ = _ |- _ =>
    apply read_value_offset_length_Ok in H as [H _] end.
  unfold CellKeyNode_SIGNATURE in *. parse_inv. drops.
  unfold CellKeyNode_check_size, MIN_CELL_KEY_SIZE, unsigned_abs in Hc.
  apply andb_true_iff in Hc as [?%Z.leb_le Hle%Z.leb_le].
  pose proof (le_at_range 2 76 input ltac:(lia)).
  fold (le_at 2 76 input) in *.
  assert (len (zdrop 4 input) + 4 = len input) as Hl by len_lia. rewrite Hl in Hle.
  split_and!; [assumption..|done|unfold nk_name_end; len_lia].
Qed.

(** C27: the bytes at an offset are an nk cell exactly when the size field's magnitude is at
    least 72 and within the input, the signature matches and the name is within the input.
    What is read is then [nk_record]: every field from its place in the cell (with that place
    and its length in the full form), the path the parent's path, a backslash and the name; the
    hash covers the flags, time stamp and access bits; nothing else of the state but the hasher
    changes.  The name is that of its bytes: Latin-1 under the flag for it, and else UTF-16. *)
Theorem CellKeyNode_from_bytes_spec input fo cur_path sn st :
  ((exists st' r n, CellKeyNode_from_bytes input fo cur_path sn st = (st', Ok (r, n)))
     <-> is_nk input) /\
  (forall st' r n, CellKeyNode_from_bytes input fo cur_path sn st = (st', Ok (r, n)) ->
     r = zdrop (Z.max (nk_name_end input) (nk_size input)) input /\
     CellKeyNode_get_cell_size n = nk_size input /\
     st' = st_set_hasher (hasher st') st /\
     exists name lg,
       n = nk_record (get_full_field_info st) input fo cur_path sn name lg
             (Some (blake3 (to_le_bytes 2 (le_at 2 6 input) ++
                            to_le_bytes 8 (le_at 8 8 input) ++
                            to_le_bytes 4 (le_at 4 16 input)))) /\
       let bytes := ztake (le_at 2 76 input) (zdrop 80 input) in
       let ascii := Z.land (le_at 2 6 input) 0x20 =? 0x20 in
       (if ascii then name = byte.unsigned <$> bytes
        else forall s, plain_text s -> bytes = units_to_bytes (encode_utf16 s) -> name = s) /\
       string_from_bytes (Er:=nom_err) ascii bytes (len bytes)
         (KeyNodeFlags_from_bits_checked (le_at 2 6 input) Logs_default).2 (lit "key_name_bytes")
         = Ok (name, lg)).
Proof.
  unfold CellKeyNode_from_bytes, m_bind, m_get, m_lift. split; [split|].
  - intros (st' & r & n & H).
    destruct (CellKeyNode_parse _ input fo cur_path sn) as [[r' n']|e| |] eqn:Hp; [|done..].
    by eapply CellKeyNode_parse_is_nk.
  - intros Hnk. destruct (CellKeyNode_parse_record (get_full_field_info st) input fo cur_path sn Hnk)
      as (name & lg & -> & _). cbn. eauto.
  - intros st' r n H.
    destruct (CellKeyNode_parse _ input fo cur_path sn) as [[r' n']|e| |] eqn:Hp; [|done..].
    pose proof (CellKeyNode_parse_is_nk _ _ _ _ _ _ _ Hp) as Hnk.
    destruct (CellKeyNode_parse_record (get_full_field_info st) input fo cur_path sn Hnk)
      as (name & lg & Hrec & Hname).
    rewrite Hp in Hrec. injection Hrec as -> ->. injection H as <- <- <-.
    split; [done|]. split; [by destruct (get_full_field_info st)|]. split; [by destruct st|].
    exists name, lg. split; [by destruct (get_full_field_info st)|].
    change 0x20 with KEY_COMP_NAME. fold (nk_name_ascii input) (nk_name_bytes input).
    split; [|done]. destruct (nk_name_ascii input).
    + rewrite (string_from_bytes_stored true _ (byte.unsigned <$> nk_name_bytes input)) in Hname
        by done. congruence.
    + intros s Hs Hb. rewrite (string_from_bytes_stored false _ s) in Hname by done. congruence.
Qed.

(** ** What reading leaves unchanged *)

(** The parts of a node that reading its values and expanding it never change. *)
Definition same_core (n n' : CellKeyNode) : Prop :=
  n_path n' = n_path n /\ n_detail n' = n_detail n /\ n_cell_state n' = n_cell_state n /\
  n_iteration_state n' = n_iteration_state n /\
  n_file_offset_absolute n' = n_file_offset_absolute n /\ n_hash n' = n_hash n.

Lemma same_core_refl n : same_core n n.
Proof. done. Qed.

Lemma same_core_trans n1 n2 n3 : same_core n1 n2 -> same_core n2 n3 -> same_core n1 n3.
Proof. unfold same_core. intuition congruence. Qed.

Lemma same_core_add_log c t n : same_core n (n_add_log c t n).
Proof. by destruct n. Qed.

Lemma same_core_set_sub_values v n : same_core n (n_set_sub_values v n).
Proof. by destruct n. Qed.

Lemma read_values_loop_core fi sn vals s s' r :
  read_values_loop fi sn vals s = (s', r) -> same_core s.1 s'.1.
Proof.
  revert s. induction vals as [|val vals IH]; intros s H; cbn [read_values_loop] in H.
  { unfold m_ret in H. simplify_eq. done. }
  destruct (get_at _ _); [|unfold nm_log, nm_node, m_modify in H; simplify_eq; apply same_core_add_log].
  unfold m_bind, m_lift, m_get, m_modify in H.
  destruct (get_from _ _) as [sl|]; cbn in H; [|by simplify_eq].
  destruct (nom_q _) as [[r1 v]| | |]; cbn in H; [|by simplify_eq..].
  destruct (read_value_bytes _ _ _) as [[v' h]| | |]; cbn in H; [|by simplify_eq..].
  apply IH in H. cbn in H. eapply same_core_trans; [|exact H]. apply same_core_set_sub_values.
Qed.

Lemma read_values_core fi sn s s' r :
  read_values fi sn s = (s', r) -> same_core s.1 s'.1.
Proof.
  unfold read_values, m_bind, m_get. intros H. case_match; [|unfold m_ret in H; by simplify_eq].
  case_match; [unfold nm_log, nm_node, m_modify in H; simplify_eq; apply same_core_add_log|].
  cbn in H. destruct (nom_q _) as [[r1 v]| | |]; cbn in H;
    [|simplify_eq; apply same_core_set_sub_values..].
  apply read_values_loop_core in H. eapply same_core_trans; [|exact H].
  apply same_core_set_sub_values.
Qed.

Lemma update_modified_lists_core {Er} fuel st n n' :
  update_modified_lists (Er:=Er) fuel st n = Ok n' -> same_core n n'.
Proof.
  destruct fuel as [|k]; [done|]. cbn [update_modified_lists]. intros H.
  case_match; [|by simplify_eq]. inv_bind.
  assert (same_core n a) as Hc.
  { case_match; inv_bind; [|done]. by destruct n. }
  eapply same_core_trans; [exact Hc|]. clear. destruct a.
  repeat case_match; done.
Qed.

(** ** Reading one key *)

Lemma CellKeyNode_from_bytes_Ok input fo cur_path sn st st' r n :
  CellKeyNode_from_bytes input fo cur_path sn st = (st', Ok (r, n)) ->
  n_path n = cur_path ++ [BACKSLASH] ++ n_key_name n /\ n_file_offset_absolute n = fo /\
  n_cell_state n = Allocated /\ n_iteration_state n = CellKeyNodeIteration_default /\
  st' = st_set_hasher (hasher st') st /\
  72 <= CellKeyNode_get_cell_size n <= len input /\
  len (node_slack n) <= CellKeyNode_get_cell_size n - 72.
Proof.
  unfold CellKeyNode_from_bytes, m_bind, m_get, m_lift. intros H.
  destruct (CellKeyNode_parse (get_full_field_info st) input fo cur_path sn) as [[r1 n1]|e| |] eqn:Hp;
    [|done..].
  pose proof (CellKeyNode_parse_is_nk _ _ _ _ _ _ _ Hp) as Hnk.
  destruct (CellKeyNode_parse_run (get_full_field_info st) input fo cur_path sn Hnk)
    as (n' & Hp' & ? & ? & ? & ? & Hsz & ? & ? & ? & ? & ? & ? & ? & ? & ? & Hsl & ?).
  rewrite Hp in Hp'. simplify_eq. cbn in H. injection H as <- <- <-.
  destruct Hnk as (Hs & _ & _). pose proof (le_at_range 2 76 input ltac:(lia)).
  unfold CellKeyNode_get_cell_size, unsigned_abs.
  assert (node_size (n_set_hash (Some (blake3 ((to_le_bytes 2 (node_flag_bits n') ++
      to_le_bytes 8 (node_last_key_written n')) ++ to_le_bytes 4 (node_access_flag_bits n')))) n')
    = node_size n') as -> by by destruct n'.
  rewrite Hsz. fold (nk_size input). split_and!; try by destruct n', st.
  - lia.
  - lia.
  - assert (forall h, node_slack (n_set_hash h n') = node_slack n') as -> by by destruct n'.
    rewrite Hsl. unfold nk_name_end. len_lia.
Qed.

Lemma nm_run_core {F} n fi sn st st' n' r :
  nm_run (F:=F) n (read_values fi sn) st = (st', Ok (n', r)) -> same_core n n'.
Proof.
  unfold nm_run. intros H. destruct (read_values fi sn (n, st)) as [[n1 st1] r1] eqn:Hr.
  apply read_values_core in Hr. cbn in Hr. destruct r1; by simplify_eq.
Qed.

(** A key that is returned is the parsed cell, with values and expansion, and the filter state
    that the filter's answer for the parsed cell says. *)
Lemma read_from_slice_inv fuel fi slice o st st' kn :
  read_from_slice fuel fi slice o st = (st', Ok (Some kn)) ->
  exists st1 r n1 st2 flags,
    CellKeyNode_from_bytes slice (o_offset o) (o_cur_path o) (o_sequence_num o) st
      = (st1, Ok (r, n1)) /\
    n_path kn = n_path n1 /\ n_detail kn = n_detail n1 /\ n_cell_state kn = n_cell_state n1 /\
    n_file_offset_absolute kn = n_file_offset_absolute n1 /\
    match o_filter o with
    | Some f => check_cell f n1
    | None => m_ret FILTER_ITERATE_KEYS
    end st1 = (st2, Ok (E:=Error) flags) /\
    bf_contains flags FILTER_NO_MATCH = false /\
    it_filter_state (n_iteration_state kn)
      = (if bf_contains flags FILTER_KEY_MATCH then Some FMS_Exact else None).
Proof.
  unfold read_from_slice. intros H. apply m_bind_Ok in H as (st2 & [r1 n1] & Hp & H).
  unfold m_map_err in Hp.
  destruct (CellKeyNode_from_bytes _ _ _ _ _) as [st1 r2] eqn:Hfb.
  destruct r2 as [[r2 n2]| | |]; [|done..]. cbn in Hp. simplify_eq.
  apply m_bind_Ok in H as (st3 & flags & Hf & H).
  exists st2, r1, n1, st3, flags. split; [done|].
  apply CellKeyNode_from_bytes_Ok in Hfb as (_ & _ & _ & Hit & _).
  destruct (bf_contains flags FILTER_NO_MATCH); [unfold m_ret in H; by simplify_eq|].
  apply m_bind_Ok in H as (st4 & n3 & Hv & H).
  assert (same_core n1 n3) as (Hp3 & Hd3 & Hs3 & Hi3 & Ho3 & _).
  { destruct (_ && _) in Hv; [|unfold m_ret in Hv; by simplify_eq].
    apply m_bind_Ok in Hv as (st5 & [n4 r4] & Hv & Hr). unfold m_ret in Hr. simplify_eq.
    apply nm_run_core in Hv. eapply same_core_trans; [exact Hv|].
    destruct r4; [apply same_core_add_log|done]. }
  apply m_bind_Ok in H as (st5 & s5 & Hg & H). unfold m_get in Hg. injection Hg as <- <-.
  apply m_bind_Ok in H as (st6 & n6 & Hu & H). unfold m_ret in H. simplify_eq.
  set (n5 := if bf_contains flags FILTER_KEY_MATCH then _ else _) in Hu.
  assert (same_core n5 kn) as (Hp5 & Hd5 & Hs5 & Hi5 & Ho5 & _).
  { destruct (o_get_deleted_and_modified o).
    - unfold m_lift in Hu. simplify_eq. by eapply update_modified_lists_core.
    - unfold m_ret in Hu. by simplify_eq. }
  assert (n_path n5 = n_path n3 /\ n_detail n5 = n_detail n3 /\
          n_cell_state n5 = n_cell_state n3 /\
          n_file_offset_absolute n5 = n_file_offset_absolute n3) as (Hp6 & Hd6 & Hs6 & Ho6).
  { unfold n5. destruct (bf_contains flags FILTER_KEY_MATCH); [|done]. by destruct n3. }
  split_and!; [congruence..|done|done|]. rewrite Hi5. unfold n5.
  destruct (bf_contains flags FILTER_KEY_MATCH); [by destruct n3|]. rewrite Hi3, Hit. done.
Qed.

Lemma read_from_slice_Some fuel fi slice o st st' kn :
  read_from_slice fuel fi slice o st = (st', Ok (Some kn)) ->
  exists st1 r n1,
    CellKeyNode_from_bytes slice (o_offset o) (o_cur_path o) (o_sequence_num o) st
      = (st1, Ok (r, n1)) /\
    n_path kn = n_path n1 /\ n_detail kn = n_detail n1 /\ n_cell_state kn = n_cell_state n1 /\
    n_file_offset_absolute kn = n_file_offset_absolute n1 /\
    (it_filter_state (n_iteration_state kn) = None \/
     it_filter_state (n_iteration_state kn) = Some FMS_Exact /\ is_Some (o_filter o)).
Proof.
  intros (st1 & r & n1 & st2 & flags & Hfb & Hp & Hd & Hs & Ho & Hf & _ & Hi)
    %read_from_slice_inv.
  exists st1, r, n1. split_and!; [done..|]. rewrite Hi.
  destruct (bf_contains flags FILTER_KEY_MATCH) eqn:Hkm; [right|by left].
  split; [done|]. destruct (o_filter o); [done|].
  unfold m_ret in Hf. simplify_eq. rewrite bf_contains_spec in Hkm. by vm_compute in Hkm.
Qed.

Lemma CellKeyNode_read_Some fuel fi o st st' kn :
  CellKeyNode_read fuel fi o st = (st', Ok (Some kn)) ->
  n_file_offset_absolute kn = o_offset o /\ n_cell_state kn = Allocated /\
  0 <= o_offset o <= len (buffer fi) /\
  (exists name, n_path kn = o_cur_path o ++ [BACKSLASH] ++ name) /\
  (it_filter_state (n_iteration_state kn) = None \/
   it_filter_state (n_iteration_state kn) = Some FMS_Exact /\ is_Some (o_filter o)).
Proof.
  unfold CellKeyNode_read. intros H. apply m_bind_Ok in H as (st1 & slice & Hs & H).
  unfold m_lift in Hs. injection Hs as _ Hs.
  destruct (get_from (buffer fi) (o_offset o)) as [sl|] eqn:Hg; [|done].
  apply get_from_Some in Hg as [Hrange _].
  apply read_from_slice_Some in H as (st2 & r & n1 & Hfb & Hp & _ & Hst & Ho & Hf).
  apply CellKeyNode_from_bytes_Ok in Hfb as (Hpath & Hoff & Hst1 & _).
  split_and!; [congruence|congruence|lia|lia| |done].
  exists (n_key_name n1). by rewrite Hp, Hpath.
Qed.

(** ** Reading a key returns *)

Lemma CellKeyNode_parse_returns full input fo cur_path sn :
  returns (CellKeyNode_parse full input fo cur_path sn).
Proof.
  unfold CellKeyNode_parse. pose proof read_value_offset_length_returns.
  pose proof parser_eat_remaining_returns. returns_tac.
  match goal with H : nom_take _ _ = Ok _ |- _ =>
    rewrite nom_take_spec, spec_take_Ok in H; destruct H as (? & -> & ->) end.
  case_match. returns_tac.
  match goal with H : read_value_offset_length _ _ nom_le_u16 _ = Ok (_, (?z, _))
    |- returns (string_from_bytes ?b ?s ?z ?lg ?d) =>
      apply read_value_offset_length_Ok in H as [H%nom_le_u16_range _];
      destruct (string_from_bytes_total (Er:=nom_err) b s z lg d) as (? & ? & ->);
        [len_lia|exact I] end.
Qed.

Lemma parse_key_values_returns fi count off : returns (parse_key_values fi count off).
Proof. unfold parse_key_values. returns_tac. Qed.

Lemma read_values_loop_returns fi sn vals s :
  Forall (fun v => 0 <= v) vals -> 0 <= hbin_offset_absolute fi ->
  m_returns (read_values_loop fi sn vals) s.
Proof.
  intros Hv Hh. revert s. induction Hv as [|v vals Hv _ IH]; intros s; cbn [read_values_loop].
  { apply m_returns_ret. }
  destruct (get_at _ _); [|apply m_returns_modify].
  apply m_returns_bind; [auto with notatin|]. intros s1 sl Hsl.
  apply m_returns_bind; [auto with notatin|]. intros s2 s2' Hs2.
  apply m_returns_bind.
  { apply m_returns_lift, returns_map_err, CellKeyValue_from_bytes_returns. }
  intros s3 [r v'] Hp. unfold m_lift in Hp. injection Hp as <- Hp.
  apply nom_q_Ok, CellKeyValue_from_bytes_facts in Hp as (_ & _ & Hsz & _ & _).
  apply m_returns_bind.
  { apply m_returns_lift.
    destruct (read_value_bytes_total (Er:=Error) v' fi (hasher s2'.2) Hsz) as (? & ? & -> & _).
    exact I. }
  intros s4 [v4 h4] _. apply m_returns_bind; [apply m_returns_modify|]. intros. apply IH.
Qed.

Lemma spec_count_le_u32_range n i r l :
  spec_count nom_le_u32 n i = Ok (r, l) -> Forall (fun v => 0 <= v < U32_MOD) l.
Proof.
  revert i r l. induction n as [|n IH]; intros i r l H; cbn in H; [by simplify_eq|].
  inv_bind. constructor; [by eapply nom_le_u32_range|by eapply IH].
Qed.

Lemma read_values_returns fi sn s :
  0 <= hbin_offset_absolute fi -> m_returns (read_values fi sn) s.
Proof.
  intros Hh. unfold read_values. m_returns_tac.
  - apply m_returns_modify.
  - apply m_returns_modify.
  - apply m_returns_lift, returns_map_err, parse_key_values_returns.
  - apply read_values_loop_returns; [|done].
    match goal with H : m_lift (nom_q (parse_key_values _ _ _)) _ = _ |- _ =>
      unfold m_lift in H; injection H as _ H; apply nom_q_Ok in H;
      unfold parse_key_values in H; inv_bind end.
    match goal with H : nom_count _ _ _ = Ok _ |- _ =>
      rewrite nom_count_spec in H; apply spec_count_le_u32_range in H end.
    eapply Forall_impl; [eassumption|]. cbn. lia.
Qed.

(** Reading a key without a filter and without expansion, as recovery does. *)
Lemma read_from_slice_returns fuel fi slice o st :
  0 <= hbin_offset_absolute fi -> o_filter o = None -> o_get_deleted_and_modified o = false ->
  m_returns (read_from_slice fuel fi slice o) st.
Proof.
  intros Hh Hf Hg. unfold read_from_slice. rewrite Hf, Hg. apply m_returns_bind.
  { unfold m_returns, m_map_err, CellKeyNode_from_bytes, m_bind, m_get, m_lift.
    pose proof (CellKeyNode_parse_returns (get_full_field_info st) slice (o_offset o)
      (o_cur_path o) (o_sequence_num o)) as Hr.
    destruct (CellKeyNode_parse _ _ _ _ _) as [[r n]| | |]; done. }
  intros s1 [r n] _. m_returns_tac.
  unfold m_returns, nm_run.
  match goal with |- context [read_values ?a ?b ?c] =>
    pose proof (read_values_returns a b c Hh) as Hr;
    unfold m_returns in Hr; destruct (read_values a b c) as [[n1 st1] []]; done end.
Qed.

(** What a parsed nk cell guarantees to recovery. *)
Lemma read_from_slice_facts fuel fi slice o st st' n :
  read_from_slice fuel fi slice o st = (st', Ok (Some n)) ->
  72 <= CellKeyNode_get_cell_size n <= len slice /\
  len (node_slack n) <= CellKeyNode_get_cell_size n - 72 /\
  n_file_offset_absolute n = o_offset o.
Proof.
  intros H. apply read_from_slice_Some in H as (st1 & r & n1 & Hfb & _ & Hd & _ & Ho & _).
  apply CellKeyNode_from_bytes_Ok in Hfb as (_ & Ho1 & _ & _ & _ & Hsz & Hsl).
  unfold CellKeyNode_get_cell_size, node_size, node_slack in *. rewrite Hd.
  split_and!; [lia..|]. congruence.
Qed.

(** ** Children *)

Definition is_exact (n : CellKeyNode) : bool :=
  bool_decide (it_filter_state (n_iteration_state n) = Some FMS_Exact).

(** What every child returned satisfies: its path extends its parent's, it is read from the
    file, and its filter state is one the parent's state and the filter allow. *)
Definition child_ok (fi : FileInfo) (parent_path : ustr) (sub_filter : option Filter)
    (self_is filter_is_valid : bool) (n : CellKeyNode) : Prop :=
  n_cell_state n = Allocated /\ 0 <= n_file_offset_absolute n <= len (buffer fi) /\
  (exists name, n_path n = parent_path ++ [BACKSLASH] ++ name) /\
  match it_filter_state (n_iteration_state n) with
  | Some FMS_Exact => is_Some sub_filter
  | Some FMS_Descendent => self_is = true
  | Some FMS_None => self_is = false /\ filter_is_valid = true
  | None => self_is = false /\ filter_is_valid = false
  end.

Lemma classify_child_ok fi kn parent sub self_is valid kn' ex :
  n_cell_state kn = Allocated -> 0 <= n_file_offset_absolute kn <= len (buffer fi) ->
  (exists name, n_path kn = parent ++ [BACKSLASH] ++ name) ->
  (it_filter_state (n_iteration_state kn) = None \/
   it_filter_state (n_iteration_state kn) = Some FMS_Exact /\ is_Some sub) ->
  classify_child self_is valid kn = (kn', ex) ->
  child_ok fi parent sub self_is valid kn' /\ is_exact kn' = ex.
Proof.
  intros Hs Ho Hp Hf Hc. unfold classify_child, child_ok, is_exact in *.
  destruct Hf as [Hf|[Hf Hsub]]; rewrite Hf in Hc.
  - injection Hc as <- <-. destruct kn. cbn in *. destruct self_is, valid; cbn; rewrite ?Hf; done.
  - injection Hc as <- <-. rewrite Hf. done.
Qed.

Lemma read_sub_keys_loop_Ok {Er} fuel fi f sub self_is sn gdm vals children found s s' cs b :
  read_sub_keys_loop (Er:=Er) fuel fi f sub self_is sn gdm vals children found s
    = (s', Ok (cs, b)) ->
  same_core s.1 s'.1 /\
  (Forall (child_ok fi (n_path s.1) sub self_is (Filter_is_valid f)) children ->
   found = existsb is_exact children ->
   Forall (child_ok fi (n_path s.1) sub self_is (Filter_is_valid f)) cs /\
   b = existsb is_exact cs) /\
  (length cs <= length children + length vals)%nat.
Proof.
  revert children found s. induction vals as [|val vals IH]; intros children found s H.
  { cbn in H. unfold m_ret in H. simplify_eq. cbn. split_and!; [done|done|lia]. }
  cbn [read_sub_keys_loop] in H. apply m_bind_Ok in H as (s1 & s1' & Hg & H).
  unfold m_get in Hg. injection Hg as <- <-.
  apply m_bind_Ok in H as (s2 & ret & Hr & H).
  unfold nm_state, m_try in Hr.
  destruct (CellKeyNode_read _ _ _ _) as [st2 r2] eqn:Hread.
  destruct r2 as [[kn|]|e| |]; simplify_eq/=.
  - apply CellKeyNode_read_Some in Hread as (Hoff & Hst & Hrange & Hpath & Hfs).
    cbn in Hoff, Hrange, Hpath, Hfs.
    destruct (classify_child _ _ _) as [kn' ex] eqn:Hc.
    apply (classify_child_ok fi kn (n_path s.1) sub) in Hc as [Hok Hex];
      [|done|by rewrite Hoff|done|done].
    apply IH in H as (Hcore & Hinv & Hlen). cbn in *. split_and!; [done| |].
    + intros Hall ->. apply Hinv; [by apply Forall_app_2; [|constructor]|].
      rewrite existsb_app. cbn. by rewrite Hex, orb_false_r.
    + rewrite length_app in Hlen. cbn in Hlen. lia.
  - apply IH in H as (Hcore & Hinv & Hlen). cbn in *. split_and!; [done|done|lia].
  - apply m_bind_Ok in H as (s3 & u & Hl & H). unfold nm_log, nm_node, m_modify in Hl.
    injection Hl as <- _. apply IH in H as (Hcore & Hinv & Hlen). cbn in *.
    assert (n_path (n_add_log WarningParse (sub_key_error (n_path s.1) val) s.1) = n_path s.1)
      as Hpp by by destruct s as [[] ?].
    rewrite Hpp in *. split_and!; [|done|lia].
    eapply same_core_trans; [apply same_core_add_log|exact Hcore].
Qed.

Lemma read_sub_keys_children {Er} fuel fi f sn gdm s s' children found :
  read_sub_keys_internal (Er:=Er) fuel fi f sn gdm s = (s', Ok (children, found)) ->
  let self := s.1 in
  let self_is := is_filter_match_or_descendent self in
  let sub_filter := if self_is && return_sub_keys f then None else Some f in
  same_core (n_set_cell_sub_key_offsets_absolute (n_cell_sub_key_offsets_absolute s'.1) self) s'.1 /\
  Forall (child_ok fi (n_path self) sub_filter self_is (Filter_is_valid f)) children /\
  found = existsb is_exact children /\
  (children <> [] -> (length children <= length (n_cell_sub_key_offsets_absolute s'.1))%nat /\
     n_cell_state self = Allocated) /\
  (sub_filter = None -> found = false).
Proof.
  intros H self self_is sub_filter. unfold read_sub_keys_internal in H.
  apply m_bind_Ok in H as (s1 & s1' & Hg & H). unfold m_get in Hg. injection Hg as <- <-.
  fold self in H.
  assert (forall v, same_core (n_set_cell_sub_key_offsets_absolute v self) self) as Hset
    by (intros v; by destruct self).
  case_bool_decide as Hst; [|unfold m_ret in H; simplify_eq; split_and!; done].
  case_match; [|case_match]; cycle 2.
  { unfold m_ret in H. simplify_eq. split_and!; done. }
  { apply m_bind_Ok in H as (s2 & u & Hl & H). unfold nm_log, nm_node, m_modify, m_ret in *.
    simplify_eq. split_and!; try done. cbn. eapply same_core_trans; [apply Hset|].
    apply same_core_add_log. }
  apply m_bind_Ok in H as (s2 & r & Hp & H). unfold nm_state, m_try, m_lift in Hp.
  destruct (parse_sub_key_list _ _ _) as [offsets|e| |] eqn:Hps; simplify_eq/=.
  - fold self_is sub_filter in H. apply m_bind_Ok in H as (s3 & [cs b] & Hloop & H).
    apply m_bind_Ok in H as (s4 & u & Hn & H). unfold nm_node, m_modify, m_ret in *.
    simplify_eq. apply read_sub_keys_loop_Ok in Hloop as (Hcore & Hinv & Hlen). cbn in *.
    destruct Hinv as [Hall ->]; [constructor|done|].
    split_and!; [|done|done| |].
    + unfold self. clear -Hcore. destruct s as [[] ?], s3 as [[] ?]. exact Hcore.
    + intros _. split; [|done]. by destruct s3 as [[] ?].
    + intros Hnone. rewrite Hnone in Hall. clear -Hall.
      induction Hall as [|n l (_ & _ & _ & Hn) _ IHl]; [done|]. cbn. rewrite IHl, orb_false_r.
      unfold is_exact. apply bool_decide_false. intros Heq. rewrite Heq in Hn. by destruct Hn.
  - apply m_bind_Ok in H as (s3 & u & Hl & H). unfold nm_log, nm_node, m_modify, m_ret in *.
    simplify_eq. split_and!; try done. cbn. eapply same_core_trans; [apply Hset|].
    apply same_core_add_log.
Qed.

(** C19: whatever the file holds, the children returned for a key are cells whose paths extend
    the key's, at most one per listed offset; "found" is reported exactly when a child is an
    exact match; below a match (or inside a matched subtree) children are matches or
    descendants, elsewhere matches or keys on the way, and when the filter returns whole
    subtrees nothing below a match is matched again. *)
Theorem read_sub_keys_classified fuel fi f sn gdm s s' children found :
  read_sub_keys_internal (Er:=Error) fuel fi f sn gdm s = (s', Ok (children, found)) ->
  let self := s.1 in
  let self_is := is_filter_match_or_descendent self in
  let sub_filter := if self_is && return_sub_keys f then None else Some f in
  same_core (n_set_cell_sub_key_offsets_absolute (n_cell_sub_key_offsets_absolute s'.1) self) s'.1 /\
  Forall (child_ok fi (n_path self) sub_filter self_is (Filter_is_valid f)) children /\
  found = existsb is_exact children /\
  (children <> [] -> (length children <= length (n_cell_sub_key_offsets_absolute s'.1))%nat /\
     n_cell_state self = Allocated) /\
  (sub_filter = None -> found = false).
Proof. apply read_sub_keys_children. Qed.

(** ** Expanding deleted and modified items *)

(** The path under which a key's deleted children and old versions are recorded. *)
Definition record_path (n : CellKeyNode) : ustr := if is_key_root n then [] else n_path n.

(** Deleted keys are recorded under their parent: no root among them, and paths grow. *)
Definition deleted_nested (st : State) (bound : nat) : Prop :=
  forall p dks dk, deleted_keys st !! p = Some dks -> dk ∈ dks ->
    is_key_root dk = false /\ (length p < length (n_path dk) <= bound)%nat.

Definition newest_first {A} (seq : A -> option Z) : list A -> Prop :=
  Sorted (fun a b => opt_le (seq b) (seq a) = true).

Lemma by_sequence_desc_spec {A} (seq : A -> option Z) l :
  by_sequence_desc seq l ≡ₚ l /\ newest_first seq (by_sequence_desc seq l).
Proof.
  split; [apply sort_by_Permutation|]. apply sort_by_sorted. intros a b. apply opt_le_total.
Qed.

Lemma value_name_set_versions v c : value_name (cv_set_versions v c) = value_name c.
Proof. by destruct c. Qed.

(** A deleted key as it is attached to [self]: expanded by [rec], unless it is at [self]'s own
    offset. *)
Definition attached (rec : CellKeyNode -> res Error CellKeyNode) (self dk dk' : CellKeyNode)
    : Prop :=
  n_path dk' = n_path dk /\
  (if decide (n_file_offset_absolute dk = n_file_offset_absolute self) then dk' = dk
   else rec dk = Ok dk').
(** A value after expansion: the versions recorded for it, newest first, replace its versions. *)
Definition expanded_value (st : State) (path : ustr) (v v' : CellKeyValue) : Prop :=
  match ModifiedValueMap_get (modified_values st) path (value_name v) with
  | Some mvs => exists versions, v' = cv_set_versions versions v /\ versions ≡ₚ mvs /\
      newest_first cv_sequence_num versions
  | None => v' = v
  end.

(** The deleted keys of a key's path are attached in order, each expanded by [rec]. *)
Lemma attach_deleted_keys_total (rec : CellKeyNode -> res Error CellKeyNode) st self path :
  (forall dks dk, deleted_keys st !! path = Some dks -> dk ∈ dks ->
     n_file_offset_absolute dk <> n_file_offset_absolute self ->
     exists dk', rec dk = Ok dk' /\ n_path dk' = n_path dk) ->
  exists self1,
    match ModifiedDeletedKeyMap_get (deleted_keys st) path with
    | Some dks =>
        dks ← mapM (fun dk => if negb (n_file_offset_absolute dk =? n_file_offset_absolute self)
                              then rec dk else Ok dk) dks;
        Ok (n_set_deleted_keys dks self)
    | None => Ok self
    end = Ok self1 /\ same_core self self1 /\ n_sub_values self1 = n_sub_values self /\
    match deleted_keys st !! path with
    | Some dks => Forall2 (attached rec self) dks (n_deleted_keys self1)
    | None => n_deleted_keys self1 = n_deleted_keys self
    end /\ n_versions self1 = n_versions self.
Proof.
  intros Hrec. unfold ModifiedDeletedKeyMap_get.
  destruct (deleted_keys st !! path) as [dks|] eqn:Hd; [|by exists self].
  destruct (mapM_Ok (E:=Error) (fun dk =>
      if negb (n_file_offset_absolute dk =? n_file_offset_absolute self) then rec dk else Ok dk)
    (attached rec self) dks) as (dks' & Hm & HF).
  { intros dk Hin. unfold attached.
    destruct (Z.eqb_spec (n_file_offset_absolute dk) (n_file_offset_absolute self)) as [He|He]; cbn.
    - exists dk. by rewrite decide_True.
    - destruct (Hrec _ _ eq_refl Hin He) as (dk' & H1 & H2). exists dk'. by rewrite decide_False. }
  rewrite Hm. cbn. eexists. split; [done|]. by destruct self.
Qed.

(** The recorded versions of a path replace a key's versions, newest first, and nothing else. *)
Lemma attach_versions_spec st self path :
  let self2 := match ModifiedDeletedKeyMap_get (modified_keys st) path with
               | Some mks => n_set_versions (by_sequence_desc n_sequence_num mks) self
               | None => self
               end in
  same_core self self2 /\ n_sub_values self2 = n_sub_values self /\
  n_deleted_keys self2 = n_deleted_keys self /\
  match modified_keys st !! path with
  | Some mks => n_versions self2 ≡ₚ mks /\ newest_first n_sequence_num (n_versions self2)
  | None => n_versions self2 = n_versions self
  end.
Proof.
  unfold ModifiedDeletedKeyMap_get.
  destruct (modified_keys st !! path) as [mks|]; cbn; [|by split_and!].
  destruct self. split_and!; try done; apply by_sequence_desc_spec.
Qed.

(** Replacing the values by [vals] and appending the deleted values of the path in name order
    touches only the values. *)
Lemma attach_values_spec st self vals path :
  let self2 := n_set_sub_values vals self in
  let self3 := match DeletedValueMap_get (deleted_values st) path with
               | Some dvs => n_set_sub_values (n_sub_values self2 ++
                   sort_by (fun a b => str_le (value_name a) (value_name b)) dvs) self2
               | None => self2
               end in
  same_core self self3 /\ n_versions self3 = n_versions self /\
  n_deleted_keys self3 = n_deleted_keys self /\
  exists dvs, n_sub_values self3 = vals ++ dvs /\ dvs ≡ₚ vec_at (deleted_values st) path /\
    Sorted (fun a b => str_le (value_name a) (value_name b) = true) dvs.
Proof.
  unfold DeletedValueMap_get, vec_at.
  destruct (deleted_values st !! path) as [dvs|] eqn:Hdv; destruct self; cbn; split_and!;
    try done.
  - exists (sort_by (fun a b => str_le (value_name a) (value_name b)) dvs).
    split; [done|]. split.
    + rewrite sort_by_Permutation.
      exact (reflexive_eq _ _ (f_equal (default []) (eq_sym Hdv))).
    + apply sort_by_sorted. intros a b. apply str_le_total.
  - exists []. split; [by rewrite app_nil_r|]. split; [|constructor].
    exact (reflexive_eq _ _ (f_equal (default []) (eq_sym Hdv))).
Qed.
Lemma expand_values_spec st path vals :
  Forall2 (expanded_value st path) vals
    ((fun val =>
        match ModifiedValueMap_get (modified_values st) path (value_name val) with
        | Some mvs => cv_set_versions (by_sequence_desc cv_sequence_num mvs) val
        | None => val
        end) <$> vals).
Proof.
  induction vals as [|v vals IH]; [constructor|]. rewrite fmap_cons. constructor; [|exact IH].
  unfold expanded_value. destruct (ModifiedValueMap_get _ _ _); [|done].
  eexists. split; [done|]. apply by_sequence_desc_spec.
Qed.

(** C33: expanding a key returns whenever deleted keys are recorded under their parents, with
    one level of recursion per level of nesting.  Its path, cell, state and hash stay.  If
    versions are recorded for its path they become its versions, newest first; its values keep
    their order, each with the versions recorded for it, newest first, and are followed by the
    deleted values of the path in name order; its deleted keys are those recorded for the path,
    in order, each expanded in turn. *)
Theorem update_modified_lists_total fuel st self bound :
  deleted_nested st bound -> (1 <= fuel)%nat ->
  (bound + 1 <= fuel + length (record_path self))%nat ->
  is_deleted_primary_file (n_cell_state self) = false ->
  exists self', update_modified_lists (Er:=Error) fuel st self = Ok self' /\
    same_core self self' /\
    match modified_keys st !! record_path self with
    | Some mks => n_versions self' ≡ₚ mks /\ newest_first n_sequence_num (n_versions self')
    | None => n_versions self' = n_versions self
    end /\
    (exists vals dvs, n_sub_values self' = vals ++ dvs /\
       Forall2 (expanded_value st (record_path self)) (n_sub_values self) vals /\
       dvs ≡ₚ vec_at (deleted_values st) (record_path self) /\
       Sorted (fun a b => str_le (value_name a) (value_name b) = true) dvs) /\
    match deleted_keys st !! record_path self with
    | Some dks =>
        Forall2 (attached (update_modified_lists (pred fuel) st) self) dks (n_deleted_keys self')
    | None => n_deleted_keys self' = n_deleted_keys self
    end.
Proof.
  intros Hn. revert self. induction fuel as [|k IH]; intros self Hf Hb Hst; [lia|].
  cbn [update_modified_lists]. fold (record_path self). rewrite Hst. cbn [negb].
  destruct (attach_deleted_keys_total (update_modified_lists (Er:=Error) k st) st self
    (record_path self)) as (self1 & -> & Hc1 & Hsv & Hdk & Hv1).
  { intros dks dk Hd Hin _. destruct (Hn _ _ _ Hd Hin) as [Hroot Hlen].
    destruct (is_deleted_primary_file (n_cell_state dk)) eqn:Hdp.
    - destruct k as [|k]; [lia|]. cbn [update_modified_lists]. rewrite Hdp. eauto.
    - destruct (IH dk) as (dk' & Hdk' & Hcore & _); [lia| |done|].
      + unfold record_path at 1. rewrite Hroot. lia.
      + exists dk'. split; [done|]. apply Hcore. }
  cbn [mbind res_bind].
  pose proof (attach_versions_spec st self1 (record_path self)) as H2. cbn zeta in H2.
  set (self2 := match ModifiedDeletedKeyMap_get (modified_keys st) (record_path self) with
                | Some mks => _ | None => _ end) in *.
  destruct H2 as (Hc2 & Hsv2 & Hdk2 & Hv2).
  set (vals := _ <$> n_sub_values self2).
  assert (Forall2 (expanded_value st (record_path self)) (n_sub_values self) vals) as Hvals.
  { rewrite <- Hsv, <- Hsv2. apply expand_values_spec. }
  destruct (attach_values_spec st self2 vals (record_path self)) as (Hc3 & Hv3 & Hdk3 & dvs & Hdvs).
  eexists. split; [reflexivity|]. split_and!.
  - exact (same_core_trans _ _ _ Hc1 (same_core_trans _ _ _ Hc2 Hc3)).
  - rewrite Hv3, <- Hv1. exact Hv2.
  - exists vals, dvs. split; [apply Hdvs|]. split; [exact Hvals|]. apply Hdvs.
  - rewrite Hdk3, Hdk2. exact Hdk.
Qed.

(** Two deleted keys with the root flag, recorded at the root at different offsets, are
    expanded into each other for ever. *)
Lemma update_modified_lists_two_roots st k1 k2 :
  deleted_keys st !! [] = Some [k1; k2] -> is_key_root k1 = true -> is_key_root k2 = true ->
  n_file_offset_absolute k1 <> n_file_offset_absolute k2 ->
  is_deleted_primary_file (n_cell_state k1) = false ->
  is_deleted_primary_file (n_cell_state k2) = false ->
  forall fuel, update_modified_lists (Er:=Error) fuel st k1 = NoFuel /\
               update_modified_lists (Er:=Error) fuel st k2 = NoFuel.
Proof.
  intros Hd H1 H2 Hne Hs1 Hs2. induction fuel as [|k [IH1 IH2]]; [done|].
  cbn [update_modified_lists]. rewrite H1, H2, Hs1, Hs2. cbn [negb].
  unfold ModifiedDeletedKeyMap_get. rewrite Hd. cbn [mapM].
  rewrite !Z.eqb_refl, (proj2 (Z.eqb_neq _ _) Hne),
    (proj2 (Z.eqb_neq _ _) (not_eq_sym Hne)). cbn [negb].
  rewrite IH1, IH2. done.
Qed.

(** Iterating over a key's values yields exactly its values, in order, and then nothing
    more however often it is called. *)
Lemma value_iter_yields n k :
  let fix run (k : nat) (it : CellKeyNodeValueIterator) : list CellKeyValue :=
    match k with
    | O => []
    | S k => match ValueIterator_next it with
             | (it, Some v) => v :: run k it
             | (it, None) => run k it
             end
    end in
  run k (value_iter n) = take k (n_sub_values n).
Proof.
  intros run.
  assert (forall k i, run k {| vi_inner := n; vi_sub_values_iter_index := Z.of_nat i |}
    = take k (drop i (n_sub_values n))) as H; [|exact (H k 0%nat)].
  clear k. induction k as [|k IH]; intros i; [done|].
  cbn [run]. unfold ValueIterator_next, next_value, get_at. cbn [vi_inner vi_sub_values_iter_index].
  rewrite (proj2 (Z.leb_le 0 _)), Nat2Z.id by lia.
  destruct (n_sub_values n !! i) as [v|] eqn:Hi.
  - rewrite (drop_S _ _ _ Hi). replace (Z.of_nat i + 1) with (Z.of_nat (S i)) by lia.
    cbn. f_equal. apply IH.
  - rewrite IH. apply lookup_ge_None in Hi. rewrite drop_ge by done. by rewrite !take_nil.
Qed.
End KeyNodeFacts.

(** ** Samples *)

(** An 88-byte nk cell with a name of at most eight bytes, the given flags, and [n_sub] subkeys
    listed at [list_off]. *)
Definition nk_sample (flags n_sub list_off : Z) (name : string) : list byte :=
  to_le_bytes 4 (u32_of_i32 (-88)) ++ bytes_of "nk" ++ to_le_bytes 2 flags
  ++ to_le_bytes 8 0 ++ to_le_bytes 4 0 ++ to_le_bytes 4 0
  ++ to_le_bytes 4 n_sub ++ to_le_bytes 4 0 ++ to_le_bytes 4 list_off ++ to_le_bytes 4 0
  ++ to_le_bytes 4 0 ++ to_le_bytes 4 0 ++ to_le_bytes 4 0 ++ to_le_bytes 4 0
  ++ to_le_bytes 4 0 ++ to_le_bytes 4 0 ++ to_le_bytes 4 0 ++ to_le_bytes 4 0
  ++ to_le_bytes 4 0 ++ to_le_bytes 2 (Z.of_nat (String.length name)) ++ to_le_bytes 2 0
  ++ bytes_of name ++ replicate (8 - String.length name) Byte.x00.

(** A root with one subkey: the root at 0, its li list at 88, the subkey at 100. *)
Definition hive_sample : FileInfo :=
  {| hbin_offset_absolute := 0;
     buffer := nk_sample 0x24 1 88 "r"
       ++ to_le_bytes 4 12 ++ bytes_of "li" ++ to_le_bytes 2 1 ++ to_le_bytes 4 100
       ++ nk_sample 0x20 0 0 "c" |}.
Definition hive_root `{E : Env} : CellKeyNode :=
  match CellKeyNode_parse false (buffer hive_sample) 0 [] None with
  | Ok (_, n) => n
  | _ => key_sample 0 0 [] [] 0 None
  end.

Lemma CellKeyNode_from_bytes_spec_witness :
  exists st' r n, CellKeyNode_from_bytes (E:=env_ref) (nk_sample 0x20 3 8 "c") 100 (lit "\r") None
                    State_default = (st', Ok (r, n)) /\ CellKeyNode_get_cell_size n = 88 /\
    n_path n = lit "\r\c" /\ node_number_of_sub_keys n = 3 /\
    node_sub_keys_list_offset_relative n = 8.
Proof.
  destruct (@CellKeyNode_from_bytes_spec env_ref (nk_sample 0x20 3 8 "c") 100 (lit "\r") None
    State_default) as [[_ Hex] Hok].
  destruct Hex as (st' & r & n & H); [split_and!; vm_compute; congruence|].
  exists st', r, n. split; [exact H|].
  destruct (Hok _ _ _ H) as (_ & Hsize & _ & name & lg & Hn & Hname & _).
  vm_compute in Hname. subst name. rewrite Hsize, Hn. split_and!; vm_compute; reflexivity.
Defined.

Lemma read_sub_keys_classified_witness :
  exists s' children found,
    read_sub_keys_internal (E:=env_ref) (Er:=Error) 1 hive_sample Filter_new None true
      (hive_root, State_default) = (s', Ok (children, found)) /\
    length children = 1%nat /\ found = existsb is_exact children.
Proof.
  assert ((fun r => match r with Ok (cs, _) => Some (length cs) | _ => None end)
    (read_sub_keys_internal (E:=env_ref) (Er:=Error) 1 hive_sample Filter_new None true
      (hive_root, State_default)).2 = Some 1%nat) as Hok by (vm_compute; reflexivity).
  destruct (read_sub_keys_internal (E:=env_ref) (Er:=Error) 1 hive_sample Filter_new None true
      (hive_root, State_default)) as [s' [[cs b]|e| |]] eqn:H; try discriminate Hok.
  exists s', cs, b. split; [reflexivity|]. split; [injection Hok as Hl; exact Hl|].
  destruct (@read_sub_keys_classified env_ref _ _ _ _ _ _ _ _ _ H) as (_ & _ & Hf & _).
  exact Hf.
Defined.

(** A deleted key "\r\d" recorded under the root, whose record path is empty. *)
Definition deleted_state `{E : Env} : State :=
  st_set_deleted_keys
    (ModifiedDeletedKeyMap_add ∅ [] (key_sample 88 32 (lit "d") (lit "\r\d") 200 None))
    State_default.

(** Deleted values "z" and "b" recorded under the root, in this order. *)
Definition deleted_values_state `{E : Env} : State :=
  let value name := vk_record false [] 0 None (lit name) Logs_default in
  st_set_deleted_values
    (DeletedValueMap_add (DeletedValueMap_add ∅ [] (value "z"%string)) [] (value "b"%string))
    deleted_state.

Lemma update_modified_lists_total_witness :
  exists self', update_modified_lists (E:=env_ref) (Er:=Error) 5 deleted_values_state hive_root
      = Ok self' /\
    n_path <$> n_deleted_keys self' = [lit "\r\d"] /\
    value_name <$> n_sub_values self' = [lit "b"; lit "z"].
Proof.
  destruct (@update_modified_lists_total env_ref 5 deleted_values_state hive_root 4)
    as (self' & H & _ & _ & (vals & dvs & Hvals & Hexp & Hperm & Hsort) & Hd).
  - intros p dks dk Hp Hin. change (map_push (V:=@CellKeyNode env_ref) [] (key_sample 88 32 (lit "d") (lit "\r\d") 200 None)
      (∅ : gmap ustr (list (@CellKeyNode env_ref))) !! p = Some dks) in Hp.
    unfold map_push in Hp.
    rewrite lookup_empty in Hp. apply lookup_insert_Some in Hp as [[<- <-]|[_ Hp]];
      [|by rewrite lookup_empty in Hp].
    apply list_elem_of_singleton in Hin as ->. split; [reflexivity|vm_compute; lia].
  - lia.
  - vm_compute. lia.
  - reflexivity.
  - exists self'. split; [exact H|]. split.
    + change (deleted_keys deleted_values_state !! record_path hive_root)
        with (Some [@key_sample env_ref 88 32 (lit "d") (lit "\r\d") 200 None]) in Hd.
      apply Forall2_cons_inv_l in Hd as (dk & l & [Hpath _] & Hnil & ->).
      apply Forall2_nil_inv_l in Hnil as ->. rewrite fmap_cons, Hpath. reflexivity.
    + change (n_sub_values hive_root) with (@nil (@CellKeyValue env_ref)) in Hexp.
      apply Forall2_nil_inv_l in Hexp as ->. rewrite Hvals. cbn [app].
      apply Permutation_sym, Permutation_length_2_inv in Hperm as [-> | ->]; [|reflexivity].
      apply Sorted_inv in Hsort as [_ Hhd]. apply HdRel_inv in Hhd. discriminate Hhd.
Defined.
