(* ===== verification/KeySecurity.v ===== *)
(** * KeySecurity: security descriptors of a key

    [src/src/cell_key_security.rs].  The sk cells form a ring through their [flink] fields;
    the reader collects the descriptors until a cell points back to the first.  [fuel]
    bounds the number of cells visited. *)

From S2P Require Import Prelude Env Log Util Cells SubKeyLists Values ValueFacts State Filter KeyNode.

Section KeySecurity.
Context `{E : Env}.

Record CellKeySecurityDetail := {
  sk_size : Z;
  sk_unknown1 : Z;
  sk_flink : Z;
  sk_blink : Z;
  sk_reference_count : Z;
  sk_security_descriptor_size : Z;
}.
Record CellKeySecurity := {
  sk_detail : CellKeySecurityDetail;
  sk_security_descriptor : list byte;
  sk_logs : Logs;
}.

Definition CellKeySecurity_from_bytes : parser CellKeySecurity := fun input =>
  '(input, size) ← nom_le_i32 input;
  '(input, _) ← nom_tag (bytes_of "sk") input;
  '(input, unknown1) ← nom_le_u16 input;
  '(input, flink) ← nom_le_u32 input;
  '(input, blink) ← nom_le_u32 input;
  '(input, reference_count) ← nom_le_u32 input;
  '(input, descriptor_size) ← nom_le_u32 input;
  '(input, security_descriptor) ← nom_take descriptor_size input;
  Ok (input,
      {| sk_detail := {| sk_size := unsigned_abs size; sk_unknown1 := unknown1;
                         sk_flink := flink; sk_blink := blink;
                         sk_reference_count := reference_count;
                         sk_security_descriptor_size := descriptor_size |};
         sk_security_descriptor := security_descriptor;
         sk_logs := Logs_default |}).

(** The [loop]. *)
Fixpoint security_loop (fuel : nat) (buffer : list byte)
    (security_key_offset hbin_offset_absolute offset : Z)
    (security_descriptors : list SecurityDescriptor) : res Error (list SecurityDescriptor) :=
  match fuel with
  | O => NoFuel
  | S k =>
      slice ← ok_or (Error_buffer "read_cell_key_security")
                (get_from buffer (offset + hbin_offset_absolute));
      '(_, cell_key_security) ← nom_q (CellKeySecurity_from_bytes slice);
      descriptor ← match sd_from_stream (sk_security_descriptor cell_key_security) with
                   | inr d => Ok d
                   | inl err => Err (Error_from_winstructs err)
                   end;
      let security_descriptors := security_descriptors ++ [descriptor] in
      if sk_flink (sk_detail cell_key_security) =? security_key_offset
      then Ok security_descriptors
      else security_loop k buffer security_key_offset hbin_offset_absolute
             (sk_flink (sk_detail cell_key_security)) security_descriptors
  end.

Definition read_cell_key_security (fuel : nat) (buffer : list byte)
    (security_key_offset hbin_offset_absolute : Z) : res Error (list SecurityDescriptor) :=
  security_loop fuel buffer security_key_offset hbin_offset_absolute security_key_offset [].

(** [CellKeyNode::get_security_descriptors]. *)
Definition get_security_descriptors (fuel : nat) (self : CellKeyNode) (file_info : FileInfo)
    : res Error (list SecurityDescriptor) :=
  read_cell_key_security fuel (buffer file_info) (node_security_key_offset_relative self)
    (hbin_offset_absolute file_info).

(** ** The ring of sk cells *)

(** The sk cell at [off]: its link and descriptor. *)
Definition sk_at (buf : list byte) (hbin off : Z) (flink : Z) (d : SecurityDescriptor) : Prop :=
  0 <= off + hbin <= len buf /\
  exists r c, CellKeySecurity_from_bytes (zdrop (off + hbin) buf) = Ok (r, c) /\
    sk_flink (sk_detail c) = flink /\ sd_from_stream (sk_security_descriptor c) = inr d.

(** [sk_ring buf hbin start off ds]: following links from [off] leads to [start]. *)
Inductive sk_ring (buf : list byte) (hbin start : Z) : Z -> list SecurityDescriptor -> Prop :=
  | ring_last off d : sk_at buf hbin off start d -> sk_ring buf hbin start off [d]
  | ring_next off next d ds :
      sk_at buf hbin off next d -> next <> start -> sk_ring buf hbin start next ds ->
      sk_ring buf hbin start off (d :: ds).

Lemma security_loop_step k buf start hbin off acc flink d :
  sk_at buf hbin off flink d ->
  security_loop (S k) buf start hbin off acc =
  if flink =? start then Ok (acc ++ [d])
  else security_loop k buf start hbin flink (acc ++ [d]).
Proof.
  intros (Hin & r & c & Hp & <- & Hd). cbn [security_loop].
  assert (get_from buf (off + hbin) = Some (zdrop (off + hbin) buf)) as ->
    by (by apply get_from_Some).
  cbn [ok_or mbind res_bind]. rewrite Hp. cbn [nom_q res_map_err mbind res_bind].
  by rewrite Hd.
Qed.

Lemma CellKeySecurity_from_bytes_returns i : returns (CellKeySecurity_from_bytes i).
Proof. unfold CellKeySecurity_from_bytes. returns_tac. Qed.

(** C31: the descriptors returned are those of the cells on the ring through the key's sk cell,
    in link order: a ring is read whole with one step per cell, and whatever is returned
    is such a ring. *)
Theorem read_cell_key_security_ring buf start hbin :
  (forall ds fuel, sk_ring buf hbin start start ds -> (length ds <= fuel)%nat ->
     read_cell_key_security fuel buf start hbin = Ok ds) /\
  (forall ds fuel, read_cell_key_security fuel buf start hbin = Ok ds ->
     sk_ring buf hbin start start ds).
Proof.
  unfold read_cell_key_security. split.
  - assert (forall off ds, sk_ring buf hbin start off ds -> forall fuel acc,
      (length ds <= fuel)%nat -> security_loop fuel buf start hbin off acc = Ok (acc ++ ds)) as H.
    { induction 1 as [off d Hat|off next d ds Hat Hne Hr IH]; intros [|k] acc Hf; cbn in Hf; try lia.
      - by rewrite (security_loop_step _ _ _ _ _ _ start d), Z.eqb_refl.
      - rewrite (security_loop_step _ _ _ _ _ _ next d) by done.
        rewrite (proj2 (Z.eqb_neq _ _) Hne), IH by lia. by rewrite <- app_assoc. }
    intros ds fuel Hr Hf. by apply (H start ds Hr fuel []).
  - assert (forall fuel off acc ds, security_loop fuel buf start hbin off acc = Ok ds ->
      exists ds', ds = acc ++ ds' /\ sk_ring buf hbin start off ds') as H.
    { induction fuel as [|k IH]; intros off acc ds; [done|]. cbn [security_loop].
      intros H. inv_bind.
      match goal with H : ok_or _ ?g = Ok _ |- _ => destruct g as [sl|] eqn:Hg; [|done] end.
      simplify_eq/=. apply get_from_Some in Hg as (Hin & ->).
      match goal with H : nom_q _ = Ok _ |- _ => apply nom_q_Ok in H; rename H into Hp end.
      destruct (sd_from_stream _) as [|d] eqn:Hd; [done|]. simplify_eq.
      match goal with H : (if ?b then _ else _) = _ |- _ => destruct b eqn:Hb; rename H into Hrest end.
      - simplify_eq. eexists. split; [done|]. apply ring_last. split; [done|].
        eexists _, _. split; [exact Hp|]. apply Z.eqb_eq in Hb. done.
      - apply IH in Hrest as (ds' & -> & Hr). rewrite <- app_assoc. eexists. split; [done|].
        apply Z.eqb_neq in Hb. eapply ring_next; [|exact Hb|exact Hr].
        split; [done|]. eexists _, _. done. }
    intros ds fuel Hf. apply H in Hf as (ds' & -> & Hr). done.
Qed.

(** When the links run into a cycle that avoids the key's own sk cell, the reader never
    stops: no number of steps is enough. *)
Lemma read_cell_key_security_cycle buf start hbin flink d (cyc : list Z) :
  sk_at buf hbin start flink d -> flink ∈ cyc ->
  (forall off, off ∈ cyc -> off <> start /\ exists next d, sk_at buf hbin off next d /\ next ∈ cyc) ->
  forall fuel, read_cell_key_security fuel buf start hbin = NoFuel.
Proof.
  intros Hat Hin Hcyc. unfold read_cell_key_security.
  assert (forall fuel off acc, off ∈ cyc -> security_loop fuel buf start hbin off acc = NoFuel)
    as Hloop.
  { induction fuel as [|k IH]; intros off acc Hoff; [done|].
    destruct (Hcyc off Hoff) as (_ & next & d' & Hat' & Hnext).
    rewrite (security_loop_step _ _ _ _ _ _ next d') by done.
    destruct (Hcyc next Hnext) as [Hne _]. rewrite (proj2 (Z.eqb_neq _ _) Hne). by apply IH. }
  intros [|k]; [done|]. rewrite (security_loop_step _ _ _ _ _ _ flink d) by done.
  destruct (Hcyc flink Hin) as [Hne _]. rewrite (proj2 (Z.eqb_neq _ _) Hne). by apply Hloop.
Qed.
End KeySecurity.

(** An sk cell with the given link and no descriptor bytes: 24 bytes. *)
Definition sk_sample (flink : Z) : list byte :=
  to_le_bytes 4 24 ++ bytes_of "sk" ++ to_le_bytes 2 0 ++ to_le_bytes 4 flink
  ++ to_le_bytes 4 0 ++ to_le_bytes 4 1 ++ to_le_bytes 4 0.

Lemma read_cell_key_security_ring_witness :
  read_cell_key_security (E:=env_ref) 2 (sk_sample 24 ++ sk_sample 0) 0 0
  = Ok [[] : list byte; [] : list byte].
Proof.
  apply (proj1 (@read_cell_key_security_ring env_ref (sk_sample 24 ++ sk_sample 0) 0 0));
    [|vm_compute; lia].
  eapply (@ring_next env_ref _ _ _ 0 24); [|lia|eapply (@ring_last env_ref)];
    (split; [vm_compute; split; congruence|]; eexists _, _;
     split; [vm_compute; reflexivity|split; reflexivity]).
Defined.

(** The cell at 0 links to the cell at 24, which links to itself. *)
Lemma read_cell_key_security_cycle_witness :
  read_cell_key_security (E:=env_ref) 1000 (sk_sample 24 ++ sk_sample 24) 0 0 = NoFuel.
Proof.
  apply (@read_cell_key_security_cycle env_ref (sk_sample 24 ++ sk_sample 24) 0 0 24 ([] : list byte) [24]).
  - split; [vm_compute; split; congruence|]. eexists _, _.
    split; [vm_compute; reflexivity|split; reflexivity].
  - constructor.
  - intros off Hoff. apply list_elem_of_singleton in Hoff as ->. split; [lia|].
    exists 24, ([] : list byte). split; [|constructor].
    split; [vm_compute; split; congruence|]. eexists _, _.
    split; [vm_compute; reflexivity|split; reflexivity].
Defined.
