(* ===== verification/Recover.v ===== *)
(** * Recover: deleted keys and values in free cells and slack

    [src/src/parser_recover_deleted.rs].  The scan walks the cells of a hive bin; a free nk
    or vk cell is recorded, and the slack of every parsed cell, and any other cell's bytes,
    are searched byte by byte for further cells.  A step of the search and a search nested
    in the slack of a found cell each take one unit of [fuel]; both shrink what is left to
    search, so the number of bytes is enough. *)

From S2P Require Import Prelude Env Log Util UtilFacts Cells SubKeyLists Values ValueFacts State Filter KeyNode KeyNodeFacts.

Section Recover.
Context `{E : Env}.

Definition read_range_checked {Er} (buffer : list byte) (file_offset_absolute size : Z)
    : res Er (option (list byte)) :=
  if file_offset_absolute <? len buffer then
    Some <$> expect (get_range buffer file_offset_absolute
                       (Z.min (file_offset_absolute + size) (len buffer)))
  else Ok None.

Definition read_checked {Er} (buffer : list byte) (file_offset_absolute : Z)
    : res Er (option (list byte)) :=
  if file_offset_absolute <? len buffer then
    Some <$> expect (get_from buffer file_offset_absolute)
  else Ok None.

(** [let _ = f(..)]: an error is dropped. *)
Definition m_ignore {S E1 E2 A} (m : M S E1 A) : M S E2 () :=
  let* _ := m_try m in m_ret ().

Definition st_log {Er} (c : LogCode) (t : ustr) : M State Er () :=
  m_modify (fun st => st_set_info (Logs_add (info st) c t) st).

Definition cv_set_cell_state (v : CellState) (c : CellKeyValue) : CellKeyValue :=
  match c with Build_CellKeyValue a b d e f _ h i j k l =>
    Build_CellKeyValue a b d e f v h i j k l end.

(** Over [slack_search], the search of a cell's slack. *)
Definition recover_cell_key_value {Er} (slack_search : list byte -> Z -> M State Er ())
    (file_info : FileInfo) (input_orig : list byte) (file_offset_absolute : Z)
    (cell_state : CellState) (force_add : bool) : M State Er Z :=
  match CellKeyValue_from_bytes input_orig file_offset_absolute None false with
  | Ok (_, cell_key_value) =>
      let* slack_offset := m_lift (CellKeyValue_slack_offset_absolute cell_key_value) in
      slack_search (value_slack cell_key_value) slack_offset;;;
      if force_add || CellKeyValue_is_free cell_key_value then
        let* st := m_get in
        let* (cell_key_value, h) :=
          m_lift (read_value_bytes cell_key_value file_info (hasher st)) in
        let cell_key_value := cv_set_cell_state cell_state cell_key_value in
        m_modify (fun st =>
          let st := st_set_hasher h st in
          st_set_deleted_values (DeletedValueMap_add (deleted_values st) [] cell_key_value) st);;;
        m_ret (CellKeyValue_get_cell_size cell_key_value)
      else m_ret 1
  | Err _ =>
      st_log WarningRecovery (9 :: lit "Unable to parse deleted value at offset "
                                ++ fmt_dec file_offset_absolute);;;
      m_ret 1
  | Panic => m_lift Panic
  | NoFuel => m_lift NoFuel
  end.

Definition recover_cell_key_node {Er} (slack_search : list byte -> Z -> M State Er ())
    (file_info : FileInfo) (input_orig : list byte) (file_offset_absolute : Z)
    (cell_state : CellState) (force_add : bool) : M State Er Z :=
  let* r := m_try (read_from_slice 1 file_info input_orig
              {| o_offset := file_offset_absolute;
                 o_cur_path := [];
                 o_filter := None;
                 o_self_is_filter_match_or_descendent := true;
                 o_sequence_num := None;
                 o_get_deleted_and_modified := false |}) in
  match r with
  | inr (Some full_key) =>
      let* slack_offset := m_lift (CellKeyNode_slack_offset_absolute full_key) in
      slack_search (node_slack full_key) slack_offset;;;
      if force_add || CellKeyNode_is_free full_key then
        let offset_ret := CellKeyNode_get_cell_size full_key in
        let full_key := n_set_cell_state cell_state full_key in
        m_modify (fun st =>
          st_set_deleted_keys (ModifiedDeletedKeyMap_add (deleted_keys st) [] full_key) st);;;
        m_ret offset_ret
      else m_ret 1
  | inr None => m_ret 1
  | inl e =>
      st_log WarningRecovery (lit "Unable to parse deleted key at offset "
        ++ fmt_dec file_offset_absolute ++ lit " (" ++ Error_display e ++ lit ")");;;
      m_ret 1
  end.

Definition slack_cell_type : parser CellType :=
  nom_alt [map_tag "nk" CellKey; map_tag "vk" CellValue_].

Fixpoint find_cells_in_slack_internal (fuel : nat) (file_info : FileInfo)
    (input_orig : list byte) (file_offset_absolute_start offset : Z) : M State Error () :=
  if offset <? len input_orig then
    match fuel with
    | O => m_lift NoFuel
    | S k =>
        let slack_search := fun slack start =>
          m_ignore (find_cells_in_slack_internal k file_info slack start 0) in
        let input_at := zdrop offset input_orig in
        let file_offset_absolute := file_offset_absolute_start + offset in
        let* (input, _) := m_lift (nom_q (nom_le_i32 input_at)) in
        let* inc :=
          match slack_cell_type input with
          | Ok (_, CellValue_) =>
              recover_cell_key_value slack_search file_info input_at file_offset_absolute
                DeletedPrimaryFileSlack true
          | Ok (_, CellKey) =>
              recover_cell_key_node slack_search file_info input_at file_offset_absolute
                DeletedPrimaryFileSlack true
          | Ok _ => m_ret 1
          | Err _ => m_ret 1
          | Panic => m_lift Panic
          | NoFuel => m_lift NoFuel
          end in
        find_cells_in_slack_internal k file_info input_orig file_offset_absolute_start
          (offset + inc)
    end
  else m_ret ().

Definition find_cells_in_slack {Er} (file_info : FileInfo) (input_orig : list byte)
    (file_offset_absolute_start : Z) : M State Er () :=
  m_ignore (find_cells_in_slack_internal (length input_orig) file_info input_orig
              file_offset_absolute_start 0).

Definition read_cell_key_value (file_info : FileInfo) (input_orig : list byte)
    (file_offset_absolute : Z) (cell_state : CellState) (force_add : bool) : M State Error Z :=
  recover_cell_key_value (find_cells_in_slack file_info) file_info input_orig
    file_offset_absolute cell_state force_add.
Definition read_cell_key_node (file_info : FileInfo) (input_orig : list byte)
    (file_offset_absolute : Z) (cell_state : CellState) (force_add : bool) : M State Error Z :=
  recover_cell_key_node (find_cells_in_slack file_info) file_info input_orig
    file_offset_absolute cell_state force_add.

(** The [match CellType::read_cell_type(..)] of one cell. *)
Definition recover_cell (file_info : FileInfo) (input_cell_type : list byte)
    (file_offset_absolute size_abs : Z) : M State Error () :=
  match read_cell_type input_cell_type with
  | CellValue_ =>
      let* r := m_lift (read_checked (buffer file_info) file_offset_absolute) in
      match r with
      | Some value_slack =>
          read_cell_key_value file_info value_slack file_offset_absolute DeletedPrimaryFile
            false;;;
          m_ret ()
      | None => m_ret ()
      end
  | CellKey =>
      let* r := m_lift (read_checked (buffer file_info) file_offset_absolute) in
      match r with
      | Some key_slack =>
          read_cell_key_node file_info key_slack file_offset_absolute DeletedPrimaryFile
            false;;;
          m_ret ()
      | None => m_ret ()
      end
  | _ =>
      let* r := m_lift (read_range_checked (buffer file_info) file_offset_absolute size_abs) in
      match r with
      | Some slack => find_cells_in_slack file_info slack file_offset_absolute
      | None => m_ret ()
      end
  end.

(** [while file_offset_absolute < hbin_max]. *)
Fixpoint find_unused_cells_loop (fuel : nat) (file_info : FileInfo) (input : list byte)
    (file_offset_absolute hbin_max : Z) : M State Error Z :=
  if file_offset_absolute <? hbin_max then
    match fuel with
    | O => m_lift NoFuel
    | S k =>
        let* (input_cell_type, size) := m_lift (nom_q (nom_le_i32 input)) in
        let size_abs := unsigned_abs size in
        if size =? 0 then m_ret file_offset_absolute
        else
          recover_cell file_info input_cell_type file_offset_absolute size_abs;;;
          let file_offset_absolute := file_offset_absolute + size_abs in
          let* r := m_lift (read_range_checked (buffer file_info) file_offset_absolute size_abs) in
          match r with
          | Some data => find_unused_cells_loop k file_info data file_offset_absolute hbin_max
          | None => m_ret file_offset_absolute
          end
    end
  else m_ret file_offset_absolute.

Definition find_unused_cells_in_hbin (file_info : FileInfo) (file_offset_absolute hbin_max : Z)
    : M State Error Z :=
  let* r := m_lift (read_checked (buffer file_info) file_offset_absolute) in
  let* input := m_lift (ok_or (Error_buffer "find_unused_cells_in_hbin: initial") r) in
  find_unused_cells_loop (Z.to_nat (hbin_max - file_offset_absolute)) file_info input
    file_offset_absolute hbin_max.

(** [ParserRecoverDeleted::find_free_keys_and_values]: one hive bin. *)
Definition find_free_in_hbin (file_info : FileInfo) (file_offset_absolute : Z)
    : M State Error Z :=
  let* r := m_lift (read_checked (buffer file_info) file_offset_absolute) in
  let* slice := m_lift (ok_or (Error_buffer "find_free_keys_and_values") r) in
  let* (input, hbin_header) := m_lift (nom_q (HiveBinHeader_from_bytes file_info slice)) in
  let hbin_size := hbh_size hbin_header in
  let hbin_start := file_offset_absolute in
  let file_offset_absolute := get_file_offset file_info input in
  find_unused_cells_in_hbin file_info file_offset_absolute (hbin_start + hbin_size).

(** ** The search returns *)

Lemma m_returns_ignore {S E1 E2 A} (m : M S E1 A) s :
  m_returns m s -> m_returns (m_ignore m : M S E2 ()) s.
Proof.
  unfold m_returns, m_ignore, m_bind, m_try. by destruct (m s) as [s' []].
Qed.

Lemma nom_alt_returns {A} (ps : list (parser A)) i :
  Forall (fun p => forall i, returns (p i)) ps -> returns (nom_alt ps i).
Proof.
  rewrite nom_alt_spec. induction 1 as [|p ps Hp _ IH]; cbn; [exact I|].
  specialize (Hp i). by destruct (p i) as [|[]| |].
Qed.

Lemma map_tag_returns {A} t (v : A) i : returns (map_tag t v i).
Proof. unfold map_tag. returns_tac. Qed.

Lemma slack_cell_type_returns i : returns (slack_cell_type i).
Proof. apply nom_alt_returns. repeat constructor; intros; apply map_tag_returns. Qed.

Lemma read_checked_total {Er} buf off :
  0 <= off -> exists r, read_checked (Er:=Er) buf off = Ok r /\
    (r = if off <? len buf then Some (zdrop off buf) else None).
Proof.
  intros Ho. unfold read_checked. destruct (Z.ltb_spec off (len buf)); [|eauto].
  assert (get_from buf off = Some (zdrop off buf)) as -> by (apply get_from_Some; split; [lia|done]).
  eexists. split; done.
Qed.

Lemma read_range_checked_total {Er} buf off size :
  0 <= off -> 0 <= size -> exists r, read_range_checked (Er:=Er) buf off size = Ok r.
Proof.
  intros Ho Hs. unfold read_range_checked. destruct (Z.ltb_spec off (len buf)); [|eauto].
  destruct (get_range buf off (Z.min (off + size) (len buf))) as [s|] eqn:Hg; [cbn; eauto|].
  apply get_range_None in Hg. lia.
Qed.

(** A slack search that returns on every slack shorter than [n]. *)
Definition search_ok {Er} (n : Z) (search : list byte -> Z -> M State Er ()) : Prop :=
  forall slack o st, 0 <= o -> len slack < n -> m_returns (search slack o) st.

Lemma cell_size_read_value v fi h v' h' {Er} cs :
  read_value_bytes (Er:=Er) v fi h = Ok (v', h') ->
  value_size v' = value_size v ->
  CellKeyValue_get_cell_size (cv_set_cell_state cs v') = CellKeyValue_get_cell_size v.
Proof. intros _ Hs. unfold CellKeyValue_get_cell_size. rewrite <- Hs. by destruct v'. Qed.

Lemma recover_cell_key_value_returns {Er} (search : list byte -> Z -> M State Er ())
    fi input fo cs fa st :
  0 <= fo -> search_ok (len input) search ->
  m_returns (recover_cell_key_value search fi input fo cs fa) st /\
  (forall st' inc, recover_cell_key_value search fi input fo cs fa st = (st', Ok inc) -> 1 <= inc).
Proof.
  intros Ho Hs. unfold recover_cell_key_value.
  pose proof (CellKeyValue_from_bytes_returns input fo None false) as Hr.
  destruct (CellKeyValue_from_bytes input fo None false) as [[r v]|e| |] eqn:Hp; [|split|done..].
  - apply CellKeyValue_from_bytes_facts in Hp as (Hsz & Hsl & Hraw & Hfo & _).
    destruct (slack_offset_total (Er:=Er) v) as (o & Hso & Ho'); [lia|lia|].
    rewrite Hso. split.
    + apply m_returns_bind; [exact I|]. intros s1 o1 [= <- <-].
      apply m_returns_bind; [apply Hs; [done|lia]|]. intros s2 u _.
      case_match; [|apply m_returns_ret].
      apply m_returns_bind; [apply m_returns_get|]. intros s3 s3' _.
      destruct (read_value_bytes_total (Er:=Er) v fi (hasher s3') Hraw) as (v' & h' & -> & _).
      apply m_returns_bind; [exact I|]. intros s4 [v4 h4] _.
      apply m_returns_bind; [apply m_returns_modify|]. intros. apply m_returns_ret.
    + intros st' inc H. inv_bind. unfold m_lift in *. simplify_eq.
      case_match; [|unfold m_ret in *; simplify_eq; lia]. inv_bind.
      unfold m_get, m_modify, m_ret, m_lift in *. simplify_eq.
      match goal with H : read_value_bytes _ _ ?h = Ok _ |- _ =>
        destruct (read_value_bytes_total (Er:=Er) v fi h Hraw) as (v' & h' & Hv & Hvs & _);
        rewrite H in Hv; simplify_eq; rewrite (cell_size_read_value v fi h v' h' cs H Hvs) end.
      lia.
  - apply m_returns_bind; [apply m_returns_modify|]. intros. apply m_returns_ret.
  - intros st' inc H. inv_bind. unfold m_ret in *. by simplify_eq.
Qed.

Lemma recover_cell_key_node_returns {Er} (search : list byte -> Z -> M State Er ())
    fi input fo cs fa st :
  0 <= fo -> 0 <= hbin_offset_absolute fi -> search_ok (len input) search ->
  m_returns (recover_cell_key_node search fi input fo cs fa) st /\
  (forall st' inc, recover_cell_key_node search fi input fo cs fa st = (st', Ok inc) -> 1 <= inc).
Proof.
  intros Ho Hh Hs. unfold recover_cell_key_node.
  set (opts := {| o_offset := fo |}).
  pose proof (read_from_slice_returns 1 fi input opts st Hh eq_refl eq_refl) as Hr.
  unfold m_returns in Hr.
  destruct (read_from_slice 1 fi input opts st) as [st1 r1] eqn:Hp.
  assert (m_try (F:=Er) (read_from_slice 1 fi input opts) st =
    (st1, match r1 with Ok a => Ok (inr a) | Err e => Ok (inl e) | Panic => Panic
          | NoFuel => NoFuel end)) as Htry.
  { unfold m_try. rewrite Hp. by destruct r1. }
  match goal with |- m_returns (m_bind ?m ?f) _ /\ _ =>
    assert (m_bind m f st = match r1 with
      | Ok a => f (inr a) st1 | Err e => f (inl e) st1 | Panic => (st1, Panic)
      | NoFuel => (st1, NoFuel) end) as Heq by (unfold m_bind; rewrite Htry; by destruct r1)
  end.
  unfold m_returns. rewrite Heq. clear Heq Htry.
  destruct r1 as [[n|]|e| |]; try done.
  - apply read_from_slice_facts in Hp as (Hsz & Hsl & Hfo). cbn in Hfo.
    assert (exists o, CellKeyNode_slack_offset_absolute (Er:=Er) n = Ok o /\ 0 <= o)
      as (o & Hso & Ho').
    { unfold CellKeyNode_slack_offset_absolute, sub_usize, sub_uw.
      rewrite (proj2 (Z.leb_le _ _)) by lia. eexists. split; [done|lia]. }
    rewrite Hso. split.
    + refine (m_returns_bind _ _ st1 _ _); [exact I|]. intros s1 o1 [= <- <-].
      apply m_returns_bind; [apply Hs; [done|lia]|]. intros s2 u _.
      case_match; [|apply m_returns_ret].
      apply m_returns_bind; [apply m_returns_modify|]. intros. apply m_returns_ret.
    + intros st' inc H. inv_bind. unfold m_lift in *. simplify_eq.
      destruct (fa || _) in H; [|unfold m_ret in *; simplify_eq; lia]. inv_bind.
      unfold m_modify, m_ret in *. simplify_eq. lia.
  - split; [exact I|]. intros st' inc H. unfold m_ret in H. by simplify_eq.
  - split; [|intros st' inc H; inv_bind; unfold m_ret in *; by simplify_eq].
    apply m_returns_bind; [apply m_returns_modify|]. intros. apply m_returns_ret.
Qed.

Lemma find_cells_in_slack_returns fuel fi input start offset st :
  0 <= start -> 0 <= offset -> 0 <= hbin_offset_absolute fi ->
  len input - offset <= Z.of_nat fuel ->
  m_returns (find_cells_in_slack_internal fuel fi input start offset) st.
Proof.
  intros Hs Ho Hh. revert input start offset st Hs Ho.
  induction fuel as [|k IH]; intros input start offset st Hs Ho Hf; cbn [find_cells_in_slack_internal].
  { destruct (Z.ltb_spec offset (len input)); [lia|]. apply m_returns_ret. }
  destruct (Z.ltb_spec offset (len input)); [|apply m_returns_ret].
  set (search := fun slack start => m_ignore _).
  assert (search_ok (len (zdrop offset input)) search) as Hok.
  { intros slack o st1 Hos Hl. apply m_returns_ignore, IH; [done|lia|]. revert Hl. len_lia. }
  apply m_returns_bind; [apply m_returns_lift, returns_map_err, nom_le_i32_returns|].
  intros s1 [inp sz] _.
  pose proof (slack_cell_type_returns inp) as Hct.
  match goal with |- m_returns (m_bind ?m _) _ =>
    assert (m_returns m s1 /\ forall s' inc, m s1 = (s', Ok inc) -> 1 <= inc) as [Hm Hinc] end.
  { destruct (slack_cell_type inp) as [[r []]|e| |]; try done;
      try (split; [apply m_returns_ret|intros s' inc Hi; unfold m_ret in Hi; simplify_eq; lia]).
    - apply recover_cell_key_node_returns; [lia|done|done].
    - apply recover_cell_key_value_returns; [lia|done]. }
  apply m_returns_bind; [exact Hm|]. intros s2 inc Hi%Hinc.
  apply IH; lia.
Qed.

Lemma find_cells_in_slack_total fi : 0 <= hbin_offset_absolute fi ->
  forall n, search_ok (Er:=Error) n (find_cells_in_slack fi).
Proof.
  intros Hh n slack o st Ho _. unfold find_cells_in_slack. apply m_returns_ignore.
  apply find_cells_in_slack_returns; [done|lia|done|]. unfold len. lia.
Qed.

Lemma recover_cell_returns fi input off size st :
  0 <= hbin_offset_absolute fi -> 0 <= off -> 0 <= size ->
  m_returns (recover_cell fi input off size) st.
Proof.
  intros Hh Ho Hs. unfold recover_cell.
  destruct (read_checked_total (Er:=Error) (buffer fi) off Ho) as (rc & Hrc & _).
  destruct (read_range_checked_total (Er:=Error) (buffer fi) off size Ho Hs) as (rr & Hrr).
  destruct (read_cell_type input); rewrite ?Hrc, ?Hrr;
    (apply m_returns_bind; [exact I|]; intros s1 r [= <- <-]).
  all: try (destruct rr; [|apply m_returns_ret];
            eapply find_cells_in_slack_total; [done|done|apply Z.lt_succ_diag_r]).
  all: destruct rc; [|apply m_returns_ret];
       (apply m_returns_bind; [|intros; apply m_returns_ret]).
  - apply recover_cell_key_node_returns; [done|done|by apply find_cells_in_slack_total].
  - apply recover_cell_key_value_returns; [done|by apply find_cells_in_slack_total].
Qed.

Lemma find_unused_cells_returns fuel fi input off hbin_max st :
  0 <= hbin_offset_absolute fi -> 0 <= off -> hbin_max - off <= Z.of_nat fuel ->
  m_returns (find_unused_cells_loop fuel fi input off hbin_max) st /\
  (forall st' r, find_unused_cells_loop fuel fi input off hbin_max st = (st', Ok r) -> off <= r).
Proof.
  intros Hh. revert input off st. induction fuel as [|k IH]; intros input off st Ho Hf;
    cbn [find_unused_cells_loop].
  { destruct (Z.ltb_spec off hbin_max); [lia|].
    split; [apply m_returns_ret|]. intros st' r Hr. unfold m_ret in Hr. simplify_eq. lia. }
  destruct (Z.ltb_spec off hbin_max); cycle 1.
  { split; [apply m_returns_ret|]. intros st' r Hr. unfold m_ret in Hr. simplify_eq. lia. }
  assert (forall size, size <> 0 -> forall s,
    let rest := fun r : option (list byte) => match r with
      | Some data => find_unused_cells_loop k fi data (off + unsigned_abs size) hbin_max
      | None => m_ret (off + unsigned_abs size) end in
    forall r, m_returns (rest r) s /\ (forall st' v, rest r s = (st', Ok v) -> off <= v)) as Hrest.
  { intros size Hsz s rest [data|]; unfold rest, unsigned_abs.
    - destruct (IH data (off + Z.abs size) s) as [H1 H2]; [lia|lia|].
      split; [done|]. intros st' v Hv. apply H2 in Hv. lia.
    - split; [apply m_returns_ret|]. intros st' v Hv. unfold m_ret in Hv. simplify_eq. lia. }
  split.
  - apply m_returns_bind; [apply m_returns_lift, returns_map_err, nom_le_i32_returns|].
    intros s1 [ct size] _. destruct (Z.eqb_spec size 0) as [|Hsz]; [apply m_returns_ret|].
    apply m_returns_bind; [apply recover_cell_returns; unfold unsigned_abs; lia|].
    intros s2 u _. cbv zeta.
    destruct (read_range_checked_total (Er:=Error) (buffer fi) (off + unsigned_abs size)
      (unsigned_abs size)) as [r ->]; [unfold unsigned_abs; lia..|].
    apply m_returns_bind; [exact I|]. intros s3 r3 [= <- <-]. by apply Hrest.
  - intros st' r H1. inv_bind.
    match goal with H : (if ?z =? 0 then _ else _) _ = _ |- _ =>
      destruct (Z.eqb_spec z 0) as [|Hsz]; [unfold m_ret in H; simplify_eq; lia|] end.
    inv_bind. by eapply Hrest.
Qed.

Lemma find_free_in_hbin_returns fi off st :
  0 <= hbin_offset_absolute fi -> 0 <= off ->
  m_returns (find_free_in_hbin fi off) st /\
  (forall st' r, find_free_in_hbin fi off st = (st', Ok r) -> off + 32 <= r).
Proof.
  intros Hh Ho. unfold find_free_in_hbin, find_unused_cells_in_hbin.
  destruct (read_checked_total (Er:=Error) (buffer fi) off Ho) as (rc & Hrc & Heq).
  assert (forall i r h, HiveBinHeader_from_bytes fi i = Ok (r, h) -> rc = Some i ->
    get_file_offset fi r = off + 32) as Hoff.
  { intros i r h Hp ->. apply HiveBinHeader_from_bytes_Ok in Hp as (Hl & -> & _).
    destruct (Z.ltb_spec off (len (buffer fi))); [|done]. simplify_eq.
    unfold get_file_offset. len_lia. }
  rewrite Hrc. split.
  - apply m_returns_bind; [exact I|]. intros s1 r1 [= <- <-].
    apply m_returns_bind; [auto with notatin|]. intros s2 sl Hsl.
    destruct rc as [i|]; [|done]. cbn in Hsl. injection Hsl as <- <-.
    apply m_returns_bind.
    { apply m_returns_lift, returns_map_err. unfold HiveBinHeader_from_bytes. returns_tac. }
    intros s3 [r h] Hp. unfold m_lift in Hp. injection Hp as <- Hp. apply nom_q_Ok in Hp.
    rewrite (Hoff _ _ _ Hp eq_refl).
    destruct (read_checked_total (Er:=Error) (buffer fi) (off + 32) ltac:(lia)) as (rc' & -> & _).
    apply m_returns_bind; [exact I|]. intros s4 r4 [= <- <-].
    apply m_returns_bind; [auto with notatin|]. intros s5 i5 _.
    apply find_unused_cells_returns; [done|lia|lia].
  - intros st' res H. apply m_bind_Ok in H as (s1 & r1 & [= <- <-] & H).
    apply m_bind_Ok in H as (s2 & sl & Hsl & H).
    destruct rc as [i|]; [|done]. cbn in Hsl. injection Hsl as <- <-.
    apply m_bind_Ok in H as (s3 & [r h] & Hp & H). unfold m_lift in Hp. injection Hp as <- Hp.
    apply nom_q_Ok in Hp. rewrite (Hoff _ _ _ Hp eq_refl) in H.
    apply m_bind_Ok in H as (s4 & r4 & _ & H). apply m_bind_Ok in H as (s5 & i5 & _ & H).
    eapply find_unused_cells_returns; [done| | |exact H]; lia.
Qed.

(** ** What recovery records *)

(** Only values and keys in a deleted state are added, at the root's path; nothing else of
    what is recorded changes. *)
Definition recorded (st st' : State) : Prop :=
  (exists ks, Forall (fun k => is_deleted_primary_file (n_cell_state k) = true) ks /\
     vec_at (deleted_keys st') [] = vec_at (deleted_keys st) [] ++ ks) /\
  (exists vs, Forall (fun v => is_deleted_primary_file (cv_cell_state v) = true) vs /\
     vec_at (deleted_values st') [] = vec_at (deleted_values st) [] ++ vs) /\
  (forall p, p <> [] -> vec_at (deleted_keys st') p = vec_at (deleted_keys st) p /\
                        vec_at (deleted_values st') p = vec_at (deleted_values st) p) /\
  modified_keys st' = modified_keys st /\ modified_values st' = modified_values st /\
  root_key_path_offset st' = root_key_path_offset st /\
  get_full_field_info st' = get_full_field_info st.

#[export] Instance recorded_preorder : PreOrder recorded.
Proof.
  split.
  - intros st. split_and!; try done; exists []; (split; [done|]; by rewrite app_nil_r).
  - intros s1 s2 s3 ((k1 & Hk1 & E1) & (v1 & Hv1 & F1) & P1 & ? & ? & ? & ?)
      ((k2 & Hk2 & E2) & (v2 & Hv2 & F2) & P2 & ? & ? & ? & ?).
    split_and!; try congruence.
    + exists (k1 ++ k2). split; [by apply Forall_app|]. by rewrite E2, E1, app_assoc.
    + exists (v1 ++ v2). split; [by apply Forall_app|]. by rewrite F2, F1, app_assoc.
    + intros p Hp. destruct (P1 p Hp), (P2 p Hp). split; congruence.
Qed.

(** A change to the hasher or the log records nothing. *)
Lemma recorded_same st st' :
  deleted_keys st' = deleted_keys st -> deleted_values st' = deleted_values st ->
  modified_keys st' = modified_keys st -> modified_values st' = modified_values st ->
  root_key_path_offset st' = root_key_path_offset st ->
  get_full_field_info st' = get_full_field_info st -> recorded st st'.
Proof.
  intros E1 E2 E3 E4 E5 E6. unfold recorded. rewrite E1, E2.
  split_and!; try done; exists []; (split; [done|]; by rewrite app_nil_r).
Qed.

Lemma recorded_add_value st v :
  is_deleted_primary_file (cv_cell_state v) = true ->
  recorded st (st_set_deleted_values (DeletedValueMap_add (deleted_values st) [] v) st).
Proof.
  intros Hv. destruct st as [a b c d dk mk dv mv]. unfold recorded, DeletedValueMap_add.
  cbn [deleted_keys deleted_values modified_keys modified_values root_key_path_offset
       get_full_field_info st_set_deleted_values].
  split_and!; try done.
  - exists []. split; [done|]. by rewrite app_nil_r.
  - exists [v]. split; [by repeat constructor|]. rewrite vec_at_push. by rewrite decide_True.
  - intros p Hp. split; [done|]. rewrite vec_at_push. by rewrite decide_False.
Qed.

Lemma recorded_add_key st k :
  is_deleted_primary_file (n_cell_state k) = true ->
  recorded st (st_set_deleted_keys (ModifiedDeletedKeyMap_add (deleted_keys st) [] k) st).
Proof.
  intros Hk. destruct st as [a b c d dk mk dv mv]. unfold recorded, ModifiedDeletedKeyMap_add.
  cbn [deleted_keys deleted_values modified_keys modified_values root_key_path_offset
       get_full_field_info st_set_deleted_keys].
  split_and!; try done.
  - exists [k]. split; [by repeat constructor|]. rewrite vec_at_push. by rewrite decide_True.
  - exists []. split; [done|]. by rewrite app_nil_r.
  - intros p Hp. split; [|done]. rewrite vec_at_push. by rewrite decide_False.
Qed.

Lemma st_log_recorded {Er} c t : m_rel recorded (st_log c t : M State Er ()).
Proof. intros st. apply recorded_same; by destruct st. Qed.

Lemma m_ignore_rel {E1 E2 A} R `{!PreOrder R} (m : M State E1 A) :
  m_rel R m -> m_rel R (m_ignore m : M State E2 ()).
Proof. intros Hm. unfold m_ignore. m_rel_tac. Qed.

(** Reading values and keys changes only the hasher. *)
Definition only_hasher (st st' : State) : Prop := st' = st_set_hasher (hasher st') st.
#[export] Instance only_hasher_preorder : PreOrder only_hasher.
Proof.
  unfold only_hasher. split.
  - by intros [].
  - intros [] [] [] H1 H2. cbn in *. congruence.
Qed.
Lemma only_hasher_recorded st st' : only_hasher st st' -> recorded st st'.
Proof. intros ->. apply recorded_same; by destruct st. Qed.

Lemma read_values_loop_hasher fi sn vals :
  m_rel (fun s s' => only_hasher s.2 s'.2) (read_values_loop fi sn vals).
Proof.
  assert (PreOrder (fun s s' : CellKeyNode * State => only_hasher s.2 s'.2)).
  { split; [intros s; reflexivity|intros s1 s2 s3 H1 H2; by etransitivity]. }
  induction vals as [|v vals IH]; cbn [read_values_loop]; m_rel_tac.
  - intros s. destruct s as [n []]. done.
  - intros s. cbn. reflexivity.
Qed.

Lemma read_values_hasher fi sn : m_rel (fun s s' => only_hasher s.2 s'.2) (read_values fi sn).
Proof.
  assert (PreOrder (fun s s' : CellKeyNode * State => only_hasher s.2 s'.2)).
  { split; [intros s; reflexivity|intros s1 s2 s3 H1 H2; by etransitivity]. }
  unfold read_values. m_rel_tac; try (intros s; reflexivity). apply read_values_loop_hasher.
Qed.

Lemma read_from_slice_hasher fuel fi slice o :
  o_filter o = None -> m_rel only_hasher (read_from_slice fuel fi slice o).
Proof.
  intros Hf. unfold read_from_slice. rewrite Hf. m_rel_tac.
  - intros st. unfold m_map_err, CellKeyNode_from_bytes, m_bind, m_get, m_lift.
    destruct (CellKeyNode_parse _ _ _ _ _) as [[r n]| | |]; cbn; try reflexivity. by destruct st.
  - intros st. unfold nm_run.
    match goal with |- context [read_values ?a ?b ?c] =>
      pose proof (read_values_hasher a b c) as H; destruct (read_values a b c) as [[n1 st1] []];
      exact H end.
Qed.

Lemma recover_cell_key_value_recorded {Er} (search : list byte -> Z -> M State Er ()) fi input
    fo cs fa :
  (forall s o, m_rel recorded (search s o)) -> is_deleted_primary_file cs = true ->
  m_rel recorded (recover_cell_key_value search fi input fo cs fa).
Proof.
  intros Hs Hcs. unfold recover_cell_key_value.
  destruct (CellKeyValue_from_bytes _ _ _ _) as [[r v]| | |]; m_rel_tac;
    try apply st_log_recorded.
  intros st. etransitivity; [apply (recorded_same st (st_set_hasher l st)); by destruct st|].
  apply recorded_add_value. by destruct c.
Qed.

Lemma recover_cell_key_node_recorded {Er} (search : list byte -> Z -> M State Er ()) fi input
    fo cs fa :
  (forall s o, m_rel recorded (search s o)) -> is_deleted_primary_file cs = true ->
  m_rel recorded (recover_cell_key_node search fi input fo cs fa).
Proof.
  intros Hs Hcs. unfold recover_cell_key_node. m_rel_tac; try apply st_log_recorded.
  - intros st. apply only_hasher_recorded. by apply read_from_slice_hasher.
  - intros st. apply recorded_add_key. by destruct c.
Qed.

Lemma find_cells_in_slack_recorded fuel fi input start offset :
  m_rel recorded (find_cells_in_slack_internal fuel fi input start offset).
Proof.
  revert input start offset. induction fuel as [|k IH]; intros input start offset;
    cbn [find_cells_in_slack_internal]; m_rel_tac.
  - apply recover_cell_key_node_recorded; [|done]. intros. apply m_ignore_rel; [apply _|apply IH].
  - apply recover_cell_key_value_recorded; [|done]. intros. apply m_ignore_rel; [apply _|apply IH].
Qed.

Lemma recover_cell_recorded fi input off size : m_rel recorded (recover_cell fi input off size).
Proof.
  assert (forall s o, m_rel recorded (find_cells_in_slack (Er:=Error) fi s o)) as Hs.
  { intros. apply m_ignore_rel; [apply _|apply find_cells_in_slack_recorded]. }
  unfold recover_cell. m_rel_tac.
  - by apply recover_cell_key_node_recorded.
  - by apply recover_cell_key_value_recorded.
Qed.

Lemma find_unused_cells_recorded fuel fi input off hbin_max :
  m_rel recorded (find_unused_cells_loop fuel fi input off hbin_max).
Proof.
  revert input off. induction fuel as [|k IH]; intros input off;
    cbn [find_unused_cells_loop]; m_rel_tac. apply recover_cell_recorded.
Qed.

Lemma find_free_in_hbin_recorded fi off : m_rel recorded (find_free_in_hbin fi off).
Proof.
  unfold find_free_in_hbin, find_unused_cells_in_hbin. m_rel_tac.
  apply find_unused_cells_recorded.
Qed.
End Recover.
