(* ===== verification/Parser.v ===== *)
(** * Parser: the open hive, its traversals and key lookup

    [src/src/parser.rs] without transaction logs (see [TransactionLog] and [Init]).  A
    traversal keeps a stack of keys to visit and the set of cell offsets already pushed,
    which is what ends it on a file whose subkey lists form a cycle.  Stacks are lists with
    the top first.  [depth] bounds the recursions of [KeyNode]; [fuel] the loop itself. *)

From S2P Require Import Prelude Env Log Util Cells BaseBlock SubKeyLists Values ValueFacts State Filter KeyNode KeyNodeFacts Recover.

Section Parser.
Context `{E : Env}.

Abbreviation NM := (M (CellKeyNode * State)).

Record Parser := {
  file_info : FileInfo;
  state : State;
  base_block : option BaseBlock;
  hive_bin_header : option HiveBinHeader;
  cell_key_node_root : option CellKeyNode;
  recover_deleted : bool;
  update_console : bool;
}.

Definition p_set_file_info (v : FileInfo) (p : Parser) : Parser :=
  match p with Build_Parser _ b c d e f g => Build_Parser v b c d e f g end.
Definition p_set_state (v : State) (p : Parser) : Parser :=
  match p with Build_Parser a _ c d e f g => Build_Parser a v c d e f g end.
Definition p_set_base_block (v : option BaseBlock) (p : Parser) : Parser :=
  match p with Build_Parser a b _ d e f g => Build_Parser a b v d e f g end.
Definition p_set_hive_bin_header (v : option HiveBinHeader) (p : Parser) : Parser :=
  match p with Build_Parser a b c _ e f g => Build_Parser a b c v e f g end.
Definition p_set_cell_key_node_root (v : option CellKeyNode) (p : Parser) : Parser :=
  match p with Build_Parser a b c d _ f g => Build_Parser a b c d v f g end.
Definition p_set_buffer (v : list byte) (p : Parser) : Parser :=
  p_set_file_info {| hbin_offset_absolute := hbin_offset_absolute (file_info p);
                     buffer := v |} p.

(** A call on the parser's state. *)
Definition with_state {Er A} (m : M State Er A) : M Parser Er A := fun p =>
  match m (state p) with (st, r) => (p_set_state st p, r) end.
Definition p_log {Er} (c : LogCode) (t : ustr) : M Parser Er () := with_state (st_log c t).

(** ** The root and the base block *)

Definition init_root (depth : nat) : M Parser Error () :=
  let* self := m_get in
  let* input := m_lift (ok_or (Error_buffer "init_root")
                  (get_from (buffer (file_info self)) (hbin_offset_absolute (file_info self)))) in
  let* (input, header) := m_lift (nom_q (HiveBinHeader_from_bytes (file_info self) input)) in
  m_modify (p_set_hive_bin_header (Some header));;;
  let* root := with_state (CellKeyNode_read depth (file_info self)
    {| o_offset := get_file_offset (file_info self) input;
       o_cur_path := [];
       o_filter := None;
       o_self_is_filter_match_or_descendent := true;
       o_sequence_num := None;
       o_get_deleted_and_modified := true |}) in
  m_modify (p_set_cell_key_node_root root).

Definition is_supported_file_type {Er} : M Parser Er bool :=
  let* self := m_get in
  let* bb := m_lift (expect (base_block self)) in
  m_ret (negb (bool_decide (file_type (base bb) = FT_Unknown))).

Definition check_base_block : M Parser Error (bool * bool) :=
  let* supported := is_supported_file_type in
  if supported : bool then
    let* self := m_get in
    let* bb := m_lift (expect (base_block self)) in
    let bb := base bb in
    (if negb (primary_sequence_number bb =? secondary_sequence_number bb)
     then p_log WarningBaseBlock
            (lit "Hive requires recovery: primary and secondary sequence numbers do not match. "
             ++ fmt_dec (primary_sequence_number bb) ++ lit ", "
             ++ fmt_dec (secondary_sequence_number bb))
     else m_ret ());;;
    let* header := m_lift (expect (get_range (buffer (file_info self)) 0 0x200)) in
    let* sum := m_lift (calculate_checksum header) in
    if negb (sum =? checksum bb) then
      p_log WarningBaseBlock (lit "Hive requires recovery: base block checksum is wrong.");;;
      m_ret (true, true)
    else m_ret (true, false)
  else
    p_log WarningBaseBlock (lit "Unsupported registry file type.");;;
    m_ret (false, false).

Definition init_base_block : M Parser Error (bool * bool) :=
  let* self := m_get in
  let* (input, bb) := m_lift (nom_q (BaseBlock_from_bytes (buffer (file_info self)))) in
  m_modify (fun p =>
    p_set_base_block (Some bb)
      (p_set_file_info {| hbin_offset_absolute := len (buffer (file_info p)) - len input;
                          buffer := buffer (file_info p) |} p));;;
  check_base_block.

(** ** Deleted items *)

(** [while file_offset_absolute < hive_bins_size as usize]. *)
Fixpoint find_free_loop (fuel : nat) (file_info : FileInfo) (hive_bins_size
    file_offset_absolute : Z) : M State Error () :=
  if file_offset_absolute <? hive_bins_size then
    match fuel with
    | O => m_lift NoFuel
    | S k =>
        let* file_offset_absolute := find_free_in_hbin file_info file_offset_absolute in
        find_free_loop k file_info hive_bins_size file_offset_absolute
    end
  else m_ret ().

Definition find_free_keys_and_values : M Parser Error bool :=
  let* self := m_get in
  let* bb := m_lift (expect (base_block self)) in
  let hive_bins_size := hive_bins_data_size (base bb) in
  with_state (find_free_loop (Z.to_nat hive_bins_size) (file_info self) hive_bins_size
    (hbin_offset_absolute (file_info self)));;;
  m_ret true.

Definition init_recover_deleted : M Parser Error () :=
  let* _ := find_free_keys_and_values in m_ret ().

Definition get_base_block_info {Er} : M Parser Er (Z * Z) :=
  let* self := m_get in
  let* bb := m_lift (expect (base_block self)) in
  m_ret (secondary_sequence_number (base bb), hive_bins_data_size (base bb)).

(** ** Traversals *)

Record ParserIteratorContext := {
  c_state : State;
  c_filter : Filter;
  c_stack_to_traverse : list CellKeyNode;
  c_stack_file_offsets : gset Z;
  c_stack_to_return : list CellKeyNode;
  c_get_modified_items : bool;
  c_filter_include_ancestors : bool;
}.

Definition c_set_state (v : State) (c : ParserIteratorContext) : ParserIteratorContext :=
  match c with Build_ParserIteratorContext _ b d e f g h =>
    Build_ParserIteratorContext v b d e f g h end.
Definition c_set_filter (v : Filter) (c : ParserIteratorContext) : ParserIteratorContext :=
  match c with Build_ParserIteratorContext a _ d e f g h =>
    Build_ParserIteratorContext a v d e f g h end.
Definition c_set_stack_to_traverse (v : list CellKeyNode) (c : ParserIteratorContext)
    : ParserIteratorContext :=
  match c with Build_ParserIteratorContext a b _ e f g h =>
    Build_ParserIteratorContext a b v e f g h end.
Definition c_set_stack_file_offsets (v : gset Z) (c : ParserIteratorContext)
    : ParserIteratorContext :=
  match c with Build_ParserIteratorContext a b d _ f g h =>
    Build_ParserIteratorContext a b d v f g h end.
Definition c_set_stack_to_return (v : list CellKeyNode) (c : ParserIteratorContext)
    : ParserIteratorContext :=
  match c with Build_ParserIteratorContext a b d e _ g h =>
    Build_ParserIteratorContext a b d e v g h end.
Definition c_set_get_modified_items (v : bool) (c : ParserIteratorContext)
    : ParserIteratorContext :=
  match c with Build_ParserIteratorContext a b d e f _ h =>
    Build_ParserIteratorContext a b d e f v h end.
Definition c_set_filter_include_ancestors (v : bool) (c : ParserIteratorContext)
    : ParserIteratorContext :=
  match c with Build_ParserIteratorContext a b d e f g _ =>
    Build_ParserIteratorContext a b d e f g v end.

(** [CellKeyNode::default()]. *)
Definition CellKeyNode_default : CellKeyNode :=
  {| n_file_offset_absolute := 0;
     n_detail := make_enum false (fun F mk =>
       {| kn_size := mk _ 0 0 0; kn_signature := mk _ [] 0 0;
          kn_key_node_flag_bits := mk _ 0 0 0;
          kn_last_key_written_date_and_time := mk _ 0 0 0;
          kn_access_flag_bits := mk _ 0 0 0; kn_parent_key_offset_relative := mk _ 0 0 0;
          kn_number_of_sub_keys := mk _ 0 0 0; kn_number_of_volatile_sub_keys := mk _ 0 0 0;
          kn_sub_keys_list_offset_relative := mk _ 0 0 0;
          kn_volatile_sub_keys_list_offset_relative := mk _ 0 0 0;
          kn_number_of_key_values := mk _ 0 0 0;
          kn_key_values_list_offset_relative := mk _ 0 0 0;
          kn_security_key_offset_relative := mk _ 0 0 0;
          kn_class_name_offset_relative := mk _ 0 0 0;
          kn_largest_sub_key_name_size := mk _ 0 0 0;
          kn_largest_sub_key_class_name_size := mk _ 0 0 0;
          kn_largest_value_name_size := mk _ 0 0 0; kn_largest_value_data_size := mk _ 0 0 0;
          kn_work_var := mk _ 0 0 0; kn_key_name_size := mk _ 0 0 0;
          kn_class_name_size := mk _ 0 0 0; kn_slack := mk _ [] 0 0 |});
     n_key_name := []; n_path := []; n_cell_state := CellState_default; n_sequence_num := None;
     n_updated_by_sequence_num := None; n_sub_values := []; n_logs := Logs_default;
     n_cell_sub_key_offsets_absolute := []; n_hash := None; n_versions := [];
     n_deleted_keys := []; n_iteration_state := CellKeyNodeIteration_default |}.

Definition from_parser (parser : Parser) (get_modified_items : bool)
    (filter_and_ancestors : option (Filter * bool)) : ParserIteratorContext :=
  let '(filter_, filter_include_ancestors) := default (Filter_new, false) filter_and_ancestors in
  let root := default CellKeyNode_default (cell_key_node_root parser) in
  {| c_state := state parser;
     c_filter := filter_;
     c_stack_to_traverse := [root];
     c_stack_file_offsets := {[ n_file_offset_absolute root ]};
     c_stack_to_return := [];
     c_get_modified_items := get_modified_items;
     c_filter_include_ancestors := filter_include_ancestors |}.

(** The [Err] is dropped by both callers. *)
Definition push_check_stack_to_traverse (node_to_add : CellKeyNode) (c : ParserIteratorContext)
    : ParserIteratorContext :=
  if bool_decide (n_file_offset_absolute node_to_add ∈ c_stack_file_offsets c) then c
  else
    c_set_stack_to_traverse (node_to_add :: c_stack_to_traverse c)
      (c_set_stack_file_offsets
         ({[ n_file_offset_absolute node_to_add ]} ∪ c_stack_file_offsets c) c).

Definition n_set_to_return (v : Z) (n : CellKeyNode) : CellKeyNode :=
  let it := n_iteration_state n in
  n_set_iteration_state {| it_to_return := v;
                           it_track_returned := it_track_returned it;
                           it_filter_state := it_filter_state it;
                           it_sub_keys_iter_index := it_sub_keys_iter_index it |} n.
Definition n_set_track_returned (v : Z) (n : CellKeyNode) : CellKeyNode :=
  let it := n_iteration_state n in
  n_set_iteration_state {| it_to_return := it_to_return it;
                           it_track_returned := v;
                           it_filter_state := it_filter_state it;
                           it_sub_keys_iter_index := it_sub_keys_iter_index it |} n.

(** [read_sub_keys_internal] on a popped node, with the context's state. *)
Definition read_children {Er} (depth : nat) (parser : Parser) (node : CellKeyNode)
    : M ParserIteratorContext Er (CellKeyNode * list CellKeyNode) := fun c =>
  match read_sub_keys_internal depth (file_info parser) (c_filter c) None
          (c_get_modified_items c) (node, c_state c) with
  | ((node, st), Ok (children, _)) => (c_set_state st c, Ok (node, children))
  | ((node, st), Err e) => (c_set_state st c, Err e)
  | ((node, st), Panic) => (c_set_state st c, Panic)
  | ((node, st), NoFuel) => (c_set_state st c, NoFuel)
  end.

(** What both traversals do with a popped node: its children, then its deleted keys, are
    pushed; the node comes back with [to_return] and its deleted keys updated. *)
Definition visit {Er} (depth : nat) (parser : Parser) (node : CellKeyNode)
    : M ParserIteratorContext Er CellKeyNode :=
  let* node :=
    if 0 <? node_number_of_sub_keys node then
      let* (node, children) := read_children depth parser node in
      m_modify (fun c => foldr push_check_stack_to_traverse c children);;;
      m_ret (n_set_to_return (len children mod U32_MOD) node)
    else m_ret node in
  let deleted := n_set_filter_state (it_filter_state (n_iteration_state node))
                   <$> n_deleted_keys node in
  m_modify (fun c =>
    c_set_stack_to_traverse (reverse deleted ++ c_stack_to_traverse c) c);;;
  m_ret (n_set_deleted_keys deleted node).

Definition keep_preorder (c : ParserIteratorContext) (node : CellKeyNode) : bool :=
  c_filter_include_ancestors c || negb (Filter_is_valid (c_filter c))
  || is_filter_match_or_descendent node.

Fixpoint next_key_preorder {Er} (fuel depth : nat) (parser : Parser)
    : M ParserIteratorContext Er (option CellKeyNode) :=
  let* c := m_get in
  match c_stack_to_traverse c with
  | [] => m_ret None
  | node :: stack =>
      match fuel with
      | O => m_lift NoFuel
      | S k =>
          m_modify (c_set_stack_to_traverse stack);;;
          let* node := visit depth parser node in
          let* c := m_get in
          if keep_preorder c node then m_ret (Some node)
          else next_key_preorder k depth parser
      end
  end.

Fixpoint next_key_postorder {Er} (fuel depth : nat) (parser : Parser)
    : M ParserIteratorContext Er (option CellKeyNode) :=
  let* c := m_get in
  match c_stack_to_traverse c with
  | [] =>
      match c_stack_to_return c with
      | to_return :: stack =>
          m_modify (c_set_stack_to_return stack);;;
          if c_filter_include_ancestors c
             || negb (bool_decide (it_filter_state (n_iteration_state to_return) = Some FMS_None))
          then m_ret (Some to_return)
          else m_ret None
      | [] => m_ret None
      end
  | node :: stack =>
      match fuel with
      | O => m_lift NoFuel
      | S k =>
          let continue :=
            m_modify (c_set_stack_to_traverse stack);;;
            let* node := visit depth parser node in
            let* c := m_get in
            match c_stack_to_return c with
            | last :: returns =>
                let* n := m_lift (add_u32 (it_track_returned (n_iteration_state last)) 1) in
                m_modify (c_set_stack_to_return (node :: n_set_track_returned n last :: returns))
            | [] => m_modify (c_set_stack_to_return [node])
            end;;;
            next_key_postorder k depth parser in
          match c_stack_to_return c with
          | last :: returns =>
              if it_track_returned (n_iteration_state last)
                 =? it_to_return (n_iteration_state last)
              then m_modify (c_set_stack_to_return returns);;; m_ret (Some last)
              else continue
          | [] => continue
          end
      end
  end.

(** [ParserIterator]; the parser it borrows is an argument of [next]. *)
Record ParserIterator := {
  pi_postorder_iteration : bool;
  pi_context : ParserIteratorContext;
}.
Definition ParserIterator_new (parser : Parser) : ParserIterator :=
  {| pi_postorder_iteration := false; pi_context := from_parser parser true None |}.
Definition pi_with_filter (f : Filter) (i : ParserIterator) : ParserIterator :=
  {| pi_postorder_iteration := pi_postorder_iteration i;
     pi_context := c_set_filter f (pi_context i) |}.
Definition pi_filter_include_ancestors (v : bool) (i : ParserIterator) : ParserIterator :=
  {| pi_postorder_iteration := pi_postorder_iteration i;
     pi_context := c_set_filter_include_ancestors v (pi_context i) |}.
Definition pi_set_postorder_iteration (v : bool) (i : ParserIterator) : ParserIterator :=
  {| pi_postorder_iteration := v; pi_context := pi_context i |}.
Definition pi_get_modified_items (v : bool) (i : ParserIterator) : ParserIterator :=
  {| pi_postorder_iteration := pi_postorder_iteration i;
     pi_context := c_set_get_modified_items v (pi_context i) |}.
Definition ParserIterator_next {Er} (fuel depth : nat) (parser : Parser) (self : ParserIterator)
    : ParserIterator * res Er (option CellKeyNode) :=
  let next := if pi_postorder_iteration self then next_key_postorder fuel depth parser
              else next_key_preorder fuel depth parser in
  match next (pi_context self) with
  | (c, r) => ({| pi_postorder_iteration := pi_postorder_iteration self; pi_context := c |}, r)
  end.

(** A [for key in iter] loop: the keys in order. *)
Fixpoint collect_keys {Er} (n fuel depth : nat) (parser : Parser) (self : ParserIterator)
    : res Er (list CellKeyNode) :=
  match n with
  | O => NoFuel
  | S k =>
      match ParserIterator_next fuel depth parser self with
      | (self, Ok (Some key)) => cons key <$> collect_keys k fuel depth parser self
      | (_, Ok None) => Ok []
      | (_, Err e) => Err e
      | (_, Panic) => Panic
      | (_, NoFuel) => NoFuel
      end
  end.

Definition count_all_keys_and_values {Er} (n fuel depth : nat) (parser : Parser)
    (filter_ : option Filter) : res Er (Z * Z) :=
  let iter := ParserIterator_new parser in
  let iter := match filter_ with Some f => pi_with_filter f iter | None => iter end in
  keys ← collect_keys n fuel depth parser iter;
  Ok (foldl (fun kv key => (kv.1 + 1, kv.2 + len (n_sub_values key))) (0, 0) keys).

(** Keys, versions of keys, deleted keys, values, versions of values, deleted values. *)
Record ItemCounts := {
  ic_keys : Z; ic_keys_versions : Z; ic_keys_deleted : Z;
  ic_values : Z; ic_values_versions : Z; ic_values_deleted : Z;
}.
Definition count_value_item (c : ItemCounts) (value : CellKeyValue) : ItemCounts :=
  match c with
  | Build_ItemCounts k kv kd v vv vd =>
      let vv := vv + len (cv_versions value) in
      if is_deleted (cv_cell_state value) then Build_ItemCounts k kv kd v vv (vd + 1)
      else Build_ItemCounts k kv kd (v + 1) vv vd
  end.
Definition count_key_item (c : ItemCounts) (key : CellKeyNode) : ItemCounts :=
  match c with
  | Build_ItemCounts k kv kd v vv vd =>
      let kv := kv + len (n_versions key) in
      foldl count_value_item
        (if is_deleted (n_cell_state key) then Build_ItemCounts k kv (kd + 1) v vv vd
         else Build_ItemCounts (k + 1) kv kd v vv vd) (n_sub_values key)
  end.
Definition count_all_keys_and_values_with_modified {Er} (n fuel depth : nat) (parser : Parser)
    (filter_ : option Filter) : res Er ItemCounts :=
  let iter := ParserIterator_new parser in
  let iter := match filter_ with Some f => pi_with_filter f iter | None => iter end in
  keys ← collect_keys n fuel depth parser iter;
  Ok (foldl count_key_item (Build_ItemCounts 0 0 0 0 0 0) keys).

Definition get_file_info (parser : Parser) : FileInfo := file_info parser.
Definition get_parse_logs (parser : Parser) : Logs := info (state parser).

(** ** Direct access *)

Definition get_root_key (depth : nat) : M Parser Error (option CellKeyNode) :=
  let* self := m_get in
  match base_block self with
  | Some bb =>
      let* offset := m_lift (add_usize (as_usize (root_cell_offset_relative (base bb)))
                               (hbin_offset_absolute (file_info self))) in
      with_state (CellKeyNode_read depth (file_info self)
        {| o_offset := offset;
           o_cur_path := [];
           o_filter := None;
           o_self_is_filter_match_or_descendent := true;
           o_sequence_num := None;
           o_get_deleted_and_modified := true |})
  | None => m_ret None
  end.

Definition get_sub_key (depth : nat) (file_info : FileInfo) (name : ustr)
    : NM Error (option CellKeyNode) :=
  let* s := m_get in
  let path := n_path s.1 in
  let '(st, offset) := State_get_root_path_offset path s.2 in
  m_modify (fun s => (s.1, st));;;
  let* key_path_sans_root := m_lift (expect (str_from path offset)) in
  let* filter_ := m_lift (FilterBuilder_build
    (add_key_path FilterBuilder_new (key_path_sans_root ++ [BACKSLASH] ++ name))) in
  let* (children, _) := read_sub_keys_internal depth file_info filter_ None false in
  m_ret (head children).

(** A call on a key and the parser. *)
Definition with_node {Er A} (node : CellKeyNode) (m : FileInfo -> NM Er A)
    : M Parser Er (CellKeyNode * A) := fun p =>
  match m (file_info p) (node, state p) with
  | ((node, st), r) => (p_set_state st p, a ← r; Ok (node, a))
  end.

Definition get_key (depth : nat) (key_path : ustr) (key_path_has_root : bool)
    : M Parser Error (option CellKeyNode) :=
  let* root := m_try (get_root_key depth) in
  match root with
  | inr (Some root) =>
      let key_path := trim_start_char BACKSLASH key_path in
      let* key_path :=
        if key_path_has_root then
          match str_find BACKSLASH key_path with
          | Some slash_offset => m_lift (expect (str_from key_path (slash_offset + 1)))
          | None => m_ret []
          end
        else m_ret key_path in
      let* (_, key) := with_node root (fun fi => get_sub_key_by_path depth fi key_path) in
      m_ret key
  | inr None => m_ret None
  | inl _ => m_ret None
  end.

(** [parent_path.truncate(last_slash_offset)]. *)
Definition truncate_last (path : ustr) : ustr :=
  match str_rfind BACKSLASH path with
  | Some last_slash_offset => default path (str_upto path last_slash_offset)
  | None => path
  end.

Definition get_parent_key (depth : nat) (cell_key_node : CellKeyNode)
    : M Parser Error (option CellKeyNode) :=
  let* self := m_get in
  let parent_path := truncate_last (truncate_last (n_path cell_key_node)) in
  let* offset := m_lift (add_usize (as_usize (node_parent_key_offset_relative cell_key_node))
                           (hbin_offset_absolute (file_info self))) in
  with_state (CellKeyNode_read depth (file_info self)
    {| o_offset := offset;
       o_cur_path := parent_path;
       o_filter := None;
       o_self_is_filter_match_or_descendent := true;
       o_sequence_num := None;
       o_get_deleted_and_modified := true |}).
End Parser.
