(* ===== verification/ParserFacts.v ===== *)
(** * ParserFacts: traversals end, recovery over the whole file

    Theorems about [Parser]. *)

From S2P Require Import Prelude Env Log Util Cells BaseBlock SubKeyLists Values ValueFacts State Filter KeyNode KeyNodeFacts Recover Parser.

Section ParserFacts.
Context `{E : Env}.

(** ** Recovery of deleted items over the file *)

Lemma find_free_loop_returns fuel fi size off st :
  0 <= hbin_offset_absolute fi -> 0 <= off -> size - off <= Z.of_nat fuel ->
  m_returns (find_free_loop fuel fi size off) st.
Proof.
  intros Hh. revert off st. induction fuel as [|k IH]; intros off st Ho Hf; cbn [find_free_loop].
  { destruct (Z.ltb_spec off size); [lia|]. apply m_returns_ret. }
  destruct (Z.ltb_spec off size); [|apply m_returns_ret].
  destruct (find_free_in_hbin_returns fi off st Hh Ho) as [Hr Hadv].
  apply m_returns_bind; [exact Hr|]. intros s' off' H'. apply Hadv in H'. apply IH; lia.
Qed.

Lemma find_free_loop_recorded fuel fi size off : m_rel recorded (find_free_loop fuel fi size off).
Proof.
  revert off. induction fuel as [|k IH]; intros off; cbn [find_free_loop]; m_rel_tac.
  apply find_free_in_hbin_recorded.
Qed.

(** C26: recovery of deleted items is total and only adds: on any file it returns (an error at
    worst), the file and the rest of the parser are untouched, and the state differs by keys
    and values marked as deleted from the primary file, recorded at the root's path, and by
    the hasher and log. *)
Theorem find_free_keys_and_values_total p bb :
  base_block p = Some bb -> 0 <= hbin_offset_absolute (file_info p) ->
  exists p' r, find_free_keys_and_values p = (p', r) /\ returns r /\
    p' = p_set_state (state p') p /\ recorded (state p) (state p').
Proof.
  intros Hbb Hh. unfold find_free_keys_and_values, m_bind, m_get, m_lift.
  rewrite Hbb. cbn [expect]. unfold with_state.
  set (size := hive_bins_data_size (base bb)).
  pose proof (find_free_loop_returns (Z.to_nat size) (file_info p) size
    (hbin_offset_absolute (file_info p)) (state p) Hh Hh) as Hr.
  specialize (Hr ltac:(lia)).
  pose proof (find_free_loop_recorded (Z.to_nat size) (file_info p) size
    (hbin_offset_absolute (file_info p)) (state p)) as Hrec.
  unfold m_returns in Hr.
  destruct (find_free_loop _ _ _ _ _) as [st' r]. cbn in Hr, Hrec.
  destruct r; try done; eexists _, _; (split; [reflexivity|]); destruct p; done.
Qed.

(** The scan compares the absolute offset of a bin with the size of the bins, which does not
    count the 4096-byte header: a file with a single bin is not scanned at all. *)
Lemma find_free_single_bin p bb :
  base_block p = Some bb -> hive_bins_data_size (base bb) <= hbin_offset_absolute (file_info p) ->
  find_free_keys_and_values p = (p, Ok true).
Proof.
  intros Hbb Hs. unfold find_free_keys_and_values, m_bind, m_get, m_lift.
  rewrite Hbb. cbn [expect]. unfold with_state.
  set (size := hive_bins_data_size (base bb)) in *.
  assert (find_free_loop (Z.to_nat size) (file_info p) size
    (hbin_offset_absolute (file_info p)) (state p) = (state p, Ok ())) as ->.
  { destruct (Z.to_nat size); cbn [find_free_loop];
      (destruct (Z.ltb_spec (hbin_offset_absolute (file_info p)) size); [lia|done]). }
  by destruct p.
Qed.

(** ** Traversals end *)

Fixpoint tree_size (n : CellKeyNode) : nat :=
  match n with Build_CellKeyNode _ _ _ _ _ _ _ _ _ _ _ _ dks _ =>
    S (foldr (fun d acc => (tree_size d + acc)%nat) 0%nat dks) end.

Definition forest_size (ns : list CellKeyNode) : nat :=
  foldr (fun d acc => (tree_size d + acc)%nat) 0%nat ns.

Lemma tree_size_node n : tree_size n = S (forest_size (n_deleted_keys n)).
Proof. by destruct n. Qed.

Lemma forest_size_app a b : forest_size (a ++ b) = (forest_size a + forest_size b)%nat.
Proof. induction a as [|n a IH]; cbn; [done|]. fold (forest_size (a ++ b)). rewrite IH. cbn. fold (forest_size a). lia. Qed.

Lemma forest_size_reverse a : forest_size (reverse a) = forest_size a.
Proof.
  induction a as [|n a IH]; [done|]. rewrite reverse_cons, forest_size_app, IH. cbn.
  fold (forest_size a). lia.
Qed.

Lemma forest_size_fmap f ns :
  (forall n, tree_size (f n) = tree_size n) -> forest_size (f <$> ns) = forest_size ns.
Proof. intros Hf. induction ns as [|n ns IH]; cbn; [done|]. fold (forest_size (f <$> ns)). by rewrite IH, Hf. Qed.

Lemma tree_size_set_filter_state v n : tree_size (n_set_filter_state v n) = tree_size n.
Proof. by destruct n. Qed.

(** The offsets a cell of the file can have, and those not yet pushed. *)
Definition file_offsets (fi : FileInfo) : gset Z :=
  list_to_set (seqZ 0 (len (buffer fi) + 1)).
Definition unvisited (fi : FileInfo) (c : ParserIteratorContext) : nat :=
  size (file_offsets fi ∖ c_stack_file_offsets c).

Lemma elem_of_file_offsets fi o : o ∈ file_offsets fi <-> 0 <= o <= len (buffer fi).
Proof. unfold file_offsets. rewrite elem_of_list_to_set, elem_of_seqZ. lia. Qed.

(** Pushing children either leaves the context alone or uses up an offset. *)
Lemma push_children_measure fi children c :
  Forall (fun n => 0 <= n_file_offset_absolute n <= len (buffer fi)) children ->
  let c' := foldr push_check_stack_to_traverse c children in
  c' = c \/ (unvisited fi c' < unvisited fi c)%nat.
Proof.
  intros Hc. cbn. induction Hc as [|n children Hn _ IH]; [by left|]. cbn.
  set (c1 := foldr _ c children) in *. unfold push_check_stack_to_traverse at 1 2.
  case_bool_decide as Hin; [done|]. right.
  assert (unvisited fi (c_set_stack_to_traverse (n :: c_stack_to_traverse c1)
    (c_set_stack_file_offsets ({[n_file_offset_absolute n]} ∪ c_stack_file_offsets c1) c1))
    < unvisited fi c1)%nat as Hlt.
  { unfold unvisited. apply subset_size.
    assert (c_stack_file_offsets (c_set_stack_to_traverse (n :: c_stack_to_traverse c1)
      (c_set_stack_file_offsets ({[n_file_offset_absolute n]} ∪ c_stack_file_offsets c1) c1))
      = {[n_file_offset_absolute n]} ∪ c_stack_file_offsets c1) as -> by by destruct c1.
    apply elem_of_file_offsets in Hn. set_solver. }
  destruct IH as [->|IH]; [done|lia].
Qed.

(** Reading children never changes a node's recorded deleted keys. *)
Lemma read_sub_keys_deleted {Er} depth fi f sn gdm :
  m_rel (fun s s' => n_deleted_keys s'.1 = n_deleted_keys s.1)
    (read_sub_keys_internal (Er:=Er) depth fi f sn gdm).
Proof.
  set (R := fun s s' : CellKeyNode * State => n_deleted_keys s'.1 = n_deleted_keys s.1).
  assert (PreOrder R).
  { unfold R. split; [done|intros s1 s2 s3 H1 H2; congruence]. }
  assert (forall (m : M State Er (Error + option CellKeyNode)), m_rel R (nm_state m)) as Hst.
  { intros m [n st]. unfold nm_state, R. cbn. by destruct (m st). }
  assert (forall (m : M State Er (Error + list Z)), m_rel R (nm_state m)) as Hst2.
  { intros m [n st]. unfold nm_state, R. cbn. by destruct (m st). }
  assert (forall c t, m_rel R (nm_log c t : M _ Er ())) as Hlog.
  { intros c t [n st]. unfold R. cbn. by destruct n. }
  assert (forall sub b vals cs fd,
    m_rel R (read_sub_keys_loop (Er:=Er) depth fi f sub b sn gdm vals cs fd)) as Hloop.
  { intros sub b vals. induction vals as [|v vals IH]; intros cs fd;
      cbn [read_sub_keys_loop]; m_rel_tac. }
  unfold read_sub_keys_internal. m_rel_tac.
  intros [n st]. unfold R. cbn. by destruct n.
Qed.

Lemma read_children_spec {Er} depth parser node c c' node' children :
  read_children (Er:=Er) depth parser node c = (c', Ok (node', children)) ->
  (exists st, c' = c_set_state st c) /\ n_deleted_keys node' = n_deleted_keys node /\
  Forall (fun n => 0 <= n_file_offset_absolute n <= len (buffer (file_info parser))) children.
Proof.
  unfold read_children. intros H.
  destruct (read_sub_keys_internal _ _ _ _ _ _) as [[n1 st1] r] eqn:Hr.
  pose proof (read_sub_keys_deleted (Er:=Er) depth (file_info parser) (c_filter c) None
    (c_get_modified_items c) (node, c_state c)) as Hd. rewrite Hr in Hd. cbn in Hd.
  destruct r as [[cs b]| | |]; simplify_eq. split_and!; [eauto|done|].
  apply read_sub_keys_children in Hr as (_ & Hall & _). cbn in Hall.
  eapply Forall_impl; [exact Hall|]. intros n Hn. apply Hn.
Qed.

(** A visit uses up an offset, or replaces a node on the stack by its deleted keys. *)
Lemma visit_measure {Er} depth parser node c c' node' :
  visit (Er:=Er) depth parser node c = (c', Ok node') ->
  (unvisited (file_info parser) c' < unvisited (file_info parser) c)%nat \/
  (unvisited (file_info parser) c' = unvisited (file_info parser) c /\
   S (forest_size (c_stack_to_traverse c'))
     = (tree_size node + forest_size (c_stack_to_traverse c))%nat).
Proof.
  unfold visit. intros H. apply m_bind_Ok in H as (c1 & n1 & Hv & H).
  apply m_bind_Ok in H as (c2 & u & Hm & H). unfold m_modify, m_ret in Hm, H.
  injection Hm as Hm _. injection H as H _. subst c2 c'.
  set (deleted := _ <$> n_deleted_keys n1).
  assert (n_deleted_keys n1 = n_deleted_keys node /\
    (unvisited (file_info parser) c1 < unvisited (file_info parser) c \/
     unvisited (file_info parser) c1 = unvisited (file_info parser) c /\
     c_stack_to_traverse c1 = c_stack_to_traverse c)%nat) as [Hd Hmeas].
  { case_match; [|unfold m_ret in Hv; by simplify_eq; auto].
    apply m_bind_Ok in Hv as (c3 & [n3 cs] & Hr & Hv).
    apply read_children_spec in Hr as ([st ->] & Hdk & Hall).
    apply m_bind_Ok in Hv as (c4 & u' & Hm & Hv). unfold m_modify, m_ret in Hm, Hv.
    simplify_eq. split; [by destruct n3|].
    destruct (push_children_measure (file_info parser) cs (c_set_state st c) Hall) as [Heq|Hlt].
    - rewrite Heq. right. by destruct c.
    - left. by destruct c. }
  assert (forall v, unvisited (file_info parser) (c_set_stack_to_traverse v c1)
    = unvisited (file_info parser) c1) as Hun by by destruct c1.
  rewrite Hun. destruct Hmeas as [Hlt|[Heq Hst]]; [by left|right]. split; [done|].
  assert (forall v, c_stack_to_traverse (c_set_stack_to_traverse v c1) = v) as ->
    by by destruct c1.
  rewrite forest_size_app, forest_size_reverse, Hst. unfold deleted.
  rewrite forest_size_fmap by apply tree_size_set_filter_state.
  rewrite Hd, tree_size_node. lia.
Qed.

(** One step of the preorder loop: the top of the stack is popped and visited. *)
Definition preorder_step (Er : Type) (depth : nat) (parser : Parser)
    (c : ParserIteratorContext) (node' : CellKeyNode) (c' : ParserIteratorContext) : Prop :=
  exists node stack, c_stack_to_traverse c = node :: stack /\
    visit (Er:=Er) depth parser node (c_set_stack_to_traverse stack c) = (c', Ok node').

(** The top node's children cannot be read: the reader panics or recurses without end. *)
Definition stuck (Er : Type) (depth : nat) (parser : Parser) (c : ParserIteratorContext) : Prop :=
  exists node stack, c_stack_to_traverse c = node :: stack /\
    forall c' node', visit (Er:=Er) depth parser node (c_set_stack_to_traverse stack c)
      <> (c', Ok node').

Lemma preorder_acc {Er} depth parser c :
  Acc (fun c' c => exists n, preorder_step Er depth parser c n c') c.
Proof.
  remember (unvisited (file_info parser) c) as u eqn:Hu. revert c Hu.
  induction (lt_wf u) as [u _ IHu]. intros c ->.
  remember (forest_size (c_stack_to_traverse c)) as w eqn:Hw. revert c Hw IHu.
  induction (lt_wf w) as [w _ IHw]. intros c -> IHu.
  constructor. intros c' (n & node & stack & Hst & Hv).
  apply visit_measure in Hv.
  assert (unvisited (file_info parser) (c_set_stack_to_traverse stack c)
    = unvisited (file_info parser) c) as Hun by by destruct c.
  assert (c_stack_to_traverse (c_set_stack_to_traverse stack c) = stack) as Hstk
    by by destruct c.
  rewrite Hun, Hstk in Hv. destruct Hv as [Hlt|[Heq Hf]].
  - by eapply IHu.
  - eapply (IHw (forest_size (c_stack_to_traverse c'))); [|done|].
    + rewrite Hst. cbn. fold (forest_size stack). lia.
    + rewrite Heq. exact IHu.
Qed.

(** The keys a preorder traversal yields: the visited nodes the filter keeps, in order. *)
Inductive preorder_run (Er : Type) (depth : nat) (parser : Parser)
    : ParserIteratorContext -> list CellKeyNode -> Prop :=
  | run_nil c : c_stack_to_traverse c = [] -> preorder_run Er depth parser c []
  | run_skip c n c' ks :
      preorder_step Er depth parser c n c' -> keep_preorder c' n = false ->
      preorder_run Er depth parser c' ks -> preorder_run Er depth parser c ks
  | run_keep c n c' ks :
      preorder_step Er depth parser c n c' -> keep_preorder c' n = true ->
      preorder_run Er depth parser c' ks -> preorder_run Er depth parser c (n :: ks).

Lemma next_key_preorder_mono {Er} f f' depth parser c c' o :
  (f <= f')%nat -> next_key_preorder (Er:=Er) f depth parser c = (c', Ok o) ->
  next_key_preorder (Er:=Er) f' depth parser c = (c', Ok o).
Proof.
  revert f' c. induction f as [|f IH]; intros f' c Hf H.
  - destruct f'; [done|]. cbn in *. unfold m_bind, m_get in *.
    by destruct (c_stack_to_traverse c).
  - destruct f' as [|f']; [lia|]. cbn [next_key_preorder] in *. unfold m_bind, m_get in *.
    destruct (c_stack_to_traverse c) as [|node stack]; [done|].
    unfold m_modify in *. destruct (visit _ _ _ _) as [c1 [n1|e| |]]; try done.
    destruct (keep_preorder c1 n1); [done|]. apply IH; [lia|done].
Qed.

(** The iterator over a preorder context. *)
Definition preorder_iter (c : ParserIteratorContext) : ParserIterator :=
  {| pi_postorder_iteration := false; pi_context := c |}.

Lemma collect_keys_mono {Er} m m' f f' depth parser c ks :
  (m <= m')%nat -> (f <= f')%nat ->
  collect_keys (Er:=Er) m f depth parser (preorder_iter c) = Ok ks ->
  collect_keys (Er:=Er) m' f' depth parser (preorder_iter c) = Ok ks.
Proof.
  intros Hm Hf. revert m' c ks Hm. induction m as [|m IH]; intros m' c ks Hm H; [done|].
  destruct m' as [|m']; [lia|]. cbn [collect_keys] in *.
  unfold ParserIterator_next in *. cbn [pi_postorder_iteration pi_context preorder_iter] in *.
  destruct (next_key_preorder f depth parser c) as [c1 [[n|]|e| |]] eqn:Hn; try done;
    rewrite (next_key_preorder_mono f f' _ _ _ _ _ Hf Hn); [|done].
  destruct (collect_keys m f depth parser _) as [ks'|e| |] eqn:Hk; try done. cbn in H.
  injection H as <-. erewrite (IH m'); [done|lia|exact Hk].
Qed.

Lemma next_key_preorder_step {Er} f depth parser c n c' :
  preorder_step Er depth parser c n c' ->
  next_key_preorder (Er:=Er) (S f) depth parser c =
  if keep_preorder c' n then (c', Ok (Some n)) else next_key_preorder f depth parser c'.
Proof.
  intros (node & stack & Hst & Hv). cbn [next_key_preorder]. unfold m_bind, m_get, m_modify.
  rewrite Hst, Hv. by destruct (keep_preorder c' n).
Qed.

Lemma collect_keys_run {Er} depth parser c ks :
  preorder_run Er depth parser c ks ->
  exists n, collect_keys (Er:=Er) n n depth parser (preorder_iter c) = Ok ks.
Proof.
  induction 1 as [c Hc|c n c' ks Hstep Hk _ [m IH]|c n c' ks Hstep Hk _ [m IH]].
  - exists 1%nat. cbn [collect_keys]. unfold ParserIterator_next.
    cbn [pi_postorder_iteration pi_context preorder_iter next_key_preorder].
    unfold m_bind, m_get. by rewrite Hc.
  - destruct m as [|m]; [done|]. exists (S (S m)).
    apply (collect_keys_mono (S m) _ (S (S m))); [lia|lia|].
    cbn [collect_keys] in *. unfold ParserIterator_next in *.
    cbn [pi_postorder_iteration pi_context preorder_iter] in *.
    rewrite (next_key_preorder_step _ _ _ _ n c') by done. rewrite Hk.
    destruct (next_key_preorder (S m) depth parser c') as [c2 [[o|]|e| |]]; try done.
    fold (preorder_iter c2) in *.
    destruct (collect_keys m (S m) depth parser _) as [ks'|e| |] eqn:Hks; try done.
    by rewrite (collect_keys_mono m m (S m) (S (S m)) _ _ _ _ ltac:(lia) ltac:(lia) Hks).
  - exists (S m). cbn [collect_keys]. unfold ParserIterator_next.
    cbn [pi_postorder_iteration pi_context preorder_iter].
    rewrite (next_key_preorder_step _ _ _ _ n c') by done. rewrite Hk.
    fold (preorder_iter c').
    by rewrite (collect_keys_mono m m m (S m) _ _ _ _ ltac:(lia) ltac:(lia) IH).
Qed.

(** C16: a preorder traversal ends on every file, also when the subkey lists form a cycle:
    either it yields the visited keys that the filter keeps, in order, and stops, or it
    reaches a key whose children cannot be read.  It never visits for ever. *)
Theorem preorder_terminates depth parser c :
  (exists n ks, collect_keys (Er:=Error) n n depth parser (preorder_iter c) = Ok ks /\
     preorder_run Error depth parser c ks) \/
  (exists c', rtc (fun c c' => exists n, preorder_step Error depth parser c n c') c c' /\
     stuck Error depth parser c').
Proof.
  assert ((exists ks, preorder_run Error depth parser c ks) \/
    (exists c', rtc (fun c c' => exists n, preorder_step Error depth parser c n c') c c' /\
       stuck Error depth parser c')) as [[ks Hr]|Hs]; [| |by right].
  - induction (preorder_acc (Er:=Error) depth parser c) as [c _ IH].
    destruct (c_stack_to_traverse c) as [|node stack] eqn:Hst.
    { left. exists []. by constructor. }
    destruct (visit (Er:=Error) depth parser node (c_set_stack_to_traverse stack c))
      as [c1 r] eqn:Hv.
    destruct r as [n1|e| |];
      [|right; exists c; split; [apply rtc_refl|]; exists node, stack; (split; [done|]);
        intros c' node' Hv'; congruence..].
    assert (preorder_step Error depth parser c n1 c1) as Hstep by (by exists node, stack).
    destruct (IH c1) as [[ks Hks]|(c2 & Hrtc & Hstuck)]; [by exists n1| |].
    + left. destruct (keep_preorder c1 n1) eqn:Hk.
      * exists (n1 :: ks). by eapply run_keep.
      * exists ks. by eapply run_skip.
    + right. exists c2. split; [|done]. eapply rtc_l; [by exists n1|done].
  - left. destruct (collect_keys_run depth parser c ks Hr) as [n Hn]. by exists n, ks.
Qed.
End ParserFacts.

(** ** Samples *)

Definition base_block_sample (psn ssn size : Z) : @BaseBlock env_ref :=
  {| base := @Build_BaseBlockBase env_ref psn ssn 0 1 5 FT_Primary FF_DirectMemoryLoad 32 size 1
               [] [] 0 Logs_default;
     ext := @Build_BaseBlockExtended env_ref
              (@Build_FileBaseBlockReserved env_ref [] [] RF_None [] 0 0 [] Logs_default) 0 0 |}.

(** An open file with the bins at [hbin] and no root key yet. *)
Definition parser_sample (buf : list byte) (hbin : Z) (bb : @BaseBlock env_ref)
    : @Parser env_ref :=
  {| file_info := {| hbin_offset_absolute := hbin; buffer := buf |};
     state := State_default; base_block := Some bb; hive_bin_header := None;
     cell_key_node_root := None; recover_deleted := false; update_console := false |}.

(** A hive whose root [r] has one subkey of the given name. *)
Definition small_hive (name : string) : @Parser env_ref :=
  let buf := replicate 32 Byte.x00 ++ nk_sample 0x24 1 120 "r"
    ++ to_le_bytes 4 12 ++ bytes_of "li" ++ to_le_bytes 2 1 ++ to_le_bytes 4 132
    ++ nk_sample 0x20 0 0 name in
  p_set_cell_key_node_root
    (match CellKeyNode_parse (E:=env_ref) false (zdrop 32 buf) 32 [] None with
     | Ok (_, n) => Some n
     | _ => None
     end)
    (parser_sample buf 0 (base_block_sample 1 1 4096)).

Lemma find_free_keys_and_values_total_witness :
  let p := parser_sample [] 0 (base_block_sample 1 1 4096) in
  exists p' r, find_free_keys_and_values p = (p', r) /\ returns r.
Proof.
  intros p. destruct (@find_free_keys_and_values_total env_ref p (base_block_sample 1 1 4096))
    as (p' & r & H1 & H2 & _); [reflexivity|discriminate|].
  exists p', r. exact (conj H1 H2).
Defined.
