(* ===== verification/Hive.v ===== *)
(** * Hive: what a hive file stores

    The layout of a hive file as a relation between its bytes and an abstract tree of keys,
    stated from the format and not from the parser.  [HiveFacts] proves that the library reads
    exactly that tree. *)

From S2P Require Import Prelude Env Log Util UtilFacts Cells BaseBlock SubKeyLists Values ValueFacts State KeyNode KeyNodeFacts.

(** ** The tree *)

(** A value: its name, raw type, raw flags and data. *)
Record HiveValue := { hv_name : ustr; hv_type : Z; hv_flags : Z; hv_data : list byte }.

(** What a key holds: its raw flags, the FILETIME of its last change, its raw access flags and
    its values. *)
Record KeyData := {
  kd_flags : Z; kd_written : Z; kd_access : Z; kd_values : list HiveValue;
}.

(** A key: the offset of its cell, its name, what it holds and its subkeys. *)
Inductive HiveKey :=
  | HKey (offset : Z) (name : ustr) (data : KeyData) (subkeys : list HiveKey).

Definition hk_offset (t : HiveKey) : Z := match t with HKey o _ _ _ => o end.
Definition hk_name (t : HiveKey) : ustr := match t with HKey _ n _ _ => n end.
Definition hk_data (t : HiveKey) : KeyData := match t with HKey _ _ d _ => d end.
Definition hk_values (t : HiveKey) : list HiveValue := kd_values (hk_data t).
Definition hk_subkeys (t : HiveKey) : list HiveKey := match t with HKey _ _ _ s => s end.

(** The path of a key below [parent]. *)
Definition hk_path (parent : ustr) (t : HiveKey) : ustr := parent ++ [BACKSLASH] ++ hk_name t.

(** The keys in preorder, each with its path and what it holds. *)
Fixpoint keys (parent : ustr) (t : HiveKey) : list (ustr * KeyData) :=
  match t with
  | HKey _ name data subkeys =>
      let path := parent ++ [BACKSLASH] ++ name in
      (path, data) :: foldr (fun t acc => keys path t ++ acc) [] subkeys
  end.
Definition keys_of (parent : ustr) (ts : list HiveKey) : list (ustr * KeyData) :=
  foldr (fun t acc => keys parent t ++ acc) [] ts.

(** The offsets of the cells of a tree's keys. *)
Fixpoint offsets (t : HiveKey) : list Z :=
  match t with
  | HKey offset _ _ subkeys => offset :: foldr (fun t acc => offsets t ++ acc) [] subkeys
  end.
Definition offsets_of (ts : list HiveKey) : list Z :=
  foldr (fun t acc => offsets t ++ acc) [] ts.

(** How many levels of keys a tree has. *)
Fixpoint levels (t : HiveKey) : nat :=
  match t with HKey _ _ _ subkeys => S (foldr (fun t n => Nat.max (levels t) n) 0%nat subkeys) end.

(** A property of every key of a tree. *)
Fixpoint every_key (P : HiveKey -> Prop) (t : HiveKey) : Prop :=
  P t /\ match t with HKey _ _ _ subkeys => foldr (fun t R => every_key P t /\ R) True subkeys end.

Lemma keys_eq parent t :
  keys parent t = (hk_path parent t, hk_data t) :: keys_of (hk_path parent t) (hk_subkeys t).
Proof. by destruct t. Qed.
Lemma offsets_eq t : offsets t = hk_offset t :: offsets_of (hk_subkeys t).
Proof. by destruct t. Qed.

Lemma levels_child c s : c ∈ hk_subkeys s -> (levels c < levels s)%nat.
Proof.
  destruct s as [o nm vs ts]. cbn. intros Hc. induction ts as [|x ts IH].
  { by apply not_elem_of_nil in Hc. }
  cbn. apply elem_of_cons in Hc as [->|Hc]; [lia|]. specialize (IH Hc). lia.
Qed.

Lemma every_key_eq P t : every_key P t <-> P t /\ Forall (every_key P) (hk_subkeys t).
Proof.
  destruct t as [o n v ts]. cbn [every_key hk_subkeys]. f_equiv.
  induction ts as [|t ts IH]; [done|]. cbn. by rewrite Forall_cons, IH.
Qed.

(** The offsets below the top keys of a forest, apart from those of the top keys. *)
Lemma offsets_of_tops ts :
  offsets_of ts ≡ₚ (hk_offset <$> ts) ++ (ts ≫= (fun t => offsets_of (hk_subkeys t))).
Proof.
  induction ts as [|t ts IH]; [done|]. cbn [offsets_of foldr]. fold (offsets_of ts).
  rewrite offsets_eq, IH. cbn. f_equiv.
  rewrite !app_assoc. f_equiv. apply Permutation_app_comm.
Qed.

(** ** The cells *)

Section Layout.
Variable fi : FileInfo.

(** The bytes of the cell at an absolute offset, to the end of the file. *)
Definition cell_at (offset : Z) : list byte := zdrop offset (buffer fi).
Definition in_buffer (offset : Z) : Prop := 0 <= offset <= len (buffer fi).

(** The data of the vk cell [c]: in the cell itself, in a cell of its own, or in the
    segments of a db cell. *)
Inductive stores_data (c : list byte) : list byte -> Prop :=
  | data_resident n :
      0 <= n <= 4 -> le_at 4 8 c = 2 ^ 31 + n -> stores_data c (ztake n (zdrop 12 c))
  | data_direct data :
      le_at 4 8 c = len data -> len data <= BIG_DATA_SIZE_THRESHOLD ->
      le_at 4 12 c + hbin_offset_absolute fi + 4 + len data <= len (buffer fi) ->
      ztake (len data) (cell_at (le_at 4 12 c + hbin_offset_absolute fi + 4)) = data ->
      stores_data c data
  | data_big offs data :
      le_at 4 8 c = len data -> BIG_DATA_SIZE_THRESHOLD < len data < 2 ^ 31 ->
      db_cell fi (le_at 4 12 c + hbin_offset_absolute fi) offs -> segmented fi offs data ->
      stores_data c data.

Definition stores_value (offset : Z) (v : HiveValue) : Prop :=
  let c := cell_at offset in
  in_buffer offset /\ is_vk c /\
  stores_name (Z.land (vk_flags c) 1 =? 1) (ztake (le_at 2 6 c) (zdrop 24 c)) (hv_name v) /\
  le_at 4 16 c = hv_type v /\ le_at 2 20 c = hv_flags v /\ stores_data c (hv_data v).

(** The values of the nk cell [c]: a counted list of offsets. *)
Definition stores_values (c : list byte) (vs : list HiveValue) : Prop :=
  le_at 4 40 c = len vs /\ len vs <= 1024 * 1024 /\
  (vs <> [] ->
   exists list_offset size offs rest,
     as_i32 (le_at 4 44 c) = list_offset /\ 0 < list_offset < len (buffer fi) /\
     cell_at (list_offset + hbin_offset_absolute fi)
       = to_le_bytes 4 size ++ (offs ≫= to_le_bytes 4) ++ rest /\
     Forall2 (fun o v => 0 <= o < U32_MOD /\ stores_value (o + hbin_offset_absolute fi) v)
       offs vs).

(** A list of [items] under a tag, at an offset relative to the bins. *)
Definition list_cell {A} (tag : string) (enc : A -> list byte) (offset : Z) (items : list A)
    : Prop :=
  in_file fi offset /\ len items < U16_MOD /\
  exists size rest, - 2 ^ 31 <= size < 2 ^ 31 /\
    list_slice fi offset = encode_list tag enc (u32_of_i32 size) items ++ rest.

(** An lf, lh or li list of the elements' offsets. *)
Definition stores_leaf (offset : Z) (rels : list Z) : Prop :=
  (exists items, list_cell "lh" encode_lh_item offset items /\
     rels = lh_named_key_offset_relative <$> items /\
     Forall (fun x => 0 <= lh_name_hash x < U32_MOD) items) \/
  (exists items, list_cell "lf" encode_lf_item offset items /\
     rels = fst <$> items /\ Forall (fun x => len x.2 = 4) items) \/
  (exists items, list_cell "li" encode_li_item offset items /\
     rels = li_named_key_offset_relative <$> items).

Definition encode_ri_item (x : SubKeyListRiItem) : list byte :=
  to_le_bytes 4 (ri_sub_key_list_offset_relative x).

(** A list of subkeys: such a list, or an ri list of lists; [depth] bounds the nesting. *)
Fixpoint stores_list (depth : nat) (offset : Z) (offs : list Z) : Prop :=
  match depth with
  | O => False
  | S depth =>
      (exists rels, stores_leaf offset rels /\
         Forall (fun o => 0 <= o /\ o + hbin_offset_absolute fi < U32_MOD) rels /\
         offs = (fun o => o + hbin_offset_absolute fi) <$> rels) \/
      (exists items subs, list_cell "ri" encode_ri_item offset items /\
         Forall2 (fun x sub => 0 <= ri_sub_key_list_offset_relative x < U32_MOD /\
                    stores_list depth (ri_sub_key_list_offset_relative x) sub) items subs /\
         offs = mjoin subs)
  end.

(** The fields of the nk cell [c] that are its key's own. *)
Definition stores_info (c : list byte) (d : KeyData) : Prop :=
  le_at 2 6 c = kd_flags d /\ le_at 8 8 c = kd_written d /\ le_at 4 16 c = kd_access d.

(** A key's own cell, values and list of subkeys. *)
Definition stores_key (depth : nat) (t : HiveKey) : Prop :=
  let c := cell_at (hk_offset t) in
  in_buffer (hk_offset t) /\ is_nk c /\
  stores_name (Z.land (le_at 2 6 c) KEY_COMP_NAME =? KEY_COMP_NAME)
    (ztake (le_at 2 76 c) (zdrop 80 c)) (hk_name t) /\
  stores_values c (hk_values t) /\ stores_info c (hk_data t) /\
  le_at 4 24 c = len (hk_subkeys t) /\ len (hk_subkeys t) <= 1024 * 1024 /\
  (hk_subkeys t <> [] -> stores_list depth (le_at 4 32 c) (hk_offset <$> hk_subkeys t)).

(** A whole tree, no two keys of which share a cell. *)
Definition stores_tree (depth : nat) (t : HiveKey) : Prop :=
  every_key (stores_key depth) t /\ NoDup (offsets t).
End Layout.

(** A hive file: a base block of a known type, then the bins, the first of which starts with
    the root key. *)
Definition hive_file `{Env} (depth : nat) (data : list byte) (t : HiveKey) : Prop :=
  ztake 4 data = bytes_of "regf" /\
  (FileType_from_value (le_at 4 28 data) Logs_default).1 <> FT_Unknown /\
  4128 <= len data /\ ztake 4 (zdrop 4096 data) = bytes_of "hbin" /\ hk_offset t = 4128 /\
  stores_tree {| hbin_offset_absolute := 4096; buffer := data |} depth t.
