(* ===== verification/HiveFacts.v ===== *)
(** * HiveFacts: a hive file is read as the tree it stores

    Against the layout of [Hive]: names, values, lists of subkeys and single keys are read
    back, and a traversal, with whatever filter whose answers on the tree are known, yields the
    keys it returns in preorder. *)

From S2P Require Import Prelude Env Log Util UtilFacts Cells BaseBlock SubKeyLists Values ValueFacts State Filter KeyNode KeyNodeFacts Recover Parser ParserFacts Hive.

(** The bytes an integer was read from. *)
Lemma to_le_bytes_take n off (c : list byte) :
  0 <= off -> off + Z.of_nat n <= len c ->
  to_le_bytes n (le_at (Z.of_nat n) off c) = ztake (Z.of_nat n) (zdrop off c).
Proof.
  intros Ho Hl. unfold to_le_bytes, le_at, from_le_bytes.
  assert (length (ztake (Z.of_nat n) (zdrop off c)) = n) as Hn.
  { assert (len (ztake (Z.of_nat n) (zdrop off c)) = Z.of_nat n) as H by len_lia.
    exact (Nat2Z.inj _ _ H). }
  rewrite <- Hn at 1. apply split_le_combine.
Qed.

#[local] Opaque lit to_le_bytes fmt_dec.

Section Reading.
Context `{E : Env}.

(** ** Lists of subkeys *)

Lemma nom_tag_other t t' r :
  length t = length t' -> t <> t' -> nom_tag t (t' ++ r) = Err NomError.
Proof.
  intros Hl Hne. rewrite nom_tag_spec. unfold spec_tag. rewrite Hl, take_app_length.
  by rewrite decide_False by done.
Qed.

(** The parser of one kind of list rejects a cell of another kind. *)
Lemma Ri_rejects {A} tag (enc : A -> list byte) size items rest :
  length (bytes_of tag) = 2%nat -> bytes_of tag <> bytes_of "ri" ->
  SubKeyListRi_from_bytes (encode_list tag enc (u32_of_i32 size) items ++ rest) = Err NomError.
Proof.
  intros Hl Hne. unfold SubKeyListRi_from_bytes, encode_list.
  rewrite <- !app_assoc, nom_le_i32_app by (by apply Z.mod_pos_bound).
  cbn [mbind res_bind]. by rewrite nom_tag_other by (done || congruence).
Qed.
Lemma Lf_rejects {A} tag (enc : A -> list byte) size items rest :
  length (bytes_of tag) = 2%nat -> bytes_of tag <> bytes_of "lf" ->
  SubKeyListLf_from_bytes (encode_list tag enc (u32_of_i32 size) items ++ rest) = Err NomError.
Proof.
  intros Hl Hne. unfold SubKeyListLf_from_bytes, SubKeyListLf_from_bytes_internal, encode_list.
  rewrite <- !app_assoc, nom_le_i32_app by (by apply Z.mod_pos_bound).
  cbn [mbind res_bind]. by rewrite nom_tag_other by (done || congruence).
Qed.
Lemma Lh_rejects {A} tag (enc : A -> list byte) size items rest :
  length (bytes_of tag) = 2%nat -> bytes_of tag <> bytes_of "lh" ->
  SubKeyListLh_from_bytes (encode_list tag enc (u32_of_i32 size) items ++ rest) = Err NomError.
Proof.
  intros Hl Hne. unfold SubKeyListLh_from_bytes, SubKeyListLh_from_bytes_internal, encode_list.
  rewrite <- !app_assoc, nom_le_i32_app by (by apply Z.mod_pos_bound).
  cbn [mbind res_bind]. by rewrite nom_tag_other by (done || congruence).
Qed.

Lemma SubKeyListRi_roundtrip size items rest :
  - 2 ^ 31 <= size < 2 ^ 31 -> len items < U16_MOD ->
  Forall (fun x => 0 <= ri_sub_key_list_offset_relative x < U32_MOD) items ->
  SubKeyListRi_from_bytes (encode_list "ri" encode_ri_item (u32_of_i32 size) items ++ rest)
  = Ok (rest, {| ri_size := Z.abs size; ri_count := len items; ri_items := items |}).
Proof.
  intros Hs Hl Hi. unfold SubKeyListRi_from_bytes, encode_list.
  rewrite <- !app_assoc, nom_le_i32_app by (by apply Z.mod_pos_bound). cbn [mbind res_bind].
  rewrite nom_tag_app. cbn [mbind res_bind]. pose proof (len_nonneg items).
  rewrite nom_le_u16_app by lia. cbn [mbind res_bind].
  rewrite nom_count_spec. replace (Z.to_nat (len items)) with (length items) by (unfold len; lia).
  rewrite (spec_count_encode _ _ id).
  - cbn. by rewrite list_fmap_id, as_i32_u32_of_i32.
  - eapply Forall_impl; [exact Hi|]. intros [o] Ho r. cbn in Ho.
    unfold parse_sub_key_list_ri_item, encode_ri_item. cbn [ri_sub_key_list_offset_relative].
    by rewrite nom_le_u32_app by done.
Qed.

(** What is left of [parse_sub_key_list] once the cell is known not to be an ri list. *)
Lemma parse_leaf fuel fi off r dyn :
  in_file fi off -> SubKeyListRi_from_bytes (list_slice fi off) = Err NomError ->
  spec_alt [SubKeyListLf_from_bytes; SubKeyListLh_from_bytes; SubKeyListLi_from_bytes]
    (list_slice fi off) = Ok (r, dyn) ->
  0 <= hbin_offset_absolute fi < U32_MOD ->
  parse_sub_key_list (S fuel) fi off = dyn_get_offset_list dyn (hbin_offset_absolute fi).
Proof.
  intros Hin Hri Halt Hh. cbn [parse_sub_key_list].
  assert (get_from (buffer fi) (off + hbin_offset_absolute fi) = Some (list_slice fi off)) as ->
    by (by apply get_from_Some).
  cbn [ok_or mbind res_bind]. rewrite Hri, nom_alt_spec, Halt.
  cbn [nom_q res_map_err mbind res_bind]. by rewrite Z.mod_small by done.
Qed.

Lemma parse_stored_leaf fuel fi off rels :
  0 <= hbin_offset_absolute fi < U32_MOD -> stores_leaf fi off rels ->
  Forall (fun o => 0 <= o /\ o + hbin_offset_absolute fi < U32_MOD) rels ->
  parse_sub_key_list (S fuel) fi off = Ok ((fun o => o + hbin_offset_absolute fi) <$> rels).
Proof.
  intros Hh Hl Hr. set (h := hbin_offset_absolute fi) in *.
  destruct Hl as [(items & (Hin & Hlen & size & rest & Hsz & Hslice) & -> & Hhash)
    |[(items & (Hin & Hlen & size & rest & Hsz & Hslice) & -> & Hhint)
     |(items & (Hin & Hlen & size & rest & Hsz & Hslice) & ->)]];
    rewrite Forall_fmap in Hr.
  - erewrite (parse_leaf fuel fi off rest); [|done|rewrite Hslice; by apply Ri_rejects| |done].
    2:{ rewrite Hslice. cbn [spec_alt]. rewrite Lf_rejects by done.
        unfold SubKeyListLh_from_bytes. rewrite SubKeyListLh_roundtrip; [reflexivity|done|done|].
        apply Forall_and. split; [|done]. eapply Forall_impl; [exact Hr|]. cbn. intros x. lia. }
    cbn [dyn_get_offset_list SubKeyListLh_dyn]. unfold SubKeyListLh_get_offset_list. f_equal.
    cbn [lh_items]. clear -Hr. induction Hr as [|x items [_ Hx] _ IH]; [done|].
    cbn [omap list_omap fmap list_fmap]. unfold checked_add_u32 at 1.
    rewrite (proj2 (Z.ltb_lt _ _)) by done. f_equal. exact IH.
  - erewrite (parse_leaf fuel fi off rest); [|done|rewrite Hslice; by apply Ri_rejects| |done].
    2:{ rewrite Hslice. cbn [spec_alt]. unfold SubKeyListLf_from_bytes.
        rewrite SubKeyListLf_roundtrip; [reflexivity|done|done|].
        apply Forall_and. split; [|done]. eapply Forall_impl; [exact Hr|]. cbn. intros x. lia. }
    cbn [dyn_get_offset_list SubKeyListLf_dyn]. unfold SubKeyListLf_get_offset_list.
    cbn [lf_items]. rewrite mapM_add_u32_fits.
    + by rewrite <- !list_fmap_compose.
    + rewrite Forall_fmap. eapply Forall_impl; [exact Hr|]. cbn. intros x. lia.
  - erewrite (parse_leaf fuel fi off rest); [|done|rewrite Hslice; by apply Ri_rejects| |done].
    2:{ rewrite Hslice. cbn [spec_alt]. rewrite Lf_rejects, Lh_rejects by done.
        unfold SubKeyListLi_from_bytes. rewrite SubKeyListLi_roundtrip; [reflexivity|done|done|].
        eapply Forall_impl; [exact Hr|]. cbn. intros x. lia. }
    cbn [dyn_get_offset_list SubKeyListLi_dyn]. unfold SubKeyListLi_get_offset_list.
    cbn [li_items]. rewrite mapM_add_u32_fits.
    + by rewrite <- !list_fmap_compose.
    + eapply Forall_impl; [exact Hr|]. cbn. intros x. lia.
Qed.

(** A stored list of subkeys is followed to its offsets. *)
Lemma parse_sub_key_list_stored depth fi off offs fuel :
  0 <= hbin_offset_absolute fi < U32_MOD -> stores_list fi depth off offs ->
  (depth <= fuel)%nat -> parse_sub_key_list fuel fi off = Ok offs.
Proof.
  intros Hh. revert off offs fuel. induction depth as [|depth IH]; intros off offs fuel Hs Hf;
    [done|]. destruct fuel as [|fuel]; [lia|].
  destruct Hs as [(rels & Hleaf & Hr & ->)|(items & subs & Hcell & Hsubs & ->)].
  { by apply parse_stored_leaf. }
  destruct Hcell as (Hin & Hlen & size & rest & Hsz & Hslice).
  rewrite (parse_sub_key_list_ri_step fuel fi off rest
    {| ri_size := Z.abs size; ri_count := len items; ri_items := items |}); [|done|].
  2:{ rewrite Hslice. apply SubKeyListRi_roundtrip; [done|done|].
      clear -Hsubs. induction Hsubs as [|x sub items subs [Hx _] _ IHs]; by constructor. }
  unfold parse_offsets. cbn [ri_items]. rewrite <- (app_nil_l (mjoin subs)).
  generalize (@nil Z) as acc. clear Hlen Hslice.
  induction Hsubs as [|x sub items subs [_ Hx] _ IHs]; intros acc; cbn.
  { by rewrite app_nil_r. }
  rewrite (IH _ _ fuel Hx) by lia. cbn. by rewrite IHs, <- app_assoc.
Qed.

(** ** Values *)

Lemma CellKeyValue_from_bytes_stored input fo sn full r v name :
  CellKeyValue_from_bytes input fo sn full = Ok (r, v) ->
  stores_name (Z.land (vk_flags input) 1 =? 1) (ztake (le_at 2 6 input) (zdrop 24 input)) name ->
  value_name v = name /\ cv_data_type v = value_type (le_at 4 16 input).
Proof.
  intros H Hname.
  destruct (CellKeyValue_from_bytes_record input fo sn full) as (s & lg & Hrun & Hs & Hst);
    [by eapply CellKeyValue_from_bytes_is_vk|].
  rewrite H in Hrun. injection Hrun as _ ->. rewrite <- (Hst name Hname).
  split; [by destruct full|]. symmetry. apply value_type_registry_type.
Qed.

Lemma is_big_data_block_db fi at_ offs :
  db_cell fi at_ offs -> is_big_data_block (zdrop at_ (buffer fi)) = true.
Proof.
  intros (_ & _ & _ & size & slo & r1 & _ & _ & -> & _). unfold is_big_data_block.
  assert (get_from (to_le_bytes 4 (u32_of_i32 size) ++ bytes_of "db" ++ to_le_bytes 2 (len offs)
      ++ to_le_bytes 4 slo ++ r1) 4
    = Some (bytes_of "db" ++ to_le_bytes 2 (len offs) ++ to_le_bytes 4 slo ++ r1)) as ->.
  { apply get_from_Some. split; [len_lia|].
    symmetry. exact (zdrop_app_len (to_le_bytes 4 (u32_of_i32 size)) _). }
  by rewrite nom_tag_app.
Qed.

(** Stored data is read whole, cut to the width of its type. *)
Lemma read_value_bytes_stored {Er} fi c fo t data lg :
  0 <= hbin_offset_absolute fi -> 24 <= len c -> stores_data fi c data ->
  exists offs, read_value_bytes_direct (Er:=Er) fo (le_at 4 8 c) (le_at 4 12 c) t fi lg
    = Ok (get_value_bytes t data, offs, lg).
Proof.
  intros Hh Hc Hs. pose proof (le_at_range 4 12 c ltac:(lia)) as Hoff.
  destruct Hs as [n Hn Hsize|data Hsize Hlen Hend Hdata|offs data Hsize Hlen Hdb Hseg];
    rewrite Hsize.
  - rewrite resident_bytes by lia. destruct (Z.leb_spec n 4); [|lia].
    pose proof (to_le_bytes_take 4 12 c ltac:(lia) ltac:(lia)) as Ht.
    change (Z.of_nat 4) with 4 in Ht. rewrite Ht.
    eexists. do 4 f_equal. unfold ztake. rewrite take_take. f_equal. lia.
  - unfold read_value_bytes_direct, cell_at in *. pose proof (len_nonneg data).
    unfold BIG_DATA_SIZE_THRESHOLD in *. rewrite land_bit31 by lia. change (0 =? 0) with true.
    cbn iota beta zeta. set (at_ := le_at 4 12 c + hbin_offset_absolute fi) in *.
    assert (get_from (buffer fi) at_ = Some (zdrop at_ (buffer fi))) as ->
      by (apply get_from_Some; split; [lia|done]).
    destruct (Z.ltb_spec 16344 (len data)); [lia|]. cbn [andb].
    assert (get_range (buffer fi) (at_ + 4) (at_ + 4 + len data) = Some data) as ->; [|by eexists].
    apply get_range_Some. split_and!; [lia..|]. rewrite <- Hdata at 1. f_equal. lia.
  - unfold read_value_bytes_direct. unfold BIG_DATA_SIZE_THRESHOLD in Hlen.
    rewrite land_bit31 by lia. change (0 =? 0) with true. cbn iota beta zeta.
    set (at_ := le_at 4 12 c + hbin_offset_absolute fi) in *.
    assert (get_from (buffer fi) at_ = Some (zdrop at_ (buffer fi))) as ->.
    { pose proof Hdb as (Ha & _ & _ & size & slo & r1 & lsize & r2 & Hz & _).
      apply (get_from_zdrop _ _ _ Ha eq_refl). rewrite Hz. apply app_le_bytes_nonempty. }
    rewrite (is_big_data_block_db _ _ _ Hdb), (proj2 (Z.ltb_lt _ _))
      by (unfold BIG_DATA_SIZE_THRESHOLD; lia).
    cbn [andb]. rewrite (get_big_data_bytes_run fi at_ offs data t Hdb Hseg). by eexists.
Qed.

(** What the hash of a value, and that of a key, is taken of. *)
Definition value_digest (v : HiveValue) : Hash :=
  blake3 (to_le_bytes 4 (hv_type v) ++ to_le_bytes 2 (hv_flags v)
          ++ get_value_bytes (value_type (hv_type v)) (hv_data v)).
Definition key_digest (d : KeyData) : Hash :=
  blake3 (to_le_bytes 2 (kd_flags d) ++ to_le_bytes 8 (kd_written d)
          ++ to_le_bytes 4 (kd_access d)).

(** A value as read shows the value stored. *)
Record shows_value (v : CellKeyValue) (hv : HiveValue) : Prop := {
  sv_name : value_name v = hv_name hv;
  sv_type : cv_data_type v = value_type (hv_type hv);
  sv_bytes : value_bytes v = Some (get_value_bytes (value_type (hv_type hv)) (hv_data hv));
  sv_versions : cv_versions v = [];
  sv_state : cv_cell_state v = Allocated;
  sv_hash : cv_hash v = Some (value_digest hv);
}.

Lemma read_value_stored {Er} fi offset hv sn full hasher :
  0 <= hbin_offset_absolute fi -> stores_value fi offset hv ->
  exists r v v' h, CellKeyValue_from_bytes (cell_at fi offset) offset sn full = Ok (r, v) /\
    read_value_bytes (Er:=Er) v fi hasher = Ok (v', h) /\ shows_value v' hv.
Proof.
  intros Hh (Hin & Hvk & Hname & Htype & Hflags & Hdata). set (c := cell_at fi offset) in *.
  destruct (CellKeyValue_from_bytes_run c offset sn full Hvk)
    as (v & Hp & _ & Hsize & Hoff & Htr & Hfl & _ & _ & Hver & Hst & _ & _ & _).
  destruct (CellKeyValue_from_bytes_stored _ _ _ _ _ _ _ Hp Hname) as [Hn Ht].
  assert (24 <= len c) as Hc by (destruct Hvk as [? _]; lia).
  destruct (read_value_bytes_stored (Er:=Er) fi c (cv_file_offset_absolute v) (cv_data_type v)
    (hv_data hv) (cv_logs v) Hh Hc Hdata) as (offs & Hrd).
  eexists _, v, _, _. split; [exact Hp|]. unfold read_value_bytes.
  rewrite Hsize, Hoff, Hrd. cbn [mbind res_bind]. split; [reflexivity|].
  rewrite Ht, Htype. constructor; cbn; try done.
  - unfold value_name in *. by destruct (cv_detail v).
  - unfold value_bytes. cbn. by destruct (cv_detail v).
  - unfold value_digest. by rewrite Htr, Htype, Hfl, Hflags.
Qed.

Lemma read_values_loop_stored fi sn offs vs s :
  0 <= hbin_offset_absolute fi ->
  Forall2 (fun o v => 0 <= o < U32_MOD /\ stores_value fi (o + hbin_offset_absolute fi) v) offs vs ->
  exists vs' h, Forall2 shows_value vs' vs /\
    read_values_loop fi sn offs s
      = ((n_set_sub_values (n_sub_values s.1 ++ vs') s.1, st_set_hasher h s.2), Ok ()).
Proof.
  intros Hh Hvs. revert s. induction Hvs as [|o v offs vs [_ Hv] _ IH]; intros [n st].
  { exists [], (hasher st). split; [constructor|]. cbn. rewrite app_nil_r. by destruct n, st. }
  pose proof Hv as (Hin & Hvk & _). set (off := o + hbin_offset_absolute fi) in *.
  cbn [read_values_loop]. fold off.
  assert (is_Some (get_at (buffer fi) off)) as [b ->].
  { unfold get_at. destruct Hin as [H0 _]. rewrite (proj2 (Z.leb_le _ _) H0).
    apply lookup_lt_is_Some. destruct Hvk as [Hl _]. unfold cell_at in Hl.
    assert (off < len (buffer fi)) as Hlt by len_lia. unfold len in Hlt. lia. }
  assert (get_from (buffer fi) off = Some (cell_at fi off)) as -> by (by apply get_from_Some).
  destruct (read_value_stored (Er:=Error) fi off v sn (get_full_field_info st) (hasher st) Hh Hv)
    as (r & v1 & v2 & h & Hp & Hr & Hshow).
  unfold m_bind, m_lift, m_get, m_modify. cbn [ok_or snd]. rewrite Hp. cbn [nom_q res_map_err].
  rewrite Hr. cbn [fst snd].
  destruct (IH (n_set_sub_values (n_sub_values n ++ [v2]) n, st_set_hasher h st))
    as (vs' & h' & Hall & ->).
  exists (v2 :: vs'), h'. split; [by constructor|]. cbn [fst snd].
  assert (n_sub_values (n_set_sub_values (n_sub_values n ++ [v2]) n) = n_sub_values n ++ [v2])
    as -> by by destruct n.
  rewrite <- app_assoc. by destruct n, st.
Qed.

(** The values of a parsed key with values are read. *)
Lemma read_values_stored fi sn c vs n st :
  0 <= hbin_offset_absolute fi -> stores_values fi c vs -> vs <> [] ->
  node_number_of_key_values n = le_at 4 40 c ->
  node_key_values_list_offset_relative n = as_i32 (le_at 4 44 c) ->
  exists vs' h, Forall2 shows_value vs' vs /\
    read_values fi sn (n, st) = ((n_set_sub_values vs' n, st_set_hasher h st), Ok ()).
Proof.
  intros Hh (Hcount & Hmax & Hvs) Hne Hn Hl.
  destruct (Hvs Hne) as (off & size & offs & rest & Hoff & Hrange & Hlist & Hall).
  unfold read_values, m_bind, m_get, m_lift. cbn [fst]. rewrite Hl, Hoff, Hn, Hcount.
  rewrite (proj2 (Z.ltb_lt 0 off)) by lia.
  destruct (Z.ltb_spec (1024 * 1024) (len vs)) as [|_]; [lia|].
  assert (as_usize off < len (buffer fi) /\ as_usize off = off) as [Hlt Hus].
  { unfold as_usize, U64_MOD. pose proof (wrap_signed_range 32 (le_at 4 44 c) ltac:(lia)).
    unfold as_i32 in Hoff. rewrite Z.mod_small by lia. lia. }
  rewrite Hus. rewrite Hus in Hlt. rewrite (proj2 (Z.ltb_lt _ _) Hlt). cbn [andb].
  unfold parse_key_values. rewrite Hus.
  assert (0 <= off + hbin_offset_absolute fi) as Hpos by lia.
  rewrite (get_from_zdrop _ _ _ Hpos Hlist) by apply app_le_bytes_nonempty.
  cbn [ok_or mbind res_bind]. rewrite nom_le_u32_spec, spec_le_app by done.
  cbn [mbind res_bind]. rewrite nom_count_spec.
  replace (Z.to_nat (len vs)) with (length offs)
    by (apply Forall2_length in Hall; unfold len; lia).
  change (list_bind Z byte (to_le_bytes 4) offs) with (offs ≫= to_le_bytes 4).
  rewrite (spec_count_encode _ _ id).
  2:{ clear -Hall. induction Hall as [|o v offs vs [Ho _] _ IH]; constructor; [|exact IH].
      intros r. by rewrite nom_le_u32_app. }
  cbn [mbind res_bind nom_q res_map_err nm_node m_modify fst snd]. rewrite list_fmap_id.
  destruct (read_values_loop_stored fi sn offs vs (n_set_sub_values [] n, st) Hh Hall)
    as (vs' & h & Hshow & ->).
  exists vs', h. split; [done|]. by destruct n.
Qed.

(** ** Keys *)

Lemma CellKeyNode_parse_stored full input fo cur_path sn r n name :
  CellKeyNode_parse full input fo cur_path sn = Ok (r, n) ->
  stores_name (Z.land (le_at 2 6 input) KEY_COMP_NAME =? KEY_COMP_NAME)
    (ztake (le_at 2 76 input) (zdrop 80 input)) name ->
  n_key_name n = name /\ n_sub_values n = [] /\ n_deleted_keys n = [] /\ n_versions n = [].
Proof.
  intros H Hname.
  destruct (CellKeyNode_parse_record full input fo cur_path sn) as (s & lg & Hrun & Hs);
    [by eapply CellKeyNode_parse_is_nk|].
  rewrite H in Hrun. injection Hrun as _ ->.
  unfold nk_name_ascii, nk_name_bytes in Hs.
  rewrite (string_from_bytes_stored _ _ name) in Hs by done. by injection Hs as <- _.
Qed.

(** A state in which nothing was deleted or modified. *)
Definition clean (st : State) : Prop :=
  deleted_keys st = ∅ /\ modified_keys st = ∅ /\ deleted_values st = ∅ /\ modified_values st = ∅.

(** What a reader of stored keys keeps true of its state: nothing is deleted or modified, and
    the hasher does not matter. *)
Class ReaderInv (ok : State -> Prop) := {
  inv_clean st : ok st -> clean st;
  inv_hasher h st : ok st -> ok (st_set_hasher h st);
}.
#[export] Instance clean_inv : ReaderInv clean.
Proof. split; [done|]. by intros h []. Qed.

Lemma n_set_sub_values_id n : n_set_sub_values (n_sub_values n) n = n.
Proof. by destruct n. Qed.

Lemma update_modified_lists_clean {Er} fuel st n :
  clean st -> (1 <= fuel)%nat -> update_modified_lists (Er:=Er) fuel st n = Ok n.
Proof.
  intros (Hdk & Hmk & Hdv & Hmv) Hf. destruct fuel as [|k]; [lia|]. cbn [update_modified_lists].
  destruct (is_deleted_primary_file _); [done|]. cbn [negb].
  assert (forall p, ModifiedDeletedKeyMap_get (deleted_keys st) p = None) as ->
    by (intros p; rewrite Hdk; exact (lookup_empty (M:=gmap ustr) p)).
  assert (forall p, ModifiedDeletedKeyMap_get (modified_keys st) p = None) as ->
    by (intros p; rewrite Hmk; exact (lookup_empty (M:=gmap ustr) p)).
  assert (forall p, DeletedValueMap_get (deleted_values st) p = None) as ->
    by (intros p; rewrite Hdv; exact (lookup_empty (M:=gmap ustr) p)).
  assert (forall p name, ModifiedValueMap_get (modified_values st) p name = None) as Hval
    by (intros p name; rewrite Hmv; exact (lookup_empty (M:=gmap (ustr * ustr)) (p, name))).
  cbn [mbind res_bind]. f_equal. rewrite <- (n_set_sub_values_id n) at 3. f_equal.
  rewrite <- (list_fmap_id (n_sub_values n)) at 2.
  apply list_fmap_ext. intros i v _. by rewrite Hval.
Qed.

(** A key as read shows the key stored, apart from its values. *)
Record shows_cell (fi : FileInfo) (parent : ustr) (n : CellKeyNode) (t : HiveKey) : Prop := {
  sc_path : n_path n = hk_path parent t;
  sc_offset : n_file_offset_absolute n = hk_offset t;
  sc_state : n_cell_state n = Allocated;
  sc_deleted : n_deleted_keys n = [];
  sc_versions : n_versions n = [];
  sc_count : node_number_of_sub_keys n = len (hk_subkeys t);
  sc_list : node_sub_keys_list_offset_relative n = le_at 4 32 (cell_at fi (hk_offset t));
  sc_flags : node_flag_bits n = kd_flags (hk_data t);
  sc_written : node_last_key_written n = kd_written (hk_data t);
  sc_access : node_access_flag_bits n = kd_access (hk_data t);
  sc_hash : n_hash n = Some (key_digest (hk_data t));
}.

(** What a key as read shows of an entry of the tree, apart from its values: allocated and
    without other versions. *)
Record shows_info (n : CellKeyNode) (kv : ustr * KeyData) : Prop := {
  si_path : n_path n = kv.1;
  si_versions : n_versions n = [];
  si_state : n_cell_state n = Allocated;
  si_flags : node_flag_bits n = kd_flags kv.2;
  si_written : node_last_key_written n = kd_written kv.2;
  si_access : node_access_flag_bits n = kd_access kv.2;
  si_hash : n_hash n = Some (key_digest kv.2);
}.
(** The whole key. *)
Record shows_key (n : CellKeyNode) (kv : ustr * KeyData) : Prop := {
  sk_info : shows_info n kv;
  sk_values : Forall2 shows_value (n_sub_values n) (kd_values kv.2);
}.

Lemma shows_cell_info fi parent n t :
  shows_cell fi parent n t -> shows_info n (hk_path parent t, hk_data t).
Proof. by intros []. Qed.
Lemma shows_cell_key fi parent n t :
  shows_cell fi parent n t -> Forall2 shows_value (n_sub_values n) (hk_values t) ->
  shows_key n (hk_path parent t, hk_data t).
Proof. intros H%shows_cell_info Hv. by split. Qed.
Lemma shows_info_ext n n' kv :
  n_path n' = n_path n -> n_versions n' = n_versions n -> n_cell_state n' = n_cell_state n ->
  n_detail n' = n_detail n -> n_hash n' = n_hash n -> shows_info n kv -> shows_info n' kv.
Proof.
  intros Hp Hv Hs Hd Hh []. unfold node_flag_bits, node_last_key_written, node_access_flag_bits in *.
  constructor; unfold node_flag_bits, node_last_key_written, node_access_flag_bits; congruence.
Qed.

Lemma shows_cell_ext fi parent n n' t :
  n_path n' = n_path n -> n_file_offset_absolute n' = n_file_offset_absolute n ->
  n_cell_state n' = n_cell_state n -> n_deleted_keys n' = n_deleted_keys n ->
  n_versions n' = n_versions n -> n_detail n' = n_detail n -> n_hash n' = n_hash n ->
  shows_cell fi parent n t -> shows_cell fi parent n' t.
Proof.
  intros Hp Ho Hs Hd Hv Hdet Hh [].
  unfold node_number_of_sub_keys, node_sub_keys_list_offset_relative, node_flag_bits,
    node_last_key_written, node_access_flag_bits in *.
  constructor; unfold node_number_of_sub_keys, node_sub_keys_list_offset_relative, node_flag_bits,
    node_last_key_written, node_access_flag_bits; congruence.
Qed.

Lemma CellKeyNode_from_bytes_stored fi depth t cur sn st :
  stores_key fi depth t ->
  exists h r n, CellKeyNode_from_bytes (cell_at fi (hk_offset t)) (hk_offset t) cur sn st
      = (st_set_hasher h st, Ok (r, n)) /\
    shows_cell fi cur n t /\ n_iteration_state n = CellKeyNodeIteration_default /\
    n_sub_values n = [] /\
    node_number_of_key_values n = le_at 4 40 (cell_at fi (hk_offset t)) /\
    node_key_values_list_offset_relative n = as_i32 (le_at 4 44 (cell_at fi (hk_offset t))).
Proof.
  intros (Hin & Hnk & Hname & _ & (Hifl & Hiwr & Hiac) & Hcount & _). set (c := cell_at fi (hk_offset t)) in *.
  destruct (CellKeyNode_parse_run (get_full_field_info st) c (hk_offset t) cur sn Hnk)
    as (n & Hp & Hpath & Hoff & _ & Hst & _ & Hfl & Hwr & Hac & _ & Hsub & Hlist & Hvals & Hvlist
        & _ & _ & Hit).
  destruct (CellKeyNode_parse_stored _ _ _ _ _ _ _ _ Hp Hname) as (Hn & Hsv & Hdk & Hver).
  unfold CellKeyNode_from_bytes, m_bind, m_get, m_lift. rewrite Hp.
  destruct (CellKeyNode_hash _ _ _ st) as [st' h] eqn:Hh. unfold CellKeyNode_hash in Hh.
  injection Hh as <- <-. rewrite Hfl, Hifl, Hwr, Hiwr, Hac, Hiac. fold (key_digest (hk_data t)).
  eexists _, _, (n_set_hash (Some (key_digest (hk_data t))) n). split; [reflexivity|].
  split; [|by destruct n]. destruct n.
  unfold node_flag_bits, node_last_key_written, node_access_flag_bits in *. cbn in *.
  constructor; try done; cbn; unfold node_flag_bits, node_last_key_written, node_access_flag_bits; cbn;
    try congruence.
  - by rewrite Hpath, Hn.
  - etransitivity; [exact Hsub|exact Hcount].
Qed.

Section Stored.
Context (ok : State -> Prop) `{!ReaderInv ok}.

(** What the filter of a read answers for a key, whatever else the key holds. *)
Definition filter_answers (fi : FileInfo) (o : CellKeyNodeReadOptions) (t : HiveKey) (flags : Z)
    : Prop :=
  forall n st, shows_cell fi (o_cur_path o) n t -> ok st ->
  exists st', match o_filter o with
              | Some f => check_cell f n
              | None => m_ret FILTER_ITERATE_KEYS
              end st = (st', Ok (E:=Error) flags) /\ ok st'.

(** The reading of a stored key's values, when they are wanted. *)
Lemma maybe_read_values_stored fi depth t cur n st sn (want : bool) :
  0 <= hbin_offset_absolute fi -> stores_key fi depth t ->
  shows_cell fi cur n t -> n_sub_values n = [] ->
  node_number_of_key_values n = le_at 4 40 (cell_at fi (hk_offset t)) ->
  node_key_values_list_offset_relative n = as_i32 (le_at 4 44 (cell_at fi (hk_offset t))) ->
  exists vs h,
    (if (0 <? node_number_of_key_values n) && want then
       let* (n, r) := nm_run n (read_values fi sn) in
       m_ret match r with
             | inl _ => n_add_log WarningParse
                 (lit "Unable to parse values for cell key node " ++ n_path n
                  ++ lit " (offset: " ++ fmt_dec (n_file_offset_absolute n) ++ lit ")") n
             | inr _ => n
             end
     else m_ret n) st = (st_set_hasher h st, Ok (E:=Error) (n_set_sub_values vs n)) /\
    (want = true -> Forall2 shows_value vs (hk_values t)).
Proof.
  intros Hh (_ & _ & _ & Hvals & _) Hcell Hempty Hnum Hlist.
  assert (m_ret n st = (st_set_hasher (hasher st) st, Ok (E:=Error) (n_set_sub_values [] n)))
    as Hskip by (rewrite <- Hempty, n_set_sub_values_id; by destruct st).
  destruct (decide (hk_values t = [])) as [Hnil|Hne].
  { exists [], (hasher st). rewrite Hnil. split; [|constructor].
    destruct Hvals as [Hcount _]. rewrite Hnum, Hcount, Hnil. exact Hskip. }
  destruct want; [|exists [], (hasher st); rewrite andb_false_r; by split].
  destruct (read_values_stored fi sn _ _ n st Hh Hvals Hne Hnum Hlist) as (vs & h & Hshow & Hr).
  exists vs, h. split; [|done]. rewrite Hnum. destruct Hvals as [-> _].
  rewrite (proj2 (Z.ltb_lt _ _)) by (destruct (hk_values t); [done|len_lia]). cbn [andb].
  unfold m_bind, nm_run. rewrite Hr. reflexivity.
Qed.

(** A stored key is read as itself, or left out where the filter says so. *)
Lemma read_stored fuel fi depth t o st flags :
  (1 <= fuel)%nat -> 0 <= hbin_offset_absolute fi -> stores_key fi depth t ->
  o_offset o = hk_offset t -> ok st -> filter_answers fi o t flags ->
  exists st' r, CellKeyNode_read fuel fi o st = (st', Ok r) /\ ok st' /\
    if bf_contains flags FILTER_NO_MATCH then r = None
    else exists n, r = Some n /\ shows_cell fi (o_cur_path o) n t /\
      it_filter_state (n_iteration_state n)
        = (if bf_contains flags FILTER_KEY_MATCH then Some FMS_Exact else None) /\
      (should_read_values (o_filter o) flags (o_self_is_filter_match_or_descendent o) = true ->
       Forall2 shows_value (n_sub_values n) (hk_values t)).
Proof.
  intros Hf Hh Hkey Ho Hclean Hans. unfold CellKeyNode_read.
  assert (get_from (buffer fi) (o_offset o) = Some (cell_at fi (hk_offset t))) as ->
    by (rewrite Ho; apply get_from_Some; split; [apply Hkey|done]).
  unfold m_bind at 1, m_lift. cbn [ok_or]. unfold read_from_slice.
  destruct (CellKeyNode_from_bytes_stored fi depth t (o_cur_path o) (o_sequence_num o) st Hkey)
    as (h & r & n & Hp & Hcell & Hit & Hsv & Hnum & Hlist).
  unfold m_bind at 1, m_map_err. rewrite Ho, Hp. cbn [res_map_err].
  destruct (Hans n (st_set_hasher h st) Hcell (inv_hasher h st Hclean))
    as (st1 & Hfl & Hc1).
  unfold m_bind at 1. rewrite Hfl.
  destruct (bf_contains flags FILTER_NO_MATCH); [by exists st1, None|].
  destruct (maybe_read_values_stored fi depth t (o_cur_path o) n st1 (o_sequence_num o)
    (should_read_values (o_filter o) flags (o_self_is_filter_match_or_descendent o))
    Hh Hkey Hcell Hsv Hnum Hlist) as (vs & h' & Hvals & Hshow).
  unfold m_bind at 1. rewrite Hvals.
  unfold m_bind at 1, m_get. unfold m_bind at 1.
  set (n1 := if bf_contains flags FILTER_KEY_MATCH then _ else _).
  assert ((if o_get_deleted_and_modified o
           then m_lift (update_modified_lists fuel (st_set_hasher h' st1) n1) else m_ret n1)
    (st_set_hasher h' st1) = (st_set_hasher h' st1, Ok (E:=Error) n1)) as ->.
  { destruct (o_get_deleted_and_modified o); [|done]. unfold m_lift.
    by rewrite update_modified_lists_clean by (done || by apply inv_clean, inv_hasher). }
  exists (st_set_hasher h' st1), (Some n1). split; [done|]. split; [by apply inv_hasher|].
  exists n1. split; [done|]. unfold n1. clear -Hcell Hit Hshow. split_and!.
  - apply (shows_cell_ext fi (o_cur_path o) n); [..|done]; case_match; by destruct n.
  - case_match; destruct n; cbn in *; by subst.
  - intros Hw. assert (n_sub_values (if bf_contains flags FILTER_KEY_MATCH
      then n_set_filter_state (Some FMS_Exact) (n_set_sub_values vs n)
      else n_set_sub_values vs n) = vs) as -> by (case_match; by destruct n). by apply Hshow.
Qed.

(** ** Subkeys *)

(** The options the children of a key at [parent] are read with. *)
Definition child_options (parent : ustr) (sub_filter : option Filter) (self_is : bool)
    (sn : option Z) (gdm : bool) (offset : Z) : CellKeyNodeReadOptions :=
  {| o_offset := offset; o_cur_path := parent; o_filter := sub_filter;
     o_self_is_filter_match_or_descendent := self_is; o_sequence_num := sn;
     o_get_deleted_and_modified := gdm |}.

(** A child as read: [flags] is the filter's answer for it. *)
Definition shows_child (fi : FileInfo) (parent : ustr) (sub_filter : option Filter)
    (self_is : bool) (flags : HiveKey -> Z) (n : CellKeyNode) (t : HiveKey) : Prop :=
  shows_cell fi parent n t /\ is_exact n = bf_contains (flags t) FILTER_KEY_MATCH /\
  is_filter_match_or_descendent n = bf_contains (flags t) FILTER_KEY_MATCH || self_is /\
  (should_read_values sub_filter (flags t) self_is = true ->
   Forall2 shows_value (n_sub_values n) (hk_values t)).

Definition visited (flags : HiveKey -> Z) (t : HiveKey) : Prop :=
  bf_contains (flags t) FILTER_NO_MATCH = false.
#[export] Instance visited_dec flags t : Decision (visited flags t).
Proof. unfold visited. apply _. Defined.

Lemma classify_stored fi parent sub_filter self_is valid flags n t :
  shows_cell fi parent n t ->
  it_filter_state (n_iteration_state n)
    = (if bf_contains (flags t) FILTER_KEY_MATCH then Some FMS_Exact else None) ->
  (should_read_values sub_filter (flags t) self_is = true ->
   Forall2 shows_value (n_sub_values n) (hk_values t)) ->
  shows_child fi parent sub_filter self_is flags (classify_child self_is valid n).1 t /\
  (classify_child self_is valid n).2 = is_exact (classify_child self_is valid n).1.
Proof.
  intros Hcell Hit Hvals. unfold classify_child. rewrite Hit.
  assert (forall v, shows_cell fi parent (n_set_filter_state v n) t /\
    n_sub_values (n_set_filter_state v n) = n_sub_values n) as Hset.
  { intros v. split; [|by destruct n]. apply (shows_cell_ext fi parent n); by destruct n. }
  destruct (bf_contains (flags t) FILTER_KEY_MATCH) eqn:Hm; cbn [fst snd].
  - unfold shows_child, is_exact, is_filter_match_or_descendent. rewrite Hit, Hm.
    split_and!; done.
  - destruct self_is, valid; cbn [fst snd]; unfold shows_child, is_exact,
      is_filter_match_or_descendent; rewrite ?Hm; split_and!; try done;
      try apply Hset; try (destruct n; cbn in *; subst; done);
      try (intros Hw; rewrite (proj2 (Hset _)); by apply Hvals).
    + by rewrite Hit.
    + by rewrite Hit.
    + by rewrite Hit.
Qed.

Lemma read_sub_keys_loop_stored {Er} fuel fi depth f sub_filter self_is sn gdm flags ts :
  (1 <= fuel)%nat -> 0 <= hbin_offset_absolute fi ->
  forall n st children found, ok st ->
  Forall (stores_key fi depth) ts ->
  Forall (fun t => filter_answers fi (child_options (n_path n) sub_filter self_is sn gdm
                                     (hk_offset t)) t (flags t)) ts ->
  exists st' kids,
    read_sub_keys_loop (Er:=Er) fuel fi f sub_filter self_is sn gdm (hk_offset <$> ts)
      children found (n, st) = ((n, st'), Ok (children ++ kids, found || existsb is_exact kids)) /\
    ok st' /\
    Forall2 (shows_child fi (n_path n) sub_filter self_is flags) kids (filter (visited flags) ts).
Proof.
  intros Hf Hh. induction ts as [|t ts IH]; intros n st children found Hc Hts Hans.
  { exists st, []. cbn. rewrite app_nil_r, orb_false_r. split_and!; [done|done|constructor]. }
  apply Forall_cons in Hts as [Ht Hts]. apply Forall_cons in Hans as [Ha Hans].
  destruct (read_stored fuel fi depth t (child_options (n_path n) sub_filter self_is sn gdm
    (hk_offset t)) st (flags t) Hf Hh Ht eq_refl Hc Ha) as (st1 & r & Hr & Hc1 & Hcase).
  cbn [read_sub_keys_loop fmap list_fmap]. unfold m_bind at 1, m_get. cbn [fst].
  unfold child_options in Hr. unfold m_bind at 1, nm_state, m_try. cbn [snd fst]. rewrite Hr.
  rewrite filter_cons. destruct (decide (visited flags t)) as [Hv|Hv]; unfold visited in Hv.
  2:{ apply not_false_iff_true in Hv. rewrite Hv in Hcase. subst r. cbn [fst]. by apply IH. }
  rewrite Hv in Hcase. destruct Hcase as (k & -> & Hcell & Hit & Hvals). cbn [fst].
  destruct (classify_stored fi (n_path n) sub_filter self_is (Filter_is_valid f) flags k t
    Hcell Hit Hvals) as [Hchild Hex].
  destruct (classify_child self_is (Filter_is_valid f) k) as [k' ex]. cbn [fst snd] in *.
  destruct (IH n st1 (children ++ [k']) (found || ex) Hc1 Hts Hans)
    as (st2 & kids & -> & Hc2 & Hall).
  exists st2, (k' :: kids). rewrite <- app_assoc. cbn [app existsb].
  rewrite Hex, orb_assoc. split_and!; [done|done|by constructor].
Qed.

(** The children of a stored key are read, in order, apart from those the filter rejects. *)
Lemma read_sub_keys_stored {Er} fuel fi depth f sn gdm flags parent n t st :
  (1 <= fuel)%nat -> (depth <= fuel)%nat -> 0 <= hbin_offset_absolute fi < U32_MOD ->
  ok st -> stores_key fi depth t -> Forall (stores_key fi depth) (hk_subkeys t) ->
  shows_cell fi parent n t ->
  let self_is := is_filter_match_or_descendent n in
  let sub_filter := if self_is && return_sub_keys f then None else Some f in
  Forall (fun s => filter_answers fi (child_options (n_path n) sub_filter self_is sn gdm
                                     (hk_offset s)) s (flags s)) (hk_subkeys t) ->
  exists st' kids offs,
    read_sub_keys_internal (Er:=Er) fuel fi f sn gdm (n, st)
      = ((n_set_cell_sub_key_offsets_absolute offs n, st'), Ok (kids, existsb is_exact kids)) /\
    ok st' /\
    Forall2 (shows_child fi (n_path n) sub_filter self_is flags) kids
      (filter (visited flags) (hk_subkeys t)).
Proof.
  intros Hf Hd Hh Hc Hkey Hsubs Hcell self_is sub_filter Hans.
  unfold read_sub_keys_internal, m_bind at 1, m_get. cbn [fst].
  rewrite bool_decide_true by apply Hcell. destruct Hkey as (_ & _ & _ & _ & _ & _ & Hmax & Hlist).
  rewrite (sc_count _ _ _ _ Hcell). rewrite (proj2 (Z.ltb_ge _ _)) by lia.
  destruct (decide (hk_subkeys t = [])) as [Hnil|Hne].
  { exists st, [], (n_cell_sub_key_offsets_absolute n). rewrite Hnil.
    split_and!; [by destruct n|done|constructor]. }
  assert (0 < len (hk_subkeys t)) as Hpos by (destruct (hk_subkeys t); [done|len_lia]).
  rewrite (proj2 (Z.ltb_lt _ _) Hpos), (sc_list _ _ _ _ Hcell).
  unfold m_bind at 1, nm_state, m_try, m_lift. cbn [fst snd].
  rewrite (parse_sub_key_list_stored depth fi _ _ fuel Hh (Hlist Hne) Hd).
  cbn [fst]. fold self_is. fold sub_filter.
  destruct (read_sub_keys_loop_stored (Er:=Er) fuel fi depth f sub_filter self_is sn gdm flags
    (hk_subkeys t) Hf ltac:(lia) n st [] false Hc Hsubs Hans) as (st' & kids & Hloop & Hc' & Hall).
  unfold m_bind at 1. rewrite Hloop. exists st', kids, (hk_offset <$> hk_subkeys t). done.
Qed.

End Stored.


(** ** Traversals *)

Lemma bf_contains_iterate :
  bf_contains FILTER_ITERATE_KEYS FILTER_NO_MATCH = false /\
  bf_contains FILTER_ITERATE_KEYS FILTER_KEY_MATCH = false.
Proof. rewrite !bf_contains_spec. done. Qed.

(** Keys at fresh offsets are all pushed, the first on top. *)
Lemma push_fresh ns c :
  NoDup (n_file_offset_absolute <$> ns) ->
  (forall o, o ∈ n_file_offset_absolute <$> ns -> o ∉ c_stack_file_offsets c) ->
  let c' := foldr push_check_stack_to_traverse c ns in
  c_stack_to_traverse c' = ns ++ c_stack_to_traverse c /\
  c_stack_file_offsets c' = list_to_set (n_file_offset_absolute <$> ns) ∪ c_stack_file_offsets c /\
  c_state c' = c_state c /\ c_filter c' = c_filter c /\
  c_filter_include_ancestors c' = c_filter_include_ancestors c.
Proof.
  induction ns as [|n ns IH]; intros Hnd Hfresh; cbn.
  { split_and!; try done. set_solver. }
  apply NoDup_cons in Hnd as [Hn Hnd].
  destruct IH as (Hst & Hseen & Hs & Hf & Hg); [done|set_solver|].
  set (c1 := foldr _ c ns) in *. unfold push_check_stack_to_traverse.
  rewrite bool_decide_false by (rewrite Hseen; set_solver).
  destruct c1. cbn in *. subst. split_and!; try done. set_solver.
Qed.

(** The keys [flags] lets a traversal visit below a key, each with whether it is a match or
    lies under one: [flags matched parent] answers for the children of a key at [parent]. *)
Section Visits.
Variable flags : bool -> ustr -> HiveKey -> Z.

Definition matched_child (matched : bool) (path : ustr) (s : HiveKey) : bool :=
  bf_contains (flags matched path s) FILTER_KEY_MATCH || matched.

Fixpoint visits (matched : bool) (parent : ustr) (t : HiveKey)
    : list (bool * (ustr * KeyData)) :=
  match t with
  | HKey _ name data subkeys =>
      let path := parent ++ [BACKSLASH] ++ name in
      (matched, (path, data)) ::
      foldr (fun s acc =>
        (if bf_contains (flags matched path s) FILTER_NO_MATCH then []
         else visits (matched_child matched path s) path s) ++ acc) [] subkeys
  end.

(** The stack entries for the children a visit pushes. *)
Definition pushed (matched : bool) (path : ustr) (ts : list HiveKey)
    : list (bool * ustr * HiveKey) :=
  (fun s => (matched_child matched path s, path, s))
    <$> filter (visited (flags matched path)) ts.

(** What is still to come from a stack, and the offsets not pushed yet. *)
Definition to_come (pts : list (bool * ustr * HiveKey)) : list (bool * (ustr * KeyData)) :=
  pts ≫= (fun pt => visits pt.1.1 pt.1.2 pt.2).
Definition to_push (pts : list (bool * ustr * HiveKey)) : list Z :=
  pts ≫= (fun pt => offsets_of (hk_subkeys pt.2)).

Lemma to_come_app a b : to_come (a ++ b) = to_come a ++ to_come b.
Proof. apply bind_app. Qed.
Lemma to_push_app a b : to_push (a ++ b) = to_push a ++ to_push b.
Proof. apply bind_app. Qed.

Lemma visits_eq matched parent t :
  let path := hk_path parent t in
  visits matched parent t = (matched, (path, hk_data t)) :: to_come (pushed matched path (hk_subkeys t)).
Proof.
  destruct t as [o name vs ts]. cbn [visits hk_values hk_subkeys]. cbv zeta. unfold hk_path.
  cbn [hk_name]. set (path := parent ++ [BACKSLASH] ++ name). f_equal. unfold pushed, to_come.
  induction ts as [|s ts IH]; [done|]. cbn [foldr]. rewrite IH, filter_cons.
  destruct (decide (visited (flags matched path) s)) as [Hv|Hv]; unfold visited in Hv.
  - by rewrite Hv.
  - apply not_false_iff_true in Hv. by rewrite Hv.
Qed.

(** The offsets of the children pushed and of what lies below them are among those below. *)
Lemma to_push_pushed matched path ts pts :
  (hk_offset <$> filter (visited (flags matched path)) ts) ++ to_push (pushed matched path ts ++ pts)
    ⊆+ offsets_of ts ++ to_push pts.
Proof.
  rewrite to_push_app, app_assoc. apply submseteq_skips_r.
  assert (to_push (pushed matched path ts)
    = filter (visited (flags matched path)) ts ≫= (fun t => offsets_of (hk_subkeys t))) as ->.
  { unfold to_push, pushed. induction (filter _ ts) as [|s l IH]; [done|]. cbn. by rewrite <- IH. }
  rewrite <- offsets_of_tops. induction ts as [|s ts IH]; [done|]. rewrite filter_cons.
  destruct (decide _); cbn [offsets_of foldr]; fold (offsets_of ts);
    fold (offsets_of (filter (visited (flags matched path)) ts)).
  - by apply submseteq_skips_l.
  - by apply submseteq_inserts_l.
Qed.
End Visits.

(** What a filter is known to answer on the tree that is traversed: [in_tree parent t] says
    that [t] is a key of it at [parent]. *)
Record filter_on_tree (ok : State -> Prop) (fi : FileInfo) (f : Filter)
    (flags : bool -> ustr -> HiveKey -> Z) (in_tree : ustr -> HiveKey -> Prop) : Prop := {
  ft_below parent t s : in_tree parent t -> s ∈ hk_subkeys t -> in_tree (hk_path parent t) s;
  ft_answers matched parent t s sn gdm :
    in_tree parent t -> s ∈ hk_subkeys t ->
    filter_answers ok fi
      (child_options (hk_path parent t)
         (if matched && return_sub_keys f then None else Some f) matched sn gdm (hk_offset s))
      s (flags matched (hk_path parent t) s);
}.

Section Walk.
Context (ok : State -> Prop) `{!ReaderInv ok} (parser : Parser) (fuel depth : nat) (f : Filter)
  (include : bool) (flags : bool -> ustr -> HiveKey -> Z) (in_tree : ustr -> HiveKey -> Prop).
Abbreviation fi := (file_info parser).
Hypothesis Hfuel : (1 <= fuel)%nat.
Hypothesis Hdepth : (depth <= fuel)%nat.
Hypothesis Hbins : 0 <= hbin_offset_absolute fi < U32_MOD.
Hypothesis Hfilter : filter_on_tree ok fi f flags in_tree.

(** A key's values are read when it matches, and always without a filter. *)
Definition values_read (matched : bool) : bool := matched || negb (Filter_is_valid f).
(** A key is returned when it matches, and always when ancestors are included or there is no
    filter. *)
Definition returned (matched : bool) : bool := include || negb (Filter_is_valid f) || matched.

(** The key of a traversal that stands for an entry. *)
Definition shows_entry (n : CellKeyNode) (e : bool * (ustr * KeyData)) : Prop :=
  shows_info n e.2 /\
  (values_read e.1 = true -> Forall2 shows_value (n_sub_values n) (kd_values e.2.2)).

(** A node on the stack and the stored key it stands for. *)
Definition to_visit (n : CellKeyNode) (pt : bool * ustr * HiveKey) : Prop :=
  shows_cell fi pt.1.2 n pt.2 /\
  (values_read pt.1.1 = true -> Forall2 shows_value (n_sub_values n) (hk_values pt.2)) /\
  every_key (stores_key fi depth) pt.2 /\ is_filter_match_or_descendent n = pt.1.1 /\
  in_tree pt.1.2 pt.2.

(** What a traversal keeps true of its context. *)
Definition context_ok (c : ParserIteratorContext) (pts : list (bool * ustr * HiveKey)) : Prop :=
  Forall2 to_visit (c_stack_to_traverse c) pts /\
  ok (c_state c) /\ c_filter c = f /\ c_filter_include_ancestors c = include /\
  NoDup (to_push pts) /\ (forall o, o ∈ to_push pts -> o ∉ c_stack_file_offsets c).

Lemma to_visit_child matched path k s :
  shows_child fi path (if matched && return_sub_keys f then None else Some f) matched
    (flags matched path) k s ->
  every_key (stores_key fi depth) s -> in_tree path s ->
  to_visit k (matched_child flags matched path s, path, s).
Proof.
  intros (Hk & Hex & Hm & Hv) Hs Hin. unfold to_visit. cbn [fst snd].
  split_and!; try done. intros Hread. apply Hv.
  unfold values_read, matched_child, should_read_values in *.
  apply orb_true_iff in Hread as [Hread|Hread]; [apply orb_true_iff in Hread as [Hread|Hread]|].
  - by rewrite Hread, orb_true_r.
  - by rewrite Hread.
  - destruct (matched && return_sub_keys f); cbn; [by rewrite !orb_true_r|].
    by rewrite Hread, !orb_true_r.
Qed.

Lemma read_children_stored {Er} matched parent n t c :
  ok (c_state c) -> c_filter c = f -> to_visit n (matched, parent, t) ->
  exists st kids offs,
    read_children (Er:=Er) fuel parser n c
      = (c_set_state st c, Ok (n_set_cell_sub_key_offsets_absolute offs n, kids)) /\
    ok st /\ Forall2 to_visit kids (pushed flags matched (hk_path parent t) (hk_subkeys t)).
Proof using Type*.
  intros Hc Hf (Hcell & Hvals & Hevery & Hmatched & Hin). cbn [fst snd] in *.
  apply every_key_eq in Hevery as [Hkey Hsubs]. set (path := hk_path parent t) in *.
  destruct (read_sub_keys_stored (Er:=Er) ok fuel fi depth f None (c_get_modified_items c)
    (flags matched path) parent n t (c_state c) Hfuel Hdepth Hbins Hc Hkey)
    as (st & kids & offs & Hr & Hc' & Hall).
  { eapply Forall_impl; [exact Hsubs|]. intros s Hs. by apply every_key_eq in Hs as [? _]. }
  { done. }
  { rewrite Hmatched, (sc_path _ _ _ _ Hcell). apply Forall_forall. intros s Hs.
    by apply (ft_answers _ _ _ _ _ Hfilter). }
  exists st, kids, offs. unfold read_children. rewrite Hf, Hr. split_and!; [done|done|].
  rewrite Hmatched, (sc_path _ _ _ _ Hcell) in Hall. fold path in Hall.
  assert (Forall (fun s => every_key (stores_key fi depth) s /\ in_tree path s)
    (filter (visited (flags matched path)) (hk_subkeys t))) as Hts.
  { apply Forall_forall. intros s [_ Hs]%list_elem_of_filter. split.
    - rewrite Forall_forall in Hsubs. by apply Hsubs.
    - by apply (ft_below _ _ _ _ _ Hfilter). }
  unfold pushed. revert Hall Hts. generalize (filter (visited (flags matched path)) (hk_subkeys t)).
  clear. intros ts Hall Hts. induction Hall as [|k s kids ts Hk _ IH]; [constructor|].
  apply Forall_cons in Hts as [[Hs Hs'] Hts]. constructor; [by apply to_visit_child|by apply IH].
Qed.

(** What a visit does, when the children it reads are known. *)
Lemma visit_run {Er} n st offs kids c :
  read_children (Er:=Er) fuel parser n c
    = (c_set_state st c, Ok (n_set_cell_sub_key_offsets_absolute offs n, kids)) ->
  n_deleted_keys n = [] ->
  exists n', visit (Er:=Er) fuel parser n c
      = (if 0 <? node_number_of_sub_keys n
         then foldr push_check_stack_to_traverse (c_set_state st c) kids else c, Ok n') /\
    (forall kv, shows_info n kv -> shows_info n' kv) /\ n_sub_values n' = n_sub_values n /\
    is_filter_match_or_descendent n' = is_filter_match_or_descendent n.
Proof.
  intros Hread Hdel.
  assert (forall c : ParserIteratorContext, c_set_stack_to_traverse (c_stack_to_traverse c) c = c)
    as Hid by by intros [].
  unfold visit. destruct (0 <? node_number_of_sub_keys n).
  - unfold m_bind at 1. rewrite (m_bind_run _ _ _ _ _ Hread). unfold m_bind, m_modify, m_ret.
    destruct n. cbn in *. subst. cbn. rewrite Hid. eexists. split_and!; try done.
    intros kv. by apply shows_info_ext.
  - unfold m_bind, m_modify, m_ret. rewrite Hdel. cbn. rewrite Hid. eexists.
    split; [reflexivity|]. split_and!; [|by destruct n..]. intros kv. by apply shows_info_ext; destruct n.
Qed.

Lemma to_visit_offsets kids matched path ts :
  Forall2 to_visit kids (pushed flags matched path ts) ->
  n_file_offset_absolute <$> kids = hk_offset <$> filter (visited (flags matched path)) ts.
Proof.
  unfold pushed. generalize (filter (visited (flags matched path)) ts). clear. intros ts' Hall.
  revert kids Hall. induction ts' as [|s ts' IH]; intros kids Hall;
    inversion Hall as [|k ? kids' ? [Hcell _] Hrest]; subst; [done|].
  cbn. by rewrite (sc_offset _ _ _ _ Hcell), (IH kids' Hrest).
Qed.

(** The children pushed by a visit leave a context to go on with. *)
Lemma push_context_ok kids matched path ts pts st c :
  Forall2 to_visit kids (pushed flags matched path ts) -> ok st ->
  Forall2 to_visit (c_stack_to_traverse c) pts -> c_filter c = f ->
  c_filter_include_ancestors c = include -> NoDup (offsets_of ts ++ to_push pts) ->
  (forall o, o ∈ offsets_of ts ++ to_push pts -> o ∉ c_stack_file_offsets c) ->
  context_ok (foldr push_check_stack_to_traverse (c_set_state st c) kids)
    (pushed flags matched path ts ++ pts).
Proof.
  intros Hkids Hok Hstack Hf Hinc Hnd Hfresh.
  pose proof (to_push_pushed flags matched path ts pts) as Hsub.
  rewrite <- (to_visit_offsets _ _ _ _ Hkids) in Hsub.
  assert (NoDup ((n_file_offset_absolute <$> kids) ++ to_push (pushed flags matched path ts ++ pts)))
    as Hnd' by by destruct (submseteq_Permutation _ _ Hsub) as [rest Hrest]; rewrite Hrest in Hnd;
    apply NoDup_app in Hnd as [? _].
  apply NoDup_app in Hnd' as (Hnd1 & Hdisj & Hnd2).
  assert (forall o, o ∈ (n_file_offset_absolute <$> kids) ++ to_push (pushed flags matched path ts ++ pts) ->
    o ∉ c_stack_file_offsets (c_set_state st c)) as Hfresh'.
  { intros o Ho. replace (c_stack_file_offsets (c_set_state st c)) with (c_stack_file_offsets c)
      by by destruct c. apply Hfresh. by eapply elem_of_submseteq. }
  destruct (push_fresh kids (c_set_state st c)) as (Hst & Hseen & Hs & Hfi & Hin); [done| |].
  { intros o Ho. apply Hfresh'. apply elem_of_app. by left. }
  split_and!.
  - rewrite Hst. apply Forall2_app; [done|by destruct c].
  - rewrite Hs. by destruct c.
  - rewrite Hfi. by destruct c.
  - rewrite Hin. by destruct c.
  - done.
  - intros o Ho. rewrite Hseen. apply not_elem_of_union. split.
    + rewrite elem_of_list_to_set. intros Hk. by apply (Hdisj o Hk).
    + apply Hfresh'. apply elem_of_app. by right.
Qed.

(** A visit pushes the children; the node comes back as it was stored. *)
Lemma visit_stored {Er} matched parent n t pts c :
  to_visit n (matched, parent, t) -> Forall2 to_visit (c_stack_to_traverse c) pts ->
  ok (c_state c) -> c_filter c = f -> c_filter_include_ancestors c = include ->
  NoDup (to_push ((matched, parent, t) :: pts)) ->
  (forall o, o ∈ to_push ((matched, parent, t) :: pts) -> o ∉ c_stack_file_offsets c) ->
  exists c' n', visit (Er:=Er) fuel parser n c = (c', Ok n') /\
    shows_entry n' (matched, (hk_path parent t, hk_data t)) /\
    is_filter_match_or_descendent n' = matched /\
    context_ok c' (pushed flags matched (hk_path parent t) (hk_subkeys t) ++ pts).
Proof.
  intros Hn Hstack Hc Hf Hinc Hnd Hfresh.
  destruct (read_children_stored (Er:=Er) matched parent n t c Hc Hf Hn)
    as (st & kids & offs & Hread & Hc' & Hkids).
  pose proof Hn as (Hcell & Hvals & _ & Hmatched & _). cbn [fst snd] in *.
  destruct (visit_run (Er:=Er) n st offs kids c Hread (sc_deleted _ _ _ _ Hcell))
    as (n' & Hv & Hinfo & Hvs & Hm).
  eexists _, n'. split; [exact Hv|]. split; [|split; [by rewrite Hm|]].
  { split; [by apply Hinfo, (shows_cell_info fi)|by rewrite Hvs]. }
  destruct (Z.ltb_spec 0 (node_number_of_sub_keys n)) as [_|Hz]; [by apply push_context_ok|].
  rewrite (sc_count _ _ _ _ Hcell) in Hz. assert (hk_subkeys t = []) as Hnil.
  { apply nil_length_inv. unfold len in Hz. lia. }
  unfold to_push in Hnd, Hfresh. cbn in Hnd, Hfresh. rewrite Hnil in *. by split_and!.
Qed.

Definition entries (pts : list (bool * ustr * HiveKey)) : list (bool * (ustr * KeyData)) :=
  filter (fun e => returned e.1) (to_come flags pts).

(** A traversal yields the keys its stack stands for, those it does not return left out. *)
Lemma preorder_stored {Er} c pts :
  context_ok c pts ->
  exists ks, preorder_run Er fuel parser c ks /\ Forall2 shows_entry ks (entries pts).
Proof.
  remember (length (to_come flags pts)) as m eqn:Hm. revert c pts Hm.
  induction m as [m IH] using lt_wf_ind. intros c pts -> (Hstack & Hc & Hf & Hinc & Hnd & Hfresh).
  destruct (c_stack_to_traverse c) as [|n stack] eqn:Hst;
    inversion Hstack as [|? [[matched parent] t] ? pts' Hn Hrest]; subst pts.
  { exists []. split; [by constructor|constructor]. }
  destruct (visit_stored (Er:=Er) matched parent n t pts' (c_set_stack_to_traverse stack c)
    Hn) as (c' & n' & Hv & Hshow & Hm & Hok); try by destruct c.
  assert (to_come flags ((matched, parent, t) :: pts') = (matched, (hk_path parent t, hk_data t)) ::
    to_come flags (pushed flags matched (hk_path parent t) (hk_subkeys t) ++ pts')) as Hcome.
  { rewrite to_come_app. unfold to_come at 1. cbn [mbind list_bind fst snd].
    rewrite visits_eq. reflexivity. }
  edestruct (IH _ ltac:(rewrite Hcome; cbn [length]; apply Nat.lt_succ_diag_r) c' _ eq_refl Hok)
    as (ks & Hrun & Hks).
  assert (keep_preorder c' n' = returned matched) as Hkeep.
  { unfold keep_preorder, returned. destruct Hok as (_ & _ & -> & -> & _). by rewrite Hm. }
  unfold entries in *. rewrite Hcome, filter_cons. cbn [fst].
  destruct (decide (returned matched)) as [Hret|Hret]; rewrite <- Hkeep in Hret.
  - exists (n' :: ks). split; [|by constructor].
    eapply run_keep; [by exists n, stack|by apply Is_true_true|done].
  - exists ks. split; [|done].
    eapply run_skip; [by exists n, stack|by apply Is_true_false|done].
Qed.

(** A stored tree is traversed from its root, whose cell was read without a filter. *)
Lemma traversal_on_tree {Er} t root :
  stores_tree fi depth t -> ok (state parser) -> in_tree [] t ->
  cell_key_node_root parser = Some root -> shows_cell fi [] root t ->
  Forall2 shows_value (n_sub_values root) (hk_values t) ->
  is_filter_match_or_descendent root = false ->
  exists m ks, collect_keys (Er:=Er) m m fuel parser
      (pi_filter_include_ancestors include (pi_with_filter f (ParserIterator_new parser))) = Ok ks /\
    Forall2 shows_entry ks (filter (fun e => returned e.1) (visits flags false [] t)).
Proof.
  intros [Hevery Hnd] Hc Hin Hroot Hcell Hvals Hnone.
  assert (to_push [(false, [], t)] = offsets_of (hk_subkeys t)) as Hpush by apply app_nil_r.
  set (i := pi_filter_include_ancestors _ _).
  destruct (preorder_stored (Er:=Er) (pi_context i) [(false, [], t)]) as (ks & Hrun & Hks).
  - unfold i, ParserIterator_new, from_parser. cbn. rewrite Hroot. cbn.
    rewrite offsets_eq in Hnd. apply NoDup_cons in Hnd as [Hno Hnd].
    split_and!; rewrite ?Hpush; [constructor; [by split_and!|constructor]|done..|].
    rewrite (sc_offset _ _ _ _ Hcell). cbn. intros o Ho. rewrite not_elem_of_singleton.
    by intros ->.
  - destruct (collect_keys_run fuel parser (pi_context i) ks Hrun) as [m Hm]. exists m, ks.
    split; [exact Hm|]. unfold entries, to_come in Hks. cbn in Hks. by rewrite app_nil_r in Hks.
Qed.
End Walk.

(** *** Without filter *)

(** A parser whose root is the stored tree, in a state with nothing recorded. *)
Definition fresh (st : State) : Prop := clean st /\ root_key_path_offset st = 0.
#[export] Instance fresh_inv : ReaderInv fresh.
Proof. split; [by intros st []|]. by intros h []. Qed.

Definition parser_stores (depth : nat) (parser : Parser) (t : HiveKey) : Prop :=
  stores_tree (file_info parser) depth t /\ fresh (state parser) /\
  0 <= hbin_offset_absolute (file_info parser) < U32_MOD /\
  exists root, cell_key_node_root parser = Some root /\
    shows_cell (file_info parser) [] root t /\
    Forall2 shows_value (n_sub_values root) (hk_values t) /\
    is_filter_match_or_descendent root = false.

Definition flags_all (matched : bool) (path : ustr) (t : HiveKey) : Z := FILTER_ITERATE_KEYS.

Lemma no_filter_on_tree fi : filter_on_tree clean fi Filter_new flags_all (fun _ _ => True).
Proof.
  split; [done|]. intros matched parent t s sn gdm _ _ n st _ Hc.
  assert (o_filter (child_options (hk_path parent t) (if matched && return_sub_keys Filter_new
    then None else Some Filter_new) matched sn gdm (hk_offset s)) = Some Filter_new) as ->
    by by destruct matched.
  by exists st.
Qed.

Lemma visits_all parent t : visits flags_all false parent t = (fun kv => (false, kv)) <$> keys parent t.
Proof.
  remember (levels t) as m eqn:Hm. revert parent t Hm.
  induction m as [m IH] using lt_wf_ind. intros parent [o name vs ts] ->.
  cbn [visits keys fmap list_fmap]. f_equal. set (path := parent ++ [BACKSLASH] ++ name).
  assert (Forall (fun s => levels s < levels (HKey o name vs ts))%nat ts) as Hlt
    by (apply Forall_forall; intros s Hs; by apply levels_child).
  revert Hlt. generalize (levels (HKey o name vs ts)) as k, IH. clear. intros k IH Hlt.
  destruct bf_contains_iterate as [Hno Hm].
  induction ts as [|s ts IHs]; [done|]. apply Forall_cons in Hlt as [Hs Hlt]. cbn [foldr].
  rewrite IHs, fmap_app by done. f_equal. unfold flags_all at 1. rewrite Hno.
  change (matched_child flags_all false path s)
    with (bf_contains FILTER_ITERATE_KEYS FILTER_KEY_MATCH || false).
  rewrite Hm. by apply (IH (levels s)).
Qed.

Lemma traversal_stored {Er} fuel parser depth t :
  (1 <= fuel)%nat -> (depth <= fuel)%nat -> parser_stores depth parser t ->
  exists m ks, collect_keys (Er:=Er) m m fuel parser (ParserIterator_new parser) = Ok ks /\
    Forall2 shows_key ks (keys [] t).
Proof.
  intros Hf Hd (Hst & [Hc _] & Hh & root & Hroot & Hcell & Hvals & Hnone).
  destruct (traversal_on_tree (Er:=Er) clean parser fuel depth Filter_new false flags_all
    (fun _ _ => True) Hf Hd Hh (no_filter_on_tree _) t root) as (m & ks & Hrun & Hks); try done.
  exists m, ks. split; [exact Hrun|]. rewrite visits_all in Hks. revert Hks. clear.
  generalize (keys [] t). intros kvs.
  assert (forall l : list (bool * (ustr * KeyData)),
    filter (fun e => returned Filter_new false e.1) l = l) as Hall
    by (induction l as [|e l IH]; [done|]; rewrite filter_cons, decide_True by done; by rewrite IH).
  rewrite Hall. clear Hall. revert ks. induction kvs as [|kv kvs IH]; intros ks Hks;
    inversion Hks as [|k ? ks' ? [Hi Hv] Hrest]; subst; [constructor|].
  constructor; [|by apply IH]. split; [done|]. by apply Hv.
Qed.
End Reading.
