(* ===== verification/TraversalFacts.v ===== *)
(** * TraversalFacts: the two orders of a traversal

    A preorder and a postorder traversal of [Parser] walk the same tree of keys. *)

From S2P Require Import Prelude Env Log Util Cells BaseBlock SubKeyLists Values ValueFacts State Filter KeyNode KeyNodeFacts Recover Parser ParserFacts.

(** ** Forests *)

Section Forests.
Context `{E : Env}.

(** A key, the keys below it, and those after it. *)
Inductive forest :=
  | F_nil
  | F_cons (n : CellKeyNode) (children siblings : forest).

Fixpoint preorder (F : forest) : list CellKeyNode :=
  match F with
  | F_nil => []
  | F_cons n children siblings => n :: preorder children ++ preorder siblings
  end.
Fixpoint postorder (F : forest) : list CellKeyNode :=
  match F with
  | F_nil => []
  | F_cons n children siblings => postorder children ++ n :: postorder siblings
  end.
Fixpoint width (F : forest) : nat :=
  match F with F_nil => 0 | F_cons _ _ siblings => S (width siblings) end.

Definition to_return (n : CellKeyNode) : Z := it_to_return (n_iteration_state n).
Definition track_returned (n : CellKeyNode) : Z := it_track_returned (n_iteration_state n).

(** A key counts the keys right below it. *)
Fixpoint counted (F : forest) : Prop :=
  match F with
  | F_nil => True
  | F_cons n children siblings =>
      to_return n = Z.of_nat (width children) /\ counted children /\ counted siblings
  end.

Lemma forest_split F k :
  (k <= width F)%nat -> counted F ->
  exists A B, width A = k /\ width B = (width F - k)%nat /\ preorder F = preorder A ++ preorder B /\
    counted A /\ counted B.
Proof.
  revert k. induction F as [|n ch _ sib IH]; intros k Hk HF.
  - cbn in Hk. exists F_nil, F_nil. split_and!; try done. cbn. lia.
  - destruct k as [|k]; [by exists F_nil, (F_cons n ch sib)|]. destruct HF as (Hn & Hch & Hsib).
    cbn in Hk. destruct (IH k) as (A & B & HA & HB & Hpre & HcA & HcB); [lia|done|].
    exists (F_cons n ch A), B. cbn. rewrite HA, HB, Hpre. by rewrite <- app_assoc.
Qed.
End Forests.

(** ** Walks *)

Section Walks.
Context `{E : Env}.
Variable depth : nat.
Variable parser : Parser.
Abbreviation step := (preorder_step Error depth parser).

(** The keys visited on the way from one context to another. *)
Inductive walk : ParserIteratorContext -> list CellKeyNode -> ParserIteratorContext -> Prop :=
  | walk_nil c : walk c [] c
  | walk_cons c n c1 ks c' : step c n c1 -> walk c1 ks c' -> walk c (n :: ks) c'.

Lemma walk_app c ks ks' c' : walk c (ks ++ ks') c' <-> exists c1, walk c ks c1 /\ walk c1 ks' c'.
Proof.
  revert c. induction ks as [|n ks IH]; intros c; cbn.
  - split; [intros H; exists c; split; [constructor|done]|]. intros (c1 & H1 & H2). by inversion H1; subst.
  - split.
    + inversion 1 as [|? ? c1 ? ? Hs Hw]; subst. apply IH in Hw as (c2 & H1 & H2).
      exists c2. split; [by econstructor|done].
    + intros (c2 & H1 & H2). inversion H1 as [|? ? c1 ? ? Hs Hw]; subst.
      econstructor; [done|]. apply IH. by exists c2.
Qed.

(** *** What a visit does not look at *)

Lemma push_set_return n R c :
  push_check_stack_to_traverse n (c_set_stack_to_return R c)
    = c_set_stack_to_return R (push_check_stack_to_traverse n c).
Proof.
  destruct c. unfold push_check_stack_to_traverse. cbn. by case_bool_decide.
Qed.
Lemma push_all_set_return ns R c :
  foldr push_check_stack_to_traverse (c_set_stack_to_return R c) ns
    = c_set_stack_to_return R (foldr push_check_stack_to_traverse c ns).
Proof. induction ns as [|n ns IH]; [done|]. cbn. by rewrite IH, push_set_return. Qed.

Lemma visit_set_return R node c c' node' :
  visit (Er:=Error) depth parser node c = (c', Ok node') ->
  visit (Er:=Error) depth parser node (c_set_stack_to_return R c)
    = (c_set_stack_to_return R c', Ok node').
Proof.
  unfold visit. intros (c1 & n1 & H1 & H)%m_bind_Ok.
  assert (forall v c, c_set_stack_to_traverse v (c_set_stack_to_return R c)
    = c_set_stack_to_return R (c_set_stack_to_traverse v c)) as Hcomm by (by intros v []).
  assert (forall c, c_stack_to_traverse (c_set_stack_to_return R c) = c_stack_to_traverse c)
    as Hget by (by intros []).
  assert ((if 0 <? node_number_of_sub_keys node then
     let* (node, children) := read_children depth parser node in
     m_modify (fun c => foldr push_check_stack_to_traverse c children);;;
     m_ret (n_set_to_return (len children mod U32_MOD) node)
   else m_ret node) (c_set_stack_to_return R c) = (c_set_stack_to_return R c1, Ok (E:=Error) n1))
    as H1'.
  { destruct (0 <? node_number_of_sub_keys node); [|by injection H1 as <- <-].
    apply m_bind_Ok in H1 as (c2 & [n2 cs] & Hr & H1).
    assert (read_children (Er:=Error) depth parser node (c_set_stack_to_return R c)
      = (c_set_stack_to_return R c2, Ok (n2, cs))) as Hr'.
    { unfold read_children in *. destruct c as [st ft T O R' gm ia].
      cbn [c_filter c_state c_get_modified_items c_set_stack_to_return] in *.
      destruct (read_sub_keys_internal _ _ _ _ _ _) as [[n3 st3] [[cs3 b]| | |]]; try done.
      by injection Hr as <- <- <-. }
    rewrite (m_bind_run _ _ _ _ _ Hr'). unfold m_bind, m_modify, m_ret in *.
    injection H1 as <- <-. by rewrite push_all_set_return. }
  rewrite (m_bind_run _ _ _ _ _ H1'). unfold m_bind, m_modify, m_ret in *.
  injection H as <- <-. by rewrite Hget, Hcomm.
Qed.

(** *** What a visit pushes *)

Lemma push_all_stack ns c :
  (length (c_stack_to_traverse (foldr push_check_stack_to_traverse c ns))
    <= length ns + length (c_stack_to_traverse c))%nat.
Proof.
  induction ns as [|n ns IH]; [done|]. cbn.
  set (c1 := foldr _ _ _) in *. unfold push_check_stack_to_traverse.
  case_bool_decide; [lia|]. destruct c1; cbn in *. lia.
Qed.

(** A key as a traversal returns it when nothing was deleted below it. *)
Definition plain_key (n : CellKeyNode) : Prop :=
  track_returned n = 0 /\ 0 <= to_return n < U32_MOD /\ n_deleted_keys n = [] /\
  len (n_cell_sub_key_offsets_absolute n) < U32_MOD.

Lemma visit_pushes node c c' node' :
  visit (Er:=Error) depth parser node c = (c', Ok node') -> plain_key node' ->
  len (c_stack_to_traverse c') <= len (c_stack_to_traverse c) + to_return node'.
Proof.
  unfold visit. intros (c1 & n1 & H1 & H)%m_bind_Ok (_ & Hret & Hdel & Hoff).
  unfold m_bind, m_modify, m_ret in H. injection H as <- <-.
  assert (n_deleted_keys n1 = []) as Hd1.
  { destruct n1; cbn in *. by apply fmap_nil_inv in Hdel. }
  assert (to_return (n_set_deleted_keys (n_set_filter_state (it_filter_state
    (n_iteration_state n1)) <$> n_deleted_keys n1) n1) = to_return n1) as Hr1 by by destruct n1.
  rewrite Hr1 in *. clear Hr1.
  assert (n_cell_sub_key_offsets_absolute (n_set_deleted_keys (n_set_filter_state (it_filter_state
    (n_iteration_state n1)) <$> n_deleted_keys n1) n1) = n_cell_sub_key_offsets_absolute n1)
    as Ho1 by by destruct n1.
  rewrite Ho1 in Hoff. clear Ho1 Hdel. rewrite Hd1. clear Hd1.
  assert (len (c_stack_to_traverse c1) <= len (c_stack_to_traverse c) + to_return n1) as Hlen;
    [|by destruct c1].
  destruct (0 <? node_number_of_sub_keys node); [|injection H1 as <- <-; lia].
  apply m_bind_Ok in H1 as (c2 & [n2 cs] & Hr & H1).
  unfold m_bind, m_modify, m_ret in H1. injection H1 as <- <-.
  pose proof (push_all_stack cs c2) as Hpush.
  assert (c_stack_to_traverse c2 = c_stack_to_traverse c /\
    (length cs <= length (n_cell_sub_key_offsets_absolute n2))%nat) as [Hst Hcs].
  { unfold read_children in Hr.
    destruct (read_sub_keys_internal _ _ _ _ _ _) as [[n3 st3] r3] eqn:Hread.
    destruct r3 as [[cs3 b]| | |]; [|discriminate Hr..]. injection Hr as <- <- <-.
    apply read_sub_keys_children in Hread as (_ & _ & _ & Hn & _). cbn in Hn.
    split; [by destruct c|]. destruct cs3 as [|k3 cs3]; [cbn; lia|]. by apply Hn. }
  assert (to_return (n_set_to_return (len cs mod U32_MOD) n2) = len cs mod U32_MOD) as Hr2
    by by destruct n2.
  assert (n_cell_sub_key_offsets_absolute (n_set_to_return (len cs mod U32_MOD) n2)
    = n_cell_sub_key_offsets_absolute n2) as Ho2 by by destruct n2.
  rewrite Hr2, Ho2 in *. rewrite Hst in Hpush. unfold len in *.
  rewrite Z.mod_small by lia. lia.
Qed.

Lemma step_pushes c n c' :
  step c n c' -> plain_key n ->
  1 + len (c_stack_to_traverse c') <= len (c_stack_to_traverse c) + to_return n.
Proof.
  intros (node & stack & Hst & Hv) Hn. apply visit_pushes in Hv; [|done].
  rewrite Hst, len_cons. destruct c; cbn in *. lia.
Qed.

(** *** A walk to the end goes through a forest *)

Definition sum_returns (ks : list CellKeyNode) : Z := foldr (fun k s => to_return k + s) 0 ks.
Lemma sum_returns_cons k ks : sum_returns (k :: ks) = to_return k + sum_returns ks.
Proof. done. Qed.

Lemma walk_pushes c ks c' :
  walk c ks c' -> Forall plain_key ks ->
  len ks + len (c_stack_to_traverse c') <= len (c_stack_to_traverse c) + sum_returns ks.
Proof.
  induction 1 as [c|c n c1 ks c' Hs _ IH]; intros Hks; [unfold len; cbn [length sum_returns foldr]; lia|].
  apply Forall_cons in Hks as [Hn Hks]. apply step_pushes in Hs; [|done].
  apply IH in Hks. rewrite len_cons, sum_returns_cons. lia.
Qed.

Lemma walk_forest c ks c' :
  walk c ks c' -> Forall plain_key ks -> c_stack_to_traverse c' = [] ->
  len ks = len (c_stack_to_traverse c) + sum_returns ks ->
  exists F, preorder F = ks /\ counted F /\ width F = length (c_stack_to_traverse c).
Proof.
  induction 1 as [c|c n c1 ks c' Hs Hw IH]; intros Hks Hend Hsum.
  - exists F_nil. by rewrite Hend.
  - apply Forall_cons in Hks as [Hn Hks]. pose proof (step_pushes _ _ _ Hs Hn) as H1.
    pose proof (walk_pushes _ _ _ Hw Hks) as H2. rewrite Hend, len_nil in H2.
    rewrite len_cons, sum_returns_cons in Hsum.
    destruct IH as (F & Hpre & Hc & Hwidth); [done|done|lia|].
    destruct Hn as (_ & Hr & _ & _).
    assert (exists node stack, c_stack_to_traverse c = node :: stack) as (node & stack & Hst)
      by (destruct Hs as (node & stack & Hst & _); by exists node, stack).
    rewrite Hst in *. rewrite len_cons in *. unfold len in *.
    destruct (forest_split F (Z.to_nat (to_return n))) as (A & B & HA & HB & Hsplit & HcA & HcB);
      [lia|done|].
    exists (F_cons n A B). cbn. rewrite HA, HB, <- Hsplit, Hpre. split_and!; [done|lia|done..|lia].
Qed.
(** ** Postorder *)

(** A key that saw one more of the keys below it. *)
Definition bump (R : list CellKeyNode) : list CellKeyNode :=
  match R with
  | last :: R => n_set_track_returned (track_returned last + 1) last :: R
  | [] => []
  end.
(** The key on top still waits for keys below it. *)
Definition waiting (R : list CellKeyNode) : Prop :=
  match R with
  | last :: _ => track_returned last <> to_return last /\ track_returned last + 1 < U32_MOD
  | [] => True
  end.

(** A key that is not marked as outside the filter, and one the end of a traversal returns. *)
Definition unmarked (n : CellKeyNode) : Prop :=
  it_filter_state (n_iteration_state n) <> Some FMS_None.
Definition kept (c : ParserIteratorContext) (n : CellKeyNode) : Prop :=
  c_filter_include_ancestors c = true \/ unmarked n.

(** The keys a postorder traversal yields when it returns every key. *)
Inductive postorder_run : ParserIteratorContext -> list CellKeyNode -> Prop :=
  | post_done c :
      c_stack_to_traverse c = [] -> c_stack_to_return c = [] -> postorder_run c []
  | post_return c n R ks :
      c_stack_to_return c = n :: R ->
      c_stack_to_traverse c = [] \/ track_returned n = to_return n ->
      kept c n ->
      postorder_run (c_set_stack_to_return R c) ks -> postorder_run c (n :: ks)
  | post_visit c n c1 ks :
      step c n c1 -> waiting (c_stack_to_return c) ->
      postorder_run (c_set_stack_to_return (n :: bump (c_stack_to_return c)) c1) ks ->
      postorder_run c ks.

Lemma next_post_done f c :
  c_stack_to_traverse c = [] -> c_stack_to_return c = [] ->
  next_key_postorder (Er:=Error) f depth parser c = (c, Ok None).
Proof.
  intros HT HR. destruct f; cbn [next_key_postorder]; unfold m_bind, m_get, m_ret; by rewrite HT, HR.
Qed.
Lemma next_post_return f c n R :
  c_stack_to_return c = n :: R ->
  c_stack_to_traverse c = [] \/ track_returned n = to_return n ->
  kept c n ->
  next_key_postorder (Er:=Error) (S f) depth parser c = (c_set_stack_to_return R c, Ok (Some n)).
Proof.
  intros HR HT Hkept. cbn [next_key_postorder]. unfold m_bind, m_get, m_ret, m_modify.
  destruct (c_stack_to_traverse c) as [|node stack] eqn:HTc; rewrite HR.
  - destruct Hkept as [->|Hn]; [done|]. unfold unmarked in Hn.
    by rewrite (bool_decide_false _ Hn), orb_true_r.
  - destruct HT as [HT|HT]; [done|]. unfold track_returned, to_return in HT.
    by rewrite HT, Z.eqb_refl.
Qed.
Lemma next_post_visit f c n c1 :
  step c n c1 -> waiting (c_stack_to_return c) ->
  next_key_postorder (Er:=Error) (S f) depth parser c =
  next_key_postorder (Er:=Error) f depth parser
    (c_set_stack_to_return (n :: bump (c_stack_to_return c)) c1).
Proof.
  intros (node & stack & HT & Hv) Hw. cbn [next_key_postorder]. unfold m_bind at 1, m_get at 1.
  assert (c_stack_to_return c1 = c_stack_to_return c) as HR.
  { pose proof (visit_set_return (c_stack_to_return c) _ _ _ _ Hv) as Hv'.
    assert (c_set_stack_to_return (c_stack_to_return c) (c_set_stack_to_traverse stack c)
      = c_set_stack_to_traverse stack c) as Hid by by destruct c.
    rewrite Hid, Hv in Hv'. injection Hv' as Hv'. rewrite Hv'. by destruct c1. }
  rewrite HT. cbv zeta.
  destruct (c_stack_to_return c) as [|last R].
  - unfold m_bind, m_get, m_modify, m_lift. by rewrite Hv, HR.
  - destruct Hw as [Hne Hlt]. unfold track_returned, to_return in *.
    rewrite (proj2 (Z.eqb_neq _ _) Hne).
    unfold m_bind, m_get, m_modify, m_lift. rewrite Hv, HR, add_u32_fits by done. done.
Qed.

Lemma next_key_postorder_mono f f' c c' o :
  (f <= f')%nat -> next_key_postorder (Er:=Error) f depth parser c = (c', Ok o) ->
  next_key_postorder (Er:=Error) f' depth parser c = (c', Ok o).
Proof.
  revert f' c. induction f as [|f IH]; intros f' c Hf H.
  - destruct f'; [done|]. cbn [next_key_postorder] in *. unfold m_bind at 1, m_get at 1.
    unfold m_bind at 1, m_get at 1 in H. by destruct (c_stack_to_traverse c).
  - destruct f' as [|f']; [lia|]. cbn [next_key_postorder] in *.
    unfold m_bind at 1, m_get at 1. unfold m_bind at 1, m_get at 1 in H.
    destruct (c_stack_to_traverse c) as [|node stack]; [done|]. cbv zeta in *.
    assert (forall g, (f <= g)%nat -> forall c1 R c2,
      next_key_postorder (Er:=Error) f depth parser (c_set_stack_to_return R c1) = (c2, Ok o) ->
      c2 = c' ->
      next_key_postorder (Er:=Error) g depth parser (c_set_stack_to_return R c1) = (c', Ok o))
      as IH' by (intros g Hg c1 R c2 H1 ->; by apply IH).
    destruct (c_stack_to_return c) as [|last R]; [|destruct (_ =? _); [done|]];
      unfold m_bind, m_modify, m_get, m_lift in *;
      (destruct (visit _ _ _ _) as [c1 [n1|e| |]]; [|done..]);
      (destruct (c_stack_to_return c1) as [|last' R']; [by eapply IH'; [lia|exact H|]|]);
      (destruct (add_u32 _ _) as [x|e| |]; [by eapply IH'; [lia|exact H|]|done..]).
Qed.

(** The iterator over a postorder context. *)
Definition postorder_iter (c : ParserIteratorContext) : ParserIterator :=
  {| pi_postorder_iteration := true; pi_context := c |}.

Lemma collect_post_mono m m' f f' c ks :
  (m <= m')%nat -> (f <= f')%nat ->
  collect_keys (Er:=Error) m f depth parser (postorder_iter c) = Ok ks ->
  collect_keys (Er:=Error) m' f' depth parser (postorder_iter c) = Ok ks.
Proof.
  intros Hm Hf. revert m' c ks Hm. induction m as [|m IH]; intros m' c ks Hm H; [done|].
  destruct m' as [|m']; [lia|]. cbn [collect_keys] in *.
  unfold ParserIterator_next in *. cbn [pi_postorder_iteration pi_context postorder_iter] in *.
  destruct (next_key_postorder f depth parser c) as [c1 [[n|]|e| |]] eqn:Hn; try done;
    rewrite (next_key_postorder_mono f f' _ _ _ Hf Hn); [|done].
  destruct (collect_keys m f depth parser _) as [ks'|e| |] eqn:Hk; try done. cbn in H.
  injection H as <-. erewrite (IH m'); [done|lia|exact Hk].
Qed.

Lemma collect_post_run c ks :
  postorder_run c ks ->
  exists n, collect_keys (Er:=Error) n n depth parser (postorder_iter c) = Ok ks.
Proof.
  induction 1 as [c HT HR|c n R ks HR HT Hinc _ [m IH]|c n c1 ks Hstep Hw _ [m IH]].
  - exists 1%nat. cbn [collect_keys]. unfold ParserIterator_next.
    cbn [pi_postorder_iteration pi_context postorder_iter]. by rewrite next_post_done.
  - exists (S m). cbn [collect_keys]. unfold ParserIterator_next.
    cbn [pi_postorder_iteration pi_context postorder_iter]. rewrite (next_post_return m _ n R) by done.
    fold (postorder_iter (c_set_stack_to_return R c)).
    by rewrite (collect_post_mono m m m (S m) _ _ ltac:(lia) ltac:(lia) IH).
  - destruct m as [|m]; [done|]. exists (S (S m)).
    apply (collect_post_mono (S m) _ (S (S m))); [lia|lia|].
    cbn [collect_keys] in *. unfold ParserIterator_next in *.
    cbn [pi_postorder_iteration pi_context postorder_iter] in *.
    rewrite (next_post_visit _ _ n c1) by done.
    destruct (next_key_postorder (S m) depth parser _) as [c2 [[o|]|e| |]]; try done.
    fold (postorder_iter c2) in *.
    destruct (collect_keys m (S m) depth parser _) as [ks'|e| |] eqn:Hks; try done.
    by rewrite (collect_post_mono m m (S m) (S (S m)) _ _ ltac:(lia) ltac:(lia) Hks).
Qed.

(** *** Walks and what the traversal keeps *)

Abbreviation ret := c_set_stack_to_return.

Lemma push_all_include ns c :
  c_filter_include_ancestors (foldr push_check_stack_to_traverse c ns)
    = c_filter_include_ancestors c.
Proof.
  induction ns as [|n ns IH]; [done|]. cbn. rewrite <- IH. set (c1 := foldr _ _ _).
  unfold push_check_stack_to_traverse. case_bool_decide; by destruct c1.
Qed.
Lemma step_include c n c' :
  step c n c' -> c_filter_include_ancestors c' = c_filter_include_ancestors c.
Proof.
  intros (node & stack & HT & Hv). unfold visit in Hv.
  apply m_bind_Ok in Hv as (c1 & n1 & H1 & H). unfold m_bind, m_modify, m_ret in H.
  injection H as <- _.
  assert (c_filter_include_ancestors c1 = c_filter_include_ancestors c) as <-; [|by destruct c1].
  destruct (0 <? node_number_of_sub_keys node); [|injection H1 as <- _; by destruct c].
  apply m_bind_Ok in H1 as (c2 & [n2 cs] & Hr & H1). unfold m_bind, m_modify, m_ret in H1.
  injection H1 as <- _. rewrite push_all_include.
  apply read_children_spec in Hr as ([st ->] & _). by destruct c.
Qed.
Lemma walk_include c ks c' :
  walk c ks c' -> c_filter_include_ancestors c' = c_filter_include_ancestors c.
Proof. induction 1 as [|c n c1 ks c' Hs _ IH]; [done|]. by rewrite IH, (step_include _ _ _ Hs). Qed.
Lemma walk_kept c ks c' n : walk c ks c' -> kept c n -> kept c' n.
Proof. unfold kept. by intros ->%walk_include. Qed.

(** The traversal returns every key: it includes ancestors, or has no filter and no key on its
    stack is marked. *)
Definition unfiltered (c : ParserIteratorContext) : Prop :=
  Filter_is_valid (c_filter c) = false /\ Forall unmarked (c_stack_to_traverse c).
Definition returns_all (c : ParserIteratorContext) : Prop :=
  c_filter_include_ancestors c = true \/ unfiltered c.

Lemma push_all_unmarked ns c :
  Forall unmarked ns -> unfiltered c -> unfiltered (foldr push_check_stack_to_traverse c ns).
Proof.
  intros Hns Hc. induction Hns as [|n ns Hn _ [IH1 IH2]]; [done|]. cbn. set (c1 := foldr _ _ _) in *.
  unfold push_check_stack_to_traverse, unfiltered. case_bool_decide; [by split|].
  destruct c1. cbn in *. split; [done|by constructor].
Qed.
Lemma read_children_unmarked node c c' node' cs :
  read_children (Er:=Error) depth parser node c = (c', Ok (node', cs)) ->
  Filter_is_valid (c_filter c) = false ->
  it_filter_state (n_iteration_state node') = it_filter_state (n_iteration_state node) /\
  Forall unmarked cs.
Proof.
  unfold read_children. intros H Hf.
  destruct (read_sub_keys_internal _ _ _ _ _ _) as [[n1 st1] [[cs1 b]| | |]] eqn:Hr; [|done..].
  injection H as _ <- <-. apply read_sub_keys_children in Hr as (Hcore & Hall & _). cbn in Hcore, Hall.
  destruct Hcore as (_ & _ & _ & -> & _). split; [by destruct node|].
  eapply Forall_impl; [exact Hall|]. intros n (_ & _ & _ & Hn). unfold unmarked. intros Heq.
  rewrite Heq, Hf in Hn. by destruct Hn.
Qed.
Lemma step_unfiltered c n c' : step c n c' -> unfiltered c -> unfiltered c' /\ unmarked n.
Proof.
  intros (node & stack & HT & Hv) [Hf Hst]. rewrite HT in Hst. apply Forall_cons in Hst as [Hn Hst].
  unfold visit in Hv. apply m_bind_Ok in Hv as (c1 & n1 & H1 & H).
  unfold m_bind, m_modify, m_ret in H. injection H as <- <-.
  assert (unfiltered (c_set_stack_to_traverse stack c)) as Hc by (by destruct c).
  assert (unfiltered c1 /\ unmarked n1) as [[Hf1 Hst1] Hn1].
  { destruct (0 <? node_number_of_sub_keys node); [|by injection H1 as <- <-].
    apply m_bind_Ok in H1 as (c2 & [n2 cs] & Hr & H1). unfold m_bind, m_modify, m_ret in H1.
    injection H1 as <- <-. pose proof (read_children_spec _ _ _ _ _ _ _ Hr) as ([st ->] & _).
    apply read_children_unmarked in Hr as [Hn2 Hcs]; [|by destruct c].
    split; [apply push_all_unmarked; [done|by destruct c]|]. unfold unmarked in *. destruct n2.
    cbn in *. congruence. }
  split; [|by destruct n1].
  assert (Forall unmarked (n_set_filter_state (it_filter_state (n_iteration_state n1))
    <$> n_deleted_keys n1)) as Hdel.
  { apply Forall_fmap, Forall_true. intros d. by destruct d. }
  destruct c1. cbn in *. split; [done|]. apply Forall_app_2; [by apply Forall_reverse|done].
Qed.
Lemma step_returns_all c n c' : step c n c' -> returns_all c -> returns_all c' /\ kept c n.
Proof.
  intros Hs [Hc|Hc].
  - split; left; [by rewrite (step_include _ _ _ Hs)|done].
  - destruct (step_unfiltered _ _ _ Hs Hc). split; by right.
Qed.
Lemma returns_all_keep c n : returns_all c -> keep_preorder c n = true.
Proof. unfold keep_preorder. intros [->|[-> _]]; [done|]. by rewrite orb_true_r. Qed.

Lemma step_set_return R c n c' : step c n c' -> step (ret R c) n (ret R c').
Proof.
  intros (node & stack & HT & Hv). exists node, stack. split; [by destruct c|].
  apply (visit_set_return R) in Hv.
  assert (ret R (c_set_stack_to_traverse stack c) = c_set_stack_to_traverse stack (ret R c))
    as <- by by destruct c. done.
Qed.

Lemma collect_walk n f c ks :
  returns_all c ->
  collect_keys (Er:=Error) n f depth parser (preorder_iter c) = Ok ks ->
  exists c', walk c ks c' /\ c_stack_to_traverse c' = [] /\ Forall (kept c) ks.
Proof.
  revert c ks. induction n as [|n IH]; intros c ks Hinc H; [done|]. cbn [collect_keys] in H.
  unfold ParserIterator_next in H. cbn [pi_postorder_iteration pi_context preorder_iter] in H.
  destruct f as [|f]; cbn [next_key_preorder] in H; unfold m_bind, m_get, m_modify, m_ret in H.
  { destruct (c_stack_to_traverse c) eqn:HT; [|done]. injection H as <-. exists c.
    split_and!; [constructor|done|constructor]. }
  destruct (c_stack_to_traverse c) as [|node stack] eqn:HT.
  { injection H as <-. exists c. split_and!; [constructor|done|constructor]. }
  destruct (visit depth parser node (c_set_stack_to_traverse stack c)) as [c1 [n1|e| |]] eqn:Hv;
    [|done..].
  assert (step c n1 c1) as Hstep by (by exists node, stack).
  pose proof (step_include _ _ _ Hstep) as Hinc1.
  destruct (step_returns_all _ _ _ Hstep Hinc) as [Hall Hn1].
  rewrite (returns_all_keep _ _ Hall) in H.
  fold (preorder_iter c1) in H.
  destruct (collect_keys n (S f) depth parser (preorder_iter c1)) as [ks'|e| |] eqn:Hks; [|done..].
  injection H as <-. apply IH in Hks as (c' & Hw & Hend & Hkept); [|done]. exists c'.
  split_and!; [by econstructor|done|]. constructor; [done|].
  eapply Forall_impl; [exact Hkept|]. unfold kept. by rewrite Hinc1.
Qed.

(** *** The stack of keys to return *)

(** A key as postorder returns it: all keys below it were seen. *)
Definition finish (n : CellKeyNode) : CellKeyNode := n_set_track_returned (to_return n) n.
Lemma kept_finish R c n : kept c n -> kept (ret R c) (finish n).
Proof. unfold kept, unmarked. by destruct c, n. Qed.

Lemma postorder_machine F : forall c c' p R out,
  counted F -> Forall plain_key (preorder F) -> Forall (kept c) (preorder F) ->
  walk c (preorder F) c' ->
  0 <= track_returned p -> track_returned p + Z.of_nat (width F) <= to_return p < U32_MOD ->
  postorder_run
    (ret (n_set_track_returned (track_returned p + Z.of_nat (width F)) p :: R) c') out ->
  postorder_run (ret (p :: R) c) ((finish <$> postorder F) ++ out).
Proof.
  induction F as [|n ch IHch sib IHsib]; intros c c' p R out HF Hplain Hinc Hwalk Hp0 Hp Hout.
  - inversion Hwalk; subst. cbn in *. rewrite Z.add_0_r in Hout.
    assert (n_set_track_returned (track_returned p) p = p) as Hid by (by destruct p as [? ? ? ? ? ? ? ? ? ? ? ? ? []]).
    by rewrite Hid in Hout.
  - cbn in Hwalk. inversion Hwalk as [|? ? c1 ? ? Hstep Hw]; subst.
    apply walk_app in Hw as (c2 & Hch & Hsib). destruct HF as (Hn & HcF & HsF).
    cbn [preorder] in Hplain. apply Forall_cons in Hplain as [(Ht0 & Hr & _) Hplain].
    apply Forall_app in Hplain as [Hp1 Hp2]. cbn [width] in Hp, Hout.
    cbn [preorder] in Hinc. apply Forall_cons in Hinc as [Hk [Hk1 Hk2]%Forall_app].
    assert (walk c [n] c1) as Hw1 by (econstructor; [done|constructor]).
    assert (walk c (n :: preorder ch) c2) as Hw2 by (by econstructor).
    pose proof (Forall_impl _ _ _ Hk1 (fun k => walk_kept _ _ _ k Hw1)).
    pose proof (Forall_impl _ _ _ Hk2 (fun k => walk_kept _ _ _ k Hw2)).
    pose proof (walk_kept _ _ _ _ Hw2 Hk).
    cbn [postorder]. rewrite fmap_app, fmap_cons, <- app_assoc.
    eapply (post_visit _ n (ret (p :: R) c1)); [by apply step_set_return| |].
    { assert (c_stack_to_return (ret (p :: R) c) = p :: R) as -> by by destruct c. cbn. lia. }
    assert (ret (n :: bump (c_stack_to_return (ret (p :: R) c))) (ret (p :: R) c1)
      = ret (n :: bump (p :: R)) c1) as -> by by destruct c, c1.
    apply (IHch c1 c2); [done|done|done|done|lia|lia|].
    rewrite Ht0, Z.add_0_l, <- Hn. fold (finish n).
    eapply (post_return _ (finish n)).
    + by destruct c2.
    + right. by destruct n.
    + by apply kept_finish.
    + cbn [bump]. set (p1 := n_set_track_returned (track_returned p + 1) p).
      assert (ret (p1 :: R) (ret (finish n :: p1 :: R) c2) = ret (p1 :: R) c2) as -> by by destruct c2.
      assert (track_returned p1 = track_returned p + 1 /\ to_return p1 = to_return p) as [Ht1 Hr1']
        by by destruct p.
      apply (IHsib c2 c'); [done|done|done|done|lia|lia|].
      assert (n_set_track_returned (track_returned p1 + Z.of_nat (width sib)) p1
        = n_set_track_returned (track_returned p + Z.of_nat (S (width sib))) p) as ->.
      { rewrite Ht1. replace (track_returned p + 1 + Z.of_nat (width sib))
          with (track_returned p + Z.of_nat (S (width sib))) by lia. by destruct p. }
      done.
Qed.

(** The same at the bottom of the stack, when the walk leads to the end. *)
Lemma postorder_machine_top F : forall c c',
  counted F -> Forall plain_key (preorder F) -> Forall (kept c) (preorder F) ->
  walk c (preorder F) c' -> c_stack_to_traverse c' = [] ->
  postorder_run (ret [] c) (finish <$> postorder F).
Proof.
  induction F as [|n ch _ sib IH]; intros c c' HF Hplain Hinc Hwalk Hend.
  - inversion Hwalk; subst. by apply post_done; destruct c'.
  - cbn in Hwalk. inversion Hwalk as [|? ? c1 ? ? Hstep Hw]; subst.
    apply walk_app in Hw as (c2 & Hch & Hsib). destruct HF as (Hn & HcF & HsF).
    cbn [preorder] in Hplain. apply Forall_cons in Hplain as [(Ht0 & Hr & _) Hplain].
    apply Forall_app in Hplain as [Hp1 Hp2].
    cbn [preorder] in Hinc. apply Forall_cons in Hinc as [Hk [Hk1 Hk2]%Forall_app].
    assert (walk c [n] c1) as Hw1 by (econstructor; [done|constructor]).
    assert (walk c (n :: preorder ch) c2) as Hw2 by (by econstructor).
    pose proof (Forall_impl _ _ _ Hk1 (fun k => walk_kept _ _ _ k Hw1)).
    pose proof (Forall_impl _ _ _ Hk2 (fun k => walk_kept _ _ _ k Hw2)).
    pose proof (walk_kept _ _ _ _ Hw2 Hk).
    cbn [postorder]. rewrite fmap_app, fmap_cons.
    eapply (post_visit _ n (ret [] c1)); [by apply step_set_return|by destruct c|].
    assert (ret (n :: bump (c_stack_to_return (ret [] c))) (ret [] c1) = ret [n] c1) as ->
      by by destruct c, c1.
    apply (postorder_machine ch c1 c2); [done|done|done|done|lia|lia|].
    rewrite Ht0, Z.add_0_l, <- Hn. fold (finish n). eapply (post_return _ (finish n)).
    + by destruct c2.
    + right. by destruct n.
    + by apply kept_finish.
    + assert (ret [] (ret [finish n] c2) = ret [] c2) as -> by by destruct c2.
      by apply (IH c2 c').
Qed.

(** C17: the two orders walk the same tree.  Consider a traversal that returns every key: it has
    no filter (the plain iteration of a hive), or it includes ancestors.  When in preorder it
    ends with keys that have nothing deleted below them, and every key below a key is met once
    (so the counts add up), there is a forest of those keys, each counting the keys right below
    it, of which the preorder traversal is the preorder and the postorder traversal, which then
    ends too, the postorder. *)
Theorem postorder_same_tree n f c keys :
  c_filter_include_ancestors c = true \/
    Filter_is_valid (c_filter c) = false /\ Forall unmarked (c_stack_to_traverse c) ->
  c_stack_to_return c = [] ->
  collect_keys (Er:=Error) n f depth parser (preorder_iter c) = Ok keys ->
  Forall plain_key keys -> len keys = len (c_stack_to_traverse c) + sum_returns keys ->
  exists F m, preorder F = keys /\ counted F /\ width F = length (c_stack_to_traverse c) /\
    collect_keys (Er:=Error) m m depth parser (postorder_iter c)
      = Ok (finish <$> postorder F).
Proof.
  intros Hinc HR Hkeys Hplain Hsum.
  apply collect_walk in Hkeys as (c' & Hw & Hend & Hkept); [|done].
  destruct (walk_forest c keys c') as (F & <- & HF & Hwidth); [done..|].
  destruct (collect_post_run c (finish <$> postorder F)) as [m Hm].
  { assert (ret [] c = c) as <- by (destruct c; cbn in *; by subst).
    by apply (postorder_machine_top F c c'). }
  by exists F, m.
Qed.
End Walks.

(** ** Samples *)

(** The traversal of a hive's root, whose deleted keys are given, with ancestors. *)
Definition traversal_sample (buf : list byte) (deleted : list (@CellKeyNode env_ref))
    (filter_ : Filter) (include : bool) : @ParserIteratorContext env_ref :=
  let p := parser_sample buf 0 (base_block_sample 1 1 4096) in
  let root := match CellKeyNode_parse (E:=env_ref) false buf 0 [] None with
              | Ok (_, n) => Some (n_set_deleted_keys deleted n)
              | _ => None
              end in
  c_set_filter_include_ancestors include
    (c_set_filter filter_ (from_parser (p_set_cell_key_node_root root p) true None)).
Definition paths_of (r : res Error (list (@CellKeyNode env_ref))) : option (list ustr) :=
  on_ok (fun ks => n_path <$> ks) r.

Definition plain_keyb `{Env} (n : CellKeyNode) : bool :=
  (track_returned n =? 0) && (0 <=? to_return n) && (to_return n <? U32_MOD)
  && Nat.eqb (length (n_deleted_keys n)) 0 && (len (n_cell_sub_key_offsets_absolute n) <? U32_MOD).
Lemma plain_keyb_spec `{Env} n : plain_keyb n = true -> plain_key n.
Proof.
  unfold plain_keyb. rewrite !andb_true_iff. intros ((((H1 & H2) & H3) & H4) & H5).
  split_and!; try lia. apply Nat.eqb_eq in H4. by apply length_zero_iff_nil.
Qed.

Lemma postorder_same_tree_witness :
  let p := parser_sample (buffer hive_sample) 0 (base_block_sample 1 1 4096) in
  let c := traversal_sample (buffer hive_sample) [] Filter_new false in
  exists F m, n_path <$> preorder F = [lit "\r"; lit "\r\c"] /\
    collect_keys (Er:=Error) m m 9 p (postorder_iter c) = Ok (finish <$> postorder F).
Proof.
  intros p c.
  destruct (on_ok_Some (Er:=Error)
    (fun ks => (n_path <$> ks, forallb plain_keyb ks, sum_returns (E:=env_ref) ks, length ks))
    (collect_keys (E:=env_ref) 9 9 9 p (preorder_iter c)) ([lit "\r"; lit "\r\c"], true, 1, 2%nat))
    as (keys & Hkeys & Hfacts); [vm_compute; reflexivity|].
  injection Hfacts as Hpaths Hplain Hsum Hlen.
  destruct (@postorder_same_tree env_ref 9%nat p 9%nat 9%nat c keys) as (F & m & Hpre & _ & _ & Hpost).
  - right. split; [reflexivity|]. constructor; [discriminate|constructor].
  - reflexivity.
  - exact Hkeys.
  - apply Forall_forall. intros k Hk. apply plain_keyb_spec.
    exact (proj1 (forallb_forall _ _) Hplain k (proj1 (list_elem_of_In _ _) Hk)).
  - unfold len. rewrite Hlen, Hsum. reflexivity.
  - exists F, m. split; [rewrite Hpre; exact Hpaths|exact Hpost].
Defined.

(** Deleted keys are counted against [to_return], which does not include them: with one
    deleted key under the root, the root is returned before the key below it. *)
Lemma postorder_deleted_key :
  let p := parser_sample (buffer hive_sample) 0 (base_block_sample 1 1 4096) in
  let c := traversal_sample (buffer hive_sample)
             [key_sample 88 32 (lit "d") (lit "\r\d") 200 None] Filter_new true in
  paths_of (collect_keys 9 9 9 p (postorder_iter c)) = Some [lit "\r\d"; lit "\r"; lit "\r\c"].
Proof. vm_compute. reflexivity. Qed.

(** A root with two subkeys [a], each with a subkey [x]. *)
Definition two_branches : list byte :=
  let li (offsets : list Z) :=
    to_le_bytes 4 (8 + 4 * len offsets) ++ bytes_of "li" ++ to_le_bytes 2 (len offsets)
    ++ mjoin (to_le_bytes 4 <$> offsets) in
  nk_sample 0x24 2 88 "r" ++ li [104; 204]
  ++ nk_sample 0x20 1 192 "a" ++ li [304] ++ nk_sample 0x20 1 292 "a" ++ li [392]
  ++ nk_sample 0x20 0 0 "x" ++ nk_sample 0x20 0 0 "x".

(** The filter is only asked when the stack of keys to visit is empty: without ancestors, a
    traversal in preorder returns the two matches, in postorder also an ancestor. *)
Lemma postorder_returns_ancestor :
  let p := parser_sample two_branches 0 (base_block_sample 1 1 4096) in
  let c := match FilterBuilder_build (add_key_path FilterBuilder_new (lit "a\x")) with
           | Ok f => traversal_sample two_branches [] f false
           | _ => traversal_sample two_branches [] Filter_new false
           end in
  paths_of (collect_keys 9 9 9 p (preorder_iter c)) = Some [lit "\r\a\x"; lit "\r\a\x"] /\
  paths_of (collect_keys 9 9 9 p (postorder_iter c))
    = Some [lit "\r\a\x"; lit "\r\a"; lit "\r\a\x"].
Proof. split; vm_compute; reflexivity. Qed.
