(* ===== verification/LookupFacts.v ===== *)
(** * LookupFacts: what a lookup by path finds

    Theorems about [get_key] and the descent it makes through the tree. *)

From S2P Require Import Prelude Env Log Util Cells SubKeyLists Values ValueFacts State Filter KeyNode KeyNodeFacts Parser ParserFacts.

(** ** Segments *)

Lemma str_split_length_app c s t :
  length (str_split c (s ++ c :: t)) = (length (str_split c s) + length (str_split c t))%nat.
Proof.
  induction s as [|x s IH]; cbn [app str_split].
  - by rewrite Z.eqb_refl.
  - destruct (x =? c); [cbn; by rewrite IH|].
    pose proof (str_split_nonempty c (s ++ c :: t)). pose proof (str_split_nonempty c s).
    destruct (str_split c (s ++ c :: t)), (str_split c s); done.
Qed.
Lemma str_split_length_pos c s : (1 <= length (str_split c s))%nat.
Proof. pose proof (str_split_nonempty c s). destruct (str_split c s); [done|cbn; lia]. Qed.
Lemma str_split_length_elem c s : (1 < length (str_split c s))%nat -> c ∈ s.
Proof.
  induction s as [|x s IH]; cbn [str_split]; [cbn; lia|].
  destruct (Z.eqb_spec x c) as [->|]; [intros _; by left|]. intros H. right. apply IH.
  pose proof (str_split_nonempty c s). by destruct (str_split c s).
Qed.
Lemma to_ascii_lowercase_idemp s :
  to_ascii_lowercase (to_ascii_lowercase s) = to_ascii_lowercase s.
Proof.
  unfold to_ascii_lowercase. rewrite <- list_fmap_compose. apply list_fmap_ext. intros _ c _. cbn.
  unfold ascii_lower. repeat case_match; lia.
Qed.

Section Lookup.
Context `{E : Env}.

(** The filter a lookup by path builds. *)
Definition path_query (path : ustr) : RegQuery :=
  {| rq_key_path := (fun s => ComponentString (to_ascii_lowercase s))
       <$> str_split BACKSLASH (trim_end_char BACKSLASH path);
     rq_key_path_has_root := true; rq_children := false |}.
Definition path_filter (path : ustr) : Filter := {| reg_query := Some (path_query path) |}.

Lemma path_filter_build path :
  FilterBuilder_build (key_path_has_root (add_key_path FilterBuilder_new path) true)
    = Ok (path_filter path).
Proof.
  unfold FilterBuilder_build. cbn. unfold path_filter, path_query.
  by rewrite foldl_add_literal.
Qed.

Lemma path_filter_valid path : Filter_is_valid (path_filter path) = true.
Proof. apply bool_decide_true. by eexists. Qed.

(** The key at the path: up to ASCII case and trailing backslashes. *)
Definition same_path (path : ustr) (n : CellKeyNode) : Prop :=
  to_ascii_lowercase (n_path n) = to_ascii_lowercase (trim_end_char BACKSLASH path).
Definition segments (path : ustr) : nat := length (str_split BACKSLASH path).

Lemma same_path_segments path n :
  same_path path n -> segments (n_path n) = segments (trim_end_char BACKSLASH path).
Proof.
  unfold same_path, segments. intros H%(f_equal (str_split BACKSLASH)).
  rewrite !str_split_lowercase in H. apply (f_equal length) in H. by rewrite !length_fmap in H.
Qed.

(** The filter's answers: the key at the path, or one with fewer segments. *)
Lemma check_cell_path path n st st' flags :
  check_cell (path_filter path) n st = (st', Ok (E:=Error) flags) ->
  bf_contains flags FILTER_NO_MATCH = false ->
  if bf_contains flags FILTER_KEY_MATCH then same_path path n
  else (segments (n_path n) < segments (trim_end_char BACKSLASH path))%nat.
Proof.
  unfold check_cell. rewrite path_filter_valid. unfold match_cell.
  cbn [reg_query path_filter rq_key_path_has_root path_query].
  rewrite andb_false_r. unfold match_key. cbn [reg_query path_filter].
  intros (st1 & s & Hg & H)%m_bind_Ok Hno. unfold m_get in Hg. injection Hg as <- <-.
  destruct (State_get_root_path_offset _ _) as [st2 off].
  apply m_bind_Ok in H as (st3 & [] & _ & H). unfold m_lift in H. injection H as _ H.
  unfold check_key_match in H. cbn [rq_key_path_has_root path_query] in H.
  assert (str_from (lowercase n) 0 = Some (lowercase n)) as Hstr by by destruct (lowercase n).
  rewrite Hstr in H. cbn [expect mbind res_bind rq_key_path path_query] in H.
  injection H as <-. unfold lowercase in *. rewrite str_split_lowercase in *.
  set (q := (fun s => ComponentString (to_ascii_lowercase s)) <$> _) in *.
  destruct (match_segments_spec (to_ascii_lowercase <$> str_split BACKSLASH (n_path n)) q)
    as [[Hm Hf]|[[Hl Hf]|(_ & _ & Hf)]]; rewrite Hf in *; rewrite bf_contains_spec in *.
  - vm_compute (Z.land _ _ =? _). unfold path_matches, q in Hm.
    rewrite Forall2_literal in Hm. unfold same_path.
    apply (str_split_inj BACKSLASH). rewrite !str_split_lowercase. rewrite Hm.
    rewrite <- list_fmap_compose. apply list_fmap_ext. intros _ x _. cbn.
    by rewrite to_ascii_lowercase_idemp.
  - vm_compute (Z.land _ _ =? _). destruct Hl as (pre & rest & Hq & Hne & Hpre).
    apply Forall2_length in Hpre. apply (f_equal length) in Hq. unfold q in Hq.
    rewrite !length_fmap, length_app in Hq. rewrite length_fmap in Hpre.
    unfold segments. destruct rest; [done|]. cbn in Hq. lia.
  - by vm_compute in Hno.
Qed.

(** ** Children *)

Lemma read_sub_keys_loop_Forall {Er} (P : CellKeyNode -> Prop) fuel fi f sub self_is sn gdm parent :
  forall vals,
  (forall val st st' kn, val ∈ vals ->
    CellKeyNode_read fuel fi
      {| o_offset := val; o_cur_path := parent; o_filter := sub;
         o_self_is_filter_match_or_descendent := self_is; o_sequence_num := sn;
         o_get_deleted_and_modified := gdm |} st = (st', Ok (Some kn)) ->
    P (classify_child self_is (Filter_is_valid f) kn).1) ->
  forall children found s s' cs b,
    n_path s.1 = parent -> Forall P children ->
    read_sub_keys_loop (Er:=Er) fuel fi f sub self_is sn gdm vals children found s
      = (s', Ok (cs, b)) -> Forall P cs.
Proof.
  intros vals. induction vals as [|val vals IH]; intros HP children found s s' cs b Hs Hall H.
  { cbn in H. unfold m_ret in H. by simplify_eq. }
  cbn [read_sub_keys_loop] in H. apply m_bind_Ok in H as (s1 & s2 & Hg & H).
  unfold m_get in Hg. injection Hg as <- <-.
  apply m_bind_Ok in H as (s3 & ret & Hr & H). unfold nm_state, m_try in Hr. rewrite Hs in Hr.
  destruct (CellKeyNode_read _ _ _ _) as [st2 r2] eqn:Hread.
  specialize (IH ltac:(intros v st st' kn Hv; apply HP; by right)).
  destruct r2 as [[kn|]|e| |]; simplify_eq/=.
  - apply HP in Hread; [|by left]. destruct (classify_child _ _ kn) as [kn' ex].
    eapply (IH (children ++ [kn'])); [|by apply Forall_app_2; [|constructor]|exact H]. done.
  - by eapply (IH children); [|done|exact H].
  - apply m_bind_Ok in H as (s3 & u & Hl & H). unfold nm_log, nm_node, m_modify in Hl.
    injection Hl as <- _. eapply (IH children); [|done|exact H]. by destruct s as [[] ?].
Qed.

(** [k] is a key of the file below [parent]: a cell in [parent]'s list of subkeys which reads as
    the record [k], with [parent]'s path and its own name. *)
Definition subkey_of (fi : FileInfo) (parent k : CellKeyNode) : Prop :=
  exists fuel offsets slice sn st st' rest n,
    parse_sub_key_list fuel fi (node_sub_keys_list_offset_relative parent) = Ok offsets /\
    n_file_offset_absolute k ∈ offsets /\
    get_from (buffer fi) (n_file_offset_absolute k) = Some slice /\
    CellKeyNode_from_bytes slice (n_file_offset_absolute k) (n_path parent) sn st
      = (st', Ok (rest, n)) /\
    n_path k = n_path n /\ n_detail k = n_detail n.
(** The keys of the tree below [root]. *)
Inductive in_tree (fi : FileInfo) (root : CellKeyNode) : CellKeyNode -> Prop :=
  | in_tree_root : in_tree fi root root
  | in_tree_below parent k :
      in_tree fi root parent -> subkey_of fi parent k -> in_tree fi root k.

Lemma CellKeyNode_read_subkey fuel fi parent offsets self_is valid o st st' kn :
  parse_sub_key_list fuel fi (node_sub_keys_list_offset_relative parent) = Ok offsets ->
  o_offset o ∈ offsets -> o_cur_path o = n_path parent ->
  CellKeyNode_read fuel fi o st = (st', Ok (Some kn)) ->
  subkey_of fi parent (classify_child self_is valid kn).1.
Proof.
  intros Hlist Hin Hpar H. unfold CellKeyNode_read in H.
  apply m_bind_Ok in H as (st1 & slice & Hs & H). unfold m_lift in Hs. injection Hs as <- Hs.
  destruct (get_from _ _) as [sl|] eqn:Hg; [|done]. injection Hs as ->.
  apply read_from_slice_inv in H
    as (st2 & r & n1 & st3 & flags & Hfb & Hp & Hd & _ & Hoff & _).
  pose proof (CellKeyNode_from_bytes_Ok _ _ _ _ _ _ _ _ Hfb) as (_ & Ho & _). rewrite Ho in Hoff.
  exists fuel, offsets, slice, (o_sequence_num o), st, st2, r, n1.
  assert (n_file_offset_absolute (classify_child self_is valid kn).1 = n_file_offset_absolute kn /\
    n_path (classify_child self_is valid kn).1 = n_path kn /\
    n_detail (classify_child self_is valid kn).1 = n_detail kn) as (-> & -> & ->)
    by (unfold classify_child; destruct kn; repeat case_match; done).
  rewrite Hoff, <- Hpar. done.
Qed.

(** A child is the key sought, or its path has fewer segments. *)
Definition child_of_path (path parent : ustr) (n : CellKeyNode) : Prop :=
  (exists name, n_path n = parent ++ BACKSLASH :: name) /\
  (if is_exact n then same_path path n
   else (segments (n_path n) < segments (trim_end_char BACKSLASH path))%nat).

Lemma CellKeyNode_read_path fuel fi path o st st' kn self_is :
  o_filter o = Some (path_filter path) ->
  CellKeyNode_read fuel fi o st = (st', Ok (Some kn)) ->
  child_of_path path (o_cur_path o) (classify_child self_is true kn).1.
Proof.
  intros Ho. unfold CellKeyNode_read. intros (st1 & slice & _ & H)%m_bind_Ok.
  apply read_from_slice_inv in H
    as (st2 & r & n1 & st3 & flags & Hfb & Hp & Hd & Hs & Hoff & Hf & Hno & Hi).
  rewrite Ho in Hf. apply check_cell_path in Hf; [|done].
  apply CellKeyNode_from_bytes_Ok in Hfb as (Hpath & _).
  unfold classify_child. rewrite Hi.
  assert (forall v, n_path (n_set_filter_state v kn) = n_path kn) as Hset by (intros v; by destruct kn).
  destruct (bf_contains flags FILTER_KEY_MATCH).
  - cbn [fst]. split; [exists (n_key_name n1); by rewrite Hp, Hpath|].
    unfold is_exact, same_path in *. rewrite Hi, bool_decide_true by done. by rewrite Hp.
  - assert (n_path kn = o_cur_path o ++ BACKSLASH :: n_key_name n1) as Hname by by rewrite Hp, Hpath.
    assert (forall v, v <> Some FMS_Exact -> is_exact (n_set_filter_state v kn) = false) as Hex.
    { intros v Hv. unfold is_exact. apply bool_decide_false. by destruct kn. }
    destruct self_is; cbn [fst]; (split; [exists (n_key_name n1); by rewrite Hset|]);
      rewrite Hex, Hset, Hp by done; done.
Qed.

Lemma read_sub_keys_path {Er} fuel fi path sn gdm s s' children found :
  read_sub_keys_internal (Er:=Er) fuel fi (path_filter path) sn gdm s
    = (s', Ok (children, found)) ->
  Forall (fun k => child_of_path path (n_path s.1) k /\ subkey_of fi s.1 k) children /\
  found = existsb is_exact children.
Proof.
  intros H. split; [|by apply read_sub_keys_children in H as (_ & _ & -> & _)].
  unfold read_sub_keys_internal in H. apply m_bind_Ok in H as (s1 & s1' & Hg & H).
  unfold m_get in Hg. injection Hg as <- <-.
  case_bool_decide; [|unfold m_ret in H; by simplify_eq].
  case_match; [|case_match]; cycle 2; [unfold m_ret in H; by simplify_eq| |].
  { apply m_bind_Ok in H as (s2 & u & _ & H). unfold m_ret in H. by simplify_eq. }
  apply m_bind_Ok in H as (s2 & r & Hr & H). unfold nm_state, m_try, m_lift in Hr.
  destruct (parse_sub_key_list fuel fi _) as [offs|e0| |] eqn:Hlist; [..|done|done];
    injection Hr as <- <-; cycle 1.

  { apply m_bind_Ok in H as (s3 & u & _ & H). unfold m_ret in H. by simplify_eq. }
  cbv zeta in H. rewrite andb_false_r in H.
  apply m_bind_Ok in H as (s3 & [cs b] & Hloop & H).
  apply m_bind_Ok in H as (s4 & u & _ & H). unfold m_ret in H. injection H as <- <- <-.
  eapply (read_sub_keys_loop_Forall _ _ _ _ _ _ _ _ (n_path s.1)); [| |constructor|exact Hloop]; [|done].
  intros val st st' kn Hval Hread. rewrite path_filter_valid. split.
  - by apply (CellKeyNode_read_path _ _ path _ _ _ _ (is_filter_match_or_descendent s.1)) in Hread.
  - by eapply CellKeyNode_read_subkey; [exact Hlist| | |exact Hread].
Qed.

(** ** The descent *)

(** [k] is the key at the path; or, where a name holds a backslash, a key standing beside the one
    at the path, under the same parent of the tree. *)
Definition found_at (fi : FileInfo) (root : CellKeyNode) (path : ustr) (k : CellKeyNode) : Prop :=
  in_tree fi root k /\
  (same_path path k \/
   exists parent s name, in_tree fi root parent /\ subkey_of fi parent k /\ subkey_of fi parent s /\
     same_path path s /\ n_path s = n_path parent ++ BACKSLASH :: name /\ BACKSLASH ∈ name).

Lemma found_head fi root path parent children k :
  in_tree fi root parent ->
  Forall (fun k => child_of_path path (n_path parent) k /\ subkey_of fi parent k) children ->
  existsb is_exact children = true -> head children = Some k -> found_at fi root path k.
Proof.
  intros Hpar Hall Hex Hhead. destruct children as [|k' children]; [done|]. injection Hhead as ->.
  pose proof Hall as [[Hk Hsub] _]%Forall_cons. split; [by eapply in_tree_below|].
  destruct (is_exact k) eqn:He.
  { left. destruct Hk as [_ Hk]. by rewrite He in Hk. }
  right. apply existsb_exists in Hex as (s & Hin%list_elem_of_In & Hs).
  rewrite Forall_forall in Hall. apply Hall in Hin as [[[name Hname] Hm] Hsubs]. rewrite Hs in Hm.
  exists parent, s, name. split_and!; [done..|].
  destruct Hk as [[name' Hname'] Hlt]. rewrite He in Hlt.
  apply same_path_segments in Hm. unfold segments in *.
  rewrite Hname, str_split_length_app in Hm. rewrite Hname', str_split_length_app in Hlt.
  pose proof (str_split_length_pos BACKSLASH name'). apply str_split_length_elem. lia.
Qed.

Lemma get_sub_key_internal_sound {Er} path fi root sn fuel s s' k :
  in_tree fi root s.1 ->
  get_sub_key_internal (Er:=Er) fuel fi (path_filter path) sn s = (s', Ok (Some k)) ->
  found_at fi root path k.
Proof.
  revert s s'. induction fuel as [|fuel IH]; intros s s' Hs H; [done|].
  cbn [get_sub_key_internal] in H. apply m_bind_Ok in H as (s1 & [children found] & Hr & H).
  apply read_sub_keys_path in Hr as [Hall ->].
  destruct (existsb is_exact children) eqn:Hex.
  { unfold m_ret in H. injection H as _ H. by eapply found_head. }
  clear Hex. revert s1 H. induction Hall as [|child children [_ Hc] _ IHc]; intros s1 H.
  { unfold m_ret in H. by simplify_eq. }
  apply m_bind_Ok in H as (s2 & r & Hr & H).
  destruct (get_sub_key_internal _ _ _ _ _) as [[n3 st3] r3] eqn:Hsub. injection Hr as <- ->.
  destruct r as [key|]; [|by eapply IHc].
  unfold m_ret in H. injection H as _ ->. eapply IH; [|exact Hsub]. by eapply in_tree_below.
Qed.

Lemma get_sub_key_by_path_sound {Er} fuel fi sub s s' k :
  get_sub_key_by_path (Er:=Er) fuel fi sub s = (s', Ok (Some k)) ->
  if decide (sub = []) then k = s.1 else found_at fi s.1 (n_path s.1 ++ BACKSLASH :: sub) k.
Proof.
  unfold get_sub_key_by_path. intros (s1 & s1' & Hg & H)%m_bind_Ok.
  unfold m_get in Hg. injection Hg as <- <-. cbv zeta in H.
  case_bool_decide as Hsub; [rewrite decide_True by done|rewrite decide_False by done].
  - unfold m_ret in H. by injection H as _ <-.
  - rewrite path_filter_build in H. eapply get_sub_key_internal_sound; [constructor|exact H].
Qed.

(** What follows the root in a key path. *)
Definition path_below_root (key_path : ustr) (has_root : bool) : option ustr :=
  let key_path := trim_start_char BACKSLASH key_path in
  if has_root then
    match str_find BACKSLASH key_path with
    | Some slash_offset => str_from key_path (slash_offset + 1)
    | None => Some []
    end
  else Some key_path.

Lemma get_root_key_file_info depth p p' root :
  get_root_key depth p = (p', Ok root) -> file_info p' = file_info p.
Proof.
  unfold get_root_key. intros (p1 & p2 & Hg & H)%m_bind_Ok. unfold m_get in Hg. injection Hg as <- <-.
  destruct (base_block p) as [bb|]; [|unfold m_ret in H; by injection H as <-].
  apply m_bind_Ok in H as (p1 & offset & Ho & H). unfold m_lift in Ho. injection Ho as <- _.
  unfold with_state in H. destruct (CellKeyNode_read _ _ _ _). injection H as <- _. by destruct p.
Qed.

(** C12: a lookup by path finds the key at that path: a key that [get_key] returns is the root
    when nothing follows the root's name in the path.  Else it is a key of the file's tree,
    reached from the root through the lists of subkeys, and its path is the root's followed by
    the rest of the path asked for, up to ASCII case and trailing backslashes.  The one
    exception needs a key of the file at that path whose own name holds a backslash: then a key
    in the same list of subkeys as that one may be returned. *)
Theorem get_key_sound depth key_path has_root p p' k :
  get_key depth key_path has_root p = (p', Ok (Some k)) ->
  exists p1 root rest, get_root_key depth p = (p1, Ok (Some root)) /\
    path_below_root key_path has_root = Some rest /\
    if decide (rest = []) then k = root
    else found_at (file_info p) root (n_path root ++ BACKSLASH :: rest) k.
Proof.
  unfold get_key. intros (p1 & root & Hroot & H)%m_bind_Ok. unfold m_try in Hroot.
  destruct (get_root_key depth p) as [p2 [r|e| |]] eqn:Hget; [|by injection Hroot as <- <-|done..].
  injection Hroot as <- <-. destruct r as [root|]; [|done].
  exists p2, root. apply m_bind_Ok in H as (p3 & rest & Hrest & H). exists rest.
  split; [done|]. apply get_root_key_file_info in Hget as <-.
  assert (path_below_root key_path has_root = Some rest /\ p3 = p2) as [Hbelow ->].
  { unfold path_below_root. cbv zeta in Hrest. destruct has_root; [|by injection Hrest as -> ->].
    destruct (str_find _ _) as [off|]; [|by injection Hrest as -> ->].
    unfold m_lift in Hrest. injection Hrest as -> Hrest.
    destruct (str_from _ _); [|done]. by injection Hrest as ->. }
  split; [done|].
  apply m_bind_Ok in H as (p4 & [node key] & Hkey & H). unfold m_ret in H. injection H as _ ->.
  unfold with_node in Hkey.
  destruct (get_sub_key_by_path _ _ _ _) as [[n1 st1] r1] eqn:Hsub.
  destruct r1 as [key|e| |]; [|done..]. injection Hkey as _ _ ->.
  by apply get_sub_key_by_path_sound in Hsub.
Qed.
End Lookup.

(** ** Samples *)

Lemma get_key_sound_witness :
  exists root k, (get_root_key (E:=env_ref) 9 (small_hive "c")).2 = Ok (Some root) /\
    (get_key (E:=env_ref) 9 (lit "\r\C\") true (small_hive "c")).2 = Ok (Some k) /\
    found_at (file_info (small_hive "c")) root (lit "\r\C\") k.
Proof.
  destruct (on_ok_Some (Er:=Error) (fun k => n_path <$> k)
    (get_key (E:=env_ref) 9 (lit "\r\C\") true (small_hive "c")).2 (Some (lit "\r\c")))
    as (k & Hk & Hpath); [vm_compute; reflexivity|].
  destruct k as [k|]; [|discriminate Hpath].
  destruct (on_ok_Some (Er:=Error) (fun k => n_path <$> k)
    (get_root_key (E:=env_ref) 9 (small_hive "c")).2 (Some (lit "\r")))
    as (r & Hr & Hrpath); [vm_compute; reflexivity|].
  destruct (@get_key_sound env_ref 9%nat (lit "\r\C\") true (small_hive "c")
    (get_key (E:=env_ref) 9 (lit "\r\C\") true (small_hive "c")).1 k)
    as (p1 & root & rest & Hroot & Hrest & Hfound).
  - rewrite <- Hk. apply surjective_pairing.
  - vm_compute in Hrest. injection Hrest as <-. rewrite Hroot in Hr. injection Hr as <-.
    exists root, k. rewrite Hroot. split; [reflexivity|]. split; [exact Hk|].
    injection Hrpath as Hrpath. rewrite decide_False in Hfound by discriminate.
    rewrite Hrpath in Hfound. exact Hfound.
Defined.

(** A root with the subkeys [a] and [a\x]. *)
Definition slashed_hive : @Parser env_ref :=
  parser_sample (replicate 32 Byte.x00 ++ nk_sample 0x24 2 120 "r"
    ++ to_le_bytes 4 16 ++ bytes_of "li" ++ to_le_bytes 2 2 ++ to_le_bytes 4 136
    ++ to_le_bytes 4 224 ++ nk_sample 0x20 0 0 "a" ++ nk_sample 0x20 0 0 "a\x")
    0 (base_block_sample 1 1 4096).

(** Such a name makes the lookup return the key before the one at the path. *)
Lemma get_key_slashed_name :
  on_ok (fun k => n_path <$> k) (get_key (E:=env_ref) 9 (lit "\r\a\x") true slashed_hive).2
    = Some (Some (lit "\r\a")).
Proof. vm_compute. reflexivity. Qed.
