(* ===== verification/HiveLookup.v ===== *)
(** * HiveLookup: a lookup by path finds the first stored key at the path

    Against the layout of [Hive]: [get_key] returns the first key, in the order of a traversal,
    whose path is the one asked for up to ASCII case, and nothing when there is none. *)

From S2P Require Import Prelude Env Log Util UtilFacts Cells BaseBlock SubKeyLists Values ValueFacts State Filter KeyNode KeyNodeFacts Recover Parser ParserFacts Hive HiveFacts LookupFacts.

#[local] Opaque lit to_le_bytes fmt_dec.

(** ** Paths as segments *)

Definition segs (p : ustr) : list ustr := to_ascii_lowercase <$> str_split BACKSLASH p.

Lemma str_split_app c s t : str_split c (s ++ c :: t) = str_split c s ++ str_split c t.
Proof.
  induction s as [|x s IH]; cbn [app str_split]; [by rewrite Z.eqb_refl|].
  destruct (x =? c); [cbn; by rewrite IH|]. rewrite IH.
  pose proof (str_split_nonempty c s). by destruct (str_split c s).
Qed.
Lemma str_split_plain c s : c ∉ s -> str_split c s = [s].
Proof.
  induction s as [|x s IH]; [done|]. intros Hn. cbn [str_split].
  rewrite (proj2 (Z.eqb_neq x c)) by (intros ->; apply Hn; by left).
  rewrite IH by (intros H; apply Hn; by right). done.
Qed.

Lemma segs_app p q : segs (p ++ [BACKSLASH] ++ q) = segs p ++ segs q.
Proof. unfold segs. cbn [app]. by rewrite str_split_app, fmap_app. Qed.
Lemma segs_plain name : BACKSLASH ∉ name -> segs name = [to_ascii_lowercase name].
Proof. intros H. unfold segs. by rewrite str_split_plain. Qed.
Lemma segs_nonempty p : segs p <> [].
Proof.
  unfold segs. pose proof (str_split_nonempty BACKSLASH p). by destruct (str_split BACKSLASH p).
Qed.
Lemma segs_inj p q : segs p = segs q <-> to_ascii_lowercase p = to_ascii_lowercase q.
Proof.
  unfold segs. rewrite <- !str_split_lowercase. split; [apply str_split_inj|by intros ->].
Qed.

(** The key at [p] is on the way to the target. *)
Definition leads (target : list ustr) (p : ustr) : Prop :=
  exists rest, rest <> [] /\ target = segs p ++ rest.

Section Lookup.
Context `{E : Env}.

(** The answer of the filter for a path. *)
Definition path_flags (target p : ustr) : Z :=
  match_segments (str_split BACKSLASH (to_ascii_lowercase p)) (rq_key_path (path_query target)).

Lemma path_flags_spec target p :
  let t := segs (trim_end_char BACKSLASH target) in
  (segs p = t /\ path_flags target p = Z.lor FILTER_ITERATE_KEYS FILTER_KEY_MATCH) \/
  (leads t p /\ path_flags target p = FILTER_ITERATE_KEYS) \/
  (segs p <> t /\ ~ leads t p /\ path_flags target p = FILTER_NO_MATCH).
Proof.
  cbn zeta. set (t := trim_end_char BACKSLASH target). unfold path_flags, path_query.
  cbn [rq_key_path]. fold t.
  set (q := (fun s => ComponentString (to_ascii_lowercase s)) <$> str_split BACKSLASH t).
  assert (to_ascii_lowercase <$> str_split BACKSLASH (to_ascii_lowercase p) = segs p) as Hlow.
  { rewrite str_split_lowercase, <- list_fmap_compose. apply list_fmap_ext. intros _ s _. cbn.
    apply to_ascii_lowercase_idemp. }
  assert (forall l l', Forall2 component_matches
      ((fun s => ComponentString (to_ascii_lowercase s)) <$> l) l' <->
    to_ascii_lowercase <$> l = to_ascii_lowercase <$> l') as Hlit by apply Forall2_literal.
  destruct (match_segments_spec (str_split BACKSLASH (to_ascii_lowercase p)) q)
    as [[Hm ->]|[[(pre & rest & Hq & Hne & Hl) ->]|(Hm & Hl & ->)]].
  - left. split; [|done]. unfold path_matches, q in Hm. rewrite Hlit, Hlow in Hm. done.
  - right; left. split; [|done]. unfold q in Hq. apply fmap_app_inv in Hq as (a & b & -> & -> & Hab).
    rewrite Hlit, Hlow in Hl. exists (to_ascii_lowercase <$> b). split; [by destruct b|].
    unfold segs at 1. by rewrite Hab, fmap_app, Hl.
  - right; right. split_and!; [| |done].
    + intros Heq. apply Hm. unfold path_matches, q. by rewrite Hlit, Hlow.
    + intros (rest & Hne & Heq). apply Hl. unfold segs at 1 in Heq.
      apply fmap_app_inv in Heq as (a & b & Ha & Hb & Hab).
      exists ((fun s => ComponentString (to_ascii_lowercase s)) <$> a),
        ((fun s => ComponentString (to_ascii_lowercase s)) <$> b).
      unfold q. rewrite Hab, fmap_app. split_and!; [done|subst rest; by destruct b|].
      by rewrite Hlit, Hlow.
Qed.

Lemma path_filter_answers fi target o t :
  o_filter o = Some (path_filter target) ->
  filter_answers clean fi o t (path_flags target (hk_path (o_cur_path o) t)).
Proof.
  intros Ho n st Hcell Hc. pose proof (sc_path _ _ _ _ Hcell) as Hpath. rewrite Ho. unfold check_cell. rewrite path_filter_valid.
  unfold match_cell. cbn [reg_query path_filter rq_key_path_has_root path_query].
  rewrite andb_false_r. unfold match_key. cbn [reg_query path_filter].
  unfold m_bind, m_get, m_modify, m_lift.
  destruct (State_get_root_path_offset (lowercase n) st) as [st1 off] eqn:Hoff.
  exists st1. split.
  - unfold check_key_match. cbn [rq_key_path_has_root path_query].
    assert (str_from (lowercase n) 0 = Some (lowercase n)) as -> by by destruct (lowercase n).
    cbn [expect mbind res_bind]. unfold path_flags, lowercase. by rewrite Hpath.
  - unfold State_get_root_path_offset in Hoff. injection Hoff as <- _.
    destruct (root_key_path_offset st =? 0); [by destruct st|done].
Qed.

(** ** What the tree holds below a path *)

(** The first of the keys at the path. *)
Definition first_at (path : ustr) (kvs : list (ustr * KeyData))
    : option (ustr * KeyData) :=
  head (filter (fun kv => to_ascii_lowercase kv.1 = to_ascii_lowercase path) kvs).

Lemma first_at_cons path kv kvs :
  first_at path (kv :: kvs) =
  if decide (to_ascii_lowercase kv.1 = to_ascii_lowercase path) then Some kv
  else first_at path kvs.
Proof. unfold first_at. rewrite filter_cons. by case_decide. Qed.
Lemma first_at_app path a b :
  first_at path (a ++ b) = match first_at path a with Some kv => Some kv | None => first_at path b end.
Proof.
  unfold first_at. rewrite filter_app. by destruct (filter _ a).
Qed.
Lemma first_at_none path kvs :
  (forall kv, kv ∈ kvs -> segs kv.1 <> segs path) -> first_at path kvs = None.
Proof.
  intros H. unfold first_at. destruct (filter _ kvs) as [|kv l] eqn:Hf; [done|]. exfalso.
  assert (kv ∈ kv :: l) as Hin by by left. rewrite <- Hf in Hin.
  apply list_elem_of_filter in Hin as [Heq Hin]. apply (H kv Hin). by apply segs_inj.
Qed.

(** A key's name is not empty and has no backslash. *)
Definition good_name (t : HiveKey) : Prop := hk_name t <> [] /\ BACKSLASH ∉ hk_name t.

Lemma keys_of_In kv parent ts : kv ∈ keys_of parent ts <-> exists t, t ∈ ts /\ kv ∈ keys parent t.
Proof.
  induction ts as [|t ts IH]; cbn [keys_of foldr].
  { split; [by intros ?%not_elem_of_nil|by intros (? & ?%not_elem_of_nil & _)]. }
  fold (keys_of parent ts). rewrite elem_of_app, IH. split.
  - intros [H|(s & Hs & H)]; [exists t|exists s]; split; try done; [by left|by right].
  - intros (s & Hs & H). apply elem_of_cons in Hs as [->|Hs]; [by left|right; by exists s].
Qed.

(** The paths of a tree's keys start with the segments of its top key's path. *)
Lemma keys_prefix kv parent t :
  kv ∈ keys parent t -> kv = (hk_path parent t, hk_data t) \/
  exists rest, rest <> [] /\ segs kv.1 = segs (hk_path parent t) ++ rest.
Proof.
  remember (levels t) as m eqn:Hm. revert parent t Hm.
  induction m as [m IH] using lt_wf_ind. intros parent t -> Hin.
  rewrite keys_eq in Hin. apply elem_of_cons in Hin as [->|Hin]; [by left|right].
  apply keys_of_In in Hin as (s & Hs & Hin).
  pose proof (levels_child s t Hs) as Hlt.
  destruct (IH _ Hlt _ s eq_refl Hin) as [->|(rest & Hne & Hrest)].
  - exists (segs (hk_name s)). split; [apply segs_nonempty|]. cbn [fst]. unfold hk_path at 1.
    apply segs_app.
  - unfold hk_path at 1 in Hrest. rewrite segs_app, <- app_assoc in Hrest.
    exists (segs (hk_name s) ++ rest). split; [|done].
    intros H. apply app_nil in H as [H _]. by apply segs_nonempty in H.
Qed.

(** Nothing at or below a path off the way is at the target. *)
Lemma first_at_off target parent t :
  segs (hk_path parent t) <> segs target -> ~ leads (segs target) (hk_path parent t) ->
  first_at target (keys parent t) = None.
Proof.
  intros Hne Hl. apply first_at_none. intros kv Hin Heq.
  apply keys_prefix in Hin as [->|(rest & Hr & Hrest)]; [done|].
  apply Hl. exists rest. split; [done|]. by rewrite <- Heq.
Qed.

(** ** The descent *)

(** The loop over the children of a key that is not right above the target. *)
Definition descend {Er} (rec : M (CellKeyNode * State) Er (option CellKeyNode))
    : list CellKeyNode -> M (CellKeyNode * State) Er (option CellKeyNode) :=
  fix go children :=
    match children with
    | [] => m_ret None
    | child :: children =>
        let* r := fun s => match rec (child, s.2) with ((_, st), r) => ((s.1, st), r) end in
        match r with
        | Some key => m_ret (Some key)
        | None => go children
        end
    end.

Lemma get_sub_key_internal_step {Er} k fi f sn :
  get_sub_key_internal (Er:=Er) (S k) fi f sn =
  m_bind (read_sub_keys_internal (S k) fi f sn false) (fun '(children, found_key) =>
    if found_key : bool then m_ret (head children)
    else descend (get_sub_key_internal k fi f sn) children).
Proof. reflexivity. Qed.

(** What a lookup below a key returns. *)
Definition finds (r : option CellKeyNode) (found : option (ustr * KeyData)) : Prop :=
  match found with
  | Some kv => exists k, r = Some k /\ shows_key k kv
  | None => r = None
  end.

Section Descent.
Context {Er : Type} (fi : FileInfo) (depth : nat) (target : ustr) (sn : option Z).
Abbreviation T := (trim_end_char BACKSLASH target).
Abbreviation child_of P := (shows_child fi P (Some (path_filter target)) false
  (fun s => path_flags target (hk_path P s))).
Abbreviation seen P := (visited (fun s => path_flags target (hk_path P s))).

Lemma seen_spec P s :
  (segs (hk_path P s) = segs T /\ seen P s /\
     bf_contains (path_flags target (hk_path P s)) FILTER_KEY_MATCH = true) \/
  (leads (segs T) (hk_path P s) /\ seen P s /\
     bf_contains (path_flags target (hk_path P s)) FILTER_KEY_MATCH = false) \/
  (segs (hk_path P s) <> segs T /\ ~ leads (segs T) (hk_path P s) /\ ~ seen P s).
Proof.
  unfold visited. destruct (path_flags_spec target (hk_path P s)) as [[? ->]|[[? ->]|(? & ? & ->)]];
    rewrite !bf_contains_spec; [left|right; left|right; right]; by split_and!.
Qed.

(** Right above the target no child is merely on the way: the children read are the keys at
    the target, and the first of them is the answer. *)
Lemma children_at_target P kids ts :
  Forall2 (child_of P) kids (filter (seen P) ts) ->
  Forall (fun s => ~ leads (segs T) (hk_path P s)) ts ->
  Forall (fun s => forall kv, kv ∈ keys_of (hk_path P s) (hk_subkeys s) -> segs kv.1 <> segs T) ts ->
  existsb is_exact kids = negb (bool_decide (kids = [])) /\
  finds (head kids) (first_at T (keys_of P ts)).
Proof.
  revert kids. induction ts as [|s ts IH]; intros kids Hk Hl Hb.
  { cbn in Hk. inversion Hk; subst. by split. }
  apply Forall_cons in Hl as [Hl Hls]. apply Forall_cons in Hb as [Hb Hbs].
  cbn [keys_of foldr]. fold (keys_of P ts). rewrite first_at_app, keys_eq, first_at_cons. cbn [fst].
  rewrite (first_at_none T (keys_of (hk_path P s) _)) by done.
  rewrite filter_cons in Hk.
  destruct (seen_spec P s) as [(Heq & Hs & Hm)|[[? _]|(Hne & _ & Hs)]]; [|done|].
  - rewrite decide_True in Hk by done. apply Forall2_cons_inv_r in Hk as (k & kids' & Hk & _ & ->).
    destruct Hk as (Hcell & Hex & _ & Hvals). rewrite Hm in Hex. cbn [existsb head]. rewrite Hex.
    split; [done|]. rewrite decide_True by by apply segs_inj. exists k. split; [done|].
    apply (shows_cell_key _ _ _ _ Hcell), Hvals. unfold should_read_values.
    rewrite Hm. by rewrite orb_true_r.
  - rewrite decide_False in Hk by done.
    rewrite decide_False by (intros H; apply Hne; by apply segs_inj). by apply IH.
Qed.

(** Higher up no child is the target itself, and the answer is the first found below the
    children on the way. *)
Lemma descend_stored rec P st kids ts n0 :
  Forall2 (child_of P) kids (filter (seen P) ts) ->
  Forall (fun s => segs (hk_path P s) <> segs T) ts ->
  (forall k s st, s ∈ ts -> child_of P k s -> leads (segs T) (hk_path P s) -> clean st ->
     exists n' st' r, rec (k, st) = ((n', st'), Ok (E:=Er) r) /\ clean st' /\
       finds r (first_at T (keys_of (hk_path P s) (hk_subkeys s)))) ->
  clean st ->
  existsb is_exact kids = false /\
  exists st' r, descend rec kids (n0, st) = ((n0, st'), Ok r) /\ clean st' /\
    finds r (first_at T (keys_of P ts)).
Proof.
  revert kids st. induction ts as [|s ts IH]; intros kids st Hk Hne Hrec Hc.
  { cbn in Hk. inversion Hk; subst. split; [done|]. by exists st, None. }
  apply Forall_cons in Hne as [Hs Hne]. rewrite filter_cons in Hk.
  assert (forall k s st, s ∈ ts -> child_of P k s -> leads (segs T) (hk_path P s) -> clean st ->
     exists n' st' r, rec (k, st) = ((n', st'), Ok (E:=Er) r) /\ clean st' /\
       finds r (first_at T (keys_of (hk_path P s) (hk_subkeys s)))) as Hrec'
    by (intros k s' st' Hin; apply Hrec; by right).
  cbn [keys_of foldr]. fold (keys_of P ts).
  rewrite first_at_app, keys_eq, first_at_cons. cbn [fst].
  rewrite (decide_False (P:=_ = _)) by (intros H; apply Hs; by apply segs_inj).
  destruct (seen_spec P s) as [(? & _)|[(Hl & Hv & Hm)|(_ & Hl & Hv)]]; [done| |].
  - rewrite decide_True in Hk by done.
    apply Forall2_cons_inv_r in Hk as (k & kids' & Hk & Hkids & ->).
    destruct (Hrec k s st ltac:(by left) Hk Hl Hc) as (n' & st1 & r & Hr & Hc1 & Hfind).
    destruct (IH kids' st1 Hkids Hne Hrec' Hc1) as (Hex & st2 & r2 & Hd & Hc2 & Hfind2).
    cbn [existsb descend]. destruct Hk as (_ & Hexk & _). rewrite Hexk, Hm. split; [exact Hex|].
    unfold m_bind at 1. cbn [fst snd]. rewrite Hr. unfold finds in Hfind.
    destruct (first_at T (keys_of (hk_path P s) (hk_subkeys s))) as [kv|].
    + destruct Hfind as (key & -> & Hshow). exists st1, (Some key). split_and!; [done..|by exists key].
    + subst r. by exists st2, r2.
  - rewrite decide_False in Hk by done.
    rewrite (first_at_none T (keys_of (hk_path P s) _)); [by apply IH|].
    intros kv Hin Heq. apply Hl. apply keys_of_In in Hin as (u & _ & Hin).
    apply keys_prefix in Hin as [->|(rest & Hr & Hrest)]; cbn [fst] in *.
    + exists (segs (hk_name u)). split; [apply segs_nonempty|]. rewrite <- Heq. apply segs_app.
    + unfold hk_path at 1 in Hrest. rewrite segs_app, <- app_assoc in Hrest.
      exists (segs (hk_name u) ++ rest). split; [|by rewrite <- Heq].
      intros H. by apply app_nil in H as [_ ?].
Qed.
End Descent.

Lemma segs_child P s : good_name s -> segs (hk_path P s) = segs P ++ [to_ascii_lowercase (hk_name s)].
Proof. intros [_ H]. unfold hk_path. by rewrite segs_app, (segs_plain (hk_name s)). Qed.

(** The keys strictly below a child have longer paths than the child. *)
Lemma below_longer P s kv :
  kv ∈ keys_of (hk_path P s) (hk_subkeys s) ->
  (length (segs (hk_path P s)) < length (segs kv.1))%nat.
Proof.
  intros (u & _ & Hin)%keys_of_In.
  assert (length (segs (hk_path (hk_path P s) u))
    = length (segs (hk_path P s)) + length (segs (hk_name u)))%nat as Hu.
  { unfold hk_path at 1. by rewrite segs_app, length_app. }
  pose proof (segs_nonempty (hk_name u)) as Hn.
  assert (0 < length (segs (hk_name u)))%nat as Hpos by (destruct (segs (hk_name u)); [done|cbn; lia]).
  apply keys_prefix in Hin as [->|(rest & Hr & Hrest)]; cbn [fst] in *; [lia|].
  rewrite Hrest, length_app. lia.
Qed.

(** A lookup below a stored key on the way to the target finds the first key at it. *)
Lemma get_sub_key_internal_stored {Er} fuel fi depth target sn parent n t st rest :
  let T := trim_end_char BACKSLASH target in
  0 <= hbin_offset_absolute fi < U32_MOD -> clean st ->
  every_key (stores_key fi depth) t -> Forall (every_key good_name) (hk_subkeys t) ->
  shows_cell fi parent n t -> is_filter_match_or_descendent n = false ->
  segs T = segs (hk_path parent t) ++ rest -> rest <> [] -> (depth + length rest <= fuel)%nat ->
  exists n' st' r,
    get_sub_key_internal (Er:=Er) fuel fi (path_filter target) sn (n, st) = ((n', st'), Ok r) /\
    clean st' /\ finds r (first_at T (keys_of (hk_path parent t) (hk_subkeys t))).
Proof.
  intros T Hh. revert parent n t st rest.
  induction fuel as [|fuel IH]; intros parent n t st rest Hc Hkeys Hnames Hcell Hni Hseg Hne Hfuel;
    [destruct rest; [done|cbn in Hfuel; lia]|].
  apply every_key_eq in Hkeys as [Hkey Hsubs].
  set (P := hk_path parent t) in *. pose proof (sc_path _ _ _ _ Hcell) as Hpath. fold P in Hpath.
  assert (Forall (fun s => length (segs (hk_path P s)) = S (length (segs P))) (hk_subkeys t)) as Hlen.
  { eapply Forall_impl; [exact Hnames|]. intros s [Hs _]%every_key_eq.
    rewrite segs_child, length_app by done. cbn. lia. }
  destruct (read_sub_keys_stored (Er:=Er) clean (S fuel) fi depth (path_filter target) sn false
    (fun s => path_flags target (hk_path P s)) parent n t st) as (st1 & kids & offs & Hr & Hc1 & Hkids);
    try done; [lia|lia| | |].
  { eapply Forall_impl; [exact Hsubs|]. by intros s [? _]%every_key_eq. }
  { rewrite Hni. cbn [andb]. rewrite Hpath. apply Forall_true. intros s.
    by apply (path_filter_answers fi target (child_options P (Some (path_filter target)) false sn
      false (hk_offset s)) s). }
  rewrite Hni in Hkids. cbn [andb] in Hkids. rewrite Hpath in Hkids.
  rewrite get_sub_key_internal_step. rewrite (m_bind_run _ _ _ _ _ Hr).
  set (n1 := n_set_cell_sub_key_offsets_absolute offs n). apply (f_equal length) in Hseg as HsegL.
  rewrite length_app in HsegL. destruct (decide (length rest = 1%nat)) as [H1|H1].
  - destruct (children_at_target fi target P kids (hk_subkeys t) Hkids) as [Hex Hfind].
    + eapply Forall_impl; [exact Hlen|]. intros s Hs (r & Hr' & Heq).
      apply (f_equal length) in Heq. fold T in Heq. rewrite length_app in Heq.
      destruct r; [done|]. cbn in *. lia.
    + eapply Forall_impl; [exact Hlen|]. intros s Hs kv Hin%below_longer Heq. cbn beta in Hs.
      rewrite Heq in Hin. fold T in Hin. lia.
    + rewrite Hex. exists n1, st1, (head kids). split_and!; [|done|exact Hfind].
      case_bool_decide as Hk; cbn [negb]; [|done]. by rewrite Hk.
  - destruct (descend_stored (Er:=Er) fi target (get_sub_key_internal fuel fi (path_filter target) sn)
      P st1 kids (hk_subkeys t) n1 Hkids) as (Hex & st2 & r & Hd & Hc2 & Hfind); [| |done|].
    + eapply Forall_impl; [exact Hlen|]. intros s Hs Heq. cbn beta in Hs. fold T in Heq. rewrite Heq in Hs.
      destruct rest as [|? [|? ?]]; [done|done|]. cbn [length] in HsegL. lia.
    + intros k s st' Hin (Hcellk & Hexk & Hni' & _) (rest' & Hr' & Hseg') Hc'. fold T in Hseg'.
      rewrite Forall_forall in Hsubs, Hnames, Hlen.
      apply (IH P k s st' rest'); try done; [by apply Hsubs| | |].
      * apply Hnames, every_key_eq in Hin as [_ Hin]. exact Hin.
      * rewrite Hni', orb_false_r. destruct (path_flags_spec target (hk_path P s))
          as [[Heq _]|[[_ ->]|(_ & Hl & _)]].
        -- exfalso. fold T in Heq. rewrite Heq in Hseg'. apply (f_equal length) in Hseg'.
           rewrite length_app in Hseg'. destruct rest'; [done|]. cbn [length] in Hseg'. lia.
        -- by apply bf_contains_iterate.
        -- exfalso. apply Hl. by exists rest'.
      * apply Hlen in Hin. apply (f_equal length) in Hseg'. rewrite length_app in Hseg'. lia.
    + rewrite Hex. by exists n1, st2, r.
Qed.

(** ** Lookup by path *)

Lemma trim_start_app c a b : trim_start_char c a <> [] -> trim_start_char c (a ++ b) = trim_start_char c a ++ b.
Proof. induction a as [|x a IH]; [done|]. cbn. by destruct (x =? c). Qed.
Lemma trim_end_app c a b : trim_end_char c b <> [] -> trim_end_char c (a ++ b) = a ++ trim_end_char c b.
Proof.
  unfold trim_end_char. intros H. rewrite reverse_app, trim_start_app, reverse_app, reverse_involutive;
    [done|]. intros Hn. by rewrite Hn in H.
Qed.

(** An open parser whose base block leads to the root of the stored tree. *)
Record base_block_leads (depth : nat) (p : Parser) (t : HiveKey) : Prop := {
  bl_keys : every_key (stores_key (file_info p) depth) t;
  bl_clean : clean (state p);
  bl_bins : 0 <= hbin_offset_absolute (file_info p) < U32_MOD;
  bl_root : exists bb, base_block p = Some bb /\
    as_usize (root_cell_offset_relative (base bb)) + hbin_offset_absolute (file_info p)
      = hk_offset t /\ hk_offset t < U64_MOD;
}.

Lemma base_block_leads_state depth p t st :
  base_block_leads depth p t -> clean st -> base_block_leads depth (p_set_state st p) t.
Proof. intros [] Hc. by destruct p. Qed.

(** The root key is read through the base block. *)
Lemma get_root_key_stored fuel depth p t :
  (1 <= fuel)%nat -> base_block_leads depth p t ->
  exists st root, get_root_key fuel p = (p_set_state st p, Ok (Some root)) /\ clean st /\
    shows_cell (file_info p) [] root t /\ is_filter_match_or_descendent root = false /\
    Forall2 shows_value (n_sub_values root) (hk_values t).
Proof.
  intros Hf [Hkeys Hc Hh (bb & Hbb & Hoff & Hmax)]. unfold get_root_key, m_bind at 1, m_get.
  rewrite Hbb. unfold add_usize, add_uw. rewrite (proj2 (Z.ltb_lt _ _)) by lia.
  unfold m_bind, m_lift, with_state. rewrite Hoff.
  apply every_key_eq in Hkeys as [Hkey _]. destruct bf_contains_iterate as [Hno Hm].
  set (o := {| o_offset := hk_offset t; o_cur_path := []; o_filter := None;
               o_self_is_filter_match_or_descendent := true; o_sequence_num := None;
               o_get_deleted_and_modified := true |}).
  destruct (read_stored clean fuel (file_info p) depth t o (state p) FILTER_ITERATE_KEYS)
    as (st & r & Hr & Hc' & Hcase); try done; [lia|by intros n st _ Hcl; exists st|].
  rewrite Hno in Hcase. destruct Hcase as (root & -> & Hcell & Hit & Hvals).
  exists st, root. rewrite Hr. split_and!; [done|done|done| |by apply Hvals].
  unfold is_filter_match_or_descendent. rewrite Hit. by rewrite Hm.
Qed.

(** The full path a lookup asks for. *)
Definition target_path (root_path rest : ustr) : ustr :=
  if decide (rest = []) then root_path
  else root_path ++ [BACKSLASH] ++ trim_end_char BACKSLASH rest.

(** A lookup by path, which leaves the parser as good as it was. *)
Lemma get_key_stored fuel depth key_path has_root p t rest :
  base_block_leads depth p t -> Forall (every_key good_name) (hk_subkeys t) ->
  path_below_root key_path has_root = Some rest ->
  rest = [] \/ trim_end_char BACKSLASH rest <> [] ->
  (1 <= fuel)%nat -> (depth + length (segs (trim_end_char BACKSLASH rest)) <= fuel)%nat ->
  exists p' r, get_key fuel key_path has_root p = (p', Ok r) /\ base_block_leads depth p' t /\
    finds r (first_at (target_path (hk_path [] t) rest) (keys [] t)).
Proof.
  intros Hbl Hnames Hrest Htrim Hf Hfuel. set (P := hk_path [] t).
  destruct (get_root_key_stored fuel depth p t Hf Hbl) as (st & root & Hroot & Hc & Hcell & Hni & Hvals).
  unfold get_key, m_bind at 1, m_try. rewrite Hroot.
  assert ((if has_root then match str_find BACKSLASH (trim_start_char BACKSLASH key_path) with
             | Some slash_offset => m_lift (expect
                 (str_from (trim_start_char BACKSLASH key_path) (slash_offset + 1)))
             | None => m_ret []
             end else m_ret (trim_start_char BACKSLASH key_path)) (p_set_state st p)
    = (p_set_state st p, Ok (E:=Error) rest)) as Hkp.
  { unfold path_below_root in Hrest. destruct has_root; [|by injection Hrest as ->].
    destruct (str_find _ _); [|by injection Hrest as ->]. unfold m_lift. by rewrite Hrest. }
  rewrite (m_bind_run _ _ _ _ _ Hkp). unfold m_bind at 1, with_node.
  assert (file_info (p_set_state st p) = file_info p /\ state (p_set_state st p) = st)
    as [-> ->] by by destruct p.
  pose proof (sc_path _ _ _ _ Hcell) as Hpath. fold P in Hpath.
  unfold get_sub_key_by_path, m_bind at 1, m_get. cbn [fst]. unfold target_path.
  rewrite keys_eq, first_at_cons. cbn [fst]. fold P.
  destruct (decide (rest = [])) as [->|Hne].
  - rewrite bool_decide_true by done. rewrite decide_True by done.
    cbn. eexists _, _. split; [reflexivity|]. split; [by repeat apply base_block_leads_state|].
    exists root. split; [done|]. by apply (shows_cell_key _ _ _ _ Hcell).
  - rewrite bool_decide_false by done. destruct Htrim as [?|Htrim]; [done|].
    rewrite path_filter_build, Hpath.
    assert (trim_end_char BACKSLASH (P ++ [BACKSLASH] ++ rest)
      = P ++ [BACKSLASH] ++ trim_end_char BACKSLASH rest) as HT.
    { rewrite app_assoc, trim_end_app by done. by rewrite <- app_assoc. }
    rewrite decide_False.
    2:{ intros Heq%segs_inj. rewrite segs_app in Heq. apply (f_equal length) in Heq.
        rewrite length_app in Heq. pose proof (segs_nonempty (trim_end_char BACKSLASH rest)).
        destruct (segs (trim_end_char BACKSLASH rest)); [done|]. cbn [length] in Heq. lia. }
    pose proof Hbl as [Hkeys _ Hh _].
    destruct (get_sub_key_internal_stored (Er:=Error) fuel (file_info p) depth
      (P ++ [BACKSLASH] ++ rest) None [] root t st (segs (trim_end_char BACKSLASH rest)))
      as (n' & st' & r & Hr & Hc' & Hfind); try done.
    + by rewrite HT, segs_app.
    + apply segs_nonempty.
    + rewrite HT in Hfind. fold P in Hfind. rewrite Hr.
      eexists _, r. split; [reflexivity|]. split; [|exact Hfind].
      by repeat apply base_block_leads_state.
Qed.
(** C9: a lookup by path is exact: on a file that stores a tree of keys (names without
    backslash), [get_key] returns the first key of the tree, in the order of a traversal,
    whose path is the root's followed by the rest of the path asked for, up to ASCII case and
    trailing backslashes, with all its values; and nothing when the tree has no such key. *)
Theorem get_key_finds fuel depth key_path has_root p t rest :
  base_block_leads depth p t -> Forall (every_key good_name) (hk_subkeys t) ->
  path_below_root key_path has_root = Some rest ->
  rest = [] \/ trim_end_char BACKSLASH rest <> [] ->
  (1 <= fuel)%nat -> (depth + length (segs (trim_end_char BACKSLASH rest)) <= fuel)%nat ->
  exists p' r, get_key fuel key_path has_root p = (p', Ok r) /\
    finds r (first_at (target_path (hk_path [] t) rest) (keys [] t)).
Proof.
  intros Hbl Hnames Hrest Htrim Hf Hfuel.
  destruct (get_key_stored fuel depth key_path has_root p t rest) as (p' & r & Hr & _ & Hfind);
    try done. by exists p', r.
Qed.
End Lookup.
