(* ===== verification/HiveFilter.v ===== *)
(** * HiveFilter: a filtered traversal yields the keys the query selects

    Against the layout of [Hive]: pruning loses nothing.  A traversal with a query filter
    returns, in preorder, exactly the keys below the root whose path the query selects. *)

From S2P Require Import Prelude Env Log Util UtilFacts Cells BaseBlock SubKeyLists Values ValueFacts State Filter KeyNode KeyNodeFacts Recover Parser ParserFacts Hive HiveFacts LookupFacts HiveLookup.

#[local] Opaque lit to_le_bytes fmt_dec.

(** ** Cutting the root off a path *)

(** The offset in bytes of what follows [\name\]. *)
Definition root_offset (name : ustr) : Z := 2 + str_len name.

Lemma str_len_nonneg s : 0 <= str_len s.
Proof. induction s as [|c s IH]; cbn; [done|]. pose proof (utf8_len_pos c). lia. Qed.

Lemma str_find_root name r :
  BACKSLASH ∉ name -> str_find BACKSLASH (name ++ BACKSLASH :: r) = Some (str_len name).
Proof.
  induction name as [|c name IH]; [done|]. intros Hn. cbn [app str_find str_len].
  rewrite (proj2 (Z.eqb_neq c _)) by (intros ->; apply Hn; by left).
  by rewrite IH by (intros H; apply Hn; by right).
Qed.

Lemma get_root_path_offset_root name r :
  BACKSLASH ∉ name -> get_root_path_offset (BACKSLASH :: name ++ BACKSLASH :: r) = root_offset name.
Proof.
  intros Hn. unfold get_root_path_offset, root_offset. rewrite Z.eqb_refl, str_find_root by done. lia.
Qed.

Lemma str_from_skip s r : str_from (s ++ r) (str_len s) = Some r.
Proof.
  induction s as [|c s IH]; [by destruct r|]. cbn [app str_len str_from].
  pose proof (utf8_len_pos c). pose proof (str_len_nonneg s).
  rewrite (proj2 (Z.eqb_neq _ _)), (proj2 (Z.ltb_ge _ _)) by lia.
  by replace (utf8_len c + str_len s - utf8_len c) with (str_len s) by lia.
Qed.

Lemma str_len_app s t : str_len (s ++ t) = str_len s + str_len t.
Proof. induction s as [|c s IH]; cbn; [done|]. lia. Qed.

Lemma str_from_root name r :
  str_from (BACKSLASH :: name ++ BACKSLASH :: r) (root_offset name) = Some r.
Proof.
  rewrite <- (str_from_skip (BACKSLASH :: name ++ [BACKSLASH]) r). f_equal.
  - cbn [app]. by rewrite <- app_assoc.
  - unfold root_offset. cbn [str_len]. rewrite str_len_app. cbn. lia.
Qed.

Lemma utf8_len_lower c : utf8_len (ascii_lower c) = utf8_len c.
Proof. unfold utf8_len, ascii_lower. repeat case_match; lia. Qed.
Lemma str_len_lower s : str_len (to_ascii_lowercase s) = str_len s.
Proof. induction s as [|c s IH]; [done|]. cbn. by rewrite utf8_len_lower, <- IH. Qed.
Lemma lower_no_backslash s : BACKSLASH ∉ s -> BACKSLASH ∉ to_ascii_lowercase s.
Proof.
  intros Hn (c & Hc & Hin)%list_elem_of_fmap. apply Hn.
  pose proof (ascii_lower_backslash c) as H. rewrite <- Hc, Z.eqb_refl in H.
  by apply eq_sym, Z.eqb_eq in H as <-.
Qed.

Section Query.
Context `{E : Env}.

(** ** What a query selects *)

#[export] Instance component_matches_dec c s : Decision (component_matches c s).
Proof. destruct c; unfold component_matches; apply _. Defined.
#[export] Instance path_matches_dec q segments : Decision (path_matches q segments).
Proof. unfold path_matches. apply _. Defined.

(** The segments a query is about: the whole path's, or those after the root's. *)
Definition query_segments (q : RegQuery) (root_path path : ustr) : list ustr :=
  if rq_key_path_has_root q then segs path else drop (length (segs root_path)) (segs path).

(** A query selects the keys at its path and, when it asks for children, all below them. *)
Definition selects (q : RegQuery) (root_path path : ustr) : Prop :=
  let segments := query_segments q root_path path in
  path_matches (rq_key_path q)
    (if rq_children q then take (length (rq_key_path q)) segments else segments).
#[export] Instance selects_dec q root_path path : Decision (selects q root_path path).
Proof. unfold selects. apply _. Defined.

(** ** The filter's answers on a tree *)

Section Tree.
Variables (q : RegQuery) (f : Filter) (t : HiveKey).
Hypothesis Hq : reg_query f = Some q.
Hypothesis Hname : BACKSLASH ∉ hk_name t.
Abbreviation P := (hk_path [] t).

(** The key below the root is named without backslash and not flagged as a root. *)
Definition plain_sub_key (s : HiveKey) : Prop :=
  (BACKSLASH ∉ hk_name s) /\
  (rq_key_path_has_root q = false ->
   bf_contains (KeyNodeFlags_from_bits_checked (kd_flags (hk_data s)) Logs_default).1
     KEY_HIVE_ENTRY = false).

(** The state keeps, once a path was matched, the offset at which the root ends. *)
Definition rooted (st : State) : Prop :=
  clean st /\ (root_key_path_offset st = 0 \/ root_key_path_offset st = root_offset (hk_name t)).
#[export] Instance rooted_inv : ReaderInv rooted.
Proof. split; [by intros st []|]. by intros h []. Qed.

Lemma query_segments_below r :
  query_segments q P (P ++ BACKSLASH :: r)
    = (if rq_key_path_has_root q then segs P else []) ++ segs r.
Proof.
  unfold query_segments. change (BACKSLASH :: r) with ([BACKSLASH] ++ r). rewrite segs_app.
  destruct (rq_key_path_has_root q); [done|]. by rewrite drop_app_length.
Qed.

Lemma lower_below r :
  to_ascii_lowercase (P ++ BACKSLASH :: r)
    = BACKSLASH :: to_ascii_lowercase (hk_name t) ++ BACKSLASH :: to_ascii_lowercase r.
Proof. rewrite to_ascii_lowercase_app. reflexivity. Qed.

Lemma check_key_match_below r :
  check_key_match (Er:=Error) q (to_ascii_lowercase (P ++ BACKSLASH :: r)) (root_offset (hk_name t))
    = Ok (match_segments (query_segments q P (P ++ BACKSLASH :: r)) (rq_key_path q)).
Proof.
  unfold check_key_match. rewrite query_segments_below. destruct (rq_key_path_has_root q).
  - assert (forall s, str_from s 0 = Some s) as -> by by intros [].
    cbn [expect mbind res_bind]. rewrite str_split_lowercase. fold (segs (P ++ BACKSLASH :: r)).
    change (BACKSLASH :: r) with ([BACKSLASH] ++ r). by rewrite segs_app.
  - rewrite lower_below.
    assert (root_offset (hk_name t) = root_offset (to_ascii_lowercase (hk_name t))) as ->
      by (unfold root_offset; by rewrite str_len_lower).
    rewrite str_from_root. cbn [expect mbind res_bind app].
    by rewrite str_split_lowercase.
Qed.

(** A query filter's answer for a key below the root depends on its path only. *)
Lemma query_filter_answers fi parent s r n st :
  shows_cell fi parent n s -> hk_path parent s = P ++ BACKSLASH :: r -> plain_sub_key s ->
  rooted st ->
  exists st', check_cell f n st
      = (st', Ok (E:=Error) (match_segments (query_segments q P (hk_path parent s)) (rq_key_path q)))
    /\ rooted st'.
Proof.
  intros Hcell Hpath [_ Hroot] [Hc Hoff]. unfold check_cell, Filter_is_valid, match_cell. rewrite Hq.
  rewrite bool_decide_true by done.
  assert (is_key_root n && negb (rq_key_path_has_root q) = false) as ->.
  { destruct (rq_key_path_has_root q); [apply andb_false_r|]. rewrite andb_true_r.
    unfold is_key_root, CellKeyNode_key_node_flags. rewrite (sc_flags _ _ _ _ Hcell).
    by apply Hroot. }
  unfold match_key. rewrite Hq. unfold m_bind, m_get, m_modify, m_lift, lowercase.
  rewrite (sc_path _ _ _ _ Hcell), Hpath.
  assert (get_root_path_offset (to_ascii_lowercase (P ++ BACKSLASH :: r)) = root_offset (hk_name t))
    as Hget.
  { rewrite lower_below, get_root_path_offset_root by by apply lower_no_backslash.
    unfold root_offset. by rewrite str_len_lower. }
  pose proof (str_len_nonneg (hk_name t)) as Hpos.
  unfold State_get_root_path_offset. rewrite Hget. set (st' := if root_key_path_offset st =? 0 then _ else _).
  assert (clean st' /\ root_key_path_offset st' = root_offset (hk_name t)) as [Hc' Hr].
  { unfold st'. destruct Hoff as [H0|H0]; rewrite H0; cbn [Z.eqb]; [by destruct st|].
    rewrite (proj2 (Z.eqb_neq _ 0)) by (unfold root_offset; lia).
    split; [exact Hc|exact H0]. }
  exists st'. rewrite Hr, check_key_match_below. split; [done|]. split; [done|]. by right.
Qed.
(** *** The tree as the filter sees it *)

(** The root's path, or one below it. *)
Definition below_root (path : ustr) : Prop := path = P \/ exists r, path = P ++ BACKSLASH :: r.
Definition in_tree (parent : ustr) (s : HiveKey) : Prop :=
  below_root (hk_path parent s) /\ Forall (every_key plain_sub_key) (hk_subkeys s).

Lemma below_child path s : below_root path -> exists r, hk_path path s = P ++ BACKSLASH :: r.
Proof.
  unfold hk_path at 1. intros [->|[r ->]]; [by exists (hk_name s)|].
  exists (r ++ [BACKSLASH] ++ hk_name s). by rewrite <- app_assoc.
Qed.

Lemma in_tree_child parent s c :
  in_tree parent s -> c ∈ hk_subkeys s -> in_tree (hk_path parent s) c /\ plain_sub_key c.
Proof.
  intros [Hb Hall] Hc. rewrite Forall_forall in Hall. apply Hall, every_key_eq in Hc as [Hc Hsubs].
  split; [|done]. split; [|done]. right. by apply below_child.
Qed.

(** The answers for the keys of the tree; below a match that returns its subkeys there is no
    filter any more. *)
Definition query_flags (matched : bool) (parent : ustr) (s : HiveKey) : Z :=
  if matched && rq_children q then FILTER_ITERATE_KEYS
  else match_segments (query_segments q P (hk_path parent s)) (rq_key_path q).

Lemma query_filter_on_tree fi : filter_on_tree rooted fi f query_flags in_tree.
Proof.
  split; [intros parent s c Hs Hc; by apply (in_tree_child parent s c)|].
  intros matched parent s c sn gdm Hs Hc n st Hcell Hst.
  pose proof (in_tree_child _ _ _ Hs Hc) as [_ Hplain].
  destruct (below_child _ c (proj1 Hs)) as [r Hr]. unfold query_flags.
  unfold return_sub_keys. rewrite Hq. cbn [child_options o_filter o_cur_path] in *.
  destruct (matched && rq_children q); [by exists st|]. by eapply query_filter_answers.
Qed.

(** ** What the traversal visits is what the query selects *)

Abbreviation segments_of path := (query_segments q P path).
Abbreviation comps := (rq_key_path q).

Lemma below_length path : below_root path -> (length (segs P) <= length (segs path))%nat.
Proof.
  intros [->|[r ->]]; [done|]. change (BACKSLASH :: r) with ([BACKSLASH] ++ r).
  rewrite segs_app, length_app. lia.
Qed.

Lemma segments_child path s :
  below_root path -> BACKSLASH ∉ hk_name s ->
  segments_of (hk_path path s) = segments_of path ++ [to_ascii_lowercase (hk_name s)].
Proof.
  intros Hb Hs. unfold query_segments.
  assert (segs (hk_path path s) = segs path ++ [to_ascii_lowercase (hk_name s)]) as ->
    by (unfold hk_path; by rewrite segs_app, (segs_plain (hk_name s))).
  destruct (rq_key_path_has_root q); [done|]. by apply drop_app_le, below_length.
Qed.

(** The keys below a path extend its segments. *)
Lemma segments_keys path s kv :
  below_root path -> kv ∈ keys path s ->
  exists rest, segments_of kv.1 = segments_of (hk_path path s) ++ rest.
Proof.
  intros Hb [->|(rest & _ & Hrest)]%keys_prefix; [exists []; by rewrite app_nil_r|].
  exists rest. unfold query_segments. rewrite Hrest. destruct (rq_key_path_has_root q); [done|].
  apply drop_app_le, below_length. right. by apply below_child.
Qed.

(** A key off the way has nothing selected at or below it. *)
Lemma selects_on_the_way segments rest path :
  segments_of path = segments ++ rest -> (length segments <= length comps)%nat ->
  selects q P path -> path_matches comps segments \/ path_leads comps segments.
Proof.
  unfold selects. intros -> Hl Hsel.
  assert (exists rest', path_matches comps (segments ++ rest')) as [rest' Hm].
  { destruct (rq_children q); [|by exists rest]. rewrite take_app in Hsel.
    rewrite take_ge in Hsel by done. by eexists. }
  apply Forall2_app_inv_r in Hm as (pre & post & Hpre & Hpost & Heq).
  destruct post as [|c post]; [left|right; by exists pre, (c :: post)].
  rewrite app_nil_r in Heq. unfold path_matches. by rewrite Heq.
Qed.

(** What is known of a visited path: it is selected, or shorter than the query. *)
Definition on_the_way (matched : bool) (path : ustr) : Prop :=
  if matched then selects q P path else (length (segments_of path) < length comps)%nat.

Lemma on_the_way_selects matched path :
  on_the_way matched path -> selects q P path <-> matched = true.
Proof.
  destruct matched; [by split|]. cbn. intros Hl. split; [|done]. unfold selects. intros Hm.
  apply Forall2_length in Hm. destruct (rq_children q); rewrite ?length_take in Hm; lia.
Qed.

(** Below a match all is selected, or nothing. *)
Lemma below_match path rest sub :
  selects q P path -> segments_of sub = segments_of path ++ rest -> rest <> [] ->
  selects q P sub <-> rq_children q = true.
Proof.
  unfold selects. intros Hsel Hsub Hne. rewrite Hsub. destruct (rq_children q).
  - split; [done|]. intros _. rewrite take_app_le; [done|].
    apply Forall2_length in Hsel. rewrite length_take in Hsel. lia.
  - split; [|done]. intros Hm. apply Forall2_length in Hsel, Hm. rewrite length_app in Hm.
    assert (length rest <> 0%nat) by by destruct rest. lia.
Qed.

(** The visited keys a traversal returns. *)
Definition picked (l : list (bool * (ustr * KeyData))) : list (ustr * KeyData) :=
  snd <$> filter (fun e : bool * (ustr * KeyData) => e.1 = true) l.
Abbreviation selected kvs := (filter (fun kv : ustr * KeyData => selects q P kv.1) kvs).

Lemma picked_app a b : picked (a ++ b) = picked a ++ picked b.
Proof. unfold picked. by rewrite filter_app, fmap_app. Qed.

Lemma selected_none path s :
  (forall kv, kv ∈ keys path s -> ~ selects q P kv.1) -> selected (keys path s) = [].
Proof.
  induction (keys path s) as [|kv kvs IH]; [done|]. intros H. rewrite filter_cons, decide_False.
  - apply IH. intros kv' Hin. apply H. by right.
  - apply H. by left.
Qed.

(** The filter's answer for a child, and what it means for the keys at and below it. *)
Lemma child_answer matched path s :
  below_root path -> BACKSLASH ∉ hk_name s -> on_the_way matched path ->
  let flags := query_flags matched path s in
  if bf_contains flags FILTER_NO_MATCH then selected (keys path s) = []
  else on_the_way (matched_child query_flags matched path s) (hk_path path s).
Proof.
  intros Hb Hs Hway. pose proof (segments_child path s Hb Hs) as Hchild.
  assert (below_root (hk_path path s)) as Hb' by (right; by apply below_child).
  unfold matched_child, query_flags. destruct matched; cbn [andb].
  - destruct (rq_children q) eqn:Hch.
    + destruct bf_contains_iterate as [-> ->]. cbn [orb].
      by apply (below_match path [to_ascii_lowercase (hk_name s)]).
    + assert (forall kv, kv ∈ keys path s -> ~ selects q P kv.1) as Hno.
      { intros kv Hkv Hsel. destruct (segments_keys path s kv Hb Hkv) as [rest Hrest].
        rewrite Hchild, <- app_assoc in Hrest.
        apply (below_match path _ kv.1 Hway Hrest) in Hsel; [congruence|]. by destruct rest. }
      destruct (match_segments_spec (segments_of (hk_path path s)) comps)
        as [[Hm _]|[[(pre & post & Heq & _ & Hm) _]|(_ & _ & ->)]].
      * exfalso. apply (Hno (hk_path path s, hk_data s)); [rewrite keys_eq; by left|].
        unfold selects. by rewrite Hch.
      * exfalso. unfold on_the_way, selects in Hway. rewrite Hch in Hway.
        apply Forall2_length in Hway, Hm. rewrite Hchild, length_app in Hm.
        rewrite Heq, length_app in Hway. cbn [length] in Hm. lia.
      * rewrite bf_contains_spec. cbn. by apply selected_none.
  - change (length (segments_of path) < length comps)%nat in Hway.
    assert (length (segments_of (hk_path path s)) <= length comps)%nat as Hlen
      by (rewrite Hchild, length_app; cbn [length]; lia).
    destruct (match_segments_spec (segments_of (hk_path path s)) comps)
      as [[Hm ->]|[[(pre & post & Heq & Hne & Hm) ->]|(Hm & Hl & ->)]]; rewrite !bf_contains_spec; repeat vm_compute (Z.land _ _ =? _); cbn [orb on_the_way].
    + unfold selects. pose proof (Forall2_length _ _ _ Hm). rewrite take_ge by lia.
      by destruct (rq_children q).
    + apply Forall2_length in Hm. rewrite Heq, length_app. assert (length post <> 0%nat) by by destruct post. lia.
    + apply selected_none. intros kv Hkv Hsel.
      destruct (segments_keys path s kv Hb Hkv) as [rest Hrest].
      by destruct (selects_on_the_way _ _ _ Hrest Hlen Hsel).
Qed.

(** The children of a visited key, when what is below each is known. *)
Lemma picked_children matched path ts :
  below_root path -> on_the_way matched path -> Forall (fun s => BACKSLASH ∉ hk_name s) ts ->
  (forall m s, s ∈ ts -> on_the_way m (hk_path path s) ->
     picked (visits query_flags m path s) = selected (keys path s)) ->
  picked (to_come query_flags (pushed query_flags matched path ts)) = selected (keys_of path ts).
Proof.
  intros Hb Hway Hnames Hrec. induction ts as [|s ts IH]; [done|].
  apply Forall_cons in Hnames as [Hs Hnames]. cbn [keys_of foldr]. fold (keys_of path ts).
  rewrite filter_app, <- IH by (done || intros m s' Hin; apply Hrec; by right).
  pose proof (child_answer matched path s Hb Hs Hway) as Hans. cbv zeta in Hans.
  unfold pushed. rewrite filter_cons.
  destruct (decide (visited (query_flags matched path) s)) as [Hv|Hv]; unfold visited in Hv.
  - rewrite Hv in Hans. cbn [fmap list_fmap].
    rewrite <- (Hrec _ s ltac:(by left) Hans), <- picked_app. reflexivity.
  - apply not_false_iff_true in Hv. rewrite Hv in Hans. by rewrite Hans.
Qed.

Lemma picked_visits matched parent s :
  in_tree parent s -> on_the_way matched (hk_path parent s) ->
  picked (visits query_flags matched parent s) = selected (keys parent s).
Proof.
  remember (levels s) as m eqn:Hm. revert matched parent s Hm.
  induction m as [m IH] using lt_wf_ind. intros matched parent s -> Hin Hway.
  rewrite visits_eq, keys_eq. cbv zeta. set (path := hk_path parent s) in *.
  assert (picked (to_come query_flags (pushed query_flags matched path (hk_subkeys s)))
    = selected (keys_of path (hk_subkeys s))) as Hsub.
  { apply picked_children; [apply Hin|done| |].
    - apply Forall_forall. intros c Hc. by apply (in_tree_child parent s c Hin Hc).
    - intros m c Hc Hwayc. apply (IH (levels c)); [by apply levels_child|done| |done].
      by apply (in_tree_child parent s c Hin Hc). }
  unfold picked at 1. rewrite !filter_cons. cbn [fst].
  destruct (on_the_way_selects matched path Hway) as [H1 H2].
  destruct (decide (matched = true)) as [->|Hn].
  - rewrite decide_True by by apply H2. cbn [fmap list_fmap snd]. f_equal. exact Hsub.
  - rewrite decide_False by (intros H; by apply Hn, H1). exact Hsub.
Qed.

(** A query no longer than the root's path rejects every key below the root. *)
Lemma short_query_visits s :
  below_root (hk_path [] s) -> Forall (fun c => BACKSLASH ∉ hk_name c) (hk_subkeys s) ->
  (length comps <= length (segments_of (hk_path [] s)))%nat ->
  picked (visits query_flags false [] s) = [].
Proof.
  intros Hb Hnames Hlen. rewrite visits_eq. cbv zeta. set (path := hk_path [] s) in *.
  assert (filter (visited (query_flags false path)) (hk_subkeys s) = []) as Hnone.
  { induction Hnames as [|c ts Hc _ IH]; [done|]. rewrite filter_cons, decide_False; [done|].
    unfold visited, query_flags. cbn [andb].
    assert (length comps < length (segments_of (hk_path path c)))%nat as Hlt
      by (rewrite segments_child, length_app by done; cbn [length]; lia).
    destruct (match_segments_spec (segments_of (hk_path path c)) comps)
      as [[Hm _]|[[(pre & post & Heq & _ & Hm) _]|(_ & _ & ->)]].
    - apply Forall2_length in Hm. lia.
    - apply Forall2_length in Hm. apply (f_equal length) in Heq. rewrite length_app in Heq. lia.
    - by rewrite bf_contains_spec. }
  unfold pushed. by rewrite Hnone.
Qed.

(** What a traversal returns of the entries it visits, when ancestors are left out. *)
Lemma shows_picked ks l :
  Forall2 (shows_entry f) ks (filter (fun e => returned f false e.1) l) ->
  Forall2 shows_key ks (picked l).
Proof.
  revert ks. induction l as [|[m kv] l IH]; intros ks H.
  { inversion H; subst. constructor. }
  unfold picked. rewrite filter_cons in *. cbn [fst] in *.
  assert (returned f false m = m) as Hm
    by (unfold returned, Filter_is_valid; rewrite Hq; by destruct m).
  rewrite Hm in H. destruct m.
  - rewrite decide_True in H by done. rewrite decide_True by done. cbn [fmap list_fmap].
    inversion H as [|k ? ks' ? [Hi Hv] Hrest]; subst. constructor; [|by apply IH].
    split; [done|]. by apply Hv.
  - rewrite decide_False in H by by intros []. rewrite decide_False by done. by apply IH.
Qed.
End Tree.

(** A filtered traversal, in terms of the entries it picks. *)
Lemma filtered_traversal_picks fuel depth p t f q :
  (1 <= fuel)%nat -> (depth <= fuel)%nat -> parser_stores depth p t -> reg_query f = Some q ->
  BACKSLASH ∉ hk_name t -> Forall (every_key (plain_sub_key q)) (hk_subkeys t) ->
  exists m ks,
    collect_keys (Er:=Error) m m fuel p (pi_with_filter f (ParserIterator_new p)) = Ok ks /\
    Forall2 shows_key ks (picked (visits (query_flags q t) false [] t)).
Proof.
  intros Hf Hd (Hst & [Hc Hz] & Hh & root & Hroot & Hcell & Hvals & Hnone) Hq Hname Hnames.
  destruct (traversal_on_tree (Er:=Error) (rooted t) p fuel depth f false (query_flags q t)
    (in_tree q t) Hf Hd Hh (query_filter_on_tree q f t Hq Hname (file_info p)) t root)
    as (m & ks & Hrun & Hks); try done; [by split; [|left]|by split; [left|]|].
  exists m, ks. split; [exact Hrun|]. by apply (shows_picked q f Hq) in Hks.
Qed.

(** C10: pruning loses nothing: on a file that stores a tree of keys (names without backslash),
    a traversal with the filter of a query that asks for a key below the root ends and yields
    exactly the keys of the tree whose path the query selects (every component, literal or
    regular expression, matching a segment of it up to ASCII case, and, when subkeys are asked
    for, all keys below those), in preorder, each with its path and values. *)
Theorem filtered_traversal_exact fuel depth p t f q :
  (1 <= fuel)%nat -> (depth <= fuel)%nat -> parser_stores depth p t -> reg_query f = Some q ->
  BACKSLASH ∉ hk_name t -> Forall (every_key (plain_sub_key q)) (hk_subkeys t) ->
  let root_path := hk_path [] t in
  (length (query_segments q root_path root_path) < length (rq_key_path q))%nat ->
  exists m ks,
    collect_keys (Er:=Error) m m fuel p (pi_with_filter f (ParserIterator_new p)) = Ok ks /\
    Forall2 shows_key ks (filter (fun kv => selects q root_path kv.1) (keys [] t)).
Proof.
  intros Hf Hd Hst Hq Hname Hnames P Hlen.
  destruct (filtered_traversal_picks fuel depth p t f q) as (m & ks & Hrun & Hks); try done.
  exists m, ks. split; [exact Hrun|]. rewrite (picked_visits q t) in Hks; [done| |done].
  by split; [left|].
Qed.

(** The root itself is never asked about, so a query for its own path, or a shorter one, yields
    nothing. *)
Lemma root_query_yields_nothing fuel depth p t f q :
  (1 <= fuel)%nat -> (depth <= fuel)%nat -> parser_stores depth p t -> reg_query f = Some q ->
  BACKSLASH ∉ hk_name t -> Forall (every_key (plain_sub_key q)) (hk_subkeys t) ->
  let root_path := hk_path [] t in
  (length (rq_key_path q) <= length (query_segments q root_path root_path))%nat ->
  exists m, collect_keys (Er:=Error) m m fuel p (pi_with_filter f (ParserIterator_new p)) = Ok [].
Proof.
  intros Hf Hd Hst Hq Hname Hnames P Hlen.
  destruct (filtered_traversal_picks fuel depth p t f q) as (m & ks & Hrun & Hks); try done.
  rewrite short_query_visits in Hks; [|by left| |done].
  - inversion Hks; subst. by exists m.
  - eapply Forall_impl; [exact Hnames|]. by intros c [[? _] _]%every_key_eq.
Qed.
End Query.
