(* ===== verification/TransactionLog.v ===== *)
(** * TransactionLog: log entries and what they change

    [src/src/transaction_log.rs], with [src/src/progress.rs] as the outcome of writing to the
    standard output.  A log is a base block followed by entries; an entry holds dirty pages,
    copied over the primary file.  When deleted items are wanted, the keys and values before
    and after each entry are compared to find what the entry modified and deleted.

    A pointer into the log file is its distance from the end of the file, so
    [input.as_ptr() - start_pos] is a difference of lengths.  [hash_order] is the order in
    which a [HashMap] is iterated. *)

From S2P Require Import Prelude Env Log Marvin Util UtilFacts Cells BaseBlock SubKeyLists Values ValueFacts State Filter KeyNode KeyNodeFacts Recover Parser ParserFacts.

(** ** [progress.rs] *)

Section Progress.
(** The outcome of writing a text to the standard output and flushing it. *)
Variable stdout : ustr -> res Error ().

Definition progress_update (update_console : bool) (msg : ustr) : res Error () :=
  if update_console then stdout msg else Ok ().
Definition progress_write (update_console : bool) (msg : ustr) : res Error () :=
  if update_console then stdout msg else Ok ().
End Progress.

Section TransactionLog.
Context `{E : Env}.
Variable stdout : ustr -> res Error ().
Variable hash_order : RegItemMap -> list (RegItemMapKey * RegItemMapValue).

(** ** Log entries *)

Record DirtyPageRef := { dr_offset : Z; dr_size : Z }.
Record DirtyPage := { dirty_page_ref_offset : Z; page_bytes : list byte }.
Inductive ModifiedListType := Updated | Deleted.

Record LogEntry := {
  le_file_offset_absolute : Z;
  le_size : Z;
  le_flags : Z;
  le_sequence_number : Z;
  le_hive_bins_data_size : Z;
  le_dirty_pages_count : Z;
  le_hash1 : Z;
  le_hash2 : Z;
  le_dirty_pages : list DirtyPage;
  le_has_valid_hashes : bool;
}.

Definition DEFAULT_SEED : Z := 0x82EF4D887A4E55C5.

Definition DirtyPageRef_from_bytes : parser DirtyPageRef := fun input =>
  '(input, offset) ← nom_le_u32 input;
  '(input, size) ← nom_le_u32 input;
  Ok (input, {| dr_offset := offset; dr_size := size |}).

(** [len - OFFSET] underflows below 40: a panic, or a [vec!] of a size no allocation has. *)
Definition calc_hash1 {Er} (raw_bytes : list byte) (len : Z) : res Er Z :=
  if len <? 40 then Panic
  else
    src ← expect (get_range raw_bytes 40 len);
    no_err (marvin32 DEFAULT_SEED src (len - 40)).

Definition calc_hash2 {Er} (raw_bytes : list byte) : res Er Z :=
  src ← expect (get_range raw_bytes 0 32);
  no_err (marvin32 DEFAULT_SEED src 32).

(** [for dirty_page_ref in dirty_page_refs]. *)
Fixpoint take_dirty_pages (refs : list DirtyPageRef) : parser (list DirtyPage) := fun input =>
  match refs with
  | [] => Ok (input, [])
  | dirty_page_ref :: refs =>
      '(input, bytes) ← nom_take (dr_size dirty_page_ref) input;
      '(input, pages) ← take_dirty_pages refs input;
      Ok (input, {| dirty_page_ref_offset := dr_offset dirty_page_ref;
                    page_bytes := bytes |} :: pages)
  end.

(** [start_len] is the length of the log file. *)
Definition LogEntry_from_bytes (start_len : Z) : parser LogEntry := fun input =>
  let start := input in
  let file_offset_absolute := start_len - len input in
  '(input, _) ← nom_tag (bytes_of "HvLE") input;
  '(input, size) ← nom_le_u32 input;
  '(input, flags) ← nom_le_u32 input;
  '(input, sequence_number) ← nom_le_u32 input;
  '(input, hive_bins_data_size) ← nom_le_u32 input;
  '(input, dirty_pages_count) ← nom_le_u32 input;
  '(input, hash1) ← nom_le_u64 input;
  '(input, hash2) ← nom_le_u64 input;
  '(input, dirty_page_refs) ← nom_count DirtyPageRef_from_bytes dirty_pages_count input;
  '(input, dirty_pages) ← take_dirty_pages dirty_page_refs input;
  '(input, _) ← parser_eat_remaining input size
                  (start_len - len input - file_offset_absolute);
  h1 ← calc_hash1 start size;
  has_valid_hashes ←
    (if hash1 =? h1 then h2 ← calc_hash2 start; Ok (hash2 =? h2) else Ok false);
  Ok (input,
      {| le_file_offset_absolute := file_offset_absolute;
         le_size := size;
         le_flags := flags;
         le_sequence_number := sequence_number;
         le_hive_bins_data_size := hive_bins_data_size;
         le_dirty_pages_count := dirty_pages_count;
         le_hash1 := hash1;
         le_hash2 := hash2;
         le_dirty_pages := dirty_pages;
         le_has_valid_hashes := has_valid_hashes |}).

Definition is_valid_hive_bin_data_size (self : LogEntry) : bool :=
  le_hive_bins_data_size self mod 4096 =? 0.

(** ** Transaction logs *)

Record TransactionLog := {
  tl_base_block : BaseBlockBase;
  tl_base_block_bytes : list byte;
  tl_log_entries : list LogEntry;
}.

Definition TransactionLog_from_bytes : parser TransactionLog := fun input =>
  let start := input in
  '(input, base_block) ← BaseBlockBase_from_bytes input;
  '(input, log_entries) ← nom_many0 (LogEntry_from_bytes (len start)) input;
  bytes ← expect (get_range start 0 BASE_BLOCK_LEN);
  Ok (input, {| tl_base_block := base_block;
                tl_base_block_bytes := bytes;
                tl_log_entries := log_entries |}).

(** The [for mut log_file in log_files] loop; a log file is what reading it to its end
    gives. *)
Fixpoint parse_logs_loop (log_files : list (res Error (list byte)))
    (transaction_logs : list TransactionLog) (error_logs : Logs)
    : res Error (list TransactionLog * Logs) :=
  match log_files with
  | [] => Ok (transaction_logs, error_logs)
  | log_file :: log_files =>
      file_buffer_log ← log_file;
      if bool_decide (file_buffer_log = []) then
        parse_logs_loop log_files transaction_logs
          (Logs_add error_logs WarningParse (lit "Skipping log file; 0 bytes"))
      else
        match TransactionLog_from_bytes file_buffer_log with
        | Ok (_, log) => parse_logs_loop log_files (transaction_logs ++ [log]) error_logs
        | Err e =>
            parse_logs_loop log_files transaction_logs
              (Logs_add error_logs WarningParse
                 (lit "Skipping log file; " ++ Error_display (Error_from_nom e)))
        | Panic => Panic
        | NoFuel => NoFuel
        end
  end.

Definition TransactionLog_parse (log_files : list (res Error (list byte)))
    : res Error (list TransactionLog * option Logs) :=
  '(transaction_logs, error_logs) ← parse_logs_loop log_files [] Logs_default;
  Ok (sort_by (fun a b => primary_sequence_number (tl_base_block a)
                          <=? primary_sequence_number (tl_base_block b)) transaction_logs,
      Logs_get_option error_logs).

(** ** The items of a hive *)

(** [get_reg_items]'s inserts for one key. *)
Fixpoint insert_reg_values {Er} (key_path : ustr) (sequence_num : Z) (values : list CellKeyValue)
    (reg_items : RegItemMap) : res Er RegItemMap :=
  match values with
  | [] => Ok reg_items
  | value :: values =>
      h ← expect (cv_hash value);
      insert_reg_values key_path sequence_num values
        (<[RegItemMapKey_new key_path (Some (value_name value)) :=
             RegItemMapValue_new h (cv_file_offset_absolute value) sequence_num]> reg_items)
  end.

Fixpoint insert_reg_keys {Er} (sequence_num : Z) (keys : list CellKeyNode)
    (reg_items : RegItemMap) : res Er RegItemMap :=
  match keys with
  | [] => Ok reg_items
  | key :: keys =>
      h ← expect (n_hash key);
      reg_items ← insert_reg_values (n_path key) sequence_num (n_sub_values key)
        (<[RegItemMapKey_new (n_path key) None :=
             RegItemMapValue_new h (n_file_offset_absolute key) sequence_num]> reg_items);
      insert_reg_keys sequence_num keys reg_items
  end.

Definition get_reg_items (n fuel depth : nat) (sequence_num : Z) : M Parser Error RegItemMap :=
  let* parser := m_get in
  if recover_deleted parser then
    init_root depth;;;
    let* parser := m_get in
    let* keys := m_lift (collect_keys n fuel depth parser (ParserIterator_new parser)) in
    m_lift (insert_reg_keys sequence_num keys ∅)
  else m_ret ∅.

(** ** Comparing the items before and after an entry *)

Record RegItemNeeded := {
  rn_key_path : ustr;
  rn_file_offset_absolute : Z;
  rn_sequence_num : Z;
}.
Definition RegItemNeeded_new (key_path : ustr) (file_offset_absolute sequence_num : Z)
    : RegItemNeeded :=
  {| rn_key_path := key_path; rn_file_offset_absolute := file_offset_absolute;
     rn_sequence_num := sequence_num |}.

Record TransactionAnalyzer := { prior_file_info : FileInfo; new_sequence_number : Z }.

(** The [&mut] arguments of [handle_new_item]. *)
Record NewItems := {
  ni_prior_reg_items : RegItemMap;
  ni_latest_reg_items : RegItemMap;
  ni_reg_items_needed : list RegItemNeeded;
  ni_logs : Logs;
}.

Definition handle_new_item {Er A} `{!Cell A} (self : TransactionAnalyzer) (s : NewItems)
    (key_path : ustr) (value_path : option ustr) (updated_item : A) : res Er NewItems :=
  updated_item_hash ← expect (get_hash updated_item);
  let k := RegItemMapKey_new key_path value_path in
  let '(sequence_num, prior_reg_items, reg_items_needed) :=
    match ni_prior_reg_items s !! k with
    | Some prior_item =>
        if decide (updated_item_hash = rv_hash prior_item) then
          (rv_sequence_num prior_item, delete k (ni_prior_reg_items s), ni_reg_items_needed s)
        else
          (new_sequence_number self, delete k (ni_prior_reg_items s),
           ni_reg_items_needed s
             ++ [RegItemNeeded_new key_path (rv_file_offset_absolute prior_item)
                   (rv_sequence_num prior_item)])
    | None => (new_sequence_number self, ni_prior_reg_items s, ni_reg_items_needed s)
    end in
  Ok {| ni_prior_reg_items := prior_reg_items;
        ni_latest_reg_items :=
          <[k := RegItemMapValue_new updated_item_hash (get_file_offset_absolute updated_item)
                   sequence_num]> (ni_latest_reg_items s);
        ni_reg_items_needed := reg_items_needed;
        ni_logs := Logs_extend (ni_logs s)
                     (Logs_prepend_all (get_logs updated_item)
                        (lit "Sequence number " ++ fmt_dec (new_sequence_number self)
                         ++ lit " - ")) |}.

Definition ni_set_needed (v : list RegItemNeeded) (s : NewItems) : NewItems :=
  {| ni_prior_reg_items := ni_prior_reg_items s; ni_latest_reg_items := ni_latest_reg_items s;
     ni_reg_items_needed := v; ni_logs := ni_logs s |}.

(** [for updated_value in updated_key.sub_values]. *)
Fixpoint handle_new_values {Er} (self : TransactionAnalyzer) (key_path : ustr)
    (values : list CellKeyValue) (s : NewItems) : res Er NewItems :=
  match values with
  | [] => Ok s
  | updated_value :: values =>
      s ← handle_new_item self s key_path (Some (value_name updated_value)) updated_value;
      handle_new_values self key_path values s
  end.

(** [for updated_key in ...]: the vectors of keys and of values are separate. *)
Fixpoint handle_new_keys {Er} (self : TransactionAnalyzer) (keys : list CellKeyNode)
    (s : NewItems) (prior_values_needed : list RegItemNeeded)
    : res Er (NewItems * list RegItemNeeded) :=
  match keys with
  | [] => Ok (s, prior_values_needed)
  | updated_key :: keys =>
      s ← handle_new_item self s (n_path updated_key) None updated_key;
      let prior_keys_needed := ni_reg_items_needed s in
      s ← handle_new_values self (n_path updated_key) (n_sub_values updated_key)
            (ni_set_needed prior_values_needed s);
      handle_new_keys self keys (ni_set_needed prior_keys_needed s) (ni_reg_items_needed s)
  end.

Definition add_full_key_to_list (depth : nat) (self : TransactionAnalyzer) (path : ustr)
    (file_offset_absolute old_sequence_number : Z) (modified_list_type : ModifiedListType)
    : M State Error () :=
  let parent_path := parent_path path in
  let* full_key := CellKeyNode_read depth (prior_file_info self)
    {| o_offset := file_offset_absolute;
       o_cur_path := parent_path;
       o_filter := None;
       o_self_is_filter_match_or_descendent := false;
       o_sequence_num := Some old_sequence_number;
       o_get_deleted_and_modified := false |} in
  match full_key with
  | Some full_key =>
      let full_key := n_set_updated_by_sequence_num (Some (new_sequence_number self)) full_key in
      let full_key := n_set_sub_values [] full_key in
      match modified_list_type with
      | Updated =>
          m_modify (fun state => st_set_modified_keys
            (ModifiedDeletedKeyMap_add (modified_keys state) path
               (n_set_cell_state ModifiedTransactionLog full_key)) state)
      | Deleted =>
          m_modify (fun state => st_set_deleted_keys
            (ModifiedDeletedKeyMap_add (deleted_keys state) parent_path
               (n_set_cell_state DeletedTransactionLog full_key)) state)
      end
  | None => m_ret ()
  end.

Definition cv_set_updated_by_sequence_num (v : option Z) (c : CellKeyValue) : CellKeyValue :=
  match c with Build_CellKeyValue a b cc d e f g h i j _ =>
    Build_CellKeyValue a b cc d e f g h i j v end.

Definition add_full_value_to_list (self : TransactionAnalyzer) (path : ustr)
    (file_offset_absolute old_sequence_number : Z) (modified_list_type : ModifiedListType)
    : M State Error () :=
  let* slice := m_lift (ok_or (Error_buffer "add_full_value_to_list")
                  (get_from (buffer (prior_file_info self)) file_offset_absolute)) in
  let* state := m_get in
  let* (_, full_value) := m_lift (nom_q (CellKeyValue_from_bytes slice file_offset_absolute
                            (Some old_sequence_number) (get_full_field_info state))) in
  let* (full_value, hasher) :=
    m_lift (read_value_bytes full_value (prior_file_info self) (hasher state)) in
  m_modify (st_set_hasher hasher);;;
  let full_value :=
    cv_set_updated_by_sequence_num (Some (new_sequence_number self)) full_value in
  let name := value_name full_value in
  match modified_list_type with
  | Updated =>
      m_modify (fun state => st_set_modified_values
        (ModifiedValueMap_add (modified_values state) path name
           (cv_set_cell_state ModifiedTransactionLog full_value)) state)
  | Deleted =>
      m_modify (fun state => st_set_deleted_values
        (DeletedValueMap_add (deleted_values state) path
           (cv_set_cell_state DeletedTransactionLog full_value)) state)
  end.

(** The log a failed [add_full_..] leaves. *)
Definition add_error (logs : Logs) (r : Error + ()) (msg : Error -> ustr) : Logs :=
  match r with
  | inl e => Logs_add logs WarningTransactionLog (msg e)
  | inr _ => logs
  end.

Definition seq_error (what : ustr) (path list : ustr) (sequence_num : Z) (e : Error) : ustr :=
  lit "Error adding " ++ what ++ lit " " ++ path ++ lit " to " ++ list ++ lit " "
  ++ fmt_dec sequence_num ++ lit " (" ++ Error_display e ++ lit ")".

(** [{:?}] of a [RegItemMapKey] (derived). *)
Definition RegItemMapKey_debug (k : RegItemMapKey) : ustr :=
  lit "RegItemMapKey { key_path: " ++ debug_str (rk_key_path k) ++ lit ", value_name: "
  ++ match rk_value_name k with
     | Some v => lit "Some(" ++ debug_str v ++ lit ")"
     | None => lit "None"
     end ++ lit " }".

Fixpoint add_keys_needed (depth : nat) (self : TransactionAnalyzer)
    (prior_keys_needed : list RegItemNeeded) (logs : Logs) : M State Error Logs :=
  match prior_keys_needed with
  | [] => m_ret logs
  | key_needed :: prior_keys_needed =>
      let* r := m_try (add_full_key_to_list depth self (rn_key_path key_needed)
                  (rn_file_offset_absolute key_needed) (rn_sequence_num key_needed) Updated) in
      add_keys_needed depth self prior_keys_needed
        (add_error logs r (seq_error (lit "key") (rn_key_path key_needed)
           (lit "modified list for sequence num") (rn_sequence_num key_needed)))
  end.

Fixpoint add_values_needed (self : TransactionAnalyzer)
    (prior_values_needed : list RegItemNeeded) (logs : Logs) : M State Error Logs :=
  match prior_values_needed with
  | [] => m_ret logs
  | value_needed :: prior_values_needed =>
      let* r := m_try (add_full_value_to_list self (rn_key_path value_needed)
                  (rn_file_offset_absolute value_needed) (rn_sequence_num value_needed)
                  Updated) in
      add_values_needed self prior_values_needed
        (add_error logs r (seq_error (lit "value") (rn_key_path value_needed)
           (lit "modified list for sequence num") (rn_sequence_num value_needed)))
  end.

(** The items left in [prior_reg_items] are deleted. *)
Fixpoint add_deleted (depth : nat) (self : TransactionAnalyzer)
    (prior_reg_items : list (RegItemMapKey * RegItemMapValue)) (logs : Logs)
    : M State Error Logs :=
  match prior_reg_items with
  | [] => m_ret logs
  | (k, v) :: prior_reg_items =>
      match rk_value_name k with
      | Some _ =>
          let* r := m_try (add_full_value_to_list self (rk_key_path k)
                      (rv_file_offset_absolute v) (rv_sequence_num v) Deleted) in
          add_deleted depth self prior_reg_items
            (add_error logs r (seq_error (lit "value") (RegItemMapKey_debug k)
               (lit "deleted list for sequence num:") (rv_sequence_num v)))
      | None =>
          let* r := m_try (add_full_key_to_list depth self (rk_key_path k)
                      (rv_file_offset_absolute v) (rv_sequence_num v) Deleted) in
          add_deleted depth self prior_reg_items
            (add_error logs r (seq_error (lit "key") (rk_key_path k)
               (lit "deleted list for sequence num:") (rv_sequence_num v)))
      end
  end.

(** Items seen again are not deleted. *)
Definition remove_spurious (state : State) (item : RegItemMapKey * RegItemMapValue) : State :=
  let (k, v) := item in
  match rk_value_name k with
  | Some value_name =>
      st_set_deleted_values
        (DeletedValueMap_remove (deleted_values state) (rk_key_path k) value_name (rv_hash v))
        state
  | None =>
      st_set_deleted_keys
        (ModifiedDeletedKeyMap_remove (deleted_keys state) (rk_key_path k) (rv_hash v)) state
  end.

(** Only [init_root] can fail, before [prior_reg_items] and [logs] change; the caller drops
    what is left of [prior_reg_items]. *)
Definition get_latest_reg_items (n fuel depth : nat) (self : TransactionAnalyzer)
    (prior_reg_items : RegItemMap) (logs : Logs) : M Parser Error (RegItemMap * Logs) :=
  init_root depth;;;
  let* updated_parser := m_get in
  let* keys := m_lift (collect_keys n fuel depth updated_parser
                 (pi_get_modified_items false (ParserIterator_new updated_parser))) in
  let* (s, prior_values_needed) :=
    m_lift (handle_new_keys self keys
      {| ni_prior_reg_items := prior_reg_items; ni_latest_reg_items := ∅;
         ni_reg_items_needed := []; ni_logs := logs |} []) in
  let* logs := with_state (add_keys_needed depth self (ni_reg_items_needed s) (ni_logs s)) in
  let* logs := with_state (add_values_needed self prior_values_needed logs) in
  let* logs := with_state (add_deleted depth self (hash_order (ni_prior_reg_items s)) logs) in
  with_state (m_modify (fun state =>
    foldl remove_spurious state (hash_order (ni_latest_reg_items s))));;;
  m_ret (ni_latest_reg_items s, logs).

(** ** Applying the entries *)

(** [Vec::resize] to at least the present length. *)
Definition resize_zero (n : Z) (buffer : list byte) : list byte :=
  buffer ++ replicate (Z.to_nat (n - len buffer)) Byte.x00.

(** [for dirty_page in &log_entry.dirty_pages]. *)
Fixpoint apply_dirty_pages (dirty_pages : list DirtyPage) : M Parser Error () :=
  match dirty_pages with
  | [] => m_ret ()
  | dirty_page :: dirty_pages =>
      let* parser := m_get in
      let dst_offset := dirty_page_ref_offset dirty_page
                        + hbin_offset_absolute (file_info parser) in
      let dst_offset_end := dst_offset + len (page_bytes dirty_page) in
      let* _ := m_lift (ok_or (Error_buffer "update_parser")
                  (get_range (buffer (file_info parser)) dst_offset dst_offset_end)) in
      m_modify (fun p => p_set_buffer
        (splice dst_offset (page_bytes dirty_page) (buffer (file_info p))) p);;;
      apply_dirty_pages dirty_pages
  end.

(** The body of the loop for an entry that is applied: the items after it. *)
Definition apply_log_entry (n fuel depth : nat) (primary_hive_bins_data_size : Z)
    (log_entry : LogEntry) (prior_items : RegItemMap) : M Parser Error RegItemMap :=
  m_modify (fun parser =>
    if primary_hive_bins_data_size <? le_hive_bins_data_size log_entry then
      p_set_buffer (resize_zero (len (buffer (file_info parser))
        + (le_hive_bins_data_size log_entry - primary_hive_bins_data_size))
        (buffer (file_info parser))) parser
    else parser);;;
  let* prior := m_get in
  apply_dirty_pages (le_dirty_pages log_entry);;;
  let* parser := m_get in
  if recover_deleted parser then
    let new_sequence_number := le_sequence_number log_entry in
    let transaction_analyzer :=
      {| prior_file_info := file_info prior; new_sequence_number := new_sequence_number |} in
    let* r := m_try (get_latest_reg_items n fuel depth transaction_analyzer prior_items
                       Logs_default) in
    let* (items, logs) :=
      match r with
      | inr (updated_items_ret, logs) => m_ret (updated_items_ret, logs)
      | inl e =>
          p_log WarningTransactionLog
            (lit "Unable to read cell tree for new sequence number "
             ++ fmt_dec new_sequence_number ++ lit ", " ++ Error_debug e);;;
          m_ret (prior_items, Logs_default)
      end in
    with_state (m_modify (fun state => st_set_info (Logs_extend (info state) logs) state));;;
    m_ret items
  else m_ret prior_items.

(** [for (index, log_entry) in ...]; [index] and [count] are for the console only. *)
Fixpoint update_parser_loop (n fuel depth : nat) (primary_secondary_seq_num
    primary_hive_bins_data_size index count : Z) (log_entries : list LogEntry)
    (new_sequence_number : Z) (prior_items : RegItemMap) : M Parser Error (Z * RegItemMap) :=
  match log_entries with
  | [] => m_ret (new_sequence_number, prior_items)
  | log_entry :: log_entries =>
      let* parser := m_get in
      m_lift (progress_update stdout (update_console parser)
        (lit "Processing transaction log entry " ++ fmt_dec (index + 1) ++ lit " of "
         ++ fmt_dec count));;;
      let seq := le_sequence_number log_entry in
      if le_has_valid_hashes log_entry then
        if seq <? primary_secondary_seq_num then
          p_log WarningTransactionLog
            (lit "Skipping log entry; the log entry sequence number (" ++ fmt_dec seq
             ++ lit ") is less than to the primary file's secondary sequence number ("
             ++ fmt_dec primary_secondary_seq_num ++ lit ")");;;
          update_parser_loop n fuel depth primary_secondary_seq_num
            primary_hive_bins_data_size (index + 1) count log_entries new_sequence_number
            prior_items
        else if negb (is_valid_hive_bin_data_size log_entry) then
          p_log WarningTransactionLog
            (lit "Stopping log entry processing; the hive_bin_data_size ("
             ++ fmt_dec (le_hive_bins_data_size log_entry)
             ++ lit ") is not a multiple of 4096)");;;
          m_ret (new_sequence_number, prior_items)
        else
          let* does_not_follow :=
            if new_sequence_number =? 0 then m_ret false
            else
              let* next := m_lift (add_u32 new_sequence_number 1) in
              m_ret (negb (seq =? next)) in
          if does_not_follow : bool then
            p_log WarningTransactionLog
              (lit "Stopping log entry processing; the sequence number (" ++ fmt_dec seq
               ++ lit ") does not follow the previous log entry's sequence number ("
               ++ fmt_dec new_sequence_number ++ lit ")");;;
            m_ret (new_sequence_number, prior_items)
          else
            let* prior_items := apply_log_entry n fuel depth primary_hive_bins_data_size
                                  log_entry prior_items in
            update_parser_loop n fuel depth primary_secondary_seq_num
              primary_hive_bins_data_size (index + 1) count log_entries seq prior_items
      else
        p_log WarningTransactionLog
          (lit "Stopping log entry processing; hash mismatch at log entry with sequence number "
           ++ fmt_dec seq);;;
        m_ret (new_sequence_number, prior_items)
  end.

Definition update_parser (n fuel depth : nat) (self : TransactionLog)
    (prior_items : RegItemMap) : M Parser Error (Z * RegItemMap) :=
  let* (primary_secondary_seq_num, primary_hive_bins_data_size) := get_base_block_info in
  update_parser_loop n fuel depth primary_secondary_seq_num primary_hive_bins_data_size 0
    (len (tl_log_entries self)) (tl_log_entries self) 0 prior_items.
End TransactionLog.
