(* ===== verification/TransactionLogFacts.v ===== *)
(** * TransactionLogFacts: encoding of entries, what an entry applies, what is compared

    Theorems about [TransactionLog]. *)

From S2P Require Import Prelude Env Log Marvin Util UtilFacts Cells BaseBlock SubKeyLists Values ValueFacts State Filter KeyNode KeyNodeFacts Recover Parser ParserFacts TransactionLog.

Section Encoding.
Context `{E : Env}.

#[local] Opaque to_le_bytes bytes_of lit fmt_dec.

(** ** The encoding of log entries *)

Definition ref_bytes (p : DirtyPage) : list byte :=
  to_le_bytes 4 (dirty_page_ref_offset p) ++ to_le_bytes 4 (len (page_bytes p)).

(** What follows the 40-byte header: the references, the pages, the padding. *)
Definition entry_body (pages : list DirtyPage) (pad : list byte) : list byte :=
  (pages ≫= ref_bytes) ++ (pages ≫= page_bytes) ++ pad.

(** The header up to the second hash. *)
Definition entry_head (flags seq bins : Z) (pages : list DirtyPage) (pad : list byte)
    : list byte :=
  let body := entry_body pages pad in
  bytes_of "HvLE" ++ to_le_bytes 4 (40 + len body) ++ to_le_bytes 4 flags
  ++ to_le_bytes 4 seq ++ to_le_bytes 4 bins ++ to_le_bytes 4 (len pages)
  ++ to_le_bytes 8 (marvin_spec DEFAULT_SEED body).

Definition encode_entry (flags seq bins : Z) (pages : list DirtyPage) (pad : list byte)
    : list byte :=
  let head := entry_head flags seq bins pages pad in
  head ++ to_le_bytes 8 (marvin_spec DEFAULT_SEED head) ++ entry_body pages pad.

(** An entry at [offset] with these contents and the right hashes. *)
Definition decoded_entry (offset flags seq bins : Z) (pages : list DirtyPage)
    (pad : list byte) : LogEntry :=
  {| le_file_offset_absolute := offset;
     le_size := 40 + len (entry_body pages pad);
     le_flags := flags;
     le_sequence_number := seq;
     le_hive_bins_data_size := bins;
     le_dirty_pages_count := len pages;
     le_hash1 := marvin_spec DEFAULT_SEED (entry_body pages pad);
     le_hash2 := marvin_spec DEFAULT_SEED (entry_head flags seq bins pages pad);
     le_dirty_pages := pages;
     le_has_valid_hashes := true |}.

Definition u32 (z : Z) : Prop := 0 <= z < U32_MOD.
Definition page_ok (p : DirtyPage) : Prop := u32 (dirty_page_ref_offset p) /\ u32 (len (page_bytes p)).

Lemma le_bytes_parse n z r :
  0 <= z < 2 ^ (Z.of_nat n * 8) -> spec_le (Z.of_nat n) (to_le_bytes n z ++ r) = Ok (r, z).
Proof. intros Hz. rewrite spec_le_app by apply len_to_le_bytes. by rewrite from_to_le_bytes. Qed.

Lemma nom_u32_parse z r : u32 z -> nom_le_u32 (to_le_bytes 4 z ++ r) = Ok (r, z).
Proof. intros Hz. rewrite nom_le_u32_spec. by apply (le_bytes_parse 4). Qed.

Lemma nom_u64_parse z r : 0 <= z < U64_MOD -> nom_le_u64 (to_le_bytes 8 z ++ r) = Ok (r, z).
Proof. intros Hz. rewrite nom_le_u64_spec. by apply (le_bytes_parse 8). Qed.

Definition page_ref (p : DirtyPage) : DirtyPageRef :=
  {| dr_offset := dirty_page_ref_offset p; dr_size := len (page_bytes p) |}.

Lemma ref_parse p r :
  page_ok p -> DirtyPageRef_from_bytes (ref_bytes p ++ r) = Ok (r, page_ref p).
Proof.
  intros [H1 H2]. unfold DirtyPageRef_from_bytes, ref_bytes.
  rewrite <- app_assoc, nom_u32_parse by done. cbn [mbind res_bind].
  by rewrite nom_u32_parse by done.
Qed.

Lemma refs_parse pages r :
  Forall page_ok pages ->
  nom_count DirtyPageRef_from_bytes (len pages) ((pages ≫= ref_bytes) ++ r)
  = Ok (r, page_ref <$> pages).
Proof.
  intros Hp. rewrite nom_count_spec. unfold len. rewrite Nat2Z.id.
  induction Hp as [|p pages Hp _ IH]; [done|].
  cbn [mbind list_bind spec_count length].
  rewrite <- app_assoc, ref_parse by done. cbn [mbind res_bind]. by rewrite IH.
Qed.

Lemma pages_parse pages r :
  take_dirty_pages (page_ref <$> pages) ((pages ≫= page_bytes) ++ r) = Ok (r, pages).
Proof.
  induction pages as [|p pages IH]; [done|].
  cbn [fmap list_fmap mbind list_bind take_dirty_pages dr_size page_ref].
  rewrite <- app_assoc, nom_take_spec, spec_take_app by done. cbn [mbind res_bind].
  rewrite IH. cbn [mbind res_bind dr_offset page_ref]. by destruct p.
Qed.

Lemma seed_u64 : 0 <= DEFAULT_SEED < U64_MOD.
Proof. unfold DEFAULT_SEED, U64_MOD. lia. Qed.

Lemma marvin_u64 bs : 0 <= marvin_spec DEFAULT_SEED bs < U64_MOD.
Proof. apply marvin32_eq, seed_u64. Qed.

Lemma marvin_run {Er} bs n :
  n = len bs -> no_err (marvin32 DEFAULT_SEED bs n) = Ok (marvin_spec DEFAULT_SEED bs) :> res Er Z.
Proof. intros ->. by rewrite (proj1 (marvin32_eq DEFAULT_SEED bs seed_u64)). Qed.

Lemma calc_hash1_eq {Er} head body r :
  len head = 40 ->
  calc_hash1 (Er:=Er) ((head ++ body) ++ r) (40 + len body) = Ok (marvin_spec DEFAULT_SEED body).
Proof.
  intros Hh. unfold calc_hash1. pose proof (len_nonneg body).
  destruct (Z.ltb_spec (40 + len body) 40); [lia|].
  assert (get_range ((head ++ body) ++ r) 40 (40 + len body) = Some body) as ->.
  { apply get_range_Some. split_and!; [lia..|len_lia|].
    rewrite <- app_assoc, <- Hh, zdrop_app_len.
    replace (len head + len body - len head) with (len body) by lia. by rewrite ztake_app_len. }
  cbn [expect mbind res_bind]. apply marvin_run. lia.
Qed.

Lemma calc_hash2_eq {Er} head r :
  len head = 32 -> calc_hash2 (Er:=Er) (head ++ r) = Ok (marvin_spec DEFAULT_SEED head).
Proof.
  intros Hh. unfold calc_hash2.
  assert (get_range (head ++ r) 0 32 = Some head) as ->.
  { apply get_range_Some. split_and!; [lia..|len_lia|].
    rewrite zdrop_0, <- Hh, Z.sub_0_r. by rewrite ztake_app_len. }
  cbn [expect mbind res_bind]. apply marvin_run. lia.
Qed.

Lemma len_entry_head flags seq bins pages pad : len (entry_head flags seq bins pages pad) = 32.
Proof.
  unfold entry_head. autorewrite with lens. change (len (bytes_of "HvLE")) with 4. lia.
Qed.

(** A log entry is read back from its encoding. *)
Lemma entry_parse start_len flags seq bins pages pad r :
  u32 flags -> u32 seq -> u32 bins -> Forall page_ok pages -> u32 (len pages) ->
  u32 (40 + len (entry_body pages pad)) ->
  let bytes := encode_entry flags seq bins pages pad in
  LogEntry_from_bytes start_len (bytes ++ r) =
    Ok (r, decoded_entry (start_len - len (bytes ++ r)) flags seq bins pages pad).
Proof.
  intros Hf Hs Hb Hp Hc Hn bytes. unfold LogEntry_from_bytes.
  set (body := entry_body pages pad) in *.
  pose proof (marvin_u64 body) as Hh1.
  pose proof (marvin_u64 (entry_head flags seq bins pages pad)) as Hh2.
  set (h2 := to_le_bytes 8 (marvin_spec DEFAULT_SEED (entry_head flags seq bins pages pad))).
  assert (bytes ++ r = bytes_of "HvLE" ++ to_le_bytes 4 (40 + len body) ++ to_le_bytes 4 flags
    ++ to_le_bytes 4 seq ++ to_le_bytes 4 bins ++ to_le_bytes 4 (len pages)
    ++ to_le_bytes 8 (marvin_spec DEFAULT_SEED body) ++ h2
    ++ (pages ≫= ref_bytes) ++ (pages ≫= page_bytes) ++ pad ++ r) as Hsplit.
  { unfold bytes, encode_entry, entry_head. fold body. unfold h2, body, entry_body.
    by rewrite <- !app_assoc. }
  rewrite nom_tag_spec.
  match type of Hsplit with _ = _ ++ ?rest =>
    assert (spec_tag (bytes_of "HvLE") (bytes ++ r) = Ok (rest, bytes_of "HvLE")) as ->
      by (rewrite Hsplit; apply spec_tag_app) end.
  cbn [mbind res_bind].
  do 5 (rewrite nom_u32_parse by done; cbn [mbind res_bind]).
  rewrite nom_u64_parse by done. cbn [mbind res_bind].
  unfold h2 at 1. rewrite nom_u64_parse by done. cbn [mbind res_bind].
  rewrite refs_parse by done. cbn [mbind res_bind].
  rewrite pages_parse. cbn [mbind res_bind].
  assert (len (bytes ++ r) = 40 + len body + len r) as Hlen.
  { unfold bytes, encode_entry. fold body h2. autorewrite with lens.
    rewrite len_entry_head. unfold h2. rewrite len_to_le_bytes. lia. }
  assert (parser_eat_remaining (pad ++ r) (40 + len body)
    (start_len - len (pad ++ r) - (start_len - len (bytes ++ r))) = Ok (r, pad)) as ->.
  { rewrite Hlen. unfold parser_eat_remaining. autorewrite with lens.
    replace (start_len - (len pad + len r) - (start_len - (40 + len body + len r)))
      with (40 + len body - len pad) by lia.
    destruct (Z.ltb_spec (40 + len body - len pad) (40 + len body)).
    - rewrite nom_take_spec, spec_take_app by lia. done.
    - destruct pad; [done|exfalso; len_lia]. }
  cbn [mbind res_bind].
  assert (bytes = (entry_head flags seq bins pages pad ++ h2) ++ body) as Hb1.
  { unfold bytes, encode_entry. fold body h2. by rewrite app_assoc. }
  rewrite Hb1 at 1. rewrite calc_hash1_eq by
    (autorewrite with lens; rewrite len_entry_head; unfold h2; by rewrite len_to_le_bytes).
  cbn [mbind res_bind]. rewrite Z.eqb_refl.
  rewrite Hb1, <- !app_assoc, calc_hash2_eq by apply len_entry_head.
  cbn [mbind res_bind]. by rewrite Z.eqb_refl.
Qed.

(** The contents of an entry. *)
Record EntryData := {
  ed_flags : Z;
  ed_seq : Z;
  ed_bins : Z;
  ed_pages : list DirtyPage;
  ed_pad : list byte;
}.
Definition entry_ok (e : EntryData) : Prop :=
  u32 (ed_flags e) /\ u32 (ed_seq e) /\ u32 (ed_bins e) /\ Forall page_ok (ed_pages e) /\
  u32 (len (ed_pages e)) /\ u32 (40 + len (entry_body (ed_pages e) (ed_pad e))).
Definition entry_bytes (e : EntryData) : list byte :=
  encode_entry (ed_flags e) (ed_seq e) (ed_bins e) (ed_pages e) (ed_pad e).
Fixpoint decoded_entries (offset : Z) (es : list EntryData) : list LogEntry :=
  match es with
  | [] => []
  | e :: es =>
      decoded_entry offset (ed_flags e) (ed_seq e) (ed_bins e) (ed_pages e) (ed_pad e)
        :: decoded_entries (offset + len (entry_bytes e)) es
  end.

Lemma len_entry_bytes e : len (entry_bytes e) = 40 + len (entry_body (ed_pages e) (ed_pad e)).
Proof.
  unfold entry_bytes, encode_entry. rewrite !len_app, len_entry_head, len_to_le_bytes. lia.
Qed.

Lemma entries_parse n es tail :
  Forall entry_ok es -> ztake 4 tail <> bytes_of "HvLE" ->
  nom_many0 (LogEntry_from_bytes n) ((es ≫= entry_bytes) ++ tail) =
    Ok (tail, decoded_entries (n - len ((es ≫= entry_bytes) ++ tail)) es).
Proof.
  intros Hes Ht. induction Hes as [|e es (H1 & H2 & H3 & H4 & H5 & H6) _ IH].
  - apply nom_many0_stop. cbn [mbind list_bind app]. unfold LogEntry_from_bytes.
    rewrite nom_tag_spec. unfold spec_tag. rewrite decide_False; [done|].
    intros Hd. by apply Ht.
  - cbn [mbind list_bind decoded_entries]. rewrite <- app_assoc.
    erewrite nom_many0_step; [|unfold entry_bytes at 1; apply entry_parse; done|].
    + rewrite IH. cbn [mbind res_bind].
      replace (n - len (entry_bytes e ++ (es ≫= entry_bytes) ++ tail) + len (entry_bytes e))
        with (n - len ((es ≫= entry_bytes) ++ tail)) by (rewrite (len_app (entry_bytes e)); lia).
      done.
    + rewrite (len_app (entry_bytes e)), len_entry_bytes.
      pose proof (len_nonneg (entry_body (ed_pages e) (ed_pad e))). lia.
Qed.

(** C8: a transaction log is read back from its encoding: after a 512-byte base block every
    entry comes back with its offset, pages and [has_valid_hashes] set, whatever padding
    follows its pages, up to the first bytes that are not an entry. *)
Theorem TransactionLog_roundtrip header es tail :
  len header = 512 -> ztake 4 header = bytes_of "regf" -> Forall entry_ok es ->
  ztake 4 tail <> bytes_of "HvLE" ->
  exists base_block, TransactionLog_from_bytes (header ++ (es ≫= entry_bytes) ++ tail) =
    Ok (tail, {| tl_base_block := base_block; tl_base_block_bytes := header;
                 tl_log_entries := decoded_entries 512 es |}).
Proof.
  intros Hl Hr Hes Ht. unfold TransactionLog_from_bytes.
  set (rest := (es ≫= entry_bytes) ++ tail).
  destruct (BaseBlockBase_from_bytes_total (header ++ rest)) as (r & b & Hb); [len_lia| |].
  { rewrite <- Hr. unfold ztake. rewrite take_app_le; [done|unfold len in Hl; lia]. }
  rewrite Hb. apply BaseBlockBase_from_bytes_Ok in Hb as (_ & -> & _).
  rewrite <- Hl, zdrop_app_len. cbn [mbind res_bind].
  unfold rest. rewrite entries_parse by done. fold rest. cbn [mbind res_bind].
  assert (get_range (header ++ rest) 0 BASE_BLOCK_LEN = Some header) as ->.
  { apply get_range_Some. unfold BASE_BLOCK_LEN. split_and!; [lia..|len_lia|].
    rewrite zdrop_0, <- Hl, Z.sub_0_r. by rewrite ztake_app_len. }
  cbn [expect mbind res_bind]. exists b. do 4 f_equal. len_lia.
Qed.

(** An entry whose size field is below the 40 bytes of its header makes the reader panic. *)
Lemma LogEntry_short_panics n size flags seq bins h1 h2 r :
  0 <= size < 40 -> u32 flags -> u32 seq -> u32 bins -> 0 <= h1 < U64_MOD ->
  0 <= h2 < U64_MOD ->
  LogEntry_from_bytes n (bytes_of "HvLE" ++ to_le_bytes 4 size ++ to_le_bytes 4 flags
    ++ to_le_bytes 4 seq ++ to_le_bytes 4 bins ++ to_le_bytes 4 0 ++ to_le_bytes 8 h1
    ++ to_le_bytes 8 h2 ++ r) = Panic.
Proof.
  intros Hsz Hf Hs Hb H1 H2. assert (u32 size) by (unfold u32, U32_MOD; lia).
  unfold LogEntry_from_bytes. rewrite nom_tag_spec, spec_tag_app. cbn [mbind res_bind].
  do 5 (rewrite nom_u32_parse by done; cbn [mbind res_bind]).
  do 2 (rewrite nom_u64_parse by done; cbn [mbind res_bind]).
  rewrite nom_count_spec. change (Z.to_nat 0) with 0%nat.
  cbn [spec_count mbind res_bind take_dirty_pages].
  unfold parser_eat_remaining, calc_hash1. autorewrite with lens.
  change (len (bytes_of "HvLE")) with 4.
  match goal with |- context [?a <? size] =>
    destruct (Z.ltb_spec a size); [pose proof (len_nonneg r); lia|] end.
  cbn [mbind res_bind]. by rewrite (proj2 (Z.ltb_lt _ _)) by lia.
Qed.
End Encoding.

(** ** Items that are new, modified and gone *)

Section Classify.
Context `{E : Env}.

Record Item := { im_key : RegItemMapKey; im_hash : Hash; im_offset : Z }.

Definition item_of {A} `{!Cell A} (path : ustr) (name : option ustr) (a : A) : option Item :=
  h ← get_hash a;
  Some {| im_key := RegItemMapKey_new path name; im_hash := h;
          im_offset := get_file_offset_absolute a |}.
Definition value_items (path : ustr) (values : list CellKeyValue) : option (list Item) :=
  mapM (fun v => item_of path (Some (value_name v)) v) values.

(** The items of a hive's keys: each key, then its values; [None] when one has no hash. *)
Fixpoint items_of (keys : list CellKeyNode) : option (list Item) :=
  match keys with
  | [] => Some []
  | key :: keys =>
      k ← item_of (n_path key) None key;
      vs ← value_items (n_path key) (n_sub_values key);
      rest ← items_of keys;
      Some (k :: vs ++ rest)
  end.
Definition is_key_item (i : Item) : Prop := rk_value_name (im_key i) = None.
#[local] Instance is_key_item_dec i : Decision (is_key_item i).
Proof. unfold is_key_item. apply _. Defined.

(** The latest record of an item: the sequence number is kept when the hash is. *)
Definition latest_value (new_seq : Z) (prior : RegItemMap) (i : Item) : RegItemMapValue :=
  RegItemMapValue_new (im_hash i) (im_offset i)
    match prior !! im_key i with
    | Some v => if decide (im_hash i = rv_hash v) then rv_sequence_num v else new_seq
    | None => new_seq
    end.

(** The prior version to be read: none for a new item or one with the same hash. *)
Definition needed_of (prior : RegItemMap) (i : Item) : list RegItemNeeded :=
  match prior !! im_key i with
  | Some v =>
      if decide (im_hash i = rv_hash v) then []
      else [RegItemNeeded_new (rk_key_path (im_key i)) (rv_file_offset_absolute v)
              (rv_sequence_num v)]
  | None => []
  end.

Definition im_keys (items : list Item) : list RegItemMapKey := im_key <$> items.

(** What is known after some items were handled, starting from [prior]. *)
Definition handled (new_seq : Z) (prior : RegItemMap) (items : list Item) (s s' : NewItems)
    : Prop :=
  (forall k, ni_prior_reg_items s' !! k =
     if decide (k ∈ im_keys items) then None else ni_prior_reg_items s !! k) /\
  (forall i, i ∈ items -> ni_latest_reg_items s' !! im_key i = Some (latest_value new_seq prior i)) /\
  (forall k, k ∉ im_keys items -> ni_latest_reg_items s' !! k = ni_latest_reg_items s !! k).

Lemma handled_nil new_seq prior s : handled new_seq prior [] s s.
Proof.
  split_and!; [intros k; by rewrite decide_False by apply not_elem_of_nil
              |by intros i ?%not_elem_of_nil|done].
Qed.

Lemma handled_needed new_seq prior items v s s' :
  handled new_seq prior items s s' -> handled new_seq prior items s (ni_set_needed v s').
Proof. done. Qed.

Lemma handled_needed_l new_seq prior items v s s' :
  handled new_seq prior items (ni_set_needed v s) s' -> handled new_seq prior items s s'.
Proof. done. Qed.

Lemma handled_app new_seq prior items1 items2 s1 s2 s3 :
  NoDup (im_keys (items1 ++ items2)) ->
  handled new_seq prior items1 s1 s2 -> handled new_seq prior items2 s2 s3 ->
  handled new_seq prior (items1 ++ items2) s1 s3.
Proof.
  unfold handled, im_keys. rewrite fmap_app, NoDup_app.
  intros (_ & Hd & _) (P1 & L1 & N1) (P2 & L2 & N2). split_and!.
  - intros k. rewrite P2, P1. repeat case_decide; try done; set_solver.
  - intros i. rewrite elem_of_app. intros [Hi|Hi]; [|by apply L2].
    rewrite N2; [by apply L1|]. apply Hd, list_elem_of_fmap. eauto.
  - intros k Hk. rewrite N2, N1; set_solver.
Qed.

Lemma handled_single new_seq prior i s s' :
  ni_prior_reg_items s' = delete (im_key i) (ni_prior_reg_items s) ->
  ni_latest_reg_items s' =
    <[im_key i := latest_value new_seq prior i]> (ni_latest_reg_items s) ->
  handled new_seq prior [i] s s'.
Proof.
  unfold handled, RegItemMap. intros -> ->. unfold RegItemMap. split_and!.
  - intros k. cbn. case_decide as Hk; rewrite list_elem_of_singleton in Hk.
    + subst. by rewrite lookup_delete_eq.
    + by rewrite lookup_delete_ne.
  - intros i' ->%list_elem_of_singleton. by rewrite lookup_insert_eq.
  - intros k Hk. cbn in Hk. rewrite list_elem_of_singleton in Hk.
    by rewrite lookup_insert_ne.
Qed.

(** One item. *)
Lemma handle_new_item_spec {Er A} `{!Cell A} self s path name (a : A) i prior :
  item_of path name a = Some i ->
  ni_prior_reg_items s !! im_key i = prior !! im_key i ->
  exists s', handle_new_item (Er:=Er) self s path name a = Ok s' /\
    handled (new_sequence_number self) prior [i] s s' /\
    ni_reg_items_needed s' = ni_reg_items_needed s ++ needed_of prior i.
Proof.
  unfold item_of, handle_new_item. destruct (get_hash a) as [h|]; [|done].
  cbn [mbind option_bind expect res_bind]. intros [= <-] Hp. cbn [im_key] in Hp.
  rewrite Hp. unfold needed_of. cbn [im_key im_hash].
  destruct (prior !! RegItemMapKey_new path name) as [v|] eqn:Hv;
    [destruct (decide (h = rv_hash v)) as [Hh|Hh]|];
    (eexists; split; [reflexivity|]); cbn [ni_reg_items_needed]; rewrite ?app_nil_r;
    (split; [apply handled_single|done]);
    cbn [ni_prior_reg_items ni_latest_reg_items im_key]; unfold latest_value;
    cbn [im_key im_hash im_offset]; rewrite ?Hv; try done.
  - by rewrite decide_True.
  - by rewrite decide_False.
  - unfold RegItemMap in *. by rewrite delete_id.
Qed.

Lemma handle_new_values_spec {Er} self path values s items prior :
  value_items path values = Some items -> NoDup (im_keys items) ->
  (forall i, i ∈ items -> ni_prior_reg_items s !! im_key i = prior !! im_key i) ->
  exists s', handle_new_values (Er:=Er) self path values s = Ok s' /\
    handled (new_sequence_number self) prior items s s' /\
    ni_reg_items_needed s' = ni_reg_items_needed s ++ (items ≫= needed_of prior).
Proof.
  unfold value_items. revert s items. induction values as [|v values IH]; intros s items Hi Hnd Hp.
  { injection Hi as <-. exists s. split_and!; [done|apply handled_nil|by rewrite app_nil_r]. }
  cbn [mapM] in Hi. apply bind_Some in Hi as (i & Hi & Hi').
  apply bind_Some in Hi' as (items' & His & [= <-]).
  destruct (handle_new_item_spec (Er:=Er) self s path (Some (value_name v)) v i prior Hi)
    as (s1 & Hs1 & H1 & N1); [apply Hp; set_solver|].
  destruct (IH s1 items' His) as (s2 & Hs2 & H2 & N2).
  { by apply NoDup_cons in Hnd as [_ ?]. }
  { intros j Hj. rewrite (proj1 H1). rewrite decide_False; [apply Hp; set_solver|].
    apply NoDup_cons in Hnd as [Hnd _]. cbn. rewrite list_elem_of_singleton. intros Heq.
    apply Hnd. rewrite <- Heq. by apply list_elem_of_fmap_2. }
  exists s2. split_and!.
  - cbn [handle_new_values]. by rewrite Hs1.
  - by apply (handled_app _ _ [i] items' s s1).
  - rewrite N2, N1. cbn. by rewrite app_assoc.
Qed.

Lemma value_items_not_keys path values items :
  value_items path values = Some items -> Forall (fun i => ~ is_key_item i) items.
Proof.
  unfold value_items. intros H. apply mapM_Some_1 in H.
  induction H as [|v i values items Hi _ IH]; constructor; [|done].
  apply bind_Some in Hi as (h & _ & [= <-]). done.
Qed.

Definition keys_needed (prior : RegItemMap) (items : list Item) : list RegItemNeeded :=
  filter is_key_item items ≫= needed_of prior.
Definition values_needed (prior : RegItemMap) (items : list Item) : list RegItemNeeded :=
  filter (fun i => ~ is_key_item i) items ≫= needed_of prior.

Lemma filter_not_keys vs :
  Forall (fun i => ~ is_key_item i) vs ->
  filter is_key_item vs = [] /\ filter (fun i => ~ is_key_item i) vs = vs.
Proof.
  induction 1 as [|v vs Hv _ [IH1 IH2]]; [done|].
  rewrite filter_cons_False by done.
  by rewrite (filter_cons_True (fun i => ~ is_key_item i)), IH1, IH2.
Qed.

Lemma needed_split prior k vs rest :
  is_key_item k -> Forall (fun i => ~ is_key_item i) vs ->
  keys_needed prior (k :: vs ++ rest) = needed_of prior k ++ keys_needed prior rest /\
  values_needed prior (k :: vs ++ rest) = (vs ≫= needed_of prior) ++ values_needed prior rest.
Proof.
  intros Hk Hv. unfold keys_needed, values_needed.
  rewrite (filter_cons_True is_key_item) by done.
  rewrite (filter_cons_False (fun i => ~ is_key_item i)) by tauto.
  rewrite !filter_app. destruct (filter_not_keys vs Hv) as [-> ->].
  split; [done|by rewrite bind_app].
Qed.

Lemma handle_new_keys_run {Er} self keys s pvn items prior :
  items_of keys = Some items -> NoDup (im_keys items) ->
  (forall i, i ∈ items -> ni_prior_reg_items s !! im_key i = prior !! im_key i) ->
  exists s', handle_new_keys (Er:=Er) self keys s pvn =
      Ok (s', pvn ++ values_needed prior items) /\
    handled (new_sequence_number self) prior items s s' /\
    ni_reg_items_needed s' = ni_reg_items_needed s ++ keys_needed prior items.
Proof.
  revert s pvn items. induction keys as [|key keys IH]; intros s pvn items Hi Hnd Hp.
  { injection Hi as <-. exists s. cbn. rewrite !app_nil_r.
    split_and!; [done|apply handled_nil|done]. }
  cbn [items_of] in Hi. apply bind_Some in Hi as (k & Hk & Hi).
  apply bind_Some in Hi as (vs & Hvs & Hi). apply bind_Some in Hi as (rest & Hr & [= <-]).
  assert (is_key_item k) as Hkk.
  { apply bind_Some in Hk as (h & _ & [= <-]). done. }
  pose proof (value_items_not_keys _ _ _ Hvs) as Hvv.
  change (k :: vs ++ rest) with ([k] ++ vs ++ rest) in Hnd.
  pose proof Hnd as Hnd'. unfold im_keys in Hnd'. rewrite !fmap_app, !NoDup_app in Hnd'.
  destruct Hnd' as (_ & Hd1 & Hnv & Hd2 & Hnr).
  destruct (handle_new_item_spec (Er:=Er) self s (n_path key) None key k prior Hk)
    as (s1 & Hs1 & H1 & N1); [apply Hp; set_solver|].
  destruct (handle_new_values_spec (Er:=Er) self (n_path key) (n_sub_values key)
    (ni_set_needed pvn s1) vs prior Hvs Hnv) as (s2 & Hs2 & H2 & N2).
  { intros i Hi. cbn [ni_prior_reg_items ni_set_needed]. rewrite (proj1 H1).
    rewrite decide_False; [apply Hp; set_solver|].
    intros Hin. apply (Hd1 (im_key i)); [done|].
    apply elem_of_app; left. by apply list_elem_of_fmap_2. }
  assert (handled (new_sequence_number self) prior ([k] ++ vs) s s2) as H12.
  { apply (handled_app _ _ _ _ s s1); [|done|done].
    rewrite app_assoc in Hnd. unfold im_keys in *. rewrite fmap_app, NoDup_app in Hnd.
    apply Hnd. }
  destruct (IH (ni_set_needed (ni_reg_items_needed s1) s2) (ni_reg_items_needed s2) rest
    Hr Hnr) as (s3 & Hs3 & H3 & N3).
  { intros i Hi. cbn [ni_prior_reg_items ni_set_needed]. rewrite (proj1 H12).
    rewrite decide_False; [apply Hp; set_solver|].
    pose proof (list_elem_of_fmap_2 im_key _ _ Hi). intros Hin. unfold im_keys in Hin.
    rewrite fmap_app, elem_of_app in Hin. destruct Hin as [Hin|Hin].
    - apply (Hd1 (im_key i)); set_solver.
    - by apply (Hd2 (im_key i)). }
  destruct (needed_split prior k vs rest Hkk Hvv) as [-> ->]. exists s3. split_and!.
  - cbn [handle_new_keys]. rewrite Hs1. cbn [mbind res_bind]. rewrite Hs2.
    cbn [mbind res_bind]. rewrite Hs3, N2. cbn. by rewrite <- app_assoc.
  - change (k :: vs ++ rest) with ([k] ++ vs ++ rest). rewrite app_assoc in Hnd |- *.
    by apply (handled_app _ _ _ _ s s2).
  - rewrite N3. cbn [ni_reg_items_needed ni_set_needed]. by rewrite N1, <- app_assoc.
Qed.

(** C23: comparing the items of the hive after a log entry with those before it: when no path
    and name occurs twice, every item found is in the latest map with its hash and offset,
    under its old sequence number when the hash is the same and the entry's number
    otherwise; the prior versions of exactly the changed keys and values are asked for, in
    the order found; and what stays in the prior map is what was not found again. *)
Theorem handle_new_keys_classifies {Er} self keys prior logs items :
  items_of keys = Some items -> NoDup (im_keys items) ->
  exists s', handle_new_keys (Er:=Er) self keys
      {| ni_prior_reg_items := prior; ni_latest_reg_items := ∅; ni_reg_items_needed := [];
         ni_logs := logs |} [] = Ok (s', values_needed prior items) /\
    ni_reg_items_needed s' = keys_needed prior items /\
    (forall i, i ∈ items ->
       ni_latest_reg_items s' !! im_key i
         = Some (latest_value (new_sequence_number self) prior i)) /\
    (forall k, k ∉ im_keys items -> ni_latest_reg_items s' !! k = None) /\
    (forall k, ni_prior_reg_items s' !! k =
       if decide (k ∈ im_keys items) then None else prior !! k).
Proof.
  intros Hi Hnd.
  destruct (handle_new_keys_run (Er:=Er) self keys
    {| ni_prior_reg_items := prior; ni_latest_reg_items := ∅; ni_reg_items_needed := [];
       ni_logs := logs |} [] items prior Hi Hnd) as (s' & Hs & (H1 & H2 & H3) & H4); [done|].
  exists s'. by split_and!.
Qed.
End Classify.

(** ** Applying the pages *)

Section Apply.
Context `{E : Env}.
Variable stdout : ustr -> res Error ().
Variable hash_order : RegItemMap -> list (RegItemMapKey * RegItemMapValue).

Lemma splice_lookup {A} off (src buf : list A) i :
  0 <= off -> off + len src <= len buf ->
  splice off src buf !! i =
  if decide (off <= Z.of_nat i < off + len src) then src !! (i - Z.to_nat off)%nat
  else buf !! i.
Proof.
  intros Ho Hl. unfold splice, ztake, zdrop, len in *.
  assert (length (take (Z.to_nat off) buf) = Z.to_nat off) as Ht by (rewrite length_take; lia).
  case_decide as Hi.
  - rewrite lookup_app_r by lia. rewrite Ht, lookup_app_l by lia. done.
  - destruct (decide (i < Z.to_nat off)%nat).
    + rewrite lookup_app_l by lia. by apply lookup_take_lt.
    + rewrite lookup_app_r by lia. rewrite Ht, lookup_app_r by lia.
      rewrite lookup_drop. f_equal. lia.
Qed.

(** Where a page goes, whether it fits, whether it covers a byte. *)
Definition page_offset (hbin : Z) (pg : DirtyPage) : Z := dirty_page_ref_offset pg + hbin.
Definition page_fits (hbin : Z) (buf : list byte) (pg : DirtyPage) : Prop :=
  page_offset hbin pg + len (page_bytes pg) <= len buf.
Definition covers (hbin : Z) (i : nat) (pg : DirtyPage) : Prop :=
  page_offset hbin pg <= Z.of_nat i < page_offset hbin pg + len (page_bytes pg).
#[local] Instance covers_dec hbin i pg : Decision (covers hbin i pg).
Proof. unfold covers. apply _. Defined.

(** The byte at [i] after the pages: the last page that covers it, or the old byte. *)
Definition byte_after (hbin : Z) (pages : list DirtyPage) (buf : list byte) (i : nat)
    : option byte :=
  match last (filter (covers hbin i) pages) with
  | Some pg => page_bytes pg !! (i - Z.to_nat (page_offset hbin pg))%nat
  | None => buf !! i
  end.

Lemma byte_after_cons hbin pg pages buf i :
  byte_after hbin (pg :: pages) buf i =
  match last (filter (covers hbin i) pages) with
  | Some pg' => page_bytes pg' !! (i - Z.to_nat (page_offset hbin pg'))%nat
  | None => if decide (covers hbin i pg)
            then page_bytes pg !! (i - Z.to_nat (page_offset hbin pg))%nat else buf !! i
  end.
Proof.
  unfold byte_after. destruct (decide (covers hbin i pg)) as [Hc|Hc].
  - rewrite filter_cons_True by done.
    change (pg :: filter _ pages) with ([pg] ++ filter (covers hbin i) pages).
    rewrite last_app. by destruct (last (filter _ pages)).
  - by rewrite filter_cons_False.
Qed.

Definition hbin_of (p : Parser) : Z := hbin_offset_absolute (file_info p).
Definition buf_of (p : Parser) : list byte := buffer (file_info p).

Lemma buf_of_set v p : buf_of (p_set_buffer v p) = v.
Proof. by destruct p. Qed.
Lemma hbin_of_set v p : hbin_of (p_set_buffer v p) = hbin_of p.
Proof. by destruct p. Qed.

Lemma apply_dirty_pages_fit pages p :
  Forall (fun pg => 0 <= page_offset (hbin_of p) pg /\ page_fits (hbin_of p) (buf_of p) pg) pages ->
  exists buf', apply_dirty_pages pages p = (p_set_buffer buf' p, Ok ()) /\
    len buf' = len (buf_of p) /\
    forall i, buf' !! i = byte_after (hbin_of p) pages (buf_of p) i.
Proof.
  revert p. induction pages as [|pg pages IH]; intros p Hp.
  { exists (buf_of p). split_and!; [by destruct p as [[] ]|done|done]. }
  apply Forall_cons in Hp as [[H0 Hfit] Hp]. cbn [apply_dirty_pages].
  unfold m_bind, m_get, m_lift, m_modify.
  fold (hbin_of p) (buf_of p). fold (page_offset (hbin_of p) pg). unfold page_fits in Hfit.
  destruct (get_range _ _ _) eqn:Hg;
    [|apply get_range_None in Hg; pose proof (len_nonneg (page_bytes pg)); lia].
  cbn [ok_or]. set (buf1 := splice _ _ _).
  assert (len buf1 = len (buf_of p)) as Hl by by apply len_splice.
  destruct (IH (p_set_buffer buf1 p)) as (buf' & Hr & Hl' & Hb).
  { rewrite buf_of_set, hbin_of_set. unfold page_fits in *. by rewrite Hl. }
  rewrite buf_of_set in Hl'. rewrite hbin_of_set, buf_of_set in Hb. exists buf'. split_and!.
  - rewrite Hr. by destruct p.
  - by rewrite Hl'.
  - intros i. rewrite Hb, byte_after_cons. unfold byte_after.
    destruct (last _); [done|]. unfold buf1. rewrite splice_lookup by done. done.
Qed.

Lemma apply_dirty_pages_out pages p :
  ~ Forall (fun pg => 0 <= page_offset (hbin_of p) pg /\ page_fits (hbin_of p) (buf_of p) pg) pages ->
  exists p', apply_dirty_pages pages p = (p', Err (Error_buffer "update_parser")).
Proof.
  revert p. induction pages as [|pg pages IH]; intros p Hp; [by destruct Hp|].
  cbn [apply_dirty_pages]. unfold m_bind, m_get, m_lift, m_modify.
  fold (hbin_of p) (buf_of p). fold (page_offset (hbin_of p) pg).
  destruct (get_range _ _ _) eqn:Hg; [|by exists p].
  cbn [ok_or]. apply get_range_Some in Hg as (H1 & H2 & _). apply IH.
  rewrite buf_of_set, hbin_of_set. intros Hall. apply Hp.
  constructor; [split; [lia|exact H2]|].
  eapply Forall_impl; [exact Hall|]. intros pg' [Ha Hb]. split; [done|].
  unfold page_fits in *. rewrite (len_splice _ _ (buf_of p)) in Hb by lia. exact Hb.
Qed.

(** C11: the dirty pages of an entry overwrite the file byte for byte: when every page lies
    inside the file, each byte afterwards is that of the last page covering it, or the old
    byte, and the length is unchanged; a page outside is an error. *)
Theorem apply_dirty_pages_bytes pages p :
  (Forall (fun pg => 0 <= page_offset (hbin_of p) pg /\
                     page_fits (hbin_of p) (buf_of p) pg) pages ->
   exists buf', apply_dirty_pages pages p = (p_set_buffer buf' p, Ok ()) /\
     len buf' = len (buf_of p) /\
     forall i, buf' !! i = byte_after (hbin_of p) pages (buf_of p) i) /\
  (~ Forall (fun pg => 0 <= page_offset (hbin_of p) pg /\
                       page_fits (hbin_of p) (buf_of p) pg) pages ->
   exists p', apply_dirty_pages pages p = (p', Err (Error_buffer "update_parser"))).
Proof. split; [apply apply_dirty_pages_fit|apply apply_dirty_pages_out]. Qed.

(** ** Which entries are applied *)

(** The file before and after reading the hive's items: only the parsed items change. *)
Definition same_file (p p' : Parser) : Prop :=
  file_info p' = file_info p /\ base_block p' = base_block p /\
  recover_deleted p' = recover_deleted p /\ update_console p' = update_console p.
#[export] Instance same_file_preorder : PreOrder same_file.
Proof.
  split; [done|]. intros p1 p2 p3 (? & ? & ? & ?) (? & ? & ? & ?). split_and!; congruence.
Qed.

Lemma same_file_with_state {Er A} (m : M State Er A) : m_rel same_file (with_state m).
Proof. intros p. unfold with_state. destruct (m (state p)) as [st r]. by destruct p. Qed.

Lemma init_root_same depth : m_rel same_file (init_root depth).
Proof.
  unfold init_root. pose proof @same_file_with_state. m_rel_tac; intros p; by destruct p.
Qed.

Lemma get_latest_same n fuel depth self prior lg :
  m_rel same_file (get_latest_reg_items hash_order n fuel depth self prior lg).
Proof.
  unfold get_latest_reg_items. pose proof @same_file_with_state. pose proof init_root_same.
  m_rel_tac.
Qed.

(** The buffer an entry's pages are applied to. *)
Definition grown (bins : Z) (e : LogEntry) (buf : list byte) : list byte :=
  if bins <? le_hive_bins_data_size e
  then resize_zero (len buf + (le_hive_bins_data_size e - bins)) buf else buf.

Definition entry_applied (hbin bins : Z) (e : LogEntry) (buf buf' : list byte) : Prop :=
  Forall (page_fits hbin (grown bins e buf)) (le_dirty_pages e) /\
  len buf' = len (grown bins e buf) /\
  forall i, buf' !! i = byte_after hbin (le_dirty_pages e) (grown bins e buf) i.

Lemma apply_dirty_pages_Ok pages p p' :
  apply_dirty_pages pages p = (p', Ok ()) ->
  Forall (page_fits (hbin_of p) (buf_of p)) pages /\
  exists buf', p' = p_set_buffer buf' p /\ len buf' = len (buf_of p) /\
    forall i, buf' !! i = byte_after (hbin_of p) pages (buf_of p) i.
Proof.
  intros H.
  assert (forall pg, Decision (0 <= page_offset (hbin_of p) pg /\
    page_fits (hbin_of p) (buf_of p) pg)) by (intros; unfold page_fits; apply _).
  destruct (decide (Forall (fun pg => 0 <= page_offset (hbin_of p) pg /\
    page_fits (hbin_of p) (buf_of p) pg) pages)) as [Hf|Hf].
  - destruct (apply_dirty_pages_fit pages p Hf) as (buf' & Hr & Hl & Hb).
    rewrite H in Hr. injection Hr as ->. split; [|eauto].
    eapply Forall_impl; [exact Hf|]. by intros pg [_ ?].
  - destruct (apply_dirty_pages_out pages p Hf) as [p2 Hr]. congruence.
Qed.

Lemma apply_log_entry_Ok n fuel depth bins e prior p p' items :
  apply_log_entry hash_order n fuel depth bins e prior p = (p', Ok items) ->
  entry_applied (hbin_of p) bins e (buf_of p) (buf_of p') /\
  hbin_of p' = hbin_of p /\ base_block p' = base_block p.
Proof.
  unfold apply_log_entry. intros H.
  apply m_bind_Ok in H as (p1 & u1 & H1 & H). unfold m_modify in H1. injection H1 as H1 _.
  apply m_bind_Ok in H as (p1' & pr & H2 & H). unfold m_get in H2. injection H2 as <- _.
  apply m_bind_Ok in H as (p2 & [] & H2 & H).
  assert (buf_of p1 = grown bins e (buf_of p) /\ hbin_of p1 = hbin_of p /\
    base_block p1 = base_block p) as (Hb1 & Hh1 & Hbb1).
  { rewrite <- H1. unfold grown, buf_of. case_match; by destruct p. }
  apply apply_dirty_pages_Ok in H2 as (Hfit & buf' & -> & Hl & Hb).
  rewrite Hb1, Hh1 in Hfit, Hb. rewrite Hb1 in Hl.
  match type of H with ?m ?q = _ =>
    assert (m_rel same_file m) as Hrel; [|specialize (Hrel q); rewrite H in Hrel; cbn in Hrel] end.
  { pose proof @same_file_with_state. pose proof get_latest_same. unfold p_log. m_rel_tac. }
  destruct Hrel as (Hfi & Hbb & _).
  assert (buf_of p' = buf') as Hbuf.
  { unfold buf_of. rewrite Hfi. by destruct p1. }
  rewrite Hbuf. split_and!; [by split_and!| |].
  - unfold hbin_of in *. rewrite Hfi, <- Hh1. by destruct p1.
  - rewrite Hbb, <- Hbb1. by destruct p1.
Qed.

(** The sequence number [s] may follow [last]; 0 stands for no entry applied yet. *)
Definition follows (last s : Z) : Prop := last = 0 \/ add_u32 (E:=Error) last 1 = Ok s.
Fixpoint consecutive (last : Z) (seqs : list Z) : Prop :=
  match seqs with
  | [] => True
  | s :: seqs => follows last s /\ consecutive s seqs
  end.

Fixpoint entries_applied (hbin bins : Z) (es : list LogEntry) (buf buf' : list byte) : Prop :=
  match es with
  | [] => buf' = buf
  | e :: es => exists mid, entry_applied hbin bins e buf mid /\
                           entries_applied hbin bins es mid buf'
  end.

(** The entry ends the processing of its log. *)
Definition stops (ssn last : Z) (e : LogEntry) : Prop :=
  le_has_valid_hashes e = false \/
  (ssn <= le_sequence_number e /\
   (is_valid_hive_bin_data_size e = false \/ ~ follows last (le_sequence_number e))).

Definition is_current (ssn : Z) (e : LogEntry) : Prop := ssn <= le_sequence_number e.
#[local] Instance is_current_dec ssn e : Decision (is_current ssn e).
Proof. unfold is_current. apply _. Defined.

(** What a run over the entries [es] of a log does, from the number [last] on. *)
Definition log_run (ssn bins last : Z) (es : list LogEntry) (p p' : Parser) (num : Z) : Prop :=
  exists pre rest, es = pre ++ rest /\
    let applied := filter (is_current ssn) pre in
    let seqs := le_sequence_number <$> applied in
    Forall (fun e => le_has_valid_hashes e = true) pre /\
    Forall (fun e => is_valid_hive_bin_data_size e = true) applied /\
    consecutive last seqs /\
    num = default last (list.last seqs) /\
    (rest = [] \/ exists e r, rest = e :: r /\ stops ssn num e) /\
    entries_applied (hbin_of p) bins applied (buf_of p) (buf_of p') /\
    hbin_of p' = hbin_of p /\ base_block p' = base_block p.

Lemma log_run_stop ssn bins last es p p' :
  (es = [] \/ exists e r, es = e :: r /\ stops ssn last e) -> same_file p p' ->
  log_run ssn bins last es p p' last.
Proof.
  intros Hs (Hf & Hb & _). exists [], es. unfold hbin_of, buf_of. rewrite Hf.
  split; [done|]. split; [by apply Forall_nil|]. split; [by apply Forall_nil|].
  by split_and!.
Qed.

Lemma log_run_skip ssn bins last e es p p1 p' num :
  le_has_valid_hashes e = true -> ~ is_current ssn e -> same_file p p1 ->
  log_run ssn bins last es p1 p' num -> log_run ssn bins last (e :: es) p p' num.
Proof.
  intros Hv Hc (Hf & Hb & _) (pre & rest & -> & H). exists (e :: pre), rest. split; [done|].
  rewrite filter_cons_False by done. unfold hbin_of, buf_of in *. rewrite Hf, Hb in H.
  destruct H as (H1 & H). by split; [constructor|].
Qed.

Lemma log_run_apply ssn bins last e es p p1 p' num :
  le_has_valid_hashes e = true -> is_current ssn e -> is_valid_hive_bin_data_size e = true ->
  follows last (le_sequence_number e) ->
  entry_applied (hbin_of p) bins e (buf_of p) (buf_of p1) -> hbin_of p1 = hbin_of p ->
  base_block p1 = base_block p ->
  log_run ssn bins (le_sequence_number e) es p1 p' num ->
  log_run ssn bins last (e :: es) p p' num.
Proof.
  intros Hv Hc Hbin Hfo Ha Hh Hbb (pre & rest & -> & H1 & H2 & H3 & H4 & H5 & H6 & H7 & H8).
  exists (e :: pre), rest. split; [done|]. rewrite filter_cons_True by done.
  rewrite Hh in H6, H7. rewrite Hbb in H8.
  split; [by apply Forall_cons|]. split; [by apply Forall_cons|]. split; [done|].
  split; [|split; [done|split; [by exists (buf_of p1)|done]]].
  rewrite H4, fmap_cons, last_cons. by destruct (list.last _).
Qed.

Lemma update_parser_loop_run n fuel depth ssn bins index count es last prior p p' num items :
  update_parser_loop stdout hash_order n fuel depth ssn bins index count es last prior p
    = (p', Ok (num, items)) ->
  log_run ssn bins last es p p' num.
Proof.
  revert index last prior p. induction es as [|e es IH]; intros index last prior p H;
    cbn [update_parser_loop] in H.
  { injection H as -> -> ->. by apply log_run_stop; [left|]. }
  apply m_bind_Ok in H as (q & q' & Hq & H). injection Hq as <- <-.
  apply m_bind_Ok in H as (q & u & Hq & H). injection Hq as <- _.
  assert (forall c t (k : M Parser Error (Z * RegItemMap)) r, (p_log c t;;; k) p = r ->
    exists p1, same_file p p1 /\ k p1 = r) as Hlog.
  { intros c t k r Hr. unfold m_bind in Hr. pose proof (same_file_with_state (Er:=Error)
      (st_log c t) p) as Hs. unfold p_log in Hr. destruct (with_state _ p) as [p1 [[]| | |]] eqn:Hw;
      try (by inversion Hw). by exists p1. }
  destruct (le_has_valid_hashes e) eqn:Hv.
  2:{ apply Hlog in H as (p1 & Hs & H). injection H as -> -> ->.
      apply log_run_stop; [right; exists e, es; split; [done|by left]|done]. }
  destruct (Z.ltb_spec (le_sequence_number e) ssn) as [Hlt|Hge].
  { apply Hlog in H as (p1 & Hs & H). apply IH in H.
    eapply log_run_skip; [done| |done|done]. unfold is_current. lia. }
  destruct (is_valid_hive_bin_data_size e) eqn:Hbin; cbn [negb] in H.
  2:{ apply Hlog in H as (p1 & Hs & H). injection H as -> -> ->.
      apply log_run_stop; [right; exists e, es; split; [done|right; auto]|done]. }
  apply m_bind_Ok in H as (q & b & Hq & H).
  assert (q = p /\ (b = true -> ~ follows last (le_sequence_number e)) /\
    (b = false -> follows last (le_sequence_number e))) as (-> & Hb1 & Hb2).
  { destruct (Z.eqb_spec last 0) as [->|H0].
    - injection Hq as <- <-. split_and!; [done|done|by left].
    - unfold m_bind, m_lift, follows in *. destruct (add_u32 last 1) as [nx| | |]; try done.
      injection Hq as <- <-. destruct (Z.eqb_spec (le_sequence_number e) nx);
        (split_and!; [done|..]); cbn; try done; intros _; [right; congruence|].
      intros [?|?]; congruence. }
  destruct b.
  { apply Hlog in H as (p1 & Hs & H). injection H as -> -> ->.
    apply log_run_stop; [right; exists e, es; split; [done|right; auto]|done]. }
  apply m_bind_Ok in H as (p1 & items1 & Ha & H). apply apply_log_entry_Ok in Ha as (Ha & Hh & Hbb).
  apply IH in H. eapply log_run_apply; eauto.
Qed.

(** C4: applying a log: the entries split into a part that is processed and the rest.  All
    processed entries have valid hashes; those not older than the primary file's secondary
    sequence number are applied to the file in order, and they form one run of consecutive
    sequence numbers with valid bin sizes; the number returned is the last one applied, or 0
    when there is none; the rest is empty or starts with an entry that ends the processing:
    a wrong hash, a bad bin size or a gap in the numbers. *)
Theorem update_parser_applies n fuel depth self prior p bb p' num items :
  base_block p = Some bb ->
  update_parser stdout hash_order n fuel depth self prior p = (p', Ok (num, items)) ->
  log_run (secondary_sequence_number (base bb)) (hive_bins_data_size (base bb)) 0
    (tl_log_entries self) p p' num.
Proof.
  intros Hbb. unfold update_parser, get_base_block_info, m_bind, m_get, m_lift, m_ret.
  rewrite Hbb. cbn [expect]. apply update_parser_loop_run.
Qed.
End Apply.

(** ** Samples *)

Definition entry_sample (seq : Z) : EntryData :=
  {| ed_flags := 0; ed_seq := seq; ed_bins := 4096;
     ed_pages := [{| dirty_page_ref_offset := 2; page_bytes := [Byte.x41; Byte.x42] |}];
     ed_pad := [Byte.x00] |}.

Lemma TransactionLog_roundtrip_witness :
  let header := bytes_of "regf" ++ replicate 508 Byte.x00 in
  let es := [entry_sample 1; entry_sample 2] in
  exists base_block,
    TransactionLog_from_bytes (E:=env_ref) (header ++ (es ≫= entry_bytes) ++ [Byte.x00]) =
    Ok ([Byte.x00], {| tl_base_block := base_block; tl_base_block_bytes := header;
                       tl_log_entries := decoded_entries 512 es |}).
Proof.
  intros header es. apply (@TransactionLog_roundtrip env_ref header es [Byte.x00]).
  - vm_compute; reflexivity.
  - vm_compute; reflexivity.
  - repeat constructor; vm_compute; try reflexivity; discriminate.
  - vm_compute; discriminate.
Defined.

Lemma handle_new_keys_classifies_witness :
  let h : list byte := [Byte.x01] in
  let k := @key_sample env_ref 80 32 (lit "b") (lit "\a\b") 96 (Some h) in
  exists s', handle_new_keys (Er:=Error) (E:=env_ref)
      {| prior_file_info := {| hbin_offset_absolute := 0; buffer := [] |};
         new_sequence_number := 7 |} [k]
      {| ni_prior_reg_items := ∅; ni_latest_reg_items := ∅; ni_reg_items_needed := [];
         ni_logs := Logs_default |} [] = Ok (s', []).
Proof.
  intros h k.
  destruct (@handle_new_keys_classifies env_ref Error
    {| prior_file_info := {| hbin_offset_absolute := 0; buffer := [] |};
       new_sequence_number := 7 |} [k] ∅ Logs_default
    [{| im_key := RegItemMapKey_new (lit "\a\b") None; im_hash := h : @Hash env_ref;
        im_offset := 96 |}])
    as (s' & Hs & _); [reflexivity|apply NoDup_singleton|].
  exists s'. exact Hs.
Defined.

Lemma apply_dirty_pages_bytes_witness :
  let p := parser_sample (replicate 8 Byte.x00) 4 (base_block_sample 2 1 4) in
  let pages := [{| dirty_page_ref_offset := 1; page_bytes := [Byte.x41; Byte.x42] |};
                {| dirty_page_ref_offset := 2; page_bytes := [Byte.x43] |}] in
  exists buf', apply_dirty_pages pages p = (p_set_buffer buf' p, Ok ()) /\
    buf' !! 5%nat = Some Byte.x41 /\ buf' !! 6%nat = Some Byte.x43.
Proof.
  intros p pages.
  destruct (proj1 (@apply_dirty_pages_bytes env_ref pages p)) as (buf' & H1 & _ & H2).
  - repeat constructor; vm_compute; discriminate.
  - exists buf'. split; [exact H1|]. rewrite !H2. split; vm_compute; reflexivity.
Defined.

Lemma update_parser_applies_witness :
  let bb := base_block_sample 2 1 4096 in
  let p := parser_sample (replicate 8 Byte.x00) 4 bb in
  let es := decoded_entries 512 [entry_sample 1; entry_sample 2; entry_sample 4] in
  let tl := {| tl_base_block := base bb; tl_base_block_bytes := []; tl_log_entries := es |} in
  let run := update_parser (fun _ => Ok ()) (fun m => []) 9 9 9 tl ∅ p in
  exists p' items, run = (p', Ok (2, items)) /\
    log_run 1 4096 0 es p p' 2.
Proof.
  intros bb p es tl run.
  assert (match run.2 with Ok (n, _) => n =? 2 | _ => false end = true) as H
    by (vm_compute; reflexivity).
  destruct run as [p' [[n items]| | |]] eqn:Hr; cbn in H; try discriminate.
  apply Z.eqb_eq in H. subst n. exists p', items. split; [reflexivity|].
  exact (@update_parser_applies env_ref (fun _ => Ok ()) (fun m => []) 9 9 9 tl ∅ p bb p' 2 items
    eq_refl Hr).
Defined.
