(* ===== verification/Init.v ===== *)
(** * Init: opening a hive

    The rest of [src/src/parser.rs] ([init] and the transaction logs) and
    [src/src/parser_builder.rs].  A hive is opened by reading its base block, recovering
    deleted items when asked, applying the logs when the base block says the hive is dirty,
    and reading the root key. *)

From S2P Require Import Prelude Env Log Marvin Util UtilFacts Cells BaseBlock SubKeyLists Values ValueFacts State Filter KeyNode KeyNodeFacts Recover Parser ParserFacts TransactionLog TransactionLogFacts.

Section Init.
Context `{E : Env}.
Variable stdout : ustr -> res Error ().
Variable hash_order : RegItemMap -> list (RegItemMapKey * RegItemMapValue).

(** ** [parser.rs]: transaction logs *)

(** The logs left to apply. *)
Definition handle_bad_checksum (parsed_transaction_logs : list TransactionLog)
    : M Parser Error (list TransactionLog) :=
  p_log WarningBaseBlock (lit "Applying recovered base block");;;
  let* newest_log := m_lift (expect (last parsed_transaction_logs)) in
  let* self := m_get in
  let* slice := m_lift (ok_or (Error_buffer "handle_bad_checksum")
                  (get_range (buffer (file_info self)) 0 BASE_BLOCK_LEN)) in
  (* [copy_from_slice] panics when the lengths differ *)
  (if len slice =? len (tl_base_block_bytes newest_log)
   then m_modify (fun p =>
          p_set_buffer (splice 0 (tl_base_block_bytes newest_log) (buffer (file_info p))) p)
   else m_lift Panic);;;
  (if debug_assertions && negb (len parsed_transaction_logs <=? 2)
   then m_lift Panic else m_ret ());;;
  let parsed_transaction_logs :=
    if 1 <? len parsed_transaction_logs then tail parsed_transaction_logs
    else parsed_transaction_logs in
  let* _ := init_base_block in
  m_ret parsed_transaction_logs.

Definition prepare_transaction_logs (has_bad_checksum : bool)
    (parsed_transaction_logs : list TransactionLog)
    : M Parser Error (bool * list TransactionLog) :=
  let* parsed_transaction_logs :=
    if has_bad_checksum then handle_bad_checksum parsed_transaction_logs
    else m_ret parsed_transaction_logs in
  let* self := m_get in
  let* bb := m_lift (expect (base_block self)) in
  if primary_sequence_number (base bb) =? secondary_sequence_number (base bb) then
    p_log WarningTransactionLog
      (lit "Skipping transaction logs because the primary file's primary_sequence_number matches the secondary_sequence_number");;;
    m_ret (false, parsed_transaction_logs)
  else m_ret (true, parsed_transaction_logs).

Definition PRIMARY_SEQUENCE_NUMBER_OFFSET : Z := 4.
Definition SECONDARY_SEQUENCE_NUMBER_OFFSET : Z := 8.

(** [self.file_info.buffer[off..off + 4].copy_from_slice(..)]. *)
Definition write_u32 (off v : Z) : M Parser Error () :=
  let* self := m_get in
  let* _ := m_lift (expect (get_range (buffer (file_info self)) off (off + 4))) in
  m_modify (fun p => p_set_buffer (splice off (to_le_bytes 4 v) (buffer (file_info p))) p).

Definition update_header_after_transaction_logs (new_sequence_number : Z)
    : M Parser Error () :=
  write_u32 PRIMARY_SEQUENCE_NUMBER_OFFSET new_sequence_number;;;
  write_u32 SECONDARY_SEQUENCE_NUMBER_OFFSET new_sequence_number;;;
  let* self := m_get in
  let* header := m_lift (expect (get_range (buffer (file_info self)) 0 0x200)) in
  let* new_checksum := m_lift (calculate_checksum header) in
  write_u32 CHECKSUM_OFFSET new_checksum;;;
  let* _ := init_base_block in
  p_log Info
    (lit "Applied transaction log(s). Sequence numbers have been updated to "
     ++ fmt_dec new_sequence_number ++ lit ". New Checksum: 0x" ++ fmt_08X new_checksum).

(** [for (index, log) in ...]; [index] and [count] are for the console only. *)
Fixpoint apply_logs_loop (n fuel depth : nat) (primary_file_secondary_seq_num index count : Z)
    (parsed_transaction_logs : list TransactionLog) (new_sequence_number : Z)
    (original_items : RegItemMap) : M Parser Error Z :=
  match parsed_transaction_logs with
  | [] => m_ret new_sequence_number
  | log :: parsed_transaction_logs =>
      let psn := primary_sequence_number (tl_base_block log) in
      if primary_file_secondary_seq_num <=? psn then
        let* follows :=
          if new_sequence_number =? 0 then m_ret true
          else
            let* next := m_lift (add_u32 new_sequence_number 1) in
            m_ret (psn =? next) in
        if follows : bool then
          let* self := m_get in
          m_lift (progress_write stdout (update_console self)
            (lit "Applying transaction log " ++ fmt_dec (index + 1) ++ lit " of "
             ++ fmt_dec count ++ [10]));;;
          let* (new_seq_num_ret, prior_reg_items) :=
            update_parser stdout hash_order n fuel depth log original_items in
          apply_logs_loop n fuel depth primary_file_secondary_seq_num (index + 1) count
            parsed_transaction_logs new_seq_num_ret prior_reg_items
        else
          p_log WarningTransactionLog
            (lit "Skipping log file; the log's primary sequence number (" ++ fmt_dec psn
             ++ lit ") does not follow the previous log's last sequence number ("
             ++ fmt_dec new_sequence_number ++ lit ")");;;
          apply_logs_loop n fuel depth primary_file_secondary_seq_num (index + 1) count
            parsed_transaction_logs new_sequence_number original_items
      else
        p_log WarningTransactionLog
          (lit "Skipping log file; the log's primary sequence number (" ++ fmt_dec psn
           ++ lit ") is less than the primary file's secondary sequence number ("
           ++ fmt_dec primary_file_secondary_seq_num ++ lit ")");;;
        apply_logs_loop n fuel depth primary_file_secondary_seq_num (index + 1) count
          parsed_transaction_logs new_sequence_number original_items
  end.

Definition apply_transaction_logs (n fuel depth : nat) (has_bad_checksum : bool)
    (parsed_transaction_logs : list TransactionLog) : M Parser Error () :=
  match parsed_transaction_logs with
  | [] => m_ret ()
  | _ :: _ =>
      let* (go, parsed_transaction_logs) :=
        prepare_transaction_logs has_bad_checksum parsed_transaction_logs in
      if go : bool then
        let* original_items := get_reg_items n fuel depth 0 in
        let* (primary_file_secondary_seq_num, _) := get_base_block_info in
        let* new_sequence_number :=
          apply_logs_loop n fuel depth primary_file_secondary_seq_num 0
            (len parsed_transaction_logs) parsed_transaction_logs 0 original_items in
        update_header_after_transaction_logs new_sequence_number
      else m_ret ()
  end.

Definition init (n fuel depth : nat) (recover_deleted : bool)
    (parsed_transaction_logs : list TransactionLog) : M Parser Error () :=
  let* (is_supported_format, has_bad_checksum) := init_base_block in
  if is_supported_format : bool then
    (if recover_deleted then init_recover_deleted else m_ret ());;;
    apply_transaction_logs n fuel depth has_bad_checksum parsed_transaction_logs;;;
    init_root depth
  else m_ret ().

(** ** [parser_builder.rs] *)

Record ParserBuilderBase := {
  pb_filter : option Filter;
  pb_recover_deleted : bool;
  pb_get_full_field_info : bool;
  pb_update_console : bool;
}.
Definition ParserBuilderBase_default : ParserBuilderBase :=
  {| pb_filter := None; pb_recover_deleted := false; pb_get_full_field_info := false;
     pb_update_console := false |}.
Definition pb_set_filter (v : Filter) (b : ParserBuilderBase) : ParserBuilderBase :=
  {| pb_filter := Some v; pb_recover_deleted := pb_recover_deleted b;
     pb_get_full_field_info := pb_get_full_field_info b;
     pb_update_console := pb_update_console b |}.
Definition pb_set_recover_deleted (v : bool) (b : ParserBuilderBase) : ParserBuilderBase :=
  {| pb_filter := pb_filter b; pb_recover_deleted := v;
     pb_get_full_field_info := pb_get_full_field_info b;
     pb_update_console := pb_update_console b |}.
Definition pb_set_get_full_field_info (v : bool) (b : ParserBuilderBase) : ParserBuilderBase :=
  {| pb_filter := pb_filter b; pb_recover_deleted := pb_recover_deleted b;
     pb_get_full_field_info := v; pb_update_console := pb_update_console b |}.
Definition pb_set_update_console (v : bool) (b : ParserBuilderBase) : ParserBuilderBase :=
  {| pb_filter := pb_filter b; pb_recover_deleted := pb_recover_deleted b;
     pb_get_full_field_info := pb_get_full_field_info b; pb_update_console := v |}.

(** The parser before [init]. *)
Definition new_parser (file_info : FileInfo) (base : ParserBuilderBase) : Parser :=
  {| file_info := file_info;
     state := st_set_get_full_field_info (pb_get_full_field_info base) State_default;
     base_block := None; hive_bin_header := None; cell_key_node_root := None;
     recover_deleted := pb_recover_deleted base; update_console := pb_update_console base |}.

(** [ParserBuilder::build]; the log files are what reading them gives. *)
Definition build (n fuel depth : nat) (file_info : FileInfo) (base : ParserBuilderBase)
    (transaction_logs : list (res Error (list byte))) : res Error Parser :=
  '(parsed_transaction_logs, warning_logs) ← TransactionLog_parse transaction_logs;
  match init n fuel depth (pb_recover_deleted base) parsed_transaction_logs
          (new_parser file_info base) with
  | (parser, Ok _) =>
      Ok match warning_logs with
         | Some warning_logs =>
             p_set_state (st_set_info (Logs_extend (info (state parser)) warning_logs)
                            (state parser)) parser
         | None => parser
         end
  | (_, Err e) => Err e
  | (_, Panic) => Panic
  | (_, NoFuel) => NoFuel
  end.

Record ParserBuilderFromFile := {
  ff_primary : res Error (list byte);
  ff_transaction_logs : list (res Error (list byte));
  ff_base : ParserBuilderBase;
}.
Definition from_file (primary : res Error (list byte)) : ParserBuilderFromFile :=
  {| ff_primary := primary; ff_transaction_logs := [];
     ff_base := ParserBuilderBase_default |}.
Definition ff_update (f : ParserBuilderBase -> ParserBuilderBase) (b : ParserBuilderFromFile)
    : ParserBuilderFromFile :=
  {| ff_primary := ff_primary b; ff_transaction_logs := ff_transaction_logs b;
     ff_base := f (ff_base b) |}.
Definition ff_with_transaction_log (log : res Error (list byte)) (b : ParserBuilderFromFile)
    : ParserBuilderFromFile :=
  {| ff_primary := ff_primary b; ff_transaction_logs := ff_transaction_logs b ++ [log];
     ff_base := ff_base b |}.
Definition ff_build (n fuel depth : nat) (self : ParserBuilderFromFile) : res Error Parser :=
  data ← ff_primary self;
  build n fuel depth (FileInfo_from_read_seek data) (ff_base self) (ff_transaction_logs self).

(** A path as what opening the file gives, and what reading it gives then. *)
Abbreviation path := (res Error (res Error (list byte))).
Record ParserBuilderFromPath := {
  fp_primary : path;
  fp_transaction_logs : list path;
  fp_base : ParserBuilderBase;
}.
Definition from_path (primary : path) : ParserBuilderFromPath :=
  {| fp_primary := primary; fp_transaction_logs := []; fp_base := ParserBuilderBase_default |}.
Definition fp_update (f : ParserBuilderBase -> ParserBuilderBase) (b : ParserBuilderFromPath)
    : ParserBuilderFromPath :=
  {| fp_primary := fp_primary b; fp_transaction_logs := fp_transaction_logs b;
     fp_base := f (fp_base b) |}.
Definition fp_with_transaction_log (log : path) (b : ParserBuilderFromPath)
    : ParserBuilderFromPath :=
  {| fp_primary := fp_primary b; fp_transaction_logs := fp_transaction_logs b ++ [log];
     fp_base := fp_base b |}.
Definition fp_build (n fuel depth : nat) (self : ParserBuilderFromPath) : res Error Parser :=
  transaction_logs ← mapM id (fp_transaction_logs self);
  file ← fp_primary self;
  data ← file;
  build n fuel depth (FileInfo_from_read_seek data) (fp_base self) transaction_logs.
End Init.
