(* ===== verification/InitFacts.v ===== *)
(** * InitFacts: the header after recovery, logs in order

    Theorems about [Init]. *)

From S2P Require Import Prelude Env Log Marvin Util UtilFacts Cells BaseBlock SubKeyLists Values ValueFacts State Filter KeyNode KeyNodeFacts Recover Parser ParserFacts TransactionLog TransactionLogFacts Init.

(** ** Reading a buffer a range of which was overwritten *)

Lemma splice_length {A} off (src buf : list A) :
  0 <= off -> off + len src <= len buf -> length (splice off src buf) = length buf.
Proof. intros H1 H2. pose proof (len_splice off src buf H1 H2). unfold len in *. lia. Qed.

Lemma splice_read_other {A} off (src buf : list A) a n :
  0 <= off -> off + len src <= len buf -> 0 <= a -> 0 <= n ->
  a + n <= off \/ off + len src <= a ->
  ztake n (zdrop a (splice off src buf)) = ztake n (zdrop a buf).
Proof.
  intros Ho Hl Ha Hn Hd. apply list_eq. intros i. unfold ztake, zdrop.
  destruct (decide (i < Z.to_nat n)%nat).
  - rewrite !lookup_take_lt by done. rewrite !lookup_drop, splice_lookup by done.
    rewrite decide_False; [done|lia].
  - by rewrite !lookup_take_ge by lia.
Qed.

Lemma splice_read_same {A} off (src buf : list A) n :
  n = len src -> 0 <= off -> off + len src <= len buf ->
  ztake n (zdrop off (splice off src buf)) = src.
Proof. intros ->. apply splice_read. Qed.

Section InitFacts.
Context `{E : Env}.
Variable stdout : ustr -> res Error ().
Variable hash_order : RegItemMap -> list (RegItemMapKey * RegItemMapValue).

(** ** The header *)

Lemma write_u32_Ok off v p :
  0 <= off -> off + 4 <= len (buf_of p) ->
  write_u32 off v p = (p_set_buffer (splice off (to_le_bytes 4 v) (buf_of p)) p, Ok ()).
Proof.
  intros H0 H1. unfold write_u32, m_bind, m_get, m_lift, m_modify.
  destruct (get_range _ _ _) eqn:Hg; [done|].
  apply get_range_None in Hg. unfold buf_of in *. lia.
Qed.

(** A log leaves the file alone. *)
Lemma p_log_run {Er} c t (p : Parser) :
  exists q, p_log (Er:=Er) c t p = (q, Ok ()) /\ same_file p q.
Proof. eexists. split; [reflexivity|]. by destruct p. Qed.

Lemma same_file_reads p q :
  same_file p q -> buf_of q = buf_of p /\ hbin_of q = hbin_of p /\ base_block q = base_block p.
Proof. intros (Hf & Hb & _). unfold buf_of, hbin_of. by rewrite Hf. Qed.

Lemma check_base_block_Ok p bb c :
  base_block p = Some bb -> 512 <= len (buf_of p) ->
  calculate_checksum (ztake 512 (buf_of p)) = Ok c ->
  let supported := negb (bool_decide (file_type (base bb) = FT_Unknown)) in
  exists p', check_base_block p =
      (p', Ok (supported, supported && negb (c =? checksum (base bb)))) /\ same_file p p'.
Proof.
  intros Hbb Hl Hc supported. unfold check_base_block.
  rewrite (m_bind_run _ _ p p supported) by
    (unfold is_supported_file_type, m_bind, m_get, m_lift; by rewrite Hbb).
  destruct supported; cbn [andb].
  2:{ destruct (p_log_run (Er:=Error) WarningBaseBlock (lit "Unsupported registry file type.") p)
        as (q & Hq & Hs). exists q. by rewrite (m_bind_run _ _ _ _ _ Hq). }
  rewrite (m_bind_run _ _ p p p) by done.
  rewrite (m_bind_run _ _ p p bb) by (unfold m_lift; by rewrite Hbb). cbv zeta.
  match goal with |- context [m_bind (if ?b then ?l else ?r) _] =>
    assert (exists q, (if b then l else r) p = (q, Ok ()) /\ same_file p q) as (q & Hq & Hs)
      by (destruct b; [apply p_log_run|by exists p]) end.
  rewrite (m_bind_run _ _ _ _ _ Hq). destruct Hs as (Hf & Hb & Hr & Hu).
  rewrite (m_bind_run _ _ q q (ztake 512 (buf_of p))).
  2:{ unfold m_lift, buf_of. do 2 f_equal.
      replace (get_range _ _ _) with (Some (ztake 512 (buffer (file_info p)))); [done|].
      symmetry. apply get_range_Some. rewrite zdrop_0. by split_and!. }
  rewrite (m_bind_run _ _ q q c) by (unfold m_lift; by rewrite Hc).
  destruct (c =? checksum (base bb)); cbn [negb].
  - by exists q.
  - destruct (p_log_run (Er:=Error) WarningBaseBlock
      (lit "Hive requires recovery: base block checksum is wrong.") q) as (q' & Hq' & Hs).
    exists q'. rewrite (m_bind_run _ _ _ _ _ Hq'). split; [done|]. by transitivity q.
Qed.

(** [init_base_block] on a whole header. *)
Lemma init_base_block_Ok p :
  4096 <= len (buf_of p) -> ztake 4 (buf_of p) = bytes_of "regf" ->
  exists p' bb c, let supported := negb (bool_decide (file_type (base bb) = FT_Unknown)) in
    init_base_block p = (p', Ok (supported, supported && negb (c =? checksum (base bb)))) /\
    BaseBlock_from_bytes (buf_of p) = Ok (zdrop 4096 (buf_of p), bb) /\
    calculate_checksum (ztake 512 (buf_of p)) = Ok c /\
    hbin_of p' = 4096 /\ buf_of p' = buf_of p /\ base_block p' = Some bb.
Proof.
  intros Hl Ht. destruct (BaseBlock_from_bytes_total _ Hl Ht) as (r & bb & Hbb).
  pose proof (BaseBlock_from_bytes_Ok _ _ _ Hbb) as (_ & -> & _).
  destruct (calculate_checksum_total (ztake 512 (buf_of p))) as (c & Hc & _); [len_lia|].
  set (p1 := p_set_base_block (Some bb)
    (p_set_file_info {| hbin_offset_absolute := 4096; buffer := buf_of p |} p)).
  assert (file_info p1 = {| hbin_offset_absolute := 4096; buffer := buf_of p |}) as H1
    by by destruct p.
  assert (buf_of p1 = buf_of p) as Hb1 by (unfold buf_of at 1; by rewrite H1).
  destruct (check_base_block_Ok p1 bb c) as (p' & Hck & Hf & Hb & _);
    [by destruct p|rewrite Hb1; lia|by rewrite Hb1|].
  exists p', bb, c. split_and!; try done.
  - unfold init_base_block. rewrite (m_bind_run _ _ p p p) by done.
    rewrite (m_bind_run _ _ p p (zdrop 4096 (buf_of p), bb)) by
      (unfold m_lift; fold (buf_of p); by rewrite Hbb).
    rewrite (m_bind_run _ _ p p1 ()); [exact Hck|]. unfold m_modify, p1. do 4 f_equal.
    fold (buf_of p). rewrite len_zdrop. lia.
  - unfold hbin_of. by rewrite Hf, H1.
  - unfold buf_of at 1. by rewrite Hf, H1.
  - rewrite Hb. by destruct p.
Qed.

(** ** Rewriting the header *)

(** The file with the sequence numbers and the checksum rewritten. *)
Definition with_sequence (num : Z) (buf : list byte) : list byte :=
  splice 8 (to_le_bytes 4 num) (splice 4 (to_le_bytes 4 num) buf).
Definition with_header (num c : Z) (buf : list byte) : list byte :=
  splice 508 (to_le_bytes 4 c) (with_sequence num buf).

Lemma len_le4 z : len (to_le_bytes 4 z) = 4.
Proof. apply len_to_le_bytes. Qed.

Lemma with_header_spec num c buf :
  u32 num -> u32 c -> 512 <= len buf ->
  len (with_header num c buf) = len buf /\
  le_at 4 4 (with_header num c buf) = num /\ le_at 4 8 (with_header num c buf) = num /\
  le_at 4 508 (with_header num c buf) = c /\
  ztake 4 (with_header num c buf) = ztake 4 buf /\
  ztake 508 (with_header num c buf) = ztake 508 (with_sequence num buf) /\
  (forall i, ~ (4 <= Z.of_nat i < 12 \/ 508 <= Z.of_nat i < 512) ->
     with_header num c buf !! i = buf !! i).
Proof.
  intros Hn Hc Hl. pose proof (len_le4 num). pose proof (len_le4 c).
  set (buf1 := splice 4 (to_le_bytes 4 num) buf).
  assert (len buf1 = len buf) as L1 by (apply len_splice; lia).
  set (buf2 := splice 8 (to_le_bytes 4 num) buf1).
  assert (len buf2 = len buf) as L2 by (rewrite <- L1; apply len_splice; lia).
  unfold with_header, with_sequence, le_at. fold buf1 buf2.
  split_and!.
  - rewrite len_splice; lia.
  - rewrite splice_read_other by lia. unfold buf2. rewrite splice_read_other by lia.
    unfold buf1. rewrite splice_read_same by lia. by apply from_to_le_bytes.
  - rewrite splice_read_other by lia. unfold buf2. rewrite splice_read_same by lia.
    by apply from_to_le_bytes.
  - rewrite splice_read_same by lia. by apply from_to_le_bytes.
  - rewrite <- (zdrop_0 (splice 508 _ _)), splice_read_other by lia. unfold buf2.
    rewrite splice_read_other by lia. unfold buf1. by rewrite splice_read_other, zdrop_0 by lia.
  - rewrite <- (zdrop_0 (splice 508 _ _)), splice_read_other by lia. by rewrite zdrop_0.
  - intros i Hi. rewrite splice_lookup by lia. rewrite decide_False by lia.
    unfold buf2. rewrite splice_lookup by lia. rewrite decide_False by lia.
    unfold buf1. rewrite splice_lookup by lia. by rewrite decide_False by lia.
Qed.

(** What [update_header_after_transaction_logs] leaves. *)
Lemma update_header_run num p :
  u32 num -> 4096 <= len (buf_of p) -> ztake 4 (buf_of p) = bytes_of "regf" ->
  exists p' bb c, update_header_after_transaction_logs num p = (p', Ok ()) /\
    u32 c /\ buf_of p' = with_header num c (buf_of p) /\ hbin_of p' = 4096 /\
    base_block p' = Some bb /\
    BaseBlock_from_bytes (buf_of p') = Ok (zdrop 4096 (buf_of p'), bb) /\
    calculate_checksum (ztake 512 (buf_of p')) = Ok c.
Proof.
  intros Hn Hl Ht. unfold update_header_after_transaction_logs,
    PRIMARY_SEQUENCE_NUMBER_OFFSET, SECONDARY_SEQUENCE_NUMBER_OFFSET, CHECKSUM_OFFSET.
  pose proof (len_le4 num) as Hln.
  set (p1 := p_set_buffer (splice 4 (to_le_bytes 4 num) (buf_of p)) p).
  assert (buf_of p1 = splice 4 (to_le_bytes 4 num) (buf_of p)) as B1 by apply buf_of_set.
  assert (len (buf_of p1) = len (buf_of p)) as L1 by (rewrite B1; apply len_splice; lia).
  rewrite (m_bind_run _ _ p p1 ()) by (apply (write_u32_Ok 4 num p); lia).
  set (p2 := p_set_buffer (splice 8 (to_le_bytes 4 num) (buf_of p1)) p1).
  assert (buf_of p2 = with_sequence num (buf_of p)) as B2 by (unfold p2; by rewrite buf_of_set, B1).
  assert (len (buf_of p2) = len (buf_of p)) as L2.
  { unfold p2. rewrite buf_of_set, <- L1. apply len_splice; lia. }
  rewrite (m_bind_run _ _ p1 p2 ()) by (apply (write_u32_Ok 8 num p1); lia).
  rewrite (m_bind_run _ _ p2 p2 p2) by done.
  rewrite (m_bind_run _ _ p2 p2 (ztake 512 (buf_of p2))).
  2:{ unfold m_lift. do 2 f_equal. fold (buf_of p2).
      replace (get_range _ _ _) with (Some (ztake 512 (buf_of p2))); [done|].
      symmetry. apply get_range_Some. rewrite zdrop_0. split_and!; [lia..|done]. }
  destruct (calculate_checksum_total (ztake 512 (buf_of p2))) as (c & Hc & Hrc & Hc' & _);
    [len_lia|].
  rewrite (m_bind_run _ _ p2 p2 c) by (unfold m_lift; by rewrite Hc).
  assert (u32 c) as Hcu by (unfold u32, U32_MOD; lia).
  set (p3 := p_set_buffer (splice 508 (to_le_bytes 4 c) (buf_of p2)) p2).
  rewrite (m_bind_run _ _ p2 p3 ()) by (apply (write_u32_Ok 508 c p2); lia).
  assert (buf_of p3 = with_header num c (buf_of p)) as B3
    by (unfold p3; by rewrite buf_of_set, B2).
  destruct (with_header_spec num c (buf_of p) Hn Hcu ltac:(lia))
    as (W1 & _ & _ & _ & W5 & W6 & _).
  destruct (init_base_block_Ok p3) as (p4 & bb & c4 & Hi & Hbb & Hc4 & Hh & Hb & Hbs);
    [by rewrite B3, W1|by rewrite B3, W5|].
  rewrite (m_bind_run _ _ _ _ _ Hi).
  destruct (p_log_run (Er:=Error) Info
    (lit "Applied transaction log(s). Sequence numbers have been updated to "
     ++ fmt_dec num ++ lit ". New Checksum: 0x" ++ fmt_08X c) p4) as (p5 & -> & Hs5).
  apply same_file_reads in Hs5 as (B5 & H5 & Hbb5). rewrite Hb in B5.
  clearbody p1 p2 p3. clear Hi.
  exists p5, bb, c. rewrite B5, H5, Hbb5. split_and!; try done.
  - destruct (calculate_checksum_total (ztake 512 (buf_of p3))) as (c3 & H3 & _ & H3' & _).
    { rewrite B3. len_lia. }
    assert (forall b : list byte, ztake 508 (ztake 512 b) = ztake 508 b) as Htt.
    { intros b. unfold ztake. rewrite take_take. f_equal. }
    rewrite H3. rewrite Htt, B3, W6, <- B2 in H3'. rewrite Htt in Hc'. congruence.
Qed.

(** C13: after the logs, the header is rewritten and read again: both sequence numbers are the
    given one and the checksum is right, the bins still start at 4096, and no byte outside
    the two numbers and the checksum changes. *)
Theorem update_header_clean num p :
  u32 num -> 4096 <= len (buf_of p) -> ztake 4 (buf_of p) = bytes_of "regf" ->
  exists p' bb, update_header_after_transaction_logs num p = (p', Ok ()) /\
    base_block p' = Some bb /\ hbin_of p' = 4096 /\
    primary_sequence_number (base bb) = num /\ secondary_sequence_number (base bb) = num /\
    calculate_checksum (ztake 512 (buf_of p')) = Ok (checksum (base bb)) /\
    len (buf_of p') = len (buf_of p) /\
    (forall i, ~ (4 <= Z.of_nat i < 12 \/ 508 <= Z.of_nat i < 512) ->
       buf_of p' !! i = buf_of p !! i).
Proof.
  intros Hn Hl Ht. destruct (update_header_run num p Hn Hl Ht)
    as (p' & bb & c & H1 & Hc & Hb & Hh & Hbb & Hp & Hck).
  destruct (with_header_spec num c (buf_of p) Hn Hc ltac:(lia))
    as (W1 & W2 & W3 & W4 & _ & _ & W7).
  apply BaseBlock_from_bytes_Ok in Hp as (_ & _ & Hp).
  apply BaseBlockBase_from_bytes_Ok in Hp as (_ & _ & _ & Hps & Hss & _ & _ & Hcs & _).
  rewrite <- Hb in W1, W2, W3, W4, W7. unfold le_at in W2, W3, W4.
  rewrite W2 in Hps. rewrite W3 in Hss. rewrite W4 in Hcs. subst c.
  exists p', bb. by split_and!.
Qed.

(** ** Clean hives *)

(** A hive whose sequence numbers agree is left alone: whatever logs are given, the file
    is not changed, and nothing but the log of the reader is. *)
Lemma clean_hive_run depth logs p bb :
  base_block p = Some bb ->
  primary_sequence_number (base bb) = secondary_sequence_number (base bb) ->
  exists p',
    (forall n fuel, apply_transaction_logs stdout hash_order n fuel depth false logs p = (p', Ok ())) /\
    same_file p p' /\ state p' = st_set_info (info (state p')) (state p) /\
    cell_key_node_root p' = cell_key_node_root p.
Proof.
  intros Hbb Heq. destruct logs as [|log logs].
  { exists p. split_and!; try done. by destruct p as [? []]. }
  unfold apply_transaction_logs, prepare_transaction_logs, m_bind, m_get, m_ret, m_lift.
  rewrite Hbb. cbn [expect]. rewrite (proj2 (Z.eqb_eq _ _) Heq).
  eexists. split; [intros n fuel; reflexivity|]. by destruct p as [? []].
Qed.

(** C5: recovery is done once: the file it leaves, opened again, has a valid checksum and equal
    sequence numbers, so whatever logs come with it are skipped and the file stays as it is. *)
Theorem recovered_hive_reopens_clean num p p' base n fuel depth :
  u32 num -> 4096 <= len (buf_of p) -> ztake 4 (buf_of p) = bytes_of "regf" ->
  update_header_after_transaction_logs num p = (p', Ok ()) ->
  exists q supported,
    init_base_block (new_parser (FileInfo_from_read_seek (buf_of p')) base)
      = (q, Ok (supported, false)) /\
    forall logs, exists q', apply_transaction_logs stdout hash_order n fuel depth false logs q
        = (q', Ok ()) /\ buf_of q' = buf_of p'.
Proof.
  intros Hn Hl Ht Hu. destruct (update_header_run num p Hn Hl Ht)
    as (p1 & bb & c & H1 & Hc & Hb & Hh & Hbb & Hp & Hck).
  rewrite Hu in H1. injection H1 as <-.
  destruct (with_header_spec num c (buf_of p) Hn Hc ltac:(lia))
    as (W1 & W2 & W3 & W4 & W5 & _). rewrite <- Hb in W1, W2, W3, W4, W5. unfold le_at in *.
  pose proof (BaseBlock_from_bytes_Ok _ _ _ Hp) as (_ & _ & Hp').
  apply BaseBlockBase_from_bytes_Ok in Hp' as (_ & _ & _ & Hps & Hss & _ & _ & Hcs & _).
  rewrite W2 in Hps. rewrite W3 in Hss. rewrite W4 in Hcs.
  set (p0 := new_parser _ base).
  assert (buf_of p0 = buf_of p') as B0 by done.
  destruct (init_base_block_Ok p0) as (q & bb' & c' & Hi & Hp0 & Hck' & Hhq & Hbq & Hbbq);
    [by rewrite B0, W1|by rewrite B0, W5|].
  clearbody p0. rewrite B0 in *. rewrite Hp in Hp0. injection Hp0 as <-.
  rewrite Hck in Hck'. injection Hck' as <-. rewrite Hcs, Z.eqb_refl, andb_false_r in Hi.
  exists q. eexists. split; [exact Hi|]. intros logs.
  destruct (clean_hive_run depth logs q bb Hbbq) as (q' & Hq & Hs & _); [congruence|].
  exists q'. split; [done|]. apply same_file_reads in Hs as [-> _]. done.
Qed.

(** ** Log files *)

Lemma Sorted_mono {A} (R S : A -> A -> Prop) l :
  (forall a b, R a b -> S a b) -> Sorted R l -> Sorted S l.
Proof.
  intros HRS. induction 1 as [|x l _ IH Hh]; constructor; [done|]. destruct Hh; constructor; auto.
Qed.

(** The logs that parse, among files that can be read. *)
Definition parsed_logs (files : list (list byte)) : list TransactionLog :=
  omap (fun f => if bool_decide (f = []) then None
                 else match TransactionLog_from_bytes f with
                      | Ok (_, log) => Some log
                      | _ => None
                      end) files.

Lemma parse_logs_loop_Ok files acc lg logs lg' :
  parse_logs_loop (Ok <$> files) acc lg = Ok (logs, lg') ->
  logs = acc ++ parsed_logs files /\
  (log_count lg' + length (parsed_logs files) = log_count lg + length files)%nat /\
  (Log.logs lg <> Some [] -> Log.logs lg' <> Some []).
Proof.
  assert (forall l c t, Log.logs (Logs_add l c t) <> Some []) as Hne.
  { intros [[l|]] c t; [|done]. cbn. intros [= H]. by destruct l. }
  assert (forall l c t, log_count (Logs_add l c t) = S (log_count l)) as Hadd.
  { intros l c t. unfold log_count. pose proof (Logs_add_get l c t) as H. unfold Logs_get in H.
    rewrite H, length_app. cbn. lia. }
  revert acc lg. induction files as [|f files IH]; intros acc lg H.
  { injection H as <- <-. rewrite app_nil_r. split_and!; [done|cbn; lia|done]. }
  cbn [fmap list_fmap parse_logs_loop mbind res_bind] in H.
  cbn [parsed_logs omap list_omap]. fold (parsed_logs files).
  case_bool_decide as Hf.
  { apply IH in H as (-> & H & Hn). rewrite Hadd in H. split_and!; [done|cbn [length]; lia|].
    intros _. by apply Hn. }
  destruct (TransactionLog_from_bytes f) as [[r log]|e| |]; try done;
    apply IH in H as (-> & H & Hn).
  - split_and!; [by rewrite <- app_assoc|cbn [length] in *; lia|done].
  - rewrite Hadd in H. split_and!; [done|cbn [length]; lia|]. intros _. by apply Hn.
Qed.

(** C34: reading the log files: the logs returned are exactly those that parse, sorted from
    the oldest to the newest by the primary sequence number; there is a warning exactly when a
    file was skipped. *)
Theorem TransactionLog_parse_sorted files logs warnings :
  TransactionLog_parse (Ok <$> files) = Ok (logs, warnings) ->
  logs ≡ₚ parsed_logs files /\
  Sorted (fun a b => primary_sequence_number (tl_base_block a)
                     <= primary_sequence_number (tl_base_block b)) logs /\
  (warnings = None <-> length (parsed_logs files) = length files).
Proof.
  unfold TransactionLog_parse. intros H. inv_bind.
  match goal with H : parse_logs_loop _ _ _ = _ |- _ =>
    apply parse_logs_loop_Ok in H as (-> & Hc & Hn) end. cbn [app] in *.
  split_and!.
  - apply sort_by_Permutation.
  - eapply Sorted_mono; [|apply sort_by_sorted].
    + intros a b Hab. by apply Z.leb_le.
    + intros a b Hab%Z.leb_gt. apply Z.leb_le. lia.
  - specialize (Hn ltac:(done)). unfold Logs_get_option, log_count in *. cbn in Hc.
    destruct (Log.logs _) as [[|x l]|]; cbn in *; [done| |by split; [lia|]].
    split; [done|lia].
Qed.

(** ** No log applies *)

(** Logs older than the file are skipped one by one, and the number stays 0. *)
Lemma apply_old_logs n fuel depth ssn index count logs items p :
  Forall (fun l => primary_sequence_number (tl_base_block l) < ssn) logs ->
  exists p', apply_logs_loop stdout hash_order n fuel depth ssn index count logs 0 items p
      = (p', Ok 0) /\ same_file p p'.
Proof.
  intros Hl. revert index p. induction Hl as [|l logs Hl _ IH]; intros index p;
    cbn [apply_logs_loop].
  { by exists p. }
  destruct (Z.leb_spec ssn (primary_sequence_number (tl_base_block l))); [lia|].
  match goal with |- context [p_log ?c ?t] =>
    destruct (p_log_run (Er:=Error) c t p) as (q & Hq & Hs) end.
  rewrite (m_bind_run _ _ _ _ _ Hq).
  destruct (IH (index + 1) q) as (p' & Hr & Hs'). exists p'. split; [done|]. by transitivity q.
Qed.

(** C40: a dirty hive none of whose logs is recent enough has its sequence numbers reset: no
    entry is applied, and the header is rewritten with the number 0 in both places. *)
Theorem old_logs_reset_sequence n fuel depth logs p bb :
  base_block p = Some bb -> recover_deleted p = false -> logs <> [] ->
  primary_sequence_number (base bb) <> secondary_sequence_number (base bb) ->
  Forall (fun l => primary_sequence_number (tl_base_block l)
                   < secondary_sequence_number (base bb)) logs ->
  4096 <= len (buf_of p) -> ztake 4 (buf_of p) = bytes_of "regf" ->
  exists p' bb', apply_transaction_logs stdout hash_order n fuel depth false logs p = (p', Ok ()) /\
    base_block p' = Some bb' /\
    primary_sequence_number (base bb') = 0 /\ secondary_sequence_number (base bb') = 0.
Proof.
  intros Hbb Hrd Hne Hd Hold Hl Ht. unfold apply_transaction_logs.
  destruct logs as [|log logs']; [done|]. clear Hne. set (logs := log :: logs') in *.
  rewrite (m_bind_run _ _ p p (true, logs)).
  2:{ unfold prepare_transaction_logs, m_bind, m_get, m_ret, m_lift. rewrite Hbb. cbn [expect].
      by rewrite (proj2 (Z.eqb_neq _ _) Hd). }
  rewrite (m_bind_run _ _ p p ∅).
  2:{ unfold get_reg_items, m_bind, m_get, m_ret. by rewrite Hrd. }
  rewrite (m_bind_run _ _ p p (secondary_sequence_number (base bb), hive_bins_data_size (base bb))).
  2:{ unfold get_base_block_info, m_bind, m_get, m_ret, m_lift. by rewrite Hbb. }
  destruct (apply_old_logs n fuel depth _ 0 (len logs) logs ∅ p Hold) as (q & Hq & Hs).
  rewrite (m_bind_run _ _ _ _ _ Hq). apply same_file_reads in Hs as (Hb & _ & _).
  destruct (update_header_run 0 q) as (p' & bb' & c & H1 & Hc & Hb' & _ & Hbb' & Hp & _);
    [done|by rewrite Hb|by rewrite Hb|].
  exists p', bb'. split; [exact H1|]. split; [done|].
  apply BaseBlock_from_bytes_Ok in Hp as (_ & _ & Hp).
  apply BaseBlockBase_from_bytes_Ok in Hp as (_ & _ & _ & Hps & Hss & _).
  destruct (with_header_spec 0 c (buf_of q)) as (_ & W2 & W3 & _); [done|done|rewrite Hb; lia|].
  rewrite <- Hb' in W2, W3. unfold le_at in *. by rewrite Hps, Hss.
Qed.
End InitFacts.

(** ** Samples *)

Definition header_sample : list byte := bytes_of "regf" ++ replicate (Z.to_nat 4092) Byte.x00.

Definition dirty_sample : @Parser env_ref :=
  parser_sample header_sample 4096 (base_block_sample 6 5 4096).

Lemma header_sample_len : len header_sample = 4096.
Proof. vm_compute. reflexivity. Qed.

Lemma update_header_clean_witness :
  u32 7 /\ exists p' : @Parser env_ref, update_header_after_transaction_logs 7 dirty_sample = (p', Ok ()) /\
    hbin_of p' = 4096.
Proof.
  split; [split; [discriminate|reflexivity]|].
  destruct (@update_header_clean env_ref 7 dirty_sample) as (p' & bb & H1 & _ & H2 & _).
  - split; [discriminate|reflexivity].
  - change (4096 <= len header_sample). rewrite header_sample_len. discriminate.
  - vm_compute. reflexivity.
  - exists p'. exact (conj H1 H2).
Defined.

Lemma recovered_hive_reopens_clean_witness :
  exists (p' q : @Parser env_ref) supported, update_header_after_transaction_logs 7 dirty_sample = (p', Ok ()) /\
    init_base_block (new_parser (FileInfo_from_read_seek (buf_of p')) ParserBuilderBase_default)
      = (q, Ok (supported, false)).
Proof.
  assert (u32 7) as H7 by (split; [discriminate|reflexivity]).
  assert (4096 <= len (buf_of dirty_sample)) as Hl.
  { change (4096 <= len header_sample). rewrite header_sample_len. discriminate. }
  assert (ztake 4 (buf_of dirty_sample) = bytes_of "regf") as Ht by (vm_compute; reflexivity).
  destruct (update_header_run 7 dirty_sample H7 Hl Ht) as (p' & bb & c & Hp & _).
  destruct (@recovered_hive_reopens_clean env_ref (fun _ => Ok ()) (fun _ => []) 7 dirty_sample p'
    ParserBuilderBase_default 9 9 9 H7 Hl Ht Hp) as (q & supported & Hq & _).
  exists p', q, supported. exact (conj Hp Hq).
Defined.

Lemma TransactionLog_parse_sorted_witness :
  exists w, TransactionLog_parse (E:=env_ref) (Ok <$> [[]; []]) = Ok ([], w) /\ w <> None.
Proof.
  exists (Some {| Log.logs := Some (replicate 2
    {| code := WarningParse; text := lit "Skipping log file; 0 bytes" |}) |}).
  assert (TransactionLog_parse (E:=env_ref) (Ok <$> [[]; []]) = Ok ([],
    Some {| Log.logs := Some (replicate 2
    {| code := WarningParse; text := lit "Skipping log file; 0 bytes" |}) |})) as H
    by reflexivity.
  split; [exact H|].
  destruct (@TransactionLog_parse_sorted env_ref [[]; []] [] _ H) as (_ & _ & Hw).
  intros Hn. apply Hw in Hn. discriminate.
Defined.

Lemma old_logs_reset_sequence_witness :
  let log := {| tl_base_block := base (base_block_sample 3 3 4096); tl_base_block_bytes := [];
                tl_log_entries := [] |} in
  exists p' : @Parser env_ref, apply_transaction_logs (fun _ => Ok ()) (fun _ => []) 9 9 9 false [log] dirty_sample
    = (p', Ok ()).
Proof.
  intros log.
  destruct (@old_logs_reset_sequence env_ref (fun _ => Ok ()) (fun _ => []) 9 9 9 [log]
    dirty_sample (base_block_sample 6 5 4096)) as (p' & bb' & H & _).
  - reflexivity.
  - reflexivity.
  - discriminate.
  - discriminate.
  - repeat constructor.
  - change (4096 <= len header_sample). rewrite header_sample_len. discriminate.
  - vm_compute. reflexivity.
  - exists p'. exact H.
Defined.
