(* ===== verification/OpenFacts.v ===== *)
(** * OpenFacts: opening a hive file and reading all of it

    The composition of [Init] and [Parser] against the layout of [Hive]: from the bytes of a
    file to the keys and values a traversal yields. *)

From S2P Require Import Prelude Env Log Util UtilFacts Cells BaseBlock SubKeyLists Values ValueFacts State Filter KeyNode KeyNodeFacts Recover Parser ParserFacts Hive HiveFacts LookupFacts HiveLookup HiveFilter TransactionLog TransactionLogFacts Init InitFacts.

#[local] Opaque lit to_le_bytes fmt_dec.

Section Open.
Context `{E : Env}.
Variable stdout : ustr -> res Error ().
Variable hash_order : RegItemMap -> list (RegItemMapKey * RegItemMapValue).

(** ** Opening records nothing deleted or modified *)

Definition stays_fresh (p p' : Parser) : Prop := fresh (state p) -> fresh (state p').
#[local] Instance stays_fresh_preorder : PreOrder stays_fresh.
Proof. unfold stays_fresh. split; [intros p; auto|intros p1 p2 p3; tauto]. Qed.

Lemma fresh_set_info lg st : fresh st -> fresh (st_set_info lg st).
Proof. by destruct st. Qed.

Lemma p_log_fresh {Er} c t : m_rel stays_fresh (p_log (Er:=Er) c t).
Proof.
  intros p Hc. unfold p_log, with_state, st_log, m_modify. cbn.
  destruct p as [? [] ? ? ? ? ?]. exact Hc.
Qed.
#[local] Hint Resolve p_log_fresh : notatin.

Lemma init_base_block_fresh : m_rel stays_fresh init_base_block.
Proof.
  unfold init_base_block, check_base_block, is_supported_file_type. m_rel_tac.
  intros p Hc. by destruct p.
Qed.

(** A header with equal sequence numbers and the right checksum: the logs are skipped. *)
Definition settled (data : list byte) : Prop :=
  le_at 4 4 data = le_at 4 8 data /\
  calculate_checksum (ztake 512 data) = Ok (le_at 4 508 data).

(** The parser once the base block is read and the logs are skipped. *)
Lemma init_before_root depth data logs b :
  4096 <= len data -> ztake 4 data = bytes_of "regf" ->
  (FileType_from_value (le_at 4 28 data) Logs_default).1 <> FT_Unknown ->
  logs = [] \/ settled data -> pb_recover_deleted b = false ->
  exists p bb,
    (forall n fuel, init stdout hash_order n fuel depth (pb_recover_deleted b) logs
      (new_parser (FileInfo_from_read_seek data) b) = init_root depth p) /\
    fresh (state p) /\ file_info p = {| hbin_offset_absolute := 4096; buffer := data |} /\
    base_block p = Some bb /\ root_cell_offset_relative (base bb) = as_i32 (le_at 4 36 data).
Proof.
  intros Hl Ht Hft Hlogs Hrec. set (p0 := new_parser (FileInfo_from_read_seek data) b).
  assert (buf_of p0 = data) as Hb0 by done.
  destruct (init_base_block_Ok p0) as (p1 & bb & c & Hi & Hbb & Hck & Hh & Hb & Hbs);
    [by rewrite Hb0|by rewrite Hb0|]. rewrite Hb0 in *.
  pose proof (BaseBlock_from_bytes_Ok _ _ _ Hbb) as (_ & _ & Hbase).
  apply BaseBlockBase_from_bytes_Ok in Hbase as (_ & _ & _ & Hps & Hss & Hroot & _ & Hcs & Hty).
  fold (le_at 4 4 data) (le_at 4 8 data) (le_at 4 36 data) (le_at 4 28 data) (le_at 4 508 data) in *.
  rewrite Hty in Hi. rewrite bool_decide_false in Hi by done. cbn [negb andb] in Hi.
  assert (fresh (state p1)) as Hc1.
  { pose proof (init_base_block_fresh p0) as H. rewrite Hi in H. by apply H. }
  assert (exists p2, (forall n fuel, apply_transaction_logs stdout hash_order n fuel depth
      (negb (c =? checksum (base bb))) logs p1 = (p2, Ok ())) /\
    same_file p1 p2 /\ state p2 = st_set_info (info (state p2)) (state p1)) as (p2 & Hap & Hs & Hst).
  { destruct Hlogs as [->|[Hseq Hsum]].
    - exists p1. split_and!; try done. by destruct p1 as [? []].
    - rewrite Hck in Hsum. injection Hsum as ->. rewrite Hcs, Z.eqb_refl. cbn [negb].
      destruct (clean_hive_run stdout hash_order depth logs p1 bb Hbs) as (p2 & ? & ? & ? & _);
        [congruence|]. by exists p2. }
  exists p2, bb. apply same_file_reads in Hs as (Hb2 & Hh2 & Hbs2).
  split.
  { intros n fuel. unfold init. rewrite (m_bind_run _ _ _ _ _ Hi), Hrec.
    rewrite (m_bind_run _ _ p1 p1 ()) by done. by rewrite (m_bind_run _ _ _ _ _ (Hap n fuel)). } split; [rewrite Hst; by apply fresh_set_info|].
  split; [|split; [congruence|done]]. unfold buf_of, hbin_of in *.
  destruct (file_info p2) as [h d]. cbn in *. congruence.
Qed.

(** The root key is read right after the header of the first bin. *)
Lemma init_root_stored fuel depth data p t :
  (1 <= fuel)%nat -> hive_file depth data t -> fresh (state p) ->
  file_info p = {| hbin_offset_absolute := 4096; buffer := data |} ->
  exists p', init_root fuel p = (p', Ok ()) /\ parser_stores depth p' t /\
    file_info p' = file_info p /\ base_block p' = base_block p.
Proof.
  intros Hf (_ & _ & Hl & Hbin & Ho & Hevery & Hnd) Hc Hfi. unfold init_root.
  rewrite (m_bind_run _ _ p p p) by done. rewrite Hfi. cbn [buffer hbin_offset_absolute].
  rewrite (m_bind_run _ _ p p (zdrop 4096 data)).
  2:{ unfold m_lift. assert (get_from data 4096 = Some (zdrop 4096 data)) as ->; [|done].
      apply get_from_Some. split; [lia|done]. }
  set (fi := {| hbin_offset_absolute := 4096; buffer := data |}) in *.
  assert (exists h, HiveBinHeader_from_bytes fi (zdrop 4096 data) = Ok (zdrop 4128 data, h))
    as (h & Hh).
  { unfold HiveBinHeader_from_bytes. rewrite nom_tag_spec, spec_tag_at;
      [|change (len (bytes_of "hbin")) with 4; len_lia|exact Hbin].
    change (len (bytes_of "hbin")) with 4. cbn [mbind res_bind].
    rewrite zdrop_zdrop by lia. change (4096 + 4) with 4100. parse_run. by eexists. }
  rewrite (m_bind_run _ _ p p (zdrop 4128 data, h)) by (unfold m_lift; by rewrite Hh). cbv beta iota.
  rewrite (m_bind_run _ _ p (p_set_hive_bin_header (Some h) p) ()) by done.
  set (p1 := p_set_hive_bin_header (Some h) p).
  assert (get_file_offset fi (zdrop 4128 data) = 4128) as ->
    by (unfold get_file_offset; cbn [buffer fi]; len_lia).
  set (o := {| o_offset := 4128; o_cur_path := []; o_filter := None;
               o_self_is_filter_match_or_descendent := true; o_sequence_num := None;
               o_get_deleted_and_modified := true |}).
  pose proof Hevery as [Hkey _]%every_key_eq.
  destruct (read_stored fresh fuel fi depth t o (state p1) FILTER_ITERATE_KEYS)
    as (st & r & Hr & Hc' & Hcase);
    [done|done|done|by rewrite Ho|by destruct p|by intros n st _ Hcl; exists st|].
  destruct bf_contains_iterate as [Hno Hm]. rewrite Hno in Hcase.
  destruct Hcase as (root & -> & Hcell & Hit & Hvals).
  unfold m_bind at 1, with_state. rewrite Hr. unfold m_modify.
  eexists. split; [reflexivity|]. split; [|by destruct p].
  assert (file_info (p_set_cell_key_node_root (Some root) (p_set_state st p1)) = fi) as Hfi'
    by by destruct p.
  unfold parser_stores. rewrite Hfi'. split; [split; done|]. split; [by destruct p|]. split; [done|].
  exists root. split; [by destruct p|]. split_and!; [done|by apply Hvals|].
  unfold is_filter_match_or_descendent. rewrite Hit. by rewrite Hm.
Qed.

(** Opening a file that stores a tree: the parser holds it, and the base block leads to it when
    its root offset is that of the first cell. *)
Lemma build_stored depth d data t b files logs w :
  hive_file d data t -> (1 <= depth)%nat -> pb_recover_deleted b = false ->
  TransactionLog_parse files = Ok (logs, w) -> logs = [] \/ settled data ->
  exists p,
    (forall n fuel,
      build stdout hash_order n fuel depth (FileInfo_from_read_seek data) b files = Ok p) /\
    parser_stores d p t /\ file_info p = {| hbin_offset_absolute := 4096; buffer := data |} /\
    (as_i32 (le_at 4 36 data) = 32 -> base_block_leads d p t).
Proof.
  intros Hhive Hdepth Hrec Hparse Hlogs. pose proof Hhive as (Ht & Hft & Hl & _).
  destruct (init_before_root depth data logs b) as (p1 & bb & Hi & Hc & Hfi & Hbb & Hro);
    [lia|done..|].
  destruct (init_root_stored depth d data p1 t Hdepth Hhive Hc Hfi) as (p2 & Hr & Hst & Hfi2 & Hbb2).
  set (p3 := match w with
             | Some warning_logs => p_set_state (st_set_info
                 (Logs_extend (info (state p2)) warning_logs) (state p2)) p2
             | None => p2 end).
  assert (parser_stores d p3 t) as Hst3.
  { unfold p3. destruct w as [w|]; [|done]. clear -Hst. destruct p2 as [fi st bb hb root rd uc].
    destruct Hst as (? & Hc & ? & Hroot). split; [done|]. split; [by destruct st|done]. }
  exists p3. split_and!; [|done| |].
  { intros n fuel. unfold build. rewrite Hparse. cbn [mbind res_bind]. by rewrite Hi, Hr. }
  { rewrite <- Hfi, <- Hfi2. unfold p3. destruct w; [by destruct p2|done]. }
  intros H32. destruct Hst3 as ([Hkeys _] & [Hc3 _] & Hh & _). constructor; [done..|].
  exists bb. assert (base_block p3 = base_block p2 /\ file_info p3 = file_info p2) as [-> ->]
    by (unfold p3; destruct w; [by destruct p2|done]).
  rewrite Hbb2, Hfi2, Hfi, Hro, H32. destruct Hhive as (_ & _ & _ & _ & -> & _). done.
Qed.

(** C1: a hive file is read as the tree of keys it stores: opening a file that holds a tree of
    keys (any mix of list kinds, resident, direct and segmented data, and both encodings of
    names), without logs or with a header that needs none, succeeds, and a traversal of the
    parser ends and yields exactly the keys of the tree, in preorder, each with its full path
    and, in order, its values with their names, types and data. *)
Theorem open_reads_stored_tree n fuel depth d data t b files logs w :
  hive_file d data t -> (1 <= depth)%nat -> (d <= depth)%nat -> pb_recover_deleted b = false ->
  TransactionLog_parse files = Ok (logs, w) -> logs = [] \/ settled data ->
  exists p m ks,
    build stdout hash_order n fuel depth (FileInfo_from_read_seek data) b files = Ok p /\
    collect_keys (Er:=Error) m m depth p (ParserIterator_new p) = Ok ks /\
    Forall2 shows_key ks (keys [] t).
Proof.
  intros Hhive Hdepth Hd Hrec Hparse Hlogs.
  destruct (build_stored depth d data t b files logs w) as (p & Hb & Hst & _); try done.
  destruct (traversal_stored (Er:=Error) depth p d t Hdepth Hd Hst) as (m & ks & Hks & Hall).
  exists p, m, ks. by split_and!.
Qed.
End Open.

(** ** A sample file *)

(** An nk cell as [nk_sample], with [n_val] values listed at [val_off]. *)
Definition nk_with_values (flags n_sub list_off n_val val_off : Z) (name : string) : list byte :=
  ztake 40 (nk_sample flags n_sub list_off name) ++ to_le_bytes 4 n_val ++ to_le_bytes 4 val_off
  ++ zdrop 48 (nk_sample flags n_sub list_off name).

(** A root with a value and, in an lh list, two subkeys: the first has the flags given, the
    second the name. *)
Definition hive_file_of (flags : Z) (second : string) : list byte :=
  bytes_of "regf" ++ replicate 32 Byte.x00 ++ to_le_bytes 4 32
  ++ replicate (Z.to_nat 4056) Byte.x00
  ++ bytes_of "hbin" ++ replicate 28 Byte.x00
  ++ nk_with_values 0x24 2 120 1 144 "r"
  ++ encode_list "lh" encode_lh_item (u32_of_i32 (-24))
       [{| lh_named_key_offset_relative := 184; lh_name_hash := 97 |};
        {| lh_named_key_offset_relative := 272; lh_name_hash := 98 |}]
  ++ to_le_bytes 4 (u32_of_i32 (-8)) ++ to_le_bytes 4 152
  ++ vk_sample ++ nk_sample flags 0 0 "a" ++ nk_sample 0x20 0 0 second.
Definition leaf_data (flags : Z) : KeyData :=
  {| kd_flags := flags; kd_written := 0; kd_access := 0; kd_values := [] |}.
Definition value_sample : HiveValue :=
  {| hv_name := lit "n"; hv_type := 4; hv_flags := 1;
     hv_data := [Byte.x78; Byte.x56; Byte.x34; Byte.x12] |}.
Definition tree_of (flags : Z) (second : string) : HiveKey :=
  HKey 4128 (lit "r")
    {| kd_flags := 0x24; kd_written := 0; kd_access := 0; kd_values := [value_sample] |}
    [HKey 4280 (lit "a") (leaf_data flags) []; HKey 4368 (lit second) (leaf_data 0x20) []].

Definition hive_file_sample : list byte := hive_file_of 0x20 "b".
Definition tree_sample : HiveKey := tree_of 0x20 "b".

(** Decides a closed layout condition. *)
Ltac decide_bytes := vm_compute; first [reflexivity|split; congruence|congruence].

Section Sample.
Variables (flags : Z) (second : string).
Hypothesis Hsample : flags = 0x20 /\ second = "b"%string \/ flags = 0x28 /\ second = "c"%string.
Abbreviation fi := {| hbin_offset_absolute := 4096; buffer := hive_file_of flags second |}.
Ltac both := destruct Hsample as [[-> ->]|[-> ->]]; decide_bytes.

Lemma stores_leaf_sample o name fl :
  (o = 4280 /\ name = lit "a" /\ fl = flags) \/ (o = 4368 /\ name = lit second /\ fl = 0x20) ->
  stores_key fi 1 (HKey o name (leaf_data fl) []).
Proof.
  intros [(-> & -> & ->)|(-> & -> & ->)]; (split; [both|]); (split; [split_and!; both|]);
    (split; [both|]); (split; [split; [both|split; [both|by intros []]]|]);
    (split; [split_and!; both|]); (split; [both|split; [both|by intros []]]).
Qed.

Lemma stores_value_sample : stores_value fi 4248 value_sample.
Proof.
  split; [both|]. split; [split_and!; both|]. split; [both|].
  split; [both|]. split; [both|]. apply (data_resident fi (cell_at fi 4248) 4); both.
Qed.

Lemma stores_root_sample : stores_key fi 1 (tree_of flags second).
Proof.
  split; [both|]. split; [split_and!; both|]. split; [both|]. split; [|split].
  - split; [both|]. split; [both|]. intros _.
    exists 144, (u32_of_i32 (-8)), [152], (cell_at fi 4248).
    split; [both|]. split; [both|]. split; [both|].
    constructor; [|constructor]. split; [both|exact stores_value_sample].
  - split_and!; both.
  - split; [both|]. split; [both|]. intros _. left. exists [184; 272].
    split; [|split; [repeat constructor; both|both]]. left.
    exists [{| lh_named_key_offset_relative := 184; lh_name_hash := 97 |};
            {| lh_named_key_offset_relative := 272; lh_name_hash := 98 |}].
    split; [|split; [reflexivity|repeat constructor; both]].
    split; [both|]. split; [both|].
    exists (-24), (cell_at fi 4240). split; both.
Qed.

Lemma hive_file_of_stores : @hive_file env_ref 1 (hive_file_of flags second) (tree_of flags second).
Proof.
  split; [both|]. split; [both|]. split; [both|]. split; [both|].
  split; [reflexivity|]. split.
  - apply every_key_eq. split; [exact stores_root_sample|].
    constructor; [|constructor; [|constructor]]; apply every_key_eq; (split; [|constructor]);
      apply stores_leaf_sample; tauto.
  - apply NoDup_ListNoDup. repeat constructor; cbn; intuition lia.
Qed.
End Sample.

Lemma hive_file_sample_stores : @hive_file env_ref 1 hive_file_sample tree_sample.
Proof. apply hive_file_of_stores. by left. Qed.

Lemma open_reads_stored_tree_witness :
  exists p m ks,
    build (E:=env_ref) (fun _ => Ok ()) (fun _ => []) 9 9 9
      (FileInfo_from_read_seek hive_file_sample) ParserBuilderBase_default [] = Ok p /\
    collect_keys (Er:=Error) m m 9 p (ParserIterator_new p) = Ok ks /\
    n_path <$> ks = [lit "\r"; lit "\r\a"; lit "\r\b"].
Proof.
  destruct (@open_reads_stored_tree env_ref (fun _ => Ok ()) (fun _ => []) 9 9 9 1
    hive_file_sample tree_sample ParserBuilderBase_default [] [] None hive_file_sample_stores)
    as (p & m & ks & Hb & Hks & Hall); [lia|lia|reflexivity|reflexivity|left; reflexivity|].
  exists p, m, ks. split; [apply Hb|]. split; [exact Hks|].
  cbn in Hall. inversion Hall as [|k1 ? ? ? [[H1 _ _ _ _ _ _] _] Hall1]; subst.
  inversion Hall1 as [|k2 ? ? ? [[H2 _ _ _ _ _ _] _] Hall2]; subst.
  inversion Hall2 as [|k3 ? ? ? [[H3 _ _ _ _ _ _] _] Hall3]; subst. inversion Hall3; subst.
  cbn [fmap list_fmap]. rewrite H1, H2, H3. reflexivity.
Defined.

(** Closes [BACKSLASH ∉ name] for a name of one other character. *)
Ltac no_backslash :=
  intros H; vm_compute in H; apply list_elem_of_singleton in H; discriminate H.

(** The lookups of the opened sample. *)
Lemma get_key_finds_witness :
  exists p p' r, build (E:=env_ref) (fun _ => Ok ()) (fun _ => []) 9 9 9
      (FileInfo_from_read_seek hive_file_sample) ParserBuilderBase_default [] = Ok p /\
    get_key 9 (lit "\r\B\") true p = (p', Ok r) /\ n_path <$> r = Some (lit "\r\b").
Proof.
  destruct (build_stored (E:=env_ref) (fun _ => Ok ()) (fun _ => []) 9 1
    hive_file_sample tree_sample ParserBuilderBase_default [] [] None hive_file_sample_stores)
    as (p & Hb & _ & _ & Hbl); [lia|reflexivity|reflexivity|left; reflexivity|].
  destruct (@get_key_finds env_ref 9 1 (lit "\r\B\") true p tree_sample (lit "B\"))
    as (p' & r & Hr & Hfind).
  - apply Hbl. vm_compute. reflexivity.
  - constructor; [|constructor; [|constructor]]; (split; [|exact I]); (split; [done|no_backslash]).
  - vm_compute. reflexivity.
  - right. vm_compute. discriminate.
  - lia.
  - vm_compute. lia.
  - exists p, p', r. split; [apply Hb|]. split; [exact Hr|].
    change (first_at _ _) with (Some (lit "\r\b", leaf_data 0x20)) in Hfind.
    destruct Hfind as (k & -> & [[Hp _ _ _ _ _ _] _]). cbn [fmap option_fmap option_map]. by rewrite Hp.
Defined.

Definition query_sample : RegQuery (E:=env_ref) :=
  {| rq_key_path := [ComponentString (lit "b")]; rq_key_path_has_root := false;
     rq_children := true |}.

(** A filtered traversal of the opened sample. *)
Lemma filtered_traversal_exact_witness :
  exists p m ks, build (E:=env_ref) (fun _ => Ok ()) (fun _ => []) 9 9 9
      (FileInfo_from_read_seek hive_file_sample) ParserBuilderBase_default [] = Ok p /\
    collect_keys m m 9 p (pi_with_filter {| reg_query := Some query_sample |}
      (ParserIterator_new p)) = Ok (E:=Error) ks /\ n_path <$> ks = [lit "\r\b"].
Proof.
  destruct (build_stored (E:=env_ref) (fun _ => Ok ()) (fun _ => []) 9 1
    hive_file_sample tree_sample ParserBuilderBase_default [] [] None hive_file_sample_stores)
    as (p & Hb & Hst & _); [lia|reflexivity|reflexivity|left; reflexivity|].
  destruct (@filtered_traversal_exact env_ref 9 1 p tree_sample {| reg_query := Some query_sample |}
    query_sample) as (m & ks & Hks & Hall).
  - lia.
  - lia.
  - exact Hst.
  - reflexivity.
  - no_backslash.
  - constructor; [|constructor; [|constructor]]; (split; [|exact I]);
      (split; [no_backslash|intros _; vm_compute; reflexivity]).
  - vm_compute. lia.
  - exists p, m, ks. split; [apply Hb|]. split; [exact Hks|].
    change (filter _ _) with [(lit "\r\b", leaf_data 0x20)] in Hall.
    inversion Hall as [|k1 ? ? ? [[H1 _ _ _ _ _ _] _] Hall1]; subst. inversion Hall1; subst.
    cbn [fmap list_fmap]. rewrite H1. reflexivity.
Defined.
