(* ===== verification/Cli.v ===== *)
(** * Cli: what the command line tools share

    [src/src/cli_util.rs], the paths, writers and console the tools [src/bin/] use, and
    the terminal half of [src/src/progress.rs].  A path is the text of a Unix path; its
    parent, file name and extension are the standard library's, written on the pieces between
    slashes.  What the file system answers is a parameter. *)

From S2P Require Import Prelude Env Log.

(** ** Paths (Unix) *)

Abbreviation PathBuf := (list Z).
Definition SLASH : Z := 47.

(** Pieces that are not components: empty ones, and [.] except at the start of a relative
    path ([before] are the pieces in front of it). *)
Definition skipped (rooted : bool) (piece : ustr) (before : list ustr) : bool :=
  bool_decide (piece = [])
  || bool_decide (piece = lit ".") && (rooted || negb (bool_decide (before = []))).
(** The pieces of a path, last first, without the skipped ones at its end. *)
Fixpoint trim_pieces (rooted : bool) (rp : list ustr) : list ustr :=
  match rp with
  | [] => []
  | p :: rp' => if skipped rooted p rp' then trim_pieces rooted rp' else rp
  end.
Definition is_absolute (p : PathBuf) : bool := bool_decide (head p = Some SLASH).
Definition path_pieces (p : PathBuf) : bool * list ustr :=
  let rooted := is_absolute p in
  (rooted, trim_pieces rooted (reverse (str_split SLASH (if rooted then tail p else p)))).
Fixpoint join_pieces (pieces : list ustr) : ustr :=
  match pieces with
  | [] => []
  | [p] => p
  | p :: rest => p ++ [SLASH] ++ join_pieces rest
  end.
Definition path_of (rooted : bool) (rp : list ustr) : PathBuf :=
  (if rooted then [SLASH] else []) ++ join_pieces (reverse rp).

(** [Path::join], [Path::parent], [Path::file_name]. *)
Definition path_join (base p : PathBuf) : PathBuf :=
  if is_absolute p then p
  else base ++ (match last base with
                | Some c => if c =? SLASH then [] else [SLASH]
                | None => []
                end) ++ p.
Definition path_parent (p : PathBuf) : option PathBuf :=
  match path_pieces p with
  | (rooted, _ :: rp) => Some (path_of rooted (trim_pieces rooted rp))
  | (_, []) => None
  end.
Definition is_normal (piece : ustr) : bool :=
  negb (bool_decide (piece = lit ".") || bool_decide (piece = lit "..")).
Definition file_name (p : PathBuf) : option ustr :=
  match (path_pieces p).2 with
  | piece :: _ => if is_normal piece then Some piece else None
  | [] => None
  end.

(** [Path::file_stem] of a file name: what precedes its last dot, if that is not empty. *)
Definition DOT : Z := 46.
Definition file_stem (name : ustr) : ustr :=
  match str_rfind DOT name with
  | Some 0 => name
  | Some i => default name (str_upto name i)
  | None => name
  end.
Definition set_extension (ext : ustr) (p : PathBuf) : PathBuf :=
  match path_pieces p with
  | (rooted, piece :: rp) =>
      if is_normal piece then path_of rooted (file_stem piece :: rp) ++ [DOT] ++ ext else p
  | (_, []) => p
  end.

(** [Path::strip_prefix]: [base] component by component; [None] is the error. *)
Fixpoint components (rooted : bool) (pieces : list ustr) : list ustr :=
  match pieces with
  | [] => []
  | p :: pieces => (if skipped rooted p [] then [] else [p]) ++ components true pieces
  end.
Fixpoint strip_pieces (rooted : bool) (pieces base : list ustr) : option (list ustr) :=
  match pieces with
  | [] => match base with [] => Some [] | _ => None end
  | p :: pieces' =>
      if skipped rooted p [] then strip_pieces true pieces' base
      else match base with
           | [] => Some pieces
           | b :: base' => if decide (p = b) then strip_pieces true pieces' base' else None
           end
  end.
Definition strip_prefix (p base : PathBuf) : option PathBuf :=
  let '(rooted, rp) := path_pieces p in
  let '(base_rooted, base_rp) := path_pieces base in
  let base_pieces := components base_rooted (reverse base_rp) in
  if bool_decide (base_pieces = []) && negb base_rooted then Some (path_of rooted rp)
  else if eqb rooted base_rooted
  then path_of false ∘ reverse <$> strip_pieces rooted (reverse rp) base_pieces
  else None.

(** [str::replace] of one character by a text. *)
Definition str_replace (c : Z) (by_ : ustr) (s : ustr) : ustr :=
  s ≫= fun d => if d =? c then by_ else [d].
Definition ends_with (suffix s : ustr) : bool := bool_decide (suffix `suffix_of` s).

(** ** Writers and the console *)

(** [std::io::Write] of a writer that takes text whole or fails. *)
Class Write (W : Type) := { write_str : ustr -> M W Error () }.
Definition writeln `{Write W} (s : ustr) : M W Error () := write_str (s ++ [10]).
(** [Vec<u8>]: never fails. *)
#[export] Instance Write_vec : Write ustr := {
  write_str s := m_modify (fun buf => buf ++ s)
}.

Section Console.
Variable stdout : ustr -> res Error ().

(** [println!] panics when the standard output cannot be written. *)
Definition println (s : ustr) : res Error () :=
  match stdout (s ++ [10]) with Ok _ => Ok () | NoFuel => NoFuel | _ => Panic end.

(** [UpdateConsole::update_progress] and [UpdateNull::update_progress]. *)
Definition update_progress (update_console : bool) (index : Z) : res Error () :=
  if update_console && (index mod 1000 =? 0) then stdout (lit ".") else Ok ().
End Console.

(** [Result::unwrap] and [Option::unwrap] behind one another. *)
Definition unwrap {Er A} (r : res Error A) : res Er A :=
  match r with Ok a => Ok a | NoFuel => NoFuel | _ => Panic end.

(** ** [cli_util.rs] *)

Definition COMMA : Z := 44.
Definition QUOTE : Z := 39.

Definition parse_component (component : ustr) : ustr := trim_char QUOTE (trim component).
Definition parse_paths_step (acc : list ustr * ustr) (component : ustr) : list ustr * ustr :=
  let '(logs, primary) := acc in
  let lower := to_ascii_lowercase (parse_component component) in
  if ends_with (lit ".log1") lower || ends_with (lit ".log2") lower
  then (logs ++ [parse_component component], primary)
  else (logs, parse_component component).
Definition parse_paths (paths : ustr) : ustr * option (list ustr) :=
  let '(logs, primary) := foldl parse_paths_step ([], []) (str_split COMMA paths) in
  (primary, if bool_decide (logs = []) then None else Some logs).

Definition get_log_name (base_folder : PathBuf) (primary_name extension : ustr) : PathBuf :=
  let log_name :=
    if decide (primary_name = lit "NTUSER.DAT") then lit "ntuser.dat"
    else if decide (primary_name = lit "UsrClass.DAT") then lit "UsrClass.dat"
    else primary_name in
  path_join base_folder log_name ++ [DOT] ++ extension.

Section CliUtil.
Context `{E : Env}.
Variable stdout : ustr -> res Error ().
(** What the file system answers. *)
Variable is_file : PathBuf -> bool.
Variable metadata_len : PathBuf -> ustr + Z.

Definition check_add_log (base_folder : PathBuf) (primary_name extension : ustr)
    (logs : list PathBuf) : list PathBuf :=
  let log := get_log_name base_folder primary_name extension in
  if is_file log then logs ++ [log] else logs.

Definition get_log_files (skip_logs : bool) (f : ustr) (path : PathBuf) : option (list PathBuf) :=
  if skip_logs then None
  else Some match path_parent path with
            | Some folder =>
                check_add_log folder f (lit "LOG2") (check_add_log folder f (lit "LOG1") [])
            | None => []
            end.

(** [{:?}] of a path is that of its text; [metadata_len] gives an error's [{:?}]. *)
Definition file_has_size (path : PathBuf) : res Error bool :=
  match metadata_len path with
  | inr 0 => _ ← println stdout (debug_str path ++ lit " size is 0; skipping"); Ok false
  | inr _ => Ok true
  | inl e =>
      _ ← println stdout (lit "Unable to get size for " ++ debug_str path ++ lit " (" ++ e
                          ++ lit ")");
      Ok false
  end.
End CliUtil.

(** ** Paths on examples *)

Example get_log_name_examples :
  get_log_name (lit "/mnt/d/tmp") (lit "NTUSER.DAT") (lit "LOG1") = lit "/mnt/d/tmp/ntuser.dat.LOG1"
  /\ get_log_name (lit "/mnt/d/tmp") (lit "UsrClass.DAT") (lit "LOG2")
     = lit "/mnt/d/tmp/UsrClass.dat.LOG2"
  /\ get_log_name (lit "/mnt/d/tmp") (lit "SYSTEM") (lit "LOG2") = lit "/mnt/d/tmp/SYSTEM.LOG2".
Proof. by vm_compute. Qed.

Example path_examples :
  path_parent (lit "/a//b/./c/") = Some (lit "/a//b") /\ path_parent (lit "/a") = Some (lit "/")
  /\ path_parent (lit "a") = Some [] /\ path_parent (lit "/") = None
  /\ path_parent (lit "./a") = Some (lit ".") /\ file_name (lit "a/..") = None
  /\ set_extension (lit "txt") (lit "out/x_ntuser.dat") = lit "out/x_ntuser.txt"
  /\ set_extension (lit "txt") (lit "out/.x") = lit "out/.x.txt"
  /\ strip_prefix (lit "/r/a//b/c") (lit "/r/./a/") = Some (lit "b/c")
  /\ strip_prefix (lit "/r/a") (lit "/r/b") = None
  /\ strip_prefix (lit "./a/b") (lit "./a") = Some (lit "b")
  /\ strip_prefix (lit "a/b") (lit "./a") = None.
Proof. by vm_compute. Qed.
