(* ===== verification/Progress.v ===== *)
(** * Progress: the console as an object

    [progress.rs].  The rest of the development takes from a console only whether a call
    succeeds ([progress_update], [progress_write], [update_progress]); here is its state, what it
    asks of the terminal, and that these functions are its results. *)

From S2P Require Import Prelude Env Log Marvin Util UtilFacts Cells BaseBlock SubKeyLists Values ValueFacts State Filter KeyNode KeyNodeFacts Recover Parser TransactionLog Cli.

(** ** The terminal *)

(** What is asked of the standard output; the cursor commands are [crossterm]'s. *)
Inductive TermOp :=
  | SavePosition
  | WriteAll (text : ustr)
  | RestorePosition
  | Flush.

(** A terminal in state [T]: each request may fail. *)
Class Terminal (T : Type) := { term : TermOp -> M T Error () }.

(** ** Consoles *)

Class UpdateProgressTrait (C : Type) := {
  con_update_progress : Z -> M C Error ();
  con_update : ustr -> M C Error ();
  con_write : ustr -> M C Error ();
}.

Section Consoles.
Context {T : Type} `{!Terminal T}.

Record UpdateConsole := { need_final_newline : bool; con_stdout : T }.
Definition on_stdout (op : TermOp) : M UpdateConsole Error () := fun c =>
  let '(t, r) := term op (con_stdout c) in
  ({| need_final_newline := need_final_newline c; con_stdout := t |}, r).

#[export] Instance UpdateConsole_trait : UpdateProgressTrait UpdateConsole := {
  con_update_progress index :=
    if index mod 1000 =? 0 then on_stdout (WriteAll (lit "."));;; on_stdout Flush else m_ret ();
  con_update msg :=
    on_stdout SavePosition;;;
    on_stdout (WriteAll msg);;;
    on_stdout RestorePosition;;;
    on_stdout Flush;;;
    m_modify (fun c => {| need_final_newline := true; con_stdout := con_stdout c |});
  con_write msg := on_stdout (WriteAll msg);;; on_stdout Flush;
}.

(** [Drop for UpdateConsole]: errors are swallowed. *)
Definition drop_console (c : UpdateConsole) : UpdateConsole :=
  if need_final_newline c
  then (on_stdout Flush (on_stdout (WriteAll [10]) c).1).1
  else c.

Inductive UpdateNull := UpdateNull_new.
#[export] Instance UpdateNull_trait : UpdateProgressTrait UpdateNull := {
  con_update_progress _ := m_ret ();
  con_update _ := m_ret ();
  con_write _ := m_ret ();
}.

(** [Box<dyn UpdateProgressTrait>], and [new]. *)
Definition Console : Type := UpdateConsole + UpdateNull.
Definition progress_new (update_console : bool) (stdout : T) : Console :=
  if update_console then inl {| need_final_newline := false; con_stdout := stdout |}
  else inr UpdateNull_new.

Definition dispatch (f : forall C, UpdateProgressTrait C -> M C Error ()) : M Console Error () :=
  fun c =>
    match c with
    | inl c => let '(c, r) := f UpdateConsole _ c in (inl c, r)
    | inr c => let '(c, r) := f UpdateNull _ c in (inr c, r)
    end.
#[export] Instance Console_trait : UpdateProgressTrait Console := {
  con_update_progress index := dispatch (fun C _ => con_update_progress index);
  con_update msg := dispatch (fun C _ => con_update msg);
  con_write msg := dispatch (fun C _ => con_write msg);
}.

(** The end of a console's life: the state of the terminal it wrote to. *)
Definition drop_box (c : Console) : option T :=
  match c with inl c => Some (con_stdout (drop_console c)) | inr _ => None end.

(** ** Sessions *)

Inductive ConsoleCall := CallProgress (index : Z) | CallUpdate (msg : ustr) | CallWrite (msg : ustr).
Definition run_call (call : ConsoleCall) : M Console Error () :=
  match call with
  | CallProgress index => con_update_progress index
  | CallUpdate msg => con_update msg
  | CallWrite msg => con_write msg
  end.
(** A client that stops at the first error. *)
Fixpoint session (calls : list ConsoleCall) : M Console Error () :=
  match calls with
  | [] => m_ret ()
  | call :: calls => run_call call;;; session calls
  end.

(** Without a console nothing is asked of the terminal and nothing fails. *)
Lemma session_null calls :
  session calls (inr UpdateNull_new) = (inr UpdateNull_new, Ok ()).
Proof.
  induction calls as [|[] calls IH]; [done|..]; cbn [session run_call];
    unfold m_bind; cbn; exact IH.
Qed.

(** A final newline is due exactly after a successful update. *)
Definition is_update (call : ConsoleCall) : bool :=
  match call with CallUpdate _ => true | _ => false end.
Definition succeeded (r : res Error ()) : bool := match r with Ok _ => true | _ => false end.
Definition newline_due (c : Console) : bool :=
  match c with inl c => need_final_newline c | inr _ => false end.

Definition same_due (c c' : UpdateConsole) : Prop := need_final_newline c' = need_final_newline c.
#[local] Instance same_due_preorder : PreOrder same_due.
Proof. unfold same_due. split; [done|]. intros c1 c2 c3. congruence. Qed.
Lemma on_stdout_due op : m_rel same_due (on_stdout op).
Proof. intros c. unfold on_stdout. by destruct (term op _). Qed.
#[local] Hint Resolve on_stdout_due : notatin.

(** Whatever the terminal does, the newline is due once an update has succeeded, and only then. *)
Lemma run_call_due call c c' r :
  run_call call (inl c) = (c', r) ->
  newline_due c' = need_final_newline c || (is_update call && succeeded r).
Proof.
  destruct call as [index|msg|msg]; cbn [run_call is_update andb]; rewrite ?orb_false_r;
    cbn [con_update_progress con_update con_write Console_trait]; unfold dispatch.
  - assert (m_rel same_due (con_update_progress (C:=UpdateConsole) index)) as Hrel
      by (cbn; m_rel_tac).
    specialize (Hrel c). destruct (con_update_progress index c). by intros [= <- _].
  - set (before := on_stdout SavePosition;;; on_stdout (WriteAll msg);;;
      on_stdout RestorePosition;;; on_stdout Flush).
    assert (m_rel same_due before) as Hrel by (unfold before; m_rel_tac).
    specialize (Hrel c).
    assert (con_update (C:=UpdateConsole) msg c
      = (before;;; m_modify (fun c => {| need_final_newline := true; con_stdout := con_stdout c |})) c)
      as ->.
    { cbn. unfold before, m_bind. by repeat case_match. }
    unfold m_bind. destruct (before c) as [c1 r1]. cbn in Hrel.
    destruct r1; intros [= <- <-]; cbn; by rewrite ?orb_true_r, ?orb_false_r.
  - assert (m_rel same_due (con_write (C:=UpdateConsole) msg)) as Hrel by (cbn; m_rel_tac).
    specialize (Hrel c). destruct (con_write msg c). by intros [= <- _].
Qed.
End Consoles.

(** ** What a session leaves on the terminal *)

(** A terminal that keeps what it is asked. *)
#[export] Instance Recorder : Terminal (list TermOp) := {
  term op := m_modify (fun ops => ops ++ [op])
}.
Definition call_ops (call : ConsoleCall) : list TermOp :=
  match call with
  | CallProgress index => if index mod 1000 =? 0 then [WriteAll (lit "."); Flush] else []
  | CallUpdate msg => [SavePosition; WriteAll msg; RestorePosition; Flush]
  | CallWrite msg => [WriteAll msg; Flush]
  end.

Lemma run_call_recorded call need (ops : list TermOp) :
  run_call call (inl {| need_final_newline := need; con_stdout := ops |})
  = (inl {| need_final_newline := need || is_update call; con_stdout := ops ++ call_ops call |},
     Ok ()).
Proof.
  destruct call as [index|msg|msg]; cbn; rewrite ?orb_false_r, ?orb_true_r.
  - unfold dispatch. cbn. destruct (index mod 1000 =? 0); cbn; [by rewrite <- app_assoc|].
    by rewrite app_nil_r.
  - unfold dispatch, m_bind. cbn. by rewrite <- !app_assoc.
  - unfold dispatch, m_bind. cbn. by rewrite <- !app_assoc.
Qed.

Lemma session_recorded calls need (ops : list TermOp) :
  session calls (inl {| need_final_newline := need; con_stdout := ops |})
  = (inl {| need_final_newline := need || existsb is_update calls;
            con_stdout := ops ++ (calls ≫= call_ops) |}, Ok ()).
Proof.
  revert need ops. induction calls as [|call calls IH]; intros need ops; cbn [session existsb].
  { by rewrite orb_false_r, app_nil_r. }
  rewrite (m_bind_run _ _ _ _ _ (run_call_recorded call need ops)), IH.
  cbn [mbind list_bind]. by rewrite orb_assoc, <- app_assoc.
Qed.

(** A console writes the text of each call in order, and ends the line when it is dropped
    exactly if an update left the cursor in it. *)
Lemma session_then_drop calls :
  let c := session calls (progress_new true ([] : list TermOp)) in
  c.2 = Ok () /\
  drop_box c.1 = Some ((calls ≫= call_ops)
    ++ (if existsb is_update calls then [WriteAll [10]; Flush] else [])).
Proof.
  unfold progress_new. rewrite session_recorded. split; [done|]. cbn [fst drop_box orb app].
  unfold drop_console. cbn [need_final_newline].
  destruct (existsb is_update calls); cbn; [by rewrite <- app_assoc|by rewrite app_nil_r].
Qed.

(** ** The results the rest of the development uses *)

Section Results.
Variable stdout : ustr -> res Error ().
(** A terminal on which moving the cursor and flushing succeed. *)
#[local] Instance Plain : Terminal () := {
  term op := fun t => (t, match op with WriteAll s => stdout s | _ => Ok () end)
}.
Lemma call_result update_console call :
  (run_call call (progress_new update_console ())).2
  = match call with
    | CallProgress index => update_progress stdout update_console index
    | CallUpdate msg => progress_update stdout update_console msg
    | CallWrite msg => progress_write stdout update_console msg
    end.
Proof.
  unfold progress_update, progress_write, update_progress.
  destruct update_console; [|by destruct call]. destruct call as [index|msg|msg]; cbn.
  - unfold dispatch. cbn. destruct (index mod 1000 =? 0); [|done]. unfold m_bind. cbn.
    by destruct (stdout _) as [[]| | |].
  - unfold dispatch, m_bind. cbn. by destruct (stdout _) as [[]| | |].
  - unfold dispatch, m_bind. cbn. by destruct (stdout _) as [[]| | |].
Qed.
End Results.
