(* ===== verification/Compare.v ===== *)
(** * Compare: differences between two hives

    [bin/reg_compare.rs].  The keys and values of the base hive go into a map from item to
    hash; each item of the comparison hive is taken out of it and classified, and what is
    left was deleted.  The differences are written as text or as a unified diff. *)

From S2P Require Import Prelude Env Log Marvin Util UtilFacts Cells BaseBlock SubKeyLists Values ValueFacts State Filter KeyNode KeyNodeFacts Recover Parser ParserFacts TransactionLog TransactionLogFacts Init Cli.

(** ** The [itertools] crate *)

Inductive EitherOrBoth (A B : Type) := EB_Both (a : A) (b : B) | EB_Left (a : A) | EB_Right (b : B).
Arguments EB_Both {A B} a b.
Arguments EB_Left {A B} a.
Arguments EB_Right {A B} b.
Fixpoint spec_zip_longest {A B} (l : list A) (r : list B) : list (EitherOrBoth A B) :=
  match l, r with
  | a :: l, b :: r => EB_Both a b :: spec_zip_longest l r
  | l, [] => EB_Left <$> l
  | [], r => EB_Right <$> r
  end.
Class Itertools := {
  zip_longest : forall {A B}, list A -> list B -> list (EitherOrBoth A B);
  zip_longest_spec {A B} (l : list A) (r : list B) : zip_longest l r = spec_zip_longest l r;
}.
#[export] Instance itertools_ref : Itertools := {
  zip_longest := @spec_zip_longest;
  zip_longest_spec A B l r := eq_refl;
}.

(** The key of an item: its path, and the value's name. *)
Abbreviation ItemId := (prod (list Z) (option (list Z))).
Abbreviation OriginalMap := (gmap (prod (list Z) (option (list Z))) (option Hash)).

Section Compare.
Context `{E : Env} `{!Itertools}.
Variable stdout : ustr -> res Error ().
(** The orders in which the two kinds of [HashMap] are iterated. *)
Variable hash_order : RegItemMap -> list (RegItemMapKey * RegItemMapValue).
Variable map_order : OriginalMap -> list (ItemId * option Hash).

(** ** Formatting an item *)

(** [{:?}] of a [CellValue] (derived). *)
Definition CellValue_debug (v : CellValue) : ustr :=
  let tuple (name : string) (s : ustr) := lit name ++ lit "(" ++ s ++ lit ")" in
  match v with
  | CV_None => lit "None"
  | CV_Binary b => tuple "Binary"%string (debug_vec ((fun x => fmt_dec (byte.unsigned x)) <$> b))
  | CV_String s => tuple "String"%string (debug_str s)
  | CV_MultiString m => tuple "MultiString"%string (debug_vec (debug_str <$> m))
  | CV_U32 n => tuple "U32"%string (fmt_dec n)
  | CV_I32 n => tuple "I32"%string (fmt_dec n)
  | CV_U64 n => tuple "U64"%string (fmt_dec n)
  | CV_I64 n => tuple "I64"%string (fmt_dec n)
  | CV_Error => lit "Error"
  end.
Definition TAB : Z := 9.

Definition format_value (cell_key_node_path : ustr) (value : CellKeyValue) : res Error ustr :=
  '(content, _) ← get_content value;
  Ok (cell_key_node_path ++ [TAB] ++ CellKeyValue_get_pretty_name value ++ [TAB]
      ++ CellValue_debug content).

Definition format_key (cell_key_node : CellKeyNode) : ustr :=
  let '(key_node_flags, logs) := CellKeyNode_key_node_flags cell_key_node Logs_default in
  let '(access_flags, _) := CellKeyNode_access_flags cell_key_node logs in
  n_path cell_key_node ++ [TAB]
  ++ format_date_time (CellKeyNode_last_key_written_date_and_time cell_key_node) ++ [TAB]
  ++ bf_debug KeyNodeFlags_table key_node_flags ++ [TAB]
  ++ bf_debug AccessFlags_table access_flags.

(** ** The differences *)

Record Differences := {
  keys_deleted : list CellKeyNode;
  keys_added : list CellKeyNode;
  keys_modified : list (CellKeyNode * CellKeyNode);
  values_deleted : list (ustr * CellKeyValue);
  values_added : list (ustr * CellKeyValue);
  values_modified : list (ustr * CellKeyValue * CellKeyValue);
}.
Definition no_differences : Differences :=
  {| keys_deleted := []; keys_added := []; keys_modified := [];
     values_deleted := []; values_added := []; values_modified := [] |}.
Definition push_key_deleted k d :=
  match d with Build_Differences a b c e f g => Build_Differences (a ++ [k]) b c e f g end.
Definition push_key_added k d :=
  match d with Build_Differences a b c e f g => Build_Differences a (b ++ [k]) c e f g end.
Definition push_key_modified k d :=
  match d with Build_Differences a b c e f g => Build_Differences a b (c ++ [k]) e f g end.
Definition push_value_deleted v d :=
  match d with Build_Differences a b c e f g => Build_Differences a b c (e ++ [v]) f g end.
Definition push_value_added v d :=
  match d with Build_Differences a b c e f g => Build_Differences a b c e (f ++ [v]) g end.
Definition push_value_modified v d :=
  match d with Build_Differences a b c e f g => Build_Differences a b c e f (g ++ [v]) end.

Definition update_parsed_keys (k_added k_total : Z) : res Error () :=
  println stdout (fmt_dec k_added ++ lit "/" ++ fmt_dec k_total ++ lit " keys parsed from base").
Definition update_keys_compared (k_added k_total : Z) : res Error () :=
  println stdout (fmt_dec k_added ++ lit "/" ++ fmt_dec k_total ++ lit " keys compared").

(** The first loop: the items of the base hive and their hashes. *)
Definition insert_items (original_map : OriginalMap) (key : CellKeyNode) : OriginalMap :=
  foldl (fun m value => <[(n_path key, Some (value_name value)) := cv_hash value]> m)
    (<[(n_path key, None) := n_hash key]> original_map) (n_sub_values key).
Fixpoint base_loop (k_total : Z) (keys : list CellKeyNode) (k_added : Z)
    (original_map : OriginalMap) : res Error (OriginalMap * Z) :=
  match keys with
  | [] => Ok (original_map, k_added)
  | key :: keys =>
      let original_map := insert_items original_map key in
      let k_added := k_added + 1 in
      _ ← (if k_added mod 1000 =? 0 then update_parsed_keys k_added k_total else Ok ());
      base_loop k_total keys k_added original_map
  end.

(** [parser1.get_key(path, true).unwrap().unwrap()] *)
Definition original_key (depth : nat) (path : ustr) : M Parser Error CellKeyNode := fun p =>
  match get_key depth path true p with
  | (p, r) => (p, key ← unwrap r; expect key)
  end.

(** One item of the comparison hive; the state is [parser1]. *)
Definition compare_key (depth : nat) (key : CellKeyNode) (s : OriginalMap * Differences)
    : M Parser Error (OriginalMap * Differences) :=
  let '(original_map, d) := s in
  let path := n_path key in
  match original_map !! (path, None) with
  | Some val =>
      let original_map := delete (path, None) original_map in
      if decide (val = n_hash key) then m_ret (original_map, d)
      else
        let* original_key := original_key depth path in
        m_ret (original_map, push_key_modified (original_key, key) d)
  | None => m_ret (original_map, push_key_added key d)
  end.

Definition compare_value (depth : nat) (path : ustr) (value : CellKeyValue)
    (s : OriginalMap * Differences) : M Parser Error (OriginalMap * Differences) :=
  let '(original_map, d) := s in
  match original_map !! (path, Some (value_name value)) with
  | Some val =>
      let original_map := delete (path, Some (value_name value)) original_map in
      if decide (val = cv_hash value) then m_ret (original_map, d)
      else
        let* original_key := original_key depth path in
        let* original_value := m_lift (expect (get_value original_key (value_name value))) in
        m_ret (original_map, push_value_modified (path, original_value, value) d)
  | None => m_ret (original_map, push_value_added (path, value) d)
  end.

Fixpoint compare_values (depth : nat) (path : ustr) (values : list CellKeyValue)
    (s : OriginalMap * Differences) : M Parser Error (OriginalMap * Differences) :=
  match values with
  | [] => m_ret s
  | value :: values =>
      let* s := compare_value depth path value s in
      compare_values depth path values s
  end.

Fixpoint compare_loop (depth : nat) (k_total : Z) (keys : list CellKeyNode) (k_added : Z)
    (s : OriginalMap * Differences) : M Parser Error (OriginalMap * Differences * Z) :=
  match keys with
  | [] => m_ret (s, k_added)
  | key :: keys =>
      let* s := compare_key depth key s in
      let* s := compare_values depth (n_path key) (n_sub_values key) s in
      let k_added := k_added + 1 in
      m_lift (if k_added mod 100 =? 0 then update_keys_compared k_added k_total else Ok ());;;
      compare_loop depth k_total keys k_added s
  end.

(** What is left in the map is not in the comparison hive. *)
Fixpoint deleted_loop (depth : nat) (remaining : list (ItemId * option Hash)) (d : Differences)
    : M Parser Error Differences :=
  match remaining with
  | [] => m_ret d
  | ((path, name), _) :: remaining =>
      let* original_key := original_key depth path in
      match name with
      | None => deleted_loop depth remaining (push_key_deleted original_key d)
      | Some val =>
          let* original_value := m_lift (expect (get_value original_key val)) in
          deleted_loop depth remaining
            (push_value_deleted (n_path original_key, original_value) d)
      end
  end.

Definition iterate (n fuel depth : nat) (parser : Parser) (filter_ : option Filter)
    : res Error (list CellKeyNode) :=
  let iter := ParserIterator_new parser in
  collect_keys n fuel depth parser
    (match filter_ with Some f => pi_with_filter f iter | None => iter end).

(** [reg_compare] between opening the parsers and writing. *)
Definition compare_parsers (n fuel depth : nat) (filter_ : option Filter)
    (get_parser2 : res Error Parser) (parser1 : Parser) : res Error Differences :=
  '(k_total, _) ← count_all_keys_and_values n fuel depth parser1 filter_;
  keys ← iterate n fuel depth parser1 filter_;
  '(original_map, k_added) ← base_loop k_total keys 0 ∅;
  _ ← update_parsed_keys k_added k_total;
  parser2 ← get_parser2;
  '(k_total, _) ← count_all_keys_and_values n fuel depth parser2 filter_;
  keys ← iterate n fuel depth parser2 filter_;
  snd ((let* (s, k_added) := compare_loop depth k_total keys 0 (original_map, no_differences) in
        m_lift (update_keys_compared k_added k_total);;;
        deleted_loop depth (map_order s.1) s.2) parser1).

(** ** Writing the differences

    The iterators handed to the section writers format an item when it is written; a
    [list (res Error ustr)] holds what formatting each one gives. *)

Section Writers.
Context {W : Type} `{!Write W}.

Definition write_item (prefix : ustr) (item : res Error ustr) : M W Error () :=
  let* s := m_lift item in writeln (prefix ++ s).
Fixpoint m_for {S Er A} (f : A -> M S Er ()) (l : list A) : M S Er () :=
  match l with
  | [] => m_ret ()
  | x :: l => f x;;; m_for f l
  end.

Definition RULE : ustr := lit "----------------------------------".
Definition write_text_section (header : ustr) (removed added : list (res Error ustr)) (len : Z)
    : M W Error () :=
  writeln ([10] ++ RULE ++ [10] ++ header ++ lit ": " ++ fmt_dec len ++ [10] ++ RULE);;;
  m_for (fun item =>
    match item with
    | EB_Both removed added => write_item [] removed;;; write_item [] added
    | EB_Left removed => write_item [] removed
    | EB_Right added => write_item [] added
    end) (zip_longest removed added).

Definition fmt_keys (keys : list CellKeyNode) : list (res Error ustr) :=
  (fun k => Ok (format_key k)) <$> keys.
Definition fmt_values (values : list (ustr * CellKeyValue)) : list (res Error ustr) :=
  (fun v => format_value v.1 v.2) <$> values.

Definition write_text (base_filenames comparison_filenames : ustr) (d : Differences)
    : M W Error () :=
  writeln (lit "Base: " ++ base_filenames ++ lit " ");;;
  writeln (lit "Comparison: " ++ comparison_filenames);;;
  let total_changes := len (keys_deleted d) + len (keys_added d) + len (keys_modified d)
    + len (values_deleted d) + len (values_added d) + len (values_modified d) in
  write_text_section (lit "Keys deleted") (fmt_keys (keys_deleted d)) []
    (len (keys_deleted d));;;
  write_text_section (lit "Keys added") [] (fmt_keys (keys_added d)) (len (keys_added d));;;
  write_text_section (lit "Keys modified") (fmt_keys (keys_modified d).*1)
    (fmt_keys (keys_modified d).*2) (len (keys_modified d));;;
  write_text_section (lit "Values deleted") (fmt_values (values_deleted d)) []
    (len (values_deleted d));;;
  write_text_section (lit "Values added") [] (fmt_values (values_added d))
    (len (values_added d));;;
  write_text_section (lit "Values modified") (fmt_values (values_modified d).*1)
    ((fun v => format_value v.1.1 v.2) <$> values_modified d) (len (values_modified d));;;
  writeln ([10] ++ RULE ++ [10] ++ lit "Total changes: " ++ fmt_dec total_changes ++ [10] ++ RULE).

(** Line numbers are [usize]. *)
Definition write_diff_section (lline : Z) (left : list (res Error ustr)) (llen : Z)
    (rline : Z) (right : list (res Error ustr)) (rlen : Z) : M W Error (Z * Z) :=
  if (0 <? llen) || (0 <? rlen) then
    writeln (lit "@@ -" ++ fmt_dec lline ++ lit "," ++ fmt_dec llen ++ lit " +" ++ fmt_dec rline
             ++ lit "," ++ fmt_dec rlen ++ lit " @@");;;
    let* lline := m_lift (add_usize lline llen) in
    let* rline := m_lift (add_usize rline rlen) in
    m_for (write_item (lit "-")) left;;;
    m_for (write_item (lit "+")) right;;;
    m_ret (lline, rline)
  else m_ret (lline, rline).

Definition write_diff_k_del (lline rline : Z) (keys_deleted : list CellKeyNode) :=
  write_diff_section lline (fmt_keys keys_deleted) (len keys_deleted) rline [] 0.
Definition write_diff_k_add (lline rline : Z) (keys_added : list CellKeyNode) :=
  write_diff_section lline [] 0 rline (fmt_keys keys_added) (len keys_added).
Definition write_diff_k_mod (lline rline : Z) (keys_modified : list (CellKeyNode * CellKeyNode)) :=
  write_diff_section lline (fmt_keys keys_modified.*1) (len keys_modified)
    rline (fmt_keys keys_modified.*2) (len keys_modified).
Definition write_diff_v_del (lline rline : Z) (values_deleted : list (ustr * CellKeyValue)) :=
  write_diff_section lline (fmt_values values_deleted) (len values_deleted) rline [] 0.
Definition write_diff_v_add (lline rline : Z) (values_added : list (ustr * CellKeyValue)) :=
  write_diff_section lline [] 0 rline (fmt_values values_added) (len values_added).
Definition write_diff_v_mod (lline rline : Z)
    (values_modified : list (ustr * CellKeyValue * CellKeyValue)) :=
  write_diff_section lline (fmt_values values_modified.*1) (len values_modified)
    rline ((fun v => format_value v.1.1 v.2) <$> values_modified) (len values_modified).

Definition write_diff (base_filenames comparison_filenames : ustr) (d : Differences)
    : M W Error () :=
  writeln (lit "--- " ++ base_filenames);;;
  writeln (lit "+++ " ++ comparison_filenames);;;
  let* (lline, rline) := write_diff_k_del 1 1 (keys_deleted d) in
  let* (lline, rline) := write_diff_k_add lline rline (keys_added d) in
  let* (lline, rline) := write_diff_k_mod lline rline (keys_modified d) in
  let* (lline, rline) := write_diff_v_del lline rline (values_deleted d) in
  let* (lline, rline) := write_diff_v_add lline rline (values_added d) in
  let* _ := write_diff_v_mod lline rline (values_modified d) in
  m_ret ().

(** ** The tool *)

Variable n fuel depth : nat.
(** Opening and then reading a file; creating one, or the [{}] of the error. *)
Variable fs_open : PathBuf -> res Error (res Error (list byte)).
Variable fs_create : PathBuf -> ustr + W.
Variable is_file : PathBuf -> bool.
Variable metadata_len : PathBuf -> ustr + Z.

Definition get_parser (primary : PathBuf) (logs : option (list PathBuf)) : res Error Parser :=
  fp_build stdout hash_order n fuel depth
    (foldl (fun b log => fp_with_transaction_log (fs_open log) b)
       (from_path (fs_open primary)) (default [] logs)).

Definition filenames (primary : PathBuf) (logs : option (list PathBuf)) : ustr :=
  match logs with
  | Some logs => debug_str primary ++ lit " " ++ debug_vec (debug_str <$> logs)
  | None => primary
  end.

(** The writer as [reg_compare] leaves it. *)
Definition reg_compare (output base_primary : PathBuf) (base_logs : option (list PathBuf))
    (comparison_primary : PathBuf) (comparison_logs : option (list PathBuf))
    (filter_ : option Filter) (use_diff_format : bool) : res Error W :=
  writer ← match fs_create output with
           | inr w => Ok w
           | inl e => Err (Buffer (lit "Error creating file " ++ debug_str output ++ lit ": " ++ e))
           end;
  let base_filenames := filenames base_primary base_logs in
  let comparison_filenames := filenames comparison_primary comparison_logs in
  _ ← println stdout (lit "Comparing " ++ debug_str base_primary ++ lit " and "
                      ++ debug_str comparison_primary);
  parser1 ← get_parser base_primary base_logs;
  d ← compare_parsers n fuel depth filter_ (get_parser comparison_primary comparison_logs) parser1;
  match (if use_diff_format then write_diff base_filenames comparison_filenames d
         else write_text base_filenames comparison_filenames d) writer with
  | (writer, r) => _ ← r; Ok writer
  end.

Definition process_files (outpath base comparison : PathBuf) (filter_ : option Filter)
    (use_diff_format skip_logs : bool) : res Error W :=
  base_name ← expect (file_name base);
  comparison_name ← expect (file_name comparison);
  reg_compare outpath base (get_log_files is_file skip_logs base_name base)
    comparison (get_log_files is_file skip_logs comparison_name comparison)
    filter_ use_diff_format.

Definition get_outpath (primary_path_from_base outfolder : PathBuf) (use_diff_folder : bool)
    : PathBuf :=
  let output_filename := str_replace SLASH (lit "_") primary_path_from_base in
  set_extension (if use_diff_folder then lit "diff" else lit "txt")
    (path_join outfolder output_filename).

(** An entry of [WalkDir] that is not an error: its path, its name if it is Unicode, and
    whether it is a directory. *)
Record DirEntry := { de_path : PathBuf; de_file_name : option ustr; de_is_dir : bool }.
Variable walk_dir : PathBuf -> list DirEntry.
Variable to_lowercase : ustr -> ustr.
Definition reg_files : list ustr :=
  [lit "sam"; lit "security"; lit "software"; lit "system"; lit "default"; lit "amcache";
   lit "ntuser.dat"; lit "usrclass.dat"].
(** [{:?}] of [StripPrefixError]. *)
Definition strip_prefix_error : ustr := lit "StripPrefixError(())".

Definition process_entry (outfolder base comparison : PathBuf) (filter_ : option Filter)
    (use_diff_format skip_logs : bool) (entry : DirEntry) : res Error () :=
  match de_file_name entry with
  | Some f =>
      if bool_decide (to_lowercase f ∈ reg_files) then
        has_size ← file_has_size stdout metadata_len (de_path entry);
        if has_size : bool then
          match strip_prefix (de_path entry) base with
          | None => println stdout strip_prefix_error
          | Some primary_path_from_base =>
              let comparison_path_to_find := path_join comparison primary_path_from_base in
              has_size ←
                (if is_file comparison_path_to_find
                 then file_has_size stdout metadata_len comparison_path_to_find else Ok false);
              if has_size : bool then
                match reg_compare (get_outpath primary_path_from_base outfolder use_diff_format)
                        (de_path entry) (get_log_files is_file skip_logs f (de_path entry))
                        comparison_path_to_find
                        (get_log_files is_file skip_logs f comparison_path_to_find)
                        filter_ use_diff_format with
                | Err e =>
                    println stdout (lit "Error processing " ++ debug_str base ++ lit " and "
                                    ++ debug_str comparison ++ lit ": " ++ Error_debug e)
                | Ok _ => Ok ()
                | Panic => Panic
                | NoFuel => NoFuel
                end
              else Ok ()
          end
        else Ok ()
      else Ok ()
  | None => Ok ()
  end.

Fixpoint process_entries (outfolder base comparison : PathBuf) (filter_ : option Filter)
    (use_diff_format skip_logs : bool) (entries : list DirEntry) : res Error () :=
  match entries with
  | [] => Ok ()
  | entry :: entries =>
      _ ← process_entry outfolder base comparison filter_ use_diff_format skip_logs entry;
      process_entries outfolder base comparison filter_ use_diff_format skip_logs entries
  end.
Definition process_folders (outfolder base comparison : PathBuf) (filter_ : option Filter)
    (use_diff_format skip_logs : bool) : res Error () :=
  process_entries outfolder base comparison filter_ use_diff_format skip_logs
    (filter (fun e => de_is_dir e = false) (walk_dir base)).
End Writers.
End Compare.
