(* ===== verification/CompareFacts.v ===== *)
(** * CompareFacts: the differences found, and how they are reported

    Theorems about [Compare]: which items count as added, modified and deleted, and a reader of
    the unified diff. *)

From S2P Require Import Prelude Env Log Marvin Util UtilFacts Cells BaseBlock SubKeyLists Values ValueFacts State Filter KeyNode KeyNodeFacts Recover Parser ParserFacts TransactionLog TransactionLogFacts Init InitFacts Cli Compare.

Section Classification.
Context `{E : Env} {It : Itertools}.
Variable stdout : ustr -> res Error ().
Variable map_order : OriginalMap -> list (ItemId * option Hash).

(** ** The items of a list of keys *)

Definition key_id (k : CellKeyNode) : ItemId := (n_path k, None).
Definition value_id (pv : ustr * CellKeyValue) : ItemId := (pv.1, Some (value_name pv.2)).
Definition key_values (k : CellKeyNode) : list (ustr * CellKeyValue) :=
  pair (n_path k) <$> n_sub_values k.
Definition values_of (keys : list CellKeyNode) : list (ustr * CellKeyValue) := keys ≫= key_values.

(** Each item of the keys with its hash. *)
Definition key_hashes (k : CellKeyNode) : list (ItemId * option Hash) :=
  (key_id k, n_hash k) :: ((fun pv => (value_id pv, cv_hash pv.2)) <$> key_values k).
Definition item_hashes (keys : list CellKeyNode) : list (ItemId * option Hash) :=
  keys ≫= key_hashes.

(** An item that the base hive has not, or has with another hash. *)
Definition is_new (base : list (ItemId * option Hash)) (id : ItemId) : Prop := id ∉ base.*1.
Definition is_changed (base : list (ItemId * option Hash)) (id : ItemId) (h : option Hash) : Prop :=
  Exists (fun e => e.1 = id /\ e.2 <> h) base.
#[global] Instance is_changed_dec base id h : Decision (is_changed base id h).
Proof. unfold is_changed. apply _. Defined.
#[global] Instance is_new_dec base id : Decision (is_new base id).
Proof. unfold is_new. apply _. Defined.

(** ** The map of the base hive *)

Definition insert_all (l : list (ItemId * option Hash)) (m : OriginalMap) : OriginalMap :=
  foldl (fun m e => <[e.1 := e.2]> m) m l.

Lemma insert_items_all m k : insert_items m k = insert_all (key_hashes k) m.
Proof.
  unfold insert_items, insert_all, key_hashes, key_values, key_id.
  assert (forall vs m0,
    foldl (fun m value => <[(n_path k, Some (value_name value)) := cv_hash value]> m) m0 vs
    = insert_all ((fun pv => (value_id pv, cv_hash pv.2)) <$> (pair (n_path k) <$> vs)) m0) as Hvs.
  { intros vs. induction vs as [|v vs IH]; intros m0; [reflexivity|]. apply IH. }
  apply Hvs.
Qed.

Lemma insert_all_lookup l m id h :
  NoDup l.*1 ->
  insert_all l m !! id = Some h <-> ((id, h) ∈ l) \/ ((id ∉ l.*1) /\ m !! id = Some h).
Proof.
  revert m. induction l as [|[i x] l IH]; intros m Hnd; [set_solver|].
  rewrite fmap_cons in *. apply NoDup_cons in Hnd as [Hni Hnd].
  change (insert_all ((i, x) :: l) m) with (insert_all l (<[i := x]> m)). rewrite IH by done.
  cbn [fst] in *.
  destruct (decide (i = id)) as [->|Hne].
  - rewrite lookup_insert_eq. split.
    + intros [Hin|[_ [= ->]]]; [|set_solver].
      exfalso. by apply Hni, (list_elem_of_fmap_2' fst _ (id, h)).
    + intros [[[= ->]|Hin]%elem_of_cons|[Hn _]]; [by right|by left|set_solver].
  - rewrite lookup_insert_ne by done. set_solver.
Qed.

Lemma base_loop_map k_total keys n m m' n' :
  base_loop stdout k_total keys n m = Ok (m', n') ->
  m' = insert_all (item_hashes keys) m /\ n' = n + len keys.
Proof.
  revert n m. induction keys as [|k ks IH]; intros n m; cbn [base_loop].
  { intros [= <- <-]. rewrite len_nil. split; [done|lia]. }
  rewrite bind_Ok. intros (_ & _ & H). apply IH in H as [-> ->].
  rewrite insert_items_all, len_cons. split; [|lia].
  unfold item_hashes, insert_all. cbn [mbind list_bind]. by rewrite foldl_app.
Qed.

(** ** Looking items up again in the base hive *)

Lemma with_node_same {Er A} node (m : FileInfo -> M (CellKeyNode * State) Er A) :
  m_rel same_file (with_node node m).
Proof.
  intros p. unfold with_node. destruct (m (file_info p) (node, state p)) as [[n st] r].
  by destruct p.
Qed.
Lemma get_key_same depth path has_root : m_rel same_file (get_key depth path has_root).
Proof.
  unfold get_key, get_root_key. pose proof @same_file_with_state. pose proof @with_node_same.
  m_rel_tac.
Qed.
Lemma original_key_same depth path : m_rel same_file (original_key depth path).
Proof.
  intros p. unfold original_key. match goal with |- context [get_key depth path ?b p] =>
    pose proof (get_key_same depth path b p) as Hs; by destruct (get_key depth path b p) end.
Qed.
Hint Resolve original_key_same : notatin.

(** The base parser finds the key at the path, the value of the name in it. *)
Definition finds_key (depth : nat) (p : Parser) (path : ustr) (k : CellKeyNode) : Prop :=
  exists q, same_file p q /\ (original_key depth path q).2 = Ok k.
Definition finds_value (depth : nat) (p : Parser) (path name : ustr) (v : CellKeyValue) : Prop :=
  exists k, finds_key depth p path k /\ get_value k name = Some v.

Lemma original_key_finds depth path p0 p p' k :
  same_file p0 p -> original_key depth path p = (p', Ok k) ->
  finds_key depth p0 path k /\ same_file p0 p'.
Proof.
  intros Hp Hk. pose proof (original_key_same depth path p) as Hs. rewrite Hk in Hs.
  split; [|by transitivity p]. exists p. by rewrite Hk.
Qed.

Lemma NoDup_fst_inj {A B} (l : list (A * B)) a b c :
  NoDup l.*1 -> (a, b) ∈ l -> (a, c) ∈ l -> b = c.
Proof.
  induction l as [|[x y] l IH]; [set_solver|]. rewrite fmap_cons. intros [Hn Hnd]%NoDup_cons.
  intros [[= -> ->]|Hb]%elem_of_cons [[= ->]|Hc]%elem_of_cons; subst.
  - done.
  - exfalso. by apply Hn, (list_elem_of_fmap_2' fst _ (x, c)).
  - exfalso. by apply Hn, (list_elem_of_fmap_2' fst _ (x, b)).
  - by apply IH.
Qed.

Lemma is_changed_iff B id h h' :
  NoDup B.*1 -> (id, h') ∈ B -> is_changed B id h <-> h' <> h.
Proof.
  intros Hnd Hin. unfold is_changed. rewrite Exists_exists. split.
  - intros ([i x] & Hx & <- & Hne). cbn in *. intros ->.
    by rewrite (NoDup_fst_inj B i h x) in Hne.
  - intros Hne. exists (id, h'). done.
Qed.

Lemma println_ok t : (forall t, stdout t = Ok ()) -> println stdout t = Ok ().
Proof. intros H. unfold println. by rewrite H. Qed.
Lemma update_keys_compared_ok a b :
  (forall t, stdout t = Ok ()) -> update_keys_compared stdout a b = Ok ().
Proof. apply println_ok. Qed.
Lemma update_parsed_keys_ok a b :
  (forall t, stdout t = Ok ()) -> update_parsed_keys stdout a b = Ok ().
Proof. apply println_ok. Qed.

(** *** What lookups find

    The comparison looks the items [B] of the base hive up in it.  [good] is what is kept true of
    its parser, [found] what is known of the keys it finds. *)
Section Lookups.
Context (depth : nat) (B : list (ItemId * option Hash)).
Context (good : Parser -> Prop) (found : ustr -> CellKeyNode -> Prop).
Hypothesis Hnd : NoDup B.*1.
Hypothesis Hfound : forall path p p' k,
  path ∈ B.*1.*1 -> good p -> original_key depth path p = (p', Ok k) -> good p' /\ found path k.

Definition found_value (path name : ustr) (v : CellKeyValue) : Prop :=
  exists k, found path k /\ get_value k name = Some v.

(** ** What the comparison loop has found

    After the items [ids] of the keys [ks] and the values [vs], against the base items [B]. *)

Record classified (ids : list ItemId)
    (ks : list CellKeyNode) (vs : list (ustr * CellKeyValue)) (m : OriginalMap)
    (d : Differences) : Prop := {
  cl_map id h : m !! id = Some h <-> (id, h) ∈ B /\ id ∉ ids;
  cl_keys_added : keys_added d = filter (fun k => is_new B (key_id k)) ks;
  cl_keys_modified :
    (keys_modified d).*2 = filter (fun k => is_changed B (key_id k) (n_hash k)) ks;
  cl_values_added : values_added d = filter (fun pv => is_new B (value_id pv)) vs;
  cl_values_modified :
    (fun x => (x.1.1, x.2)) <$> values_modified d
    = filter (fun pv => is_changed B (value_id pv) (cv_hash pv.2)) vs;
  cl_keys_found : Forall (fun x => found (n_path x.2) x.1) (keys_modified d);
  cl_values_found :
    Forall (fun x => found_value x.1.1 (value_name x.2) x.1.2) (values_modified d);
  cl_keys_deleted : keys_deleted d = [];
  cl_values_deleted : values_deleted d = [];
}.

(** A new item, an unchanged one, a changed one. *)
Lemma lookup_cases ids ks vs m d id h :
  classified ids ks vs m d -> id ∉ ids ->
  match m !! id with
  | Some h' => ~ is_new B id /\ (is_changed B id h <-> h' <> h)
  | None => is_new B id /\ ~ is_changed B id h
  end.
Proof.
  intros [Hm _ _ _ _ _ _ _ _] Hid. destruct (m !! id) as [h'|] eqn:Hl.
  - apply Hm in Hl as [Hin _]. split; [|by apply is_changed_iff].
    intros Hn. apply Hn. by apply (list_elem_of_fmap_2' fst _ (id, h')).
  - assert (forall h', (id, h') ∉ B) as Hno.
    { intros h' Hin. assert (m !! id = Some h') as Hs by (by apply Hm). congruence. }
    split.
    + intros ([i x] & -> & Hin)%list_elem_of_fmap. by apply (Hno x).
    + unfold is_changed. rewrite Exists_exists. intros ([i x] & Hin & <- & _). by apply (Hno x).
Qed.

Lemma map_step (ids : list ItemId) (m : OriginalMap) (id : ItemId) :
  (forall id h, m !! id = Some h <-> (id, h) ∈ B /\ id ∉ ids) ->
  forall id' h, (delete id m : OriginalMap) !! id' = Some h <-> (id', h) ∈ B /\ id' ∉ ids ++ [id].
Proof.
  intros Hm id' h. rewrite lookup_delete_Some, Hm. set_solver.
Qed.
Lemma map_step_none (ids : list ItemId) (m : OriginalMap) (id : ItemId) :
  (forall id h, m !! id = Some h <-> (id, h) ∈ B /\ id ∉ ids) -> m !! id = None ->
  forall id' h, m !! id' = Some h <-> (id', h) ∈ B /\ id' ∉ ids ++ [id].
Proof.
  intros Hm Hn id' h. rewrite <- (map_step ids m id Hm).
  by rewrite delete_id.
Qed.

(** What is asked for is in the base hive. *)
Lemma asked_of_id path name : (path, name) ∈ B.*1 -> path ∈ B.*1.*1.
Proof. intros Hin. by apply (list_elem_of_fmap_2' fst _ (path, name)). Qed.
Lemma asked_of_map ids ks vs m d path name h :
  classified ids ks vs m d -> m !! (path, name) = Some h -> path ∈ B.*1.*1.
Proof.
  intros [Hm _ _ _ _ _ _ _ _] [Hin _]%Hm. apply (asked_of_id path name).
  by apply (list_elem_of_fmap_2' fst _ (path, name, h)).
Qed.

Lemma filter_snoc_True {A} (P : A -> Prop) `{forall x, Decision (P x)} l x :
  P x -> filter P (l ++ [x]) = filter P l ++ [x].
Proof. intros. by rewrite filter_app, filter_singleton, decide_True. Qed.
Lemma filter_snoc_False {A} (P : A -> Prop) `{forall x, Decision (P x)} l x :
  ~ P x -> filter P (l ++ [x]) = filter P l.
Proof. intros. by rewrite filter_app, filter_singleton, decide_False, app_nil_r. Qed.

(** Proves a field of [classified] after one more item. *)
Ltac classify_field :=
  solve [ by apply map_step
        | by apply map_step_none
        | rewrite filter_snoc_False by tauto; match goal with d : Differences |- _ => by destruct d end
        | rewrite filter_snoc_True by tauto;
          match goal with d : Differences |- _ => destruct d end;
          cbn in *; rewrite ?fmap_app; by f_equal
        | match goal with d : Differences |- _ => destruct d end; cbn in *; rewrite ?Forall_app;
          split; [done|by constructor]
        | match goal with d : Differences |- _ => by destruct d end ].

Lemma compare_key_classified ids ks vs k m d p p' m' d' :
  good p -> classified ids ks vs m d -> key_id k ∉ ids ->
  compare_key depth k (m, d) p = (p', Ok (m', d')) ->
  good p' /\ classified (ids ++ [key_id k]) (ks ++ [k]) vs m' d'.
Proof using stdout map_order Hnd Hfound.
  intros Hp Hc Hid. pose proof (lookup_cases ids ks vs m d (key_id k) (n_hash k) Hc Hid) as Hl.
  pose proof (asked_of_map ids ks vs m d (n_path k) None) as Hask.
  unfold compare_key, m_ret. change (n_path k, None) with (key_id k) in *.
  destruct (Hc) as [Hm Hka Hkm Hva Hvm Hkf Hvf Hkd Hvd].
  destruct (m !! key_id k) as [h|] eqn:Hk; destruct Hl as [H1 H2].
  - destruct (decide (h = n_hash k)) as [->|Hne]; cbn beta iota.
    + intros [= <- <- <-]. split; [done|]. split; classify_field.
    + rewrite m_bind_Ok. intros (q & ok & Hf & [= <- <- <-]).
      apply Hfound in Hf as [Hq Hf]; [|by eapply Hask|done]. split; [done|]. split; classify_field.
  - intros [= <- <- <-]. split; [done|]. split; classify_field.
Qed.

Lemma compare_value_classified ids ks vs pv m d p p' m' d' :
  good p -> classified ids ks vs m d -> value_id pv ∉ ids ->
  compare_value depth pv.1 pv.2 (m, d) p = (p', Ok (m', d')) ->
  good p' /\ classified (ids ++ [value_id pv]) ks (vs ++ [pv]) m' d'.
Proof using stdout map_order Hnd Hfound.
  intros Hp Hc Hid.
  pose proof (lookup_cases ids ks vs m d (value_id pv) (cv_hash pv.2) Hc Hid) as Hl.
  pose proof (asked_of_map ids ks vs m d pv.1 (Some (value_name pv.2))) as Hask.
  unfold compare_value, m_ret. change (pv.1, Some (value_name pv.2)) with (value_id pv) in *.
  destruct (Hc) as [Hm Hka Hkm Hva Hvm Hkf Hvf Hkd Hvd].
  destruct (m !! value_id pv) as [h|] eqn:Hk; destruct Hl as [H1 H2].
  - destruct (decide (h = cv_hash pv.2)) as [->|Hne]; cbn beta iota.
    + intros [= <- <- <-]. split; [done|]. split; classify_field.
    + rewrite m_bind_Ok. intros (q & ok & Hf & H).
      apply m_bind_Ok in H as (r & ov & [= <- Hv] & [= <- <- <-]).
      apply Hfound in Hf as [Hq Hf]; [|by eapply Hask|done].
      assert (found_value pv.1 (value_name pv.2) ov) as Hfv.
      { exists ok. split; [done|]. destruct (get_value ok _); [by injection Hv as ->|done]. }
      destruct pv as [path v]. split; [done|]. split; classify_field.
  - intros [= <- <- <-]. destruct pv as [path v]. split; [done|]. split; classify_field.
Qed.

Lemma compare_values_classified ids ks vs path values m d p p' m' d' :
  good p -> classified ids ks vs m d ->
  NoDup (ids ++ (value_id <$> (pair path <$> values))) ->
  compare_values depth path values (m, d) p = (p', Ok (m', d')) ->
  good p' /\
  classified (ids ++ (value_id <$> (pair path <$> values))) ks (vs ++ (pair path <$> values)) m' d'.
Proof using stdout map_order Hnd Hfound.
  revert ids vs m d p.
  induction values as [|v values IH]; intros ids vs m d p Hp Hc Hids.
  - cbn. intros [= <- <- <-]. by rewrite !app_nil_r.
  - cbn [compare_values]. rewrite m_bind_Ok. intros (q & [m1 d1] & Hv & Hrun).
    rewrite !fmap_cons in *. rewrite !cons_middle, !app_assoc in *.
    apply (compare_value_classified ids ks vs (path, v) m d p q) in Hv as [Hq Hv]; [|done..|].
    { by apply (IH _ _ m1 d1 q). }
    rewrite <- app_assoc in Hids. apply NoDup_app in Hids as (_ & Hd & _).
    intros Hin. apply (Hd _ Hin). set_solver.
Qed.

Lemma item_hashes_cons k keys :
  (item_hashes (k :: keys)).*1
  = [key_id k] ++ (value_id <$> key_values k) ++ (item_hashes keys).*1.
Proof.
  unfold item_hashes, key_hashes. cbn [mbind list_bind]. rewrite fmap_app, fmap_cons.
  rewrite <- list_fmap_compose. done.
Qed.

Lemma compare_loop_classified ids ks vs k_total keys n m d p p' m' d' n' :
  good p -> classified ids ks vs m d -> NoDup (ids ++ (item_hashes keys).*1) ->
  compare_loop stdout depth k_total keys n (m, d) p = (p', Ok ((m', d'), n')) ->
  good p' /\
  classified (ids ++ (item_hashes keys).*1) (ks ++ keys) (vs ++ values_of keys) m' d'.
Proof using stdout map_order Hnd Hfound.
  revert ids ks vs n m d p.
  induction keys as [|k keys IH]; intros ids ks vs n m d p Hp Hc Hids.
  - cbn. intros [= <- <- <- _]. by rewrite !app_nil_r.
  - cbn [compare_loop]. rewrite m_bind_Ok. intros (q1 & [m1 d1] & Hk & H).
    apply m_bind_Ok in H as (q2 & [m2 d2] & Hv & H). apply m_bind_Ok in H as (q3 & [] & Hpr & Hrun).
    rewrite item_hashes_cons in *. rewrite cons_middle, !app_assoc in *.
    unfold values_of. cbn [mbind list_bind]. rewrite app_assoc.
    assert (key_id k ∉ ids) as Hid.
    { rewrite <- !app_assoc in Hids. apply NoDup_app in Hids as (_ & Hd & _).
      intros Hin. apply (Hd _ Hin). set_solver. }
    apply (compare_key_classified ids ks vs k m d p q1) in Hk as [Hq1 Hk1]; [|done..].
    pose proof Hids as Hids'. apply NoDup_app in Hids' as (Hids' & _ & _).
    destruct (compare_values_classified (ids ++ [key_id k]) (ks ++ [k]) vs (n_path k) (n_sub_values k)
      m1 d1 q1 q2 m2 d2) as [Hq2 Hv2]; [done..|].
    by apply (IH _ _ _ (n + 1) m2 d2 q3); [injection Hpr as <- _| | |].
Qed.

(** ** The items left: the deleted ones *)

Lemma deleted_loop_found rem d p p' d' :
  good p -> rem.*1 ⊆ B.*1 -> deleted_loop depth rem d p = (p', Ok d') ->
  exists ks vs,
    d' = {| keys_deleted := keys_deleted d ++ ks; keys_added := keys_added d;
            keys_modified := keys_modified d; values_deleted := values_deleted d ++ vs;
            values_added := values_added d; values_modified := values_modified d |} /\
    Forall2 (fun id k => found id.1 k) (filter (fun id => id.2 = None) rem.*1) ks /\
    Forall2 (fun id pv => exists k name, id.2 = Some name /\ found id.1 k /\
                          get_value k name = Some pv.2 /\ pv.1 = n_path k)
      (filter (fun id => id.2 <> None) rem.*1) vs.
Proof using Hfound.
  revert d p. induction rem as [|[[path name] h] rem IH]; intros d p Hp Hsub; cbn [deleted_loop].
  - intros [= _ <-]. exists [], []. rewrite !app_nil_r. by destruct d.
  - rewrite m_bind_Ok. intros (q & k & Hf & H). rewrite fmap_cons in Hsub.
    apply Hfound in Hf as [Hq Hf]; [|by eapply asked_of_id, Hsub, list_elem_of_here|done].
    assert (rem.*1 ⊆ B.*1) as Hsub' by (intros id Hin; apply Hsub; by right).
    destruct name as [name|].
    + apply m_bind_Ok in H as (r & v & [= <- Hv] & H).
      apply IH in H as (ks & vs & -> & Hks & Hvs); [|done..].
      destruct (get_value k name) as [v'|] eqn:Hg; [injection Hv as ->|done].
      exists ks, ((n_path k, v) :: vs). rewrite fmap_cons, filter_cons_False, filter_cons_True by done.
      split_and!; [destruct d; cbn; by rewrite <- app_assoc|done|].
      constructor; [|done]. by exists k, name.
    + apply IH in H as (ks & vs & -> & Hks & Hvs); [|done..].
      exists (k :: ks), vs. rewrite fmap_cons, filter_cons_True by done.
      rewrite filter_cons_False by (by intros []).
      split_and!; [destruct d; cbn; by rewrite <- app_assoc|by constructor|done].
Qed.

(** ** When lookups succeed *)

Section Total.
Hypothesis Hlook : forall path p,
  path ∈ B.*1.*1 -> good p -> exists p' k, original_key depth path p = (p', Ok k).
Hypothesis Hvalue : forall path name k,
  (path, Some name) ∈ B.*1 -> found path k -> is_Some (get_value k name).
Hypothesis Hout : forall t, stdout t = Ok ().

Lemma compare_key_runs ids ks vs k m d p :
  good p -> classified ids ks vs m d ->
  exists p' m' d', compare_key depth k (m, d) p = (p', Ok (m', d')).
Proof using Hlook.
  intros Hp Hc. unfold compare_key, m_ret. destruct (m !! _) as [h|] eqn:Hm; [|by eexists _, _, _].
  destruct (decide _); [by eexists _, _, _|].
  destruct (Hlook (n_path k) p) as (q & ok & Hok); [by eapply asked_of_map|done|].
  rewrite (m_bind_run _ _ _ _ _ Hok). by eexists _, _, _.
Qed.

Lemma compare_value_runs ids ks vs path v m d p :
  good p -> classified ids ks vs m d ->
  exists p' m' d', compare_value depth path v (m, d) p = (p', Ok (m', d')).
Proof using Hlook Hvalue Hfound.
  intros Hp Hc. unfold compare_value, m_ret. destruct (m !! _) as [h|] eqn:Hm; [|by eexists _, _, _].
  destruct (decide _); [by eexists _, _, _|].
  assert (path ∈ B.*1.*1) as Hask by by eapply asked_of_map.
  destruct (Hlook path p) as (q & ok & Hok); [done..|].
  rewrite (m_bind_run _ _ _ _ _ Hok). apply Hfound in Hok as [_ Hf]; [|done..].
  destruct (Hvalue path (value_name v) ok) as [ov Hov]; [|done|].
  { destruct Hc as [Hmap _ _ _ _ _ _ _ _]. apply Hmap in Hm as [Hin _].
    by apply (list_elem_of_fmap_2' fst _ (path, Some (value_name v), h)). }
  rewrite Hov. by eexists _, _, _.
Qed.

Lemma compare_values_runs ids ks vs path values m d p :
  good p -> classified ids ks vs m d ->
  NoDup (ids ++ (value_id <$> (pair path <$> values))) ->
  exists p' m' d', compare_values depth path values (m, d) p = (p', Ok (m', d')).
Proof using stdout map_order Hnd Hlook Hvalue Hfound Hout.
  revert ids vs m d p.
  induction values as [|v values IH]; intros ids vs m d p Hp Hc Hids; [by eexists _, _, _|].
  cbn [compare_values]. rewrite !fmap_cons in *. rewrite !cons_middle, !app_assoc in *.
  destruct (compare_value_runs ids ks vs path v m d p Hp Hc) as (q & m1 & d1 & Hv).
  rewrite (m_bind_run _ _ _ _ _ Hv).
  apply (compare_value_classified ids ks vs (path, v)) in Hv as [Hq Hv]; [by eapply IH|done..|].
  rewrite <- app_assoc in Hids. apply NoDup_app in Hids as (_ & Hd & _).
  intros Hin. apply (Hd _ Hin). set_solver.
Qed.

Lemma compare_loop_runs ids ks vs k_total keys n m d p :
  good p -> classified ids ks vs m d -> NoDup (ids ++ (item_hashes keys).*1) ->
  exists p' m' d' n', compare_loop stdout depth k_total keys n (m, d) p = (p', Ok ((m', d'), n')).
Proof using map_order Hnd Hlook Hvalue Hfound Hout.
  revert ids ks vs n m d p.
  induction keys as [|k keys IH]; intros ids ks vs n m d p Hp Hc Hids; [by eexists _, _, _, _|].
  cbn [compare_loop]. rewrite item_hashes_cons in Hids. rewrite !app_assoc in Hids.
  assert (key_id k ∉ ids) as Hid.
  { rewrite <- !app_assoc in Hids. apply NoDup_app in Hids as (_ & Hd & _).
    intros Hin. apply (Hd _ Hin). set_solver. }
  destruct (compare_key_runs ids ks vs k m d p Hp Hc) as (q1 & m1 & d1 & Hk).
  rewrite (m_bind_run _ _ _ _ _ Hk).
  apply (compare_key_classified ids ks vs) in Hk as [Hq1 Hk]; [|done..].
  pose proof Hids as Hids'. apply NoDup_app in Hids' as (Hids' & _ & _).
  destruct (compare_values_runs (ids ++ [key_id k]) (ks ++ [k]) vs (n_path k) (n_sub_values k) m1 d1 q1)
    as (q2 & m2 & d2 & Hv); [done..|].
  rewrite (m_bind_run _ _ _ _ _ Hv).
  destruct (compare_values_classified (ids ++ [key_id k]) (ks ++ [k]) vs (n_path k) (n_sub_values k)
    m1 d1 q1 q2 m2 d2) as [Hq2 Hv2]; [done..|].
  match goal with |- context [m_bind ?x _ q2] => assert (x q2 = (q2, Ok ())) as Hpr end.
  { unfold m_lift. case_match; [by rewrite update_keys_compared_ok|done]. }
  rewrite (m_bind_run _ _ _ _ _ Hpr). by eapply IH.
Qed.

Lemma deleted_loop_runs rem d p :
  good p -> rem.*1 ⊆ B.*1 -> exists p' d', deleted_loop depth rem d p = (p', Ok d').
Proof using Hlook Hvalue Hfound.
  revert d p. induction rem as [|[[path name] h] rem IH]; intros d p Hp Hsub; [by eexists _, _|].
  cbn [deleted_loop]. rewrite fmap_cons in Hsub.
  assert ((path, name) ∈ B.*1) as Hin by (apply Hsub; by left).
  assert (rem.*1 ⊆ B.*1) as Hsub' by (intros id Hid; apply Hsub; by right).
  destruct (Hlook path p) as (q & k & Hk); [by eapply asked_of_id|done|].
  rewrite (m_bind_run _ _ _ _ _ Hk). apply Hfound in Hk as [Hq Hk]; [|by eapply asked_of_id|done].
  destruct name as [name|]; [|by apply IH].
  destruct (Hvalue path name k Hin Hk) as [v Hv].
  rewrite (m_bind_run _ _ q q v) by (unfold m_lift; by rewrite Hv). by apply IH.
Qed.
End Total.
End Lookups.

Lemma remaining_ids (B : list (ItemId * option Hash)) (ids : list ItemId) (m : OriginalMap) :
  NoDup B.*1 -> (forall id h, m !! id = Some h <-> (id, h) ∈ B /\ id ∉ ids) ->
  (map_to_list m).*1 ≡ₚ filter (fun id => id ∉ ids) B.*1.
Proof.
  intros Hnd Hm. apply NoDup_Permutation.
  - apply NoDup_fst_map_to_list.
  - by apply NoDup_filter.
  - intros id. rewrite list_elem_of_filter, !list_elem_of_fmap. split.
    + intros ([i h] & -> & Hin%elem_of_map_to_list%Hm). cbn. destruct Hin.
      split; [done|]. by exists (i, h).
    + intros [Hn ([i h] & -> & Hin)]. exists (i, h). split; [done|].
      by apply elem_of_map_to_list, Hm.
Qed.

Lemma base_map_lookup (B : list (ItemId * option Hash)) id h :
  NoDup B.*1 -> insert_all B ∅ !! id = Some h <-> (id, h) ∈ B /\ id ∉ ([] : list ItemId).
Proof. intros Hnd. rewrite insert_all_lookup by done. rewrite lookup_empty. set_solver. Qed.

(** At the start. *)
Lemma base_classified found (B : list (ItemId * option Hash)) :
  NoDup B.*1 -> classified B found [] [] [] (insert_all B ∅) no_differences.
Proof. intros Hnd. split; try done. intros id h. by apply base_map_lookup. Qed.

(** The differences, with what lookups find left open. *)
Lemma compare_parsers_reports depth good found n fuel f get_parser2 p1 p2 ks1 ks2 d :
  let base := item_hashes ks1 in
  (forall path p p' k, path ∈ base.*1.*1 -> good p -> original_key depth path p = (p', Ok k) ->
     good p' /\ found path k) ->
  good p1 ->
  (forall m, map_order m ≡ₚ map_to_list m) ->
  get_parser2 = Ok p2 ->
  iterate n fuel depth p1 f = Ok ks1 -> iterate n fuel depth p2 f = Ok ks2 ->
  NoDup (item_hashes ks1).*1 -> NoDup (item_hashes ks2).*1 ->
  compare_parsers stdout map_order n fuel depth f get_parser2 p1 = Ok d ->
  keys_added d = filter (fun k => is_new base (key_id k)) ks2 /\
  values_added d = filter (fun pv => is_new base (value_id pv)) (values_of ks2) /\
  (keys_modified d).*2 = filter (fun k => is_changed base (key_id k) (n_hash k)) ks2 /\
  (fun x => (x.1.1, x.2)) <$> values_modified d
    = filter (fun pv => is_changed base (value_id pv) (cv_hash pv.2)) (values_of ks2) /\
  Forall (fun x => found (n_path x.2) x.1) (keys_modified d) /\
  Forall (fun x => found_value found x.1.1 (value_name x.2) x.1.2) (values_modified d) /\
  exists deleted, deleted ≡ₚ filter (fun id => id ∉ (item_hashes ks2).*1) base.*1 /\
    Forall2 (fun id k => found id.1 k)
      (filter (fun id => id.2 = None) deleted) (keys_deleted d) /\
    Forall2 (fun id pv => exists k name, id.2 = Some name /\ found id.1 k /\
                          get_value k name = Some pv.2 /\ pv.1 = n_path k)
      (filter (fun id => id.2 <> None) deleted) (values_deleted d).
Proof.
  intros base Hfound Hp1 Hord -> H1 H2 Hnd1 Hnd2. unfold compare_parsers.
  intros Hrun. apply bind_Ok in Hrun as ([k1 v1] & _ & Hrun).
  rewrite H1 in Hrun. cbn [mbind res_bind] in Hrun.
  apply bind_Ok in Hrun as ([om ka] & Hb & Hrun). apply base_loop_map in Hb as [-> ->].
  apply bind_Ok in Hrun as ([] & _ & Hrun). cbn [mbind res_bind] in Hrun.
  apply bind_Ok in Hrun as ([k2 v2] & _ & Hrun). rewrite H2 in Hrun.
  cbn [mbind res_bind] in Hrun.
  match type of Hrun with (snd (?m p1)) = _ => destruct (m p1) as [p' r] eqn:Hm end.
  cbn in Hrun. subst r.
  apply m_bind_Ok in Hm as (q & [[m d1] ka'] & Hloop & Hm).
  apply m_bind_Ok in Hm as (q' & [] & [= <- _] & Hdel).
  apply (compare_loop_classified depth base good found Hnd1 Hfound [] [] []) in Hloop
    as [Hq [Hmap ? ? ? ? ? ? Hkd Hvd]]; [|done|by apply base_classified|done].
  cbn [app] in *.
  assert ((map_order m).*1 ≡ₚ filter (fun id => id ∉ (item_hashes ks2).*1) base.*1) as Hperm
    by (rewrite (Hord m); by apply remaining_ids).
  apply (deleted_loop_found depth base good found Hfound) in Hdel as (ks & vs & -> & Hks & Hvs);
    [|done|].
  2: { intros id. rewrite Hperm, list_elem_of_filter. by intros []. }
  cbn [fst snd] in *. rewrite Hkd, Hvd in *.
  split_and!; try done. by eexists.
Qed.

Lemma base_loop_ok kt keys n m :
  (forall t, stdout t = Ok ()) ->
  base_loop stdout kt keys n m = Ok (insert_all (item_hashes keys) m, n + len keys).
Proof.
  intros Hout.
  assert (exists x, base_loop stdout kt keys n m = Ok x) as ([m' n'] & H).
  { revert n m. induction keys as [|k ks IH]; intros n m; cbn [base_loop]; [by eexists|].
    rewrite update_parsed_keys_ok by done. case_match; apply IH. }
  rewrite H. by apply base_loop_map in H as [-> ->].
Qed.

Lemma count_ok n fuel depth f p ks :
  iterate n fuel depth p f = Ok ks ->
  exists x, count_all_keys_and_values (Er:=Error) n fuel depth p f = Ok x.
Proof.
  unfold iterate, count_all_keys_and_values. intros ->. by eexists.
Qed.

(** The comparison ends with differences when lookups of the base's items succeed. *)
Lemma compare_parsers_returns depth good found n fuel f p1 p2 ks1 ks2 :
  let base := item_hashes ks1 in
  (forall path p p' k, path ∈ base.*1.*1 -> good p -> original_key depth path p = (p', Ok k) ->
     good p' /\ found path k) ->
  (forall path p, path ∈ base.*1.*1 -> good p ->
     exists p' k, original_key depth path p = (p', Ok k)) ->
  (forall path name k, (path, Some name) ∈ base.*1 -> found path k -> is_Some (get_value k name)) ->
  (forall t, stdout t = Ok ()) -> (forall m, map_order m ≡ₚ map_to_list m) ->
  good p1 -> iterate n fuel depth p1 f = Ok ks1 -> iterate n fuel depth p2 f = Ok ks2 ->
  NoDup base.*1 -> NoDup (item_hashes ks2).*1 ->
  exists d, compare_parsers stdout map_order n fuel depth f (Ok p2) p1 = Ok d.
Proof.
  intros base Hfound Hlook Hvalue Hout Hord Hp1 H1 H2 Hnd1 Hnd2. unfold compare_parsers.
  destruct (count_ok n fuel depth f p1 ks1 H1) as ([k1 v1] & ->).
  destruct (count_ok n fuel depth f p2 ks2 H2) as ([k2 v2] & Hc2).
  cbn [mbind res_bind]. rewrite H1. cbn [mbind res_bind]. rewrite base_loop_ok by done.
  cbn [mbind res_bind]. rewrite update_parsed_keys_ok by done. cbn [mbind res_bind].
  rewrite Hc2. cbn [mbind res_bind]. rewrite H2. cbn [mbind res_bind].
  destruct (compare_loop_runs depth base good found Hnd1 Hfound Hlook Hvalue Hout [] [] [] k2 ks2 0
    (insert_all base ∅) no_differences p1) as (q & m & d & ka & Hrun);
    [done|by apply base_classified|done|].
  rewrite (m_bind_run _ _ _ _ _ Hrun).
  apply (compare_loop_classified depth base good found Hnd1 Hfound [] [] []) in Hrun
    as [Hq [Hmap _ _ _ _ _ _ _ _]]; [|done|by apply base_classified|done].
  rewrite (m_bind_run _ _ q q ()) by (unfold m_lift; by rewrite update_keys_compared_ok).
  destruct (deleted_loop_runs depth base good found Hfound Hlook Hvalue (map_order m) d q Hq)
    as (q' & d' & Hdel); [|exists d'; cbn [fst snd]; by rewrite Hdel].
  cbn [app] in Hmap. intros id. rewrite (Hord m), (remaining_ids _ _ _ Hnd1 Hmap), list_elem_of_filter.
  by intros [].
Qed.

(** C6: what two hives differ in: when no item occurs twice in either, a key or value of the
    comparison hive is reported as added exactly when the base hive has no item of its path and
    name, as modified exactly when the base's hash differs (shown with the base's item), and the
    items reported as deleted are, each once, those of the base hive that the other lacks. *)
Theorem compare_parsers_classifies n fuel depth f get_parser2 p1 p2 ks1 ks2 d :
  (forall m, map_order m ≡ₚ map_to_list m) ->
  get_parser2 = Ok p2 ->
  iterate n fuel depth p1 f = Ok ks1 -> iterate n fuel depth p2 f = Ok ks2 ->
  NoDup (item_hashes ks1).*1 -> NoDup (item_hashes ks2).*1 ->
  compare_parsers stdout map_order n fuel depth f get_parser2 p1 = Ok d ->
  let base := item_hashes ks1 in
  keys_added d = filter (fun k => is_new base (key_id k)) ks2 /\
  values_added d = filter (fun pv => is_new base (value_id pv)) (values_of ks2) /\
  (keys_modified d).*2 = filter (fun k => is_changed base (key_id k) (n_hash k)) ks2 /\
  (fun x => (x.1.1, x.2)) <$> values_modified d
    = filter (fun pv => is_changed base (value_id pv) (cv_hash pv.2)) (values_of ks2) /\
  Forall (fun x => finds_key depth p1 (n_path x.2) x.1) (keys_modified d) /\
  Forall (fun x => finds_value depth p1 x.1.1 (value_name x.2) x.1.2) (values_modified d) /\
  exists deleted, deleted ≡ₚ filter (fun id => id ∉ (item_hashes ks2).*1) base.*1 /\
    Forall2 (fun id k => finds_key depth p1 id.1 k)
      (filter (fun id => id.2 = None) deleted) (keys_deleted d) /\
    Forall2 (fun id pv => exists k name, id.2 = Some name /\ finds_key depth p1 id.1 k /\
                          get_value k name = Some pv.2 /\ pv.1 = n_path k)
      (filter (fun id => id.2 <> None) deleted) (values_deleted d).
Proof.
  intros Hord H2 Hk1 Hk2 Hnd1 Hnd2 Hrun.
  apply (compare_parsers_reports depth (same_file p1) (finds_key depth p1) n fuel f get_parser2 p1 p2);
    try done.
  intros path p p' k _ Hp Hk. by apply and_comm, original_key_finds with (p := p).
Qed.

(** ** Hives with the same items *)

(** The items of [l] are in the map with their hashes. *)
Definition all_same (l : list (ItemId * option Hash)) (m : OriginalMap) : Prop :=
  NoDup l.*1 /\ Forall (fun e => m !! e.1 = Some e.2) l.

Lemma all_same_cons id h l m :
  all_same ((id, h) :: l) m -> m !! id = Some h /\ all_same l (delete id m).
Proof.
  intros [Hnd Hm]. rewrite fmap_cons in Hnd. apply NoDup_cons in Hnd as [Hni Hnd].
  apply Forall_cons in Hm as [Hid Hm]. split; [done|]. split; [done|].
  rewrite Forall_forall in *. intros [i x] Hin. cbn.
  rewrite lookup_delete_ne; [by apply (Hm (i, x))|]. intros ->.
  by apply Hni, (list_elem_of_fmap_2' fst _ (i, x)).
Qed.

Definition remove_all (l : list (ItemId * option Hash)) (m : OriginalMap) : OriginalMap :=
  foldl (fun m e => delete e.1 m) m l.

Lemma remove_all_lookup l m id :
  remove_all l m !! id = if decide (id ∈ l.*1) then None else m !! id.
Proof.
  revert m. induction l as [|[i h] l IH]; intros m; [by rewrite decide_False by set_solver|].
  change (remove_all ((i, h) :: l) m) with (remove_all l (delete i m)).
  rewrite IH, fmap_cons. cbn [fst]. destruct (decide (id ∈ l.*1)).
  - by rewrite decide_True by set_solver.
  - destruct (decide (i = id)) as [->|].
    + by rewrite lookup_delete_eq, decide_True by set_solver.
    + by rewrite lookup_delete_ne, decide_False by set_solver.
Qed.

Lemma compare_values_unchanged depth path vs rest m d p :
  let l := (fun pv => (value_id pv, cv_hash pv.2)) <$> (pair path <$> vs) in
  all_same (l ++ rest) m ->
  compare_values depth path vs (m, d) p = (p, Ok (remove_all l m, d)) /\
  all_same rest (remove_all l m).
Proof.
  cbv zeta. revert m. induction vs as [|v vs IH]; intros m; [by intros H|].
  rewrite !fmap_cons. cbn [app]. intros [Hid H]%all_same_cons. apply IH in H as [H1 H2].
  split; [|exact H2]. cbn [compare_values]. unfold compare_value at 1.
  change (path, Some (value_name v)) with (value_id (path, v)). cbn [snd] in *.
  rewrite Hid, decide_True by done. exact H1.
Qed.

Lemma compare_loop_unchanged depth kt keys n m d p :
  (forall t, stdout t = Ok ()) -> all_same (item_hashes keys) m ->
  compare_loop stdout depth kt keys n (m, d) p
  = (p, Ok ((remove_all (item_hashes keys) m, d), n + len keys)).
Proof.
  intros Hout. revert n m. induction keys as [|k keys IH]; intros n m.
  { intros _. cbn. by rewrite Z.add_0_r. }
  unfold item_hashes. cbn [mbind list_bind]. unfold key_hashes at 1. cbn [app].
  intros [Hid H]%all_same_cons.
  apply (compare_values_unchanged depth (n_path k) (n_sub_values k) _ _ d p) in H as [H1 H2].
  assert (compare_key depth k (m, d) p = (p, Ok (delete (key_id k) m, d))) as Hk.
  { unfold compare_key. change (n_path k, None) with (key_id k). by rewrite Hid, decide_True. }
  cbn [compare_loop]. rewrite (m_bind_run _ _ _ _ _ Hk), (m_bind_run _ _ _ _ _ H1).
  match goal with |- m_bind ?x _ _ = _ => assert (x p = (p, Ok ())) as Hp end.
  { unfold m_lift. case_match; [by rewrite update_keys_compared_ok|done]. }
  rewrite (m_bind_run _ _ _ _ _ Hp).
  rewrite IH by exact H2. rewrite len_cons. unfold remove_all. cbn [foldl]. rewrite foldl_app.
  do 2 f_equal. f_equal. lia.
Qed.

(** Comparing hives that hold the same items with the same hashes, in whatever order,
    finds no difference; the base hive is not even searched. *)
Lemma same_items_no_differences n fuel depth f p1 p2 ks1 ks2 :
  (forall m, map_order m ≡ₚ map_to_list m) -> (forall t, stdout t = Ok ()) ->
  iterate n fuel depth p1 f = Ok ks1 -> iterate n fuel depth p2 f = Ok ks2 ->
  NoDup (item_hashes ks1).*1 -> item_hashes ks2 ≡ₚ item_hashes ks1 ->
  compare_parsers stdout map_order n fuel depth f (Ok p2) p1 = Ok no_differences.
Proof.
  intros Hord Hout H1 H2 Hnd Hperm. unfold compare_parsers.
  destruct (count_ok n fuel depth f p1 ks1 H1) as ([k1 v1] & ->).
  destruct (count_ok n fuel depth f p2 ks2 H2) as ([k2 v2] & Hc2).
  cbn [mbind res_bind]. rewrite H1. cbn [mbind res_bind]. rewrite base_loop_ok by done.
  cbn [mbind res_bind]. rewrite update_parsed_keys_ok by done. cbn [mbind res_bind].
  rewrite Hc2. cbn [mbind res_bind]. rewrite H2. cbn [mbind res_bind].
  assert (NoDup (item_hashes ks2).*1) as Hnd2 by (by rewrite Hperm).
  unfold m_bind at 1. rewrite compare_loop_unchanged; [|done|split; [done|]].
  2: { apply Forall_forall. intros [id h] Hin. cbn. apply base_map_lookup; [done|].
       split; [|set_solver]. by rewrite <- Hperm. }
  unfold m_bind, m_lift. rewrite update_keys_compared_ok by done. cbn [fst snd].
  assert (remove_all (item_hashes ks2) (insert_all (item_hashes ks1) ∅) = ∅) as ->.
  { apply map_eq. intros id. rewrite remove_all_lookup, lookup_empty. case_decide as Hin; [done|].
    destruct (insert_all _ ∅ !! id) as [h|] eqn:Hl; [|done].
    apply base_map_lookup in Hl as [Hl _]; [|done]. exfalso. apply Hin.
    rewrite Hperm. by apply (list_elem_of_fmap_2' fst _ (id, h)). }
  pose proof (Hord ∅) as Hnil. rewrite map_to_list_empty in Hnil.
  apply Permutation_nil_r in Hnil. by rewrite Hnil.
Qed.
End Classification.

(** ** Samples *)

Lemma compare_parsers_classifies_witness :
  exists ks2 d, iterate (E:=env_ref) 9 9 9 (small_hive "d") None = Ok ks2 /\
    compare_parsers (E:=env_ref) (fun _ => Ok ()) map_to_list 9 9 9 None (Ok (small_hive "d"))
      (small_hive "c") = Ok d /\
    (n_path <$> keys_added d) = [lit "\r\d"] /\ (n_path <$> keys_deleted d) = [lit "\r\c"] /\
    (exists ks1, keys_added d = filter (fun k : @CellKeyNode env_ref =>
       is_new (E:=env_ref) (item_hashes ks1) (key_id k)) ks2).
Proof.
  destruct (on_ok_Some (fun ks => (item_hashes (E:=env_ref) ks).*1)
    (iterate (E:=env_ref) 9 9 9 (small_hive "c") None) [(lit "\r", None); (lit "\r\c", None)])
    as (ks1 & H1 & I1); [vm_compute; reflexivity|].
  destruct (on_ok_Some (fun ks => (item_hashes (E:=env_ref) ks).*1)
    (iterate (E:=env_ref) 9 9 9 (small_hive "d") None) [(lit "\r", None); (lit "\r\d", None)])
    as (ks2 & H2 & I2); [vm_compute; reflexivity|].
  destruct (on_ok_Some (fun d => (n_path <$> keys_added d, n_path <$> keys_deleted d))
    (compare_parsers (E:=env_ref) (fun _ => Ok ()) map_to_list 9 9 9 None (Ok (small_hive "d"))
      (small_hive "c")) ([lit "\r\d"], [lit "\r\c"])) as (d & Hd & Id); [vm_compute; reflexivity|].
  exists ks2, d. injection Id as Ia Ib. split_and!; [exact H2|exact Hd|exact Ia|exact Ib|].
  exists ks1.
  destruct (@compare_parsers_classifies env_ref (fun _ => Ok ()) map_to_list 9%nat 9%nat 9%nat None
    (Ok (small_hive "d")) (small_hive "c") (small_hive "d") ks1 ks2 d) as [Ha _].
  - reflexivity.
  - reflexivity.
  - exact H1.
  - exact H2.
  - rewrite I1. apply (bool_decide_unpack _). vm_compute. exact I.
  - rewrite I2. apply (bool_decide_unpack _). vm_compute. exact I.
  - exact Hd.
  - exact Ha.
Defined.
