(* ===== verification/DiffSpec.v ===== *)
(** * DiffSpec: what two trees of keys differ in

    The difference of the trees two hive files store, stated on the trees and not on the
    comparison tool, and the shape of the tool's answer that shows it. *)

From S2P Require Import Prelude Env Util UtilFacts Cells Values ValueFacts State KeyNode KeyNodeFacts Parser ParserFacts Hive HiveFacts Cli Compare CompareFacts.

(** ** Lists *)

Lemma filter_swap {A} (P Q : A -> Prop) `{!forall x, Decision (P x), !forall x, Decision (Q x)} (l : list A) :
  filter P (filter Q l) = filter Q (filter P l).
Proof. rewrite !list_filter_filter. apply list_filter_iff. tauto. Qed.
Lemma filter_fmap_iff {A B} (f : A -> B) (P : B -> Prop) (Q : A -> Prop)
    `{!forall x, Decision (P x), !forall x, Decision (Q x)} (l : list A) :
  (forall x, P (f x) <-> Q x) -> filter P (f <$> l) = f <$> filter Q l.
Proof.
  intros Hiff. induction l as [|x l IH]; [done|]. rewrite fmap_cons, !filter_cons, IH.
  destruct (decide (Q x)) as [Hq|Hq].
  - by rewrite decide_True by by apply Hiff.
  - by rewrite decide_False by by rewrite Hiff.
Qed.
Lemma Forall2_flip_in {A B} (R : A -> B -> Prop) (T : B -> A -> Prop) l k :
  Forall2 R l k -> (forall x y, x ∈ l -> R x y -> T y x) -> Forall2 T k l.
Proof.
  induction 1 as [|x y l k Hxy _ IH]; intros Himp; constructor.
  - apply Himp; [by left|done].
  - apply IH. intros x' y' Hx. apply Himp. by right.
Qed.

(** ** Comparing lists by identity and digest *)

Section Lists.
Context {A I D : Type} `{EqDecision I, EqDecision D} (id : A -> I) (digest : A -> D).

(** The elements of [a] whose identity no element of [b] has. *)
Definition only_in (a b : list A) : list A := filter (fun x => id x ∉ (id <$> b)) a.

(** The pairs of an element of [base] and one of [l] of the same identity and another digest. *)
Definition differs (x : A * A) : Prop := id x.1 = id x.2 /\ digest x.1 <> digest x.2.
#[global] Instance differs_dec x : Decision (differs x).
Proof. unfold differs. apply _. Defined.
Definition changed_from (base l : list A) : list (A * A) :=
  filter differs (l ≫= fun b => (fun a => (a, b)) <$> base).

(** An element of [base] that [b] replaces. *)
Definition replaced (base : list A) (b : A) : Prop := Exists (fun a => differs (a, b)) base.
#[global] Instance replaced_dec base b : Decision (replaced base b).
Proof. unfold replaced. apply _. Defined.

Lemma identity_inj (l : list A) a b : NoDup (id <$> l) -> a ∈ l -> b ∈ l -> id a = id b -> a = b.
Proof.
  induction l as [|x l IH]; [set_solver|]. rewrite fmap_cons. intros [Hx Hl]%NoDup_cons.
  intros [->|Ha]%elem_of_cons [->|Hb]%elem_of_cons Heq; [done| | |by apply IH].
  - exfalso. apply Hx. rewrite Heq. by apply list_elem_of_fmap_2.
  - exfalso. apply Hx. rewrite <- Heq. by apply list_elem_of_fmap_2.
Qed.

Lemma changed_from_cons base b l :
  changed_from base (b :: l) = filter differs ((fun a => (a, b)) <$> base) ++ changed_from base l.
Proof. unfold changed_from. cbn [mbind list_bind]. apply filter_app. Qed.

Lemma not_replaced_pairs base b :
  ~ replaced base b -> filter differs ((fun a => (a, b)) <$> base) = [].
Proof.
  unfold replaced. induction base as [|a base IH]; [done|]. rewrite Exists_cons, fmap_cons.
  intros H. rewrite filter_cons_False by tauto. apply IH. tauto.
Qed.

Lemma replaced_pair base a b :
  NoDup (id <$> base) -> a ∈ base -> differs (a, b) ->
  filter differs ((fun a => (a, b)) <$> base) = [(a, b)].
Proof.
  intros Hnd Ha Hd. induction base as [|x base IH]; [by apply not_elem_of_nil in Ha|].
  pose proof Hnd as Hnd'. rewrite fmap_cons in Hnd. apply NoDup_cons in Hnd as [Hx Hnd].
  rewrite fmap_cons. apply elem_of_cons in Ha as [<-|Ha].
  - rewrite filter_cons_True by done. f_equal. apply not_replaced_pairs.
    unfold replaced. rewrite Exists_exists. intros (y & Hy & Heq & _). apply Hx.
    destruct Hd as [Hid _]. cbn in *. rewrite Hid, <- Heq. by apply list_elem_of_fmap_2.
  - rewrite filter_cons_False; [by apply IH|]. intros [Heq _]. cbn in Heq. apply Hx.
    destruct Hd as [Hid _]. cbn in Hid. rewrite Heq, <- Hid. by apply list_elem_of_fmap_2.
Qed.

(** Among the identities [all], those of [a]'s elements: the ones missing from [rest]. *)
Lemma only_in_ids {J} (f : A -> J) (P : J -> Prop) `{!forall j, Decision (P j)} `{EqDecision J}
    (a b : list A) (all rest ids : list J) :
  filter P all = f <$> a -> (forall x, f x ∈ rest <-> id x ∈ (id <$> b)) ->
  ids ≡ₚ filter (fun j => j ∉ rest) all ->
  exists l, l ≡ₚ only_in a b /\ filter P ids = f <$> l.
Proof.
  intros Hall Hrest Hids. assert (filter P ids ≡ₚ f <$> only_in a b) as Hp.
  { rewrite Hids, filter_swap, Hall. unfold only_in.
    rewrite (filter_fmap_iff f _ (fun x => id x ∉ (id <$> b))); [done|].
    intros x. by rewrite Hrest. }
  apply Permutation_map_inv in Hp as (l & Hl & Hp). by exists l.
Qed.

(** Shown elements, each changed one with the element it replaces. *)
Lemma changed_from_shown {C} (R : C -> A -> Prop) (is_new_hash : C -> Prop)
    `{!forall c, Decision (is_new_hash c)} base cs l (mods : list (C * C)) :
  NoDup (id <$> base) -> Forall2 R cs l ->
  (forall c b, R c b -> is_new_hash c <-> replaced base b) ->
  mods.*2 = filter is_new_hash cs ->
  (forall x a b, x ∈ mods -> R x.2 b -> a ∈ base -> id a = id b -> R x.1 a) ->
  Forall2 (fun x y => R x.1 y.1 /\ R x.2 y.2) mods (changed_from base l).
Proof.
  intros Hnd Hall Hiff. revert mods. induction Hall as [|c b cs l Hc _ IH]; intros mods Hm Hold.
  { destruct mods; [constructor|done]. }
  rewrite changed_from_cons. rewrite filter_cons in Hm. destruct (decide (is_new_hash c)) as [Hn|Hn].
  - destruct mods as [|[o c'] mods]; [done|]. rewrite fmap_cons in Hm. injection Hm as -> Hm.
    apply (Hiff c b Hc) in Hn. pose proof Hn as (a & Ha & Hd)%Exists_exists.
    rewrite (replaced_pair base a b) by done. constructor.
    + split; [|done]. apply (Hold (o, c) a b); [by left|done..|by apply Hd].
    + apply IH; [done|]. intros x a' b' Hx. apply Hold. by right.
  - rewrite not_replaced_pairs by (by rewrite <- (Hiff c b Hc)). by apply IH.
Qed.
End Lists.

(** ** The difference of two trees *)

Section Trees.
Context `{E : Env}.

(** A tree is given as its keys with their paths; a value, as its key's path and itself. *)
Abbreviation Entry := (prod ustr KeyData).
Abbreviation Item := (prod ustr HiveValue).
Definition entry_values (kv : Entry) : list Item := pair kv.1 <$> kd_values kv.2.
Definition stored_values (es : list Entry) : list Item := es ≫= entry_values.
Definition item_name (pv : Item) : ustr * ustr := (pv.1, hv_name pv.2).

Record TreeDiff := {
  td_keys_deleted : list Entry;
  td_keys_added : list Entry;
  td_keys_modified : list (Entry * Entry);
  td_values_deleted : list Item;
  td_values_added : list Item;
  td_values_modified : list (Item * Item);
}.
Definition tree_diff (base other : list Entry) : TreeDiff :=
  let vs := stored_values base in
  let vs' := stored_values other in
  {| td_keys_deleted := only_in fst base other;
     td_keys_added := only_in fst other base;
     td_keys_modified := changed_from fst (fun e => key_digest e.2) base other;
     td_values_deleted := only_in item_name vs vs';
     td_values_added := only_in item_name vs' vs;
     td_values_modified := changed_from item_name (fun pv => value_digest pv.2) vs vs' |}.

(** What [reg_compare] found shows a difference of trees; the deleted items may come in another
    order. *)
Definition shows_item (pv : ustr * CellKeyValue) (i : Item) : Prop :=
  pv.1 = i.1 /\ shows_value pv.2 i.2.
Definition shows_in_some_order {A B} (R : A -> B -> Prop) (l : list A) (spec : list B) : Prop :=
  exists l', l' ≡ₚ spec /\ Forall2 R l l'.
Record shows_diff (d : Differences) (td : TreeDiff) : Prop := {
  sd_keys_deleted : shows_in_some_order shows_key (keys_deleted d) (td_keys_deleted td);
  sd_keys_added : Forall2 shows_key (keys_added d) (td_keys_added td);
  sd_keys_modified :
    Forall2 (fun x y => shows_key x.1 y.1 /\ shows_key x.2 y.2)
      (keys_modified d) (td_keys_modified td);
  sd_values_deleted : shows_in_some_order shows_item (values_deleted d) (td_values_deleted td);
  sd_values_added : Forall2 shows_item (values_added d) (td_values_added td);
  sd_values_modified :
    Forall2 (fun x y => shows_item x.1 y.1 /\ shows_item (x.1.1, x.2) y.2)
      (values_modified d) (td_values_modified td);
}.

(** No two keys have the same path, no two values of a key the same name, up to ASCII case. *)
Definition distinct_items (es : list Entry) : Prop :=
  NoDup (to_ascii_lowercase <$> es.*1) /\
  Forall (fun e : Entry => NoDup ((fun v => to_ascii_lowercase (hv_name v)) <$> kd_values e.2)) es.

(** ** The items of keys read and of keys stored *)

Definition entry_hashes (kv : Entry) : list (ItemId * option Hash) :=
  (kv.1, None, Some (key_digest kv.2))
  :: ((fun i : Item => (i.1, Some (hv_name i.2), Some (value_digest i.2))) <$> entry_values kv).
Definition stored_hashes (es : list Entry) : list (ItemId * option Hash) := es ≫= entry_hashes.

Lemma shows_key_hashes k kv : shows_key k kv -> key_hashes k = entry_hashes kv.
Proof.
  intros [[Hp _ _ _ _ _ Hh] Hv]. unfold key_hashes, key_id, key_values, entry_hashes, entry_values.
  rewrite Hp, Hh. f_equal. rewrite <- !list_fmap_compose.
  induction Hv as [|v hv vs hvs [Hn _ _ _ _ Hvh] _ IH]; [done|].
  rewrite !fmap_cons, IH. f_equal. unfold value_id, compose. cbn. by rewrite Hn, Hvh.
Qed.
Lemma shows_keys_hashes ks es : Forall2 shows_key ks es -> item_hashes ks = stored_hashes es.
Proof.
  unfold item_hashes, stored_hashes. induction 1 as [|k e ks es Hk _ IH]; [done|].
  cbn [mbind list_bind]. f_equal; [by apply shows_key_hashes|exact IH].
Qed.

Lemma shows_keys_values ks es :
  Forall2 shows_key ks es -> Forall2 shows_item (values_of ks) (stored_values es).
Proof.
  unfold values_of, stored_values. induction 1 as [|k e ks es [[Hp _ _ _ _ _ _] Hv] _ IH]; [constructor|].
  cbn [mbind list_bind]. apply Forall2_app; [|exact IH].
  unfold key_values, entry_values. rewrite Hp. apply Forall2_fmap.
  eapply Forall2_impl; [exact Hv|]. by split.
Qed.

Definition key_item_id (e : Entry) : ItemId := (e.1, None).
Definition value_item_id (i : Item) : ItemId := (i.1, Some (hv_name i.2)).
Lemma stored_ids_cons e es :
  (stored_hashes (e :: es)).*1
  = key_item_id e :: (value_item_id <$> entry_values e) ++ (stored_hashes es).*1.
Proof.
  unfold stored_hashes. cbn [mbind list_bind]. rewrite fmap_app. unfold entry_hashes at 1.
  rewrite fmap_cons, <- list_fmap_compose. done.
Qed.

(** The entries of the map of items. *)
Lemma key_in_hashes es path h :
  (path, None, h) ∈ stored_hashes es <->
  exists e, e ∈ es /\ e.1 = path /\ h = Some (key_digest e.2).
Proof.
  unfold stored_hashes. rewrite list_elem_of_bind. split.
  - intros (e & [[= -> ->]|Hin]%elem_of_cons & He); [by exists e|].
    by apply list_elem_of_fmap in Hin as (i & [=] & _).
  - intros (e & He & <- & ->). exists e. split; [by left|done].
Qed.
Lemma value_in_hashes es path name h :
  (path, Some name, h) ∈ stored_hashes es <->
  exists i, i ∈ stored_values es /\ item_name i = (path, name) /\ h = Some (value_digest i.2).
Proof.
  unfold stored_hashes, stored_values. rewrite list_elem_of_bind. split.
  - intros (e & [[=]|Hin]%elem_of_cons & He).
    apply list_elem_of_fmap in Hin as (i & [= -> -> ->] & Hi). exists i.
    split; [|done]. apply list_elem_of_bind. by exists e.
  - intros (i & (e & Hi & He)%list_elem_of_bind & [= <- <-] & ->). exists e. split; [|done].
    right. apply list_elem_of_fmap. by exists i.
Qed.

Lemma key_in_ids es path : (path, None) ∈ (stored_hashes es).*1 <-> path ∈ es.*1.
Proof.
  rewrite !list_elem_of_fmap. split.
  - intros ([id h] & [= <-] & (e & He & <- & _)%key_in_hashes). by exists e.
  - intros (e & -> & He). exists (e.1, None, Some (key_digest e.2)). split; [done|].
    apply key_in_hashes. by exists e.
Qed.
Lemma value_in_ids es path name :
  (path, Some name) ∈ (stored_hashes es).*1 <-> (path, name) ∈ item_name <$> stored_values es.
Proof.
  rewrite !list_elem_of_fmap. split.
  - intros ([id h] & [= <-] & (i & Hi & Hn & _)%value_in_hashes). by exists i.
  - intros (i & Hn & Hi). exists (path, Some name, Some (value_digest i.2)). split; [done|].
    apply value_in_hashes. by exists i.
Qed.
Lemma item_path_in es i : i ∈ stored_values es -> i.1 ∈ es.*1.
Proof.
  unfold stored_values, entry_values. intros (e & Hi & He)%list_elem_of_bind.
  apply list_elem_of_fmap in Hi as (v & -> & _). cbn [fst].
  by apply (list_elem_of_fmap_2 fst).
Qed.

Lemma asked_path es path : path ∈ (stored_hashes es).*1.*1 -> path ∈ es.*1.
Proof.
  intros ([p [name|]] & -> & Hin)%list_elem_of_fmap; cbn [fst].
  - apply value_in_ids, list_elem_of_fmap in Hin as (i & [= -> ->] & Hi). by apply item_path_in.
  - by apply key_in_ids.
Qed.

(** The keys among the items, and the values. *)
Lemma key_ids_of es : filter (fun id => id.2 = None) (stored_hashes es).*1 = key_item_id <$> es.
Proof.
  induction es as [|e es IH]; [done|]. rewrite stored_ids_cons, filter_cons_True by done.
  rewrite filter_app, IH, fmap_cons. f_equal.
  by induction (entry_values e) as [|i l IHl].
Qed.
Lemma value_ids_of es :
  filter (fun id => id.2 <> None) (stored_hashes es).*1 = value_item_id <$> stored_values es.
Proof.
  induction es as [|e es IH]; [done|]. rewrite stored_ids_cons, filter_cons_False by (by intros []).
  rewrite filter_app, IH. unfold stored_values. cbn [mbind list_bind]. rewrite fmap_app. f_equal.
  induction (entry_values e) as [|i l IHl]; [done|]. rewrite fmap_cons, filter_cons_True by done.
  by rewrite IHl.
Qed.

(** *** Distinct items *)

Lemma distinct_paths es : distinct_items es -> NoDup es.*1.
Proof. intros [H _]. by apply NoDup_fmap_1 in H. Qed.

Lemma distinct_names es : distinct_items es -> NoDup (item_name <$> stored_values es).
Proof.
  intros Hd. pose proof (distinct_paths es Hd) as Hp. destruct Hd as [_ Hv].
  induction es as [|e es IH]; [constructor|]. rewrite fmap_cons in Hp.
  apply NoDup_cons in Hp as [Hp Hps]. apply Forall_cons in Hv as [Hv Hvs].
  unfold stored_values. cbn [mbind list_bind]. fold (stored_values es). rewrite fmap_app.
  apply NoDup_app. split_and!; [| |by apply IH].
  - unfold entry_values. rewrite <- list_fmap_compose.
    apply (NoDup_fmap_1 (fun x => to_ascii_lowercase x.2)). by rewrite <- list_fmap_compose.
  - intros [p nm] Hin (i & [= -> ->] & Hi)%list_elem_of_fmap. apply item_path_in in Hi.
    apply list_elem_of_fmap in Hin as (j & Hj & Hin). unfold entry_values in Hin.
    apply list_elem_of_fmap in Hin as (v & -> & _). injection Hj as Hj _. cbn in Hj. congruence.
Qed.

Lemma distinct_ids es : distinct_items es -> NoDup (stored_hashes es).*1.
Proof.
  intros Hd. rewrite <- (filter_app_complement (fun id : ItemId => id.2 = None)).
  rewrite key_ids_of, value_ids_of.
  apply NoDup_app. split_and!.
  - apply (NoDup_fmap_1 fst). rewrite <- list_fmap_compose. by apply distinct_paths.
  - intros id (e & -> & _)%list_elem_of_fmap (i & [=] & _)%list_elem_of_fmap.
  - apply (NoDup_fmap_1 (fun id : ItemId => (id.1, default [] id.2))).
    rewrite <- list_fmap_compose. by apply distinct_names.
Qed.

(** ** What lookups in a stored tree find *)

(** A lookup has found the key at the path. *)
Definition found_in (es : list Entry) (path : ustr) (k : CellKeyNode) : Prop :=
  exists e, e ∈ es /\ e.1 = path /\ shows_key k e.

Lemma found_in_shows es path k e :
  NoDup es.*1 -> found_in es path k -> e ∈ es -> e.1 = path -> shows_key k e.
Proof.
  intros Hnd (e' & He' & Hp & Hk) He <-. by rewrite (identity_inj fst es e e').
Qed.

(** A value looked up by name in a key with distinct names. *)
Lemma get_value_stored k vs v :
  Forall2 shows_value (n_sub_values k) vs ->
  NoDup ((fun v => to_ascii_lowercase (hv_name v)) <$> vs) -> v ∈ vs ->
  exists cv, get_value k (hv_name v) = Some cv /\ shows_value cv v.
Proof.
  unfold get_value. generalize (n_sub_values k). intros cvs Hall. induction Hall as [|c w cvs vs Hc _ IH].
  { by intros _ ?%not_elem_of_nil. }
  rewrite fmap_cons. intros [Hn Hnd]%NoDup_cons Hin. cbn [list_find].
  rewrite (sv_name _ _ Hc). apply elem_of_cons in Hin as [->|Hin].
  - rewrite decide_True by done. by exists c.
  - rewrite decide_False.
    2:{ intros Heq. apply Hn. rewrite Heq.
        by apply (list_elem_of_fmap_2 (fun v => to_ascii_lowercase (hv_name v))). }
    destruct (IH Hnd Hin) as (cv & Hf & Hcv). exists cv. split; [|done].
    destruct (list_find _ cvs) as [[n cv']|]; [|done]. by injection Hf as ->.
Qed.

Lemma get_value_found es path k i :
  distinct_items es -> found_in es path k -> i ∈ stored_values es -> i.1 = path ->
  exists cv, get_value k (hv_name i.2) = Some cv /\ shows_value cv i.2 /\ n_path k = path.
Proof.
  intros Hd Hf (e & Hi & He)%list_elem_of_bind Hp. unfold entry_values in Hi.
  apply list_elem_of_fmap in Hi as (v & -> & Hv). cbn in Hp.
  pose proof (found_in_shows es path k e (distinct_paths es Hd) Hf He Hp) as [[Hpath _ _ _ _ _ _] Hvs].
  destruct Hd as [_ Hd]. rewrite Forall_forall in Hd.
  destruct (get_value_stored k (kd_values e.2) v Hvs (Hd e He) Hv) as (cv & Hg & Hs).
  exists cv. split_and!; [done..|congruence].
Qed.

(** ** The answer shows the difference *)

Section Shown.
Context (es1 es2 : list Entry) (ks1 ks2 : list CellKeyNode).
Hypothesis Hd1 : distinct_items es1.
Hypothesis Hks2 : Forall2 shows_key ks2 es2.
Abbreviation base := (stored_hashes es1).

Lemma new_key_iff k e : shows_key k e -> is_new base (key_id k) <-> e.1 ∉ es1.*1.
Proof. intros [[Hp _ _ _ _ _ _] _]. unfold is_new, key_id. by rewrite key_in_ids, Hp. Qed.
Lemma new_value_iff pv i :
  shows_item pv i -> is_new base (value_id pv) <-> item_name i ∉ item_name <$> stored_values es1.
Proof.
  intros [Hp [Hn _ _ _ _ _]]. unfold is_new, value_id. by rewrite value_in_ids, Hp, Hn.
Qed.

Lemma changed_key_iff k e :
  shows_key k e ->
  is_changed base (key_id k) (n_hash k) <-> replaced fst (fun e : Entry => key_digest e.2) es1 e.
Proof.
  intros [[Hp _ _ _ _ _ Hh] _]. unfold is_changed, replaced, differs, key_id.
  rewrite Hp, Hh, !Exists_exists. split.
  - intros ([id h] & Hin & Hid & Hne). cbn in Hid, Hne. subst id.
    apply key_in_hashes in Hin as (a & Ha & Hpa & ->). exists a. cbn. by split_and!; [|done|congruence].
  - intros (a & Ha & Hpa & Hne). exists (e.1, None, Some (key_digest a.2)).
    split; [apply key_in_hashes; by exists a|]. split; [done|]. cbn in *. congruence.
Qed.
Lemma changed_value_iff pv i :
  shows_item pv i ->
  is_changed base (value_id pv) (cv_hash pv.2)
  <-> replaced item_name (fun i : Item => value_digest i.2) (stored_values es1) i.
Proof.
  intros [Hp [Hn _ _ _ _ Hh]]. unfold is_changed, replaced, differs, value_id.
  rewrite Hp, Hn, Hh, !Exists_exists. split.
  - intros ([id h] & Hin & Hid & Hne). cbn in Hid, Hne. subst id.
    apply value_in_hashes in Hin as (a & Ha & Hpa & ->). exists a. cbn.
    by split_and!; [|done|congruence].
  - intros (a & Ha & Hpa & Hne). exists (i.1, Some (hv_name i.2), Some (value_digest a.2)).
    split; [apply value_in_hashes; by exists a|]. split; [done|]. cbn in *. congruence.
Qed.

(** The deleted items are those of the base hive that the other lacks. *)
Lemma deleted_key_ids ids :
  ids ≡ₚ filter (fun id => id ∉ (stored_hashes es2).*1) base.*1 ->
  exists l, l ≡ₚ only_in fst es1 es2 /\ filter (fun id => id.2 = None) ids = key_item_id <$> l.
Proof.
  apply only_in_ids; [apply key_ids_of|]. intros e. unfold key_item_id. by rewrite key_in_ids.
Qed.
Lemma deleted_value_ids ids :
  ids ≡ₚ filter (fun id => id ∉ (stored_hashes es2).*1) base.*1 ->
  exists l, l ≡ₚ only_in item_name (stored_values es1) (stored_values es2) /\
    filter (fun id => id.2 <> None) ids = value_item_id <$> l.
Proof.
  apply only_in_ids; [apply value_ids_of|]. intros i. unfold value_item_id. by rewrite value_in_ids.
Qed.

Lemma shown_diff d ids :
  keys_added d = filter (fun k => is_new base (key_id k)) ks2 ->
  values_added d = filter (fun pv => is_new base (value_id pv)) (values_of ks2) ->
  (keys_modified d).*2 = filter (fun k => is_changed base (key_id k) (n_hash k)) ks2 ->
  (fun x => (x.1.1, x.2)) <$> values_modified d
    = filter (fun pv => is_changed base (value_id pv) (cv_hash pv.2)) (values_of ks2) ->
  Forall (fun x => found_in es1 (n_path x.2) x.1) (keys_modified d) ->
  Forall (fun x => found_value (found_in es1) x.1.1 (value_name x.2) x.1.2) (values_modified d) ->
  ids ≡ₚ filter (fun id => id ∉ (stored_hashes es2).*1) base.*1 ->
  Forall2 (fun id k => found_in es1 id.1 k) (filter (fun id => id.2 = None) ids) (keys_deleted d) ->
  Forall2 (fun id pv => exists k name, id.2 = Some name /\ found_in es1 id.1 k /\
                        get_value k name = Some pv.2 /\ pv.1 = n_path k)
    (filter (fun id => id.2 <> None) ids) (values_deleted d) ->
  shows_diff d (tree_diff es1 es2).
Proof.
  intros Hka Hva Hkm Hvm Hkf Hvf Hids Hkd Hvd.
  pose proof (shows_keys_values ks2 es2 Hks2) as Hvs2.
  pose proof (distinct_paths es1 Hd1) as Hnd. constructor; cbn [tree_diff td_keys_deleted
    td_keys_added td_keys_modified td_values_deleted td_values_added td_values_modified].
  - destruct (deleted_key_ids ids Hids) as (l & Hl & Heq). exists l. split; [done|].
    rewrite Heq, Forall2_fmap_l in Hkd. eapply Forall2_flip_in; [exact Hkd|].
    intros e k He Hf. apply (found_in_shows es1 e.1 k e); [done..| |done].
    rewrite Hl in He. by apply list_elem_of_filter in He as [_ He].
  - rewrite Hka. apply Forall2_filter; [|done]. intros k e Hk. by apply new_key_iff.
  - apply (changed_from_shown fst _ shows_key (fun k => is_changed base (key_id k) (n_hash k)) es1 ks2);
      [done|done|by apply changed_key_iff|done|].
    intros x a b Hx [[Hp _ _ _ _ _ _] _] Ha Hab. rewrite Forall_forall in Hkf.
    apply (found_in_shows es1 (n_path x.2)); [done|by apply Hkf|done|congruence].
  - destruct (deleted_value_ids ids Hids) as (l & Hl & Heq). exists l. split; [done|].
    rewrite Heq, Forall2_fmap_l in Hvd. eapply Forall2_flip_in; [exact Hvd|].
    intros i pv Hi (k & name & [= <-] & Hf & Hg & Hp). rewrite Hl in Hi.
    apply list_elem_of_filter in Hi as [_ Hi].
    destruct (get_value_found es1 i.1 k i) as (cv & Hg' & Hs & Hpath); [done..|].
    split; congruence.
  - rewrite Hva. apply Forall2_filter; [|done]. intros pv i Hi. by apply new_value_iff.
  - pose proof (changed_from_shown item_name (fun i : Item => value_digest i.2) shows_item
      (fun pv => is_changed base (value_id pv) (cv_hash pv.2)) (stored_values es1) (values_of ks2)
      (stored_values es2) ((fun x => (x.1, (x.1.1, x.2))) <$> values_modified d)) as H.
    rewrite Forall2_fmap_l in H. apply H; [by apply distinct_names|done|by apply changed_value_iff| |].
    { by rewrite <- list_fmap_compose. }
    intros x a b (y & -> & Hy)%list_elem_of_fmap [Hp [Hn _ _ _ _ _]] Ha [= Hpa Hna].
    rewrite Forall_forall in Hvf. destruct (Hvf y Hy) as (k & Hf & Hg). cbn in *.
    destruct (get_value_found es1 y.1.1 k a) as (cv & Hg' & Hs & _); [done..|congruence|].
    split; [cbn; congruence|]. cbn. congruence.
Qed.
End Shown.
End Trees.
