(* ===== verification/CompareHive.v ===== *)
(** * CompareHive: two hive files compared

    The composition of opening, traversal, lookup and [reg_compare], against the layout of
    [Hive] and the difference of trees of [DiffSpec]: from the bytes of two hive files to what
    the tool reports. *)

From S2P Require Import Prelude Env Log Util UtilFacts Cells BaseBlock SubKeyLists Values ValueFacts State Filter KeyNode KeyNodeFacts Recover Parser ParserFacts Hive HiveFacts LookupFacts HiveLookup HiveFilter TransactionLog TransactionLogFacts Init InitFacts OpenFacts Cli Compare CompareFacts DiffSpec.

#[local] Opaque lit to_le_bytes fmt_dec.

Section Comparing.
Context `{E : Env} {It : Itertools}.

(** ** The paths of a tree *)

Lemma trim_start_plain c s : c ∉ s -> trim_start_char c s = s.
Proof.
  destruct s as [|x s]; [done|]. intros Hn. cbn.
  by rewrite (proj2 (Z.eqb_neq x c)) by (intros ->; apply Hn; by left).
Qed.
Lemma trim_end_plain c s : c ∉ s -> trim_end_char c s = s.
Proof.
  intros Hn. unfold trim_end_char. rewrite trim_start_plain by by rewrite elem_of_reverse.
  apply reverse_involutive.
Qed.

(** A path in the tree is its top's, or the top's and a rest that does not end in a backslash. *)
Definition below (P : ustr) (levels : nat) (path : ustr) : Prop :=
  exists rest, path = P ++ [BACKSLASH] ++ rest /\ rest <> [] /\
    trim_end_char BACKSLASH rest = rest /\ (length (segs rest) < levels)%nat.

Lemma stored_path parent t kv :
  every_key good_name t -> kv ∈ keys parent t ->
  kv.1 = hk_path parent t \/ below (hk_path parent t) (levels t) kv.1.
Proof.
  remember (levels t) as m eqn:Hm. revert parent t Hm.
  induction m as [m IH] using lt_wf_ind. intros parent t -> Hgood Hin.
  rewrite keys_eq in Hin. apply elem_of_cons in Hin as [->|Hin]; [by left|right].
  apply keys_of_In in Hin as (s & Hs & Hin).
  apply every_key_eq in Hgood as [_ Hgood]. rewrite Forall_forall in Hgood. specialize (Hgood s Hs).
  pose proof (levels_child s t Hs) as Hlt.
  pose proof Hgood as [[Hne Hplain] _]%every_key_eq.
  destruct (IH _ Hlt (hk_path parent t) s eq_refl Hgood Hin) as [->|(rest & -> & Hr & Htrim & Hlen)].
  - exists (hk_name s). split_and!; [done|done|by apply trim_end_plain|].
    rewrite segs_plain by done. cbn [length]. destruct s. cbn [levels] in Hlt. lia.
  - exists (hk_name s ++ [BACKSLASH] ++ rest). split_and!.
    + unfold hk_path at 1. by rewrite <- !app_assoc.
    + by destruct (hk_name s).
    + rewrite app_assoc, trim_end_app by congruence. by rewrite Htrim, <- app_assoc.
    + rewrite segs_app, length_app, (segs_plain (hk_name s)) by done. cbn [length]. lia.
Qed.

Lemma first_at_distinct es (e : ustr * KeyData) :
  NoDup (to_ascii_lowercase <$> es.*1) -> e ∈ es -> first_at e.1 es = Some e.
Proof.
  induction es as [|x es IH]; [by intros _ ?%not_elem_of_nil|].
  rewrite !fmap_cons, first_at_cons. intros [Hx Hnd]%NoDup_cons [->|He]%elem_of_cons.
  - by rewrite decide_True.
  - rewrite decide_False; [by apply IH|]. intros Heq. apply Hx. rewrite Heq.
    by apply list_elem_of_fmap_2, list_elem_of_fmap_2.
Qed.

(** ** Looking a stored key up by its path *)

(** What follows the root's name in a stored path. *)
Lemma path_below_root_stored name rest :
  name <> [] -> BACKSLASH ∉ name ->
  path_below_root (BACKSLASH :: name) true = Some [] /\
  path_below_root (BACKSLASH :: name ++ BACKSLASH :: rest) true = Some rest.
Proof.
  intros Hne Hn. unfold path_below_root. cbn [trim_start_char]. rewrite Z.eqb_refl.
  rewrite trim_start_plain by done. rewrite trim_start_app by by rewrite trim_start_plain.
  rewrite trim_start_plain by done. split.
  - assert (str_find BACKSLASH name = None) as ->; [|done]. clear Hne.
    induction name as [|c name IH]; [done|]. cbn [str_find].
    rewrite (proj2 (Z.eqb_neq c _)) by (intros ->; apply Hn; by left).
    by rewrite IH by (intros H; apply Hn; by right).
  - rewrite str_find_root by done. rewrite <- (str_from_skip (name ++ [BACKSLASH]) rest).
    f_equal; [by rewrite <- app_assoc|]. by rewrite str_len_app.
Qed.

Lemma original_key_stored depth d p t path :
  base_block_leads d p t -> every_key good_name t ->
  NoDup (to_ascii_lowercase <$> (keys [] t).*1) -> (d + levels t <= depth)%nat ->
  path ∈ (keys [] t).*1 ->
  exists p' k, original_key depth path p = (p', Ok k) /\ base_block_leads d p' t /\
    found_in (keys [] t) path k.
Proof.
  intros Hbl Hgood Hnd Hdepth (e & -> & He)%list_elem_of_fmap.
  pose proof Hgood as [[Hne Hplain] Hsubs]%every_key_eq.
  assert (1 <= depth)%nat as H1 by (destruct t; cbn [levels] in Hdepth; lia).
  assert (exists rest, path_below_root e.1 true = Some rest /\
    (rest = [] \/ trim_end_char BACKSLASH rest <> []) /\
    (d + length (segs (trim_end_char BACKSLASH rest)) <= depth)%nat /\
    target_path (hk_path [] t) rest = e.1) as (rest & Hrest & Htrim & Hlen & Htarget).
  { destruct (path_below_root_stored (hk_name t) [] Hne Hplain) as [Hroot _].
    destruct (stored_path [] t e Hgood He) as [->|(rest & -> & Hr & Htr & Hl)].
    - exists []. unfold target_path. rewrite decide_True by done.
      split_and!; [exact Hroot|by left| |done]. cbn. destruct t; cbn [levels] in Hdepth. lia.
    - exists rest. unfold target_path. rewrite Htr, decide_False by done.
      split_and!; [|by right|lia|done].
      destruct (path_below_root_stored (hk_name t) rest Hne Hplain) as [_ H]. rewrite <- H.
      unfold hk_path. cbn [app]. f_equal. }
  destruct (get_key_stored depth d e.1 true p t rest) as (p' & r & Hr & Hbl' & Hf); [done..|].
  rewrite Htarget, (first_at_distinct (keys [] t) e Hnd He) in Hf. destruct Hf as (k & -> & Hk).
  exists p', k. unfold original_key. rewrite Hr. split_and!; [done..|]. by exists e.
Qed.

(** ** The tool *)

Section Tool.
Context {W : Type} `{!Write W}.
Variable stdout : ustr -> res Error ().
Variable hash_order : RegItemMap -> list (RegItemMapKey * RegItemMapValue).
Variable map_order : OriginalMap -> list (ItemId * option Hash).
Hypothesis Hout : forall t, stdout t = Ok ().
Hypothesis Hord : forall m, map_order m ≡ₚ map_to_list m.
Variable fs_open : PathBuf -> res Error (res Error (list byte)).
Variable fs_create : PathBuf -> ustr + W.

(** A hive file and its logs can be read, and the logs are not needed. *)
Record opens (primary : PathBuf) (logs : option (list PathBuf)) (data : list byte) : Prop := {
  op_file : fs_open primary = Ok (Ok data);
  op_logs : exists files parsed w, mapM id (fs_open <$> default [] logs) = Ok files /\
    TransactionLog_parse files = Ok (parsed, w) /\ (parsed = [] \/ settled data);
}.

Lemma with_logs_fields logs b :
  let b' := foldl (fun b log => fp_with_transaction_log (fs_open log) b) b logs in
  fp_primary b' = fp_primary b /\ fp_base b' = fp_base b /\
  fp_transaction_logs b' = fp_transaction_logs b ++ (fs_open <$> logs).
Proof.
  cbv zeta. revert b. induction logs as [|log logs IH]; intros b; [by rewrite app_nil_r|].
  cbn [foldl]. destruct (IH (fp_with_transaction_log (fs_open log) b)) as (-> & -> & ->).
  cbn. by rewrite <- app_assoc.
Qed.

Lemma get_parser_stored depth d primary logs data t :
  opens primary logs data -> hive_file d data t -> (1 <= depth)%nat ->
  exists p, (forall n fuel,
      get_parser stdout hash_order n fuel depth fs_open primary logs = Ok p) /\
    parser_stores d p t /\ (as_i32 (le_at 4 36 data) = 32 -> base_block_leads d p t).
Proof.
  intros [Hfile (files & parsed & w & Hfiles & Hparse & Hlogs)] Hhive Hdepth.
  destruct (build_stored stdout hash_order depth d data t ParserBuilderBase_default files parsed w)
    as (p & Hb & Hst & _ & Hbl); [done..|].
  exists p. split; [|done]. intros n fuel. unfold get_parser, fp_build.
  destruct (with_logs_fields (default [] logs) (from_path (fs_open primary))) as (-> & -> & ->).
  cbn [from_path fp_transaction_logs fp_primary fp_base app]. rewrite Hfiles, Hfile.
  cbn [mbind res_bind]. apply Hb.
Qed.

(** One bound serves both traversals. *)
Lemma iterate_stored depth d1 d2 p1 p2 t1 t2 :
  (1 <= depth)%nat -> (d1 <= depth)%nat -> (d2 <= depth)%nat ->
  parser_stores d1 p1 t1 -> parser_stores d2 p2 t2 ->
  exists m ks1 ks2, iterate m m depth p1 None = Ok ks1 /\ iterate m m depth p2 None = Ok ks2 /\
    Forall2 shows_key ks1 (keys [] t1) /\ Forall2 shows_key ks2 (keys [] t2).
Proof.
  intros Hdepth Hd1 Hd2 H1 H2.
  destruct (traversal_stored (Er:=Error) depth p1 d1 t1 Hdepth Hd1 H1) as (m1 & ks1 & Hk1 & Hs1).
  destruct (traversal_stored (Er:=Error) depth p2 d2 t2 Hdepth Hd2 H2) as (m2 & ks2 & Hk2 & Hs2).
  exists (m1 `max` m2)%nat, ks1, ks2. unfold iterate.
  split_and!; [| |done|done]; (eapply collect_keys_mono; [| |eassumption]); lia.
Qed.

(** For files that store trees of keys (no two with the same path, no two values of a key with
    the same name, up to ASCII case), whose logs are not needed, [reg_compare] opens both, ends,
    and writes a report of exactly the keys and values that are in one tree only or differ in
    their hash, each as stored: the deleted ones in some order, the others in that of a
    traversal. *)
Lemma compare_stored_hives depth d1 d2 data1 data2 t1 t2 output writer
    base base_logs other other_logs use_diff_format :
  opens base base_logs data1 -> opens other other_logs data2 ->
  hive_file d1 data1 t1 -> hive_file d2 data2 t2 ->
  as_i32 (le_at 4 36 data1) = 32 -> every_key good_name t1 ->
  distinct_items (keys [] t1) -> distinct_items (keys [] t2) ->
  (d1 + levels t1 <= depth)%nat -> (d2 <= depth)%nat -> fs_create output = inr writer ->
  exists m d, shows_diff d (tree_diff (keys [] t1) (keys [] t2)) /\
    reg_compare stdout hash_order map_order m m depth fs_open fs_create output base base_logs
      other other_logs None use_diff_format
    = let names := (filenames base base_logs, filenames other other_logs) in
      match (if use_diff_format then write_diff names.1 names.2 d
             else write_text names.1 names.2 d) writer with
      | (writer, r) => _ ← r; Ok writer
      end.
Proof.
  intros Ho1 Ho2 Hh1 Hh2 H32 Hgood Hdist1 Hdist2 Hdepth Hd2 Hcreate.
  assert (1 <= levels t1)%nat as Hlev by (destruct t1; cbn [levels]; lia).
  destruct (get_parser_stored depth d1 base base_logs data1 t1) as (p1 & Hp1 & Hst1 & Hbl);
    [done|done|lia|].
  destruct (get_parser_stored depth d2 other other_logs data2 t2) as (p2 & Hp2 & Hst2 & _);
    [done|done|lia|].
  destruct (iterate_stored depth d1 d2 p1 p2 t1 t2) as (m & ks1 & ks2 & Hk1 & Hk2 & Hs1 & Hs2);
    [lia..|done|done|].
  pose proof (shows_keys_hashes ks1 _ Hs1) as Hi1. pose proof (shows_keys_hashes ks2 _ Hs2) as Hi2.
  assert (NoDup (item_hashes ks1).*1) as Hnd1 by (rewrite Hi1; by apply distinct_ids).
  assert (NoDup (item_hashes ks2).*1) as Hnd2 by (rewrite Hi2; by apply distinct_ids).
  assert (forall path p, path ∈ (item_hashes ks1).*1.*1 -> base_block_leads d1 p t1 ->
    exists p' k, original_key depth path p = (p', Ok k) /\ base_block_leads d1 p' t1 /\
      found_in (keys [] t1) path k) as Hlook.
  { intros path p Hin Hp. apply original_key_stored; [done|done|by apply Hdist1|done|].
    rewrite Hi1 in Hin. by apply asked_path in Hin. }
  assert (forall path p p' k, path ∈ (item_hashes ks1).*1.*1 -> base_block_leads d1 p t1 ->
    original_key depth path p = (p', Ok k) ->
    base_block_leads d1 p' t1 /\ found_in (keys [] t1) path k) as Hfound.
  { intros path p p' k Hin Hp Hk. destruct (Hlook path p Hin Hp) as (q & k' & Hk' & ? & ?).
    rewrite Hk in Hk'. by injection Hk' as -> ->. }
  destruct (compare_parsers_returns stdout map_order depth (fun p => base_block_leads d1 p t1)
    (found_in (keys [] t1)) m m None p1 p2 ks1 ks2) as (d & Hd); try done.
  { intros path p Hin Hp. destruct (Hlook path p Hin Hp) as (q & k & Hk & _). by exists q, k. }
  { intros path name k Hin Hf. rewrite Hi1 in Hin.
    apply value_in_ids, list_elem_of_fmap in Hin as (i & [= -> ->] & Hi).
    destruct (get_value_found _ _ k i Hdist1 Hf Hi) as (cv & Hcv & _); [done|]. by exists cv. }
  { by apply Hbl. }
  exists m, d. split.
  - destruct (compare_parsers_reports stdout map_order depth (fun p => base_block_leads d1 p t1)
      (found_in (keys [] t1)) m m None (Ok p2) p1 p2 ks1 ks2 d)
      as (Hka & Hva & Hkm & Hvm & Hkf & Hvf & ids & Hids & Hkd & Hvd); try done; [by apply Hbl|].
    rewrite Hi1 in *. rewrite Hi2 in Hids. by eapply shown_diff.
  - unfold reg_compare. rewrite Hcreate. cbn [mbind res_bind].
    rewrite println_ok by done. cbn [mbind res_bind]. rewrite Hp1. cbn [mbind res_bind].
    rewrite Hp2, Hd. done.
Qed.
End Tool.
End Comparing.
