(* ===== verification/DiffFacts.v ===== *)
(** * DiffFacts: the unified diff can be read back

    Theorems about the report writers of [Compare].  A reader of unified diffs that checks
    every hunk header against the lines that follow it recovers what was written. *)

From S2P Require Import Prelude Env Log Marvin Util UtilFacts Cells BaseBlock SubKeyLists Values ValueFacts State Filter KeyNode KeyNodeFacts Recover Parser ParserFacts TransactionLog TransactionLogFacts Init InitFacts Cli Compare CompareFacts.

(** ** The format *)

Definition NEWLINE : Z := 10.
Definition MINUS : Z := 45.
Definition PLUS : Z := 43.
Definition unlines (ls : list ustr) : ustr := ls ≫= fun l => l ++ [NEWLINE].
Definition hunk_header (lline llen rline rlen : Z) : ustr :=
  lit "@@ -" ++ fmt_dec lline ++ lit "," ++ fmt_dec llen ++ lit " +" ++ fmt_dec rline
  ++ lit "," ++ fmt_dec rlen ++ lit " @@".
Definition hunk (lline rline : Z) (removed added : list ustr) : list ustr :=
  if (0 <? len removed) || (0 <? len added)
  then hunk_header lline (len removed) rline (len added)
       :: (cons MINUS <$> removed) ++ (cons PLUS <$> added)
  else [].
Lemma hunk_header_at a b c d : exists t, hunk_header a b c d = 64 :: t.
Proof. by eexists. Qed.

Fixpoint hunks (lline rline : Z) (sections : list (list ustr * list ustr)) : list ustr :=
  match sections with
  | [] => []
  | (removed, added) :: sections =>
      hunk lline rline removed added ++ hunks (lline + len removed) (rline + len added) sections
  end.

(** ** The reader *)

(** The lines at the front that start with [c], without it, and the rest. *)
Fixpoint span_prefix (c : Z) (ls : list ustr) : list ustr * list ustr :=
  match ls with
  | (x :: l) :: rest =>
      if x =? c then let '(a, b) := span_prefix c rest in (l :: a, b) else ([], ls)
  | _ => ([], ls)
  end.
Fixpoint read_hunks (fuel : nat) (lline rline : Z) (ls : list ustr)
    : option (list (list ustr * list ustr)) :=
  match ls, fuel with
  | [], _ => Some []
  | header :: ls, S k =>
      let '(removed, ls) := span_prefix MINUS ls in
      let '(added, ls) := span_prefix PLUS ls in
      if decide (header = hunk_header lline (len removed) rline (len added))
      then cons (removed, added) <$> read_hunks k (lline + len removed) (rline + len added) ls
      else None
  | _, O => None
  end.
(** The names of the two files, and the hunks. *)
Definition read_diff (s : ustr) : option (ustr * ustr * list (list ustr * list ustr)) :=
  match str_split NEWLINE s with
  | l1 :: l2 :: ls =>
      hs ← read_hunks (length ls) 1 1 (take (length ls - 1) ls);
      Some (drop 4 l1, drop 4 l2, hs)
  | _ => None
  end.

Definition one_line (s : ustr) : Prop := NEWLINE ∉ s.
#[global] Instance one_line_dec s : Decision (one_line s).
Proof. unfold one_line. apply _. Defined.
Definition nonempty_section (sec : list ustr * list ustr) : Prop := sec.1 ++ sec.2 <> [].
#[global] Instance nonempty_section_dec sec : Decision (nonempty_section sec).
Proof. unfold nonempty_section. apply _. Defined.

Lemma dec_digits_one_line fuel n acc : 0 <= n -> one_line acc -> one_line (dec_digits fuel n acc).
Proof.
  unfold one_line, NEWLINE. revert n acc. induction fuel as [|fuel IH]; intros n acc Hn Ha; [done|].
  cbn [dec_digits]. pose proof (Z.mod_pos_bound n 10).
  case_match eqn:H10; [|apply IH; [by apply Z.div_pos|]]; intros [Hc|Hc]%elem_of_cons; try done; lia.
Qed.
Lemma fmt_dec_one_line n : 0 <= n -> one_line (fmt_dec n).
Proof.
  intros Hn. unfold fmt_dec. rewrite (proj2 (Z.ltb_ge _ _) Hn).
  apply dec_digits_one_line; [done|]. unfold one_line. set_solver.
Qed.
Lemma one_line_app a b : one_line a -> one_line b -> one_line (a ++ b).
Proof. unfold one_line. set_solver. Qed.
Lemma lit_one_line (s : string) :
  forallb (fun c => negb (c =? NEWLINE)) (lit s) = true -> one_line (lit s).
Proof.
  intros H Hin. rewrite forallb_forall in H. apply list_elem_of_In, H in Hin.
  by rewrite Z.eqb_refl in Hin.
Qed.
Lemma hunk_header_one_line a b c d :
  0 <= a -> 0 <= b -> 0 <= c -> 0 <= d -> one_line (hunk_header a b c d).
Proof.
  intros. unfold hunk_header.
  repeat apply one_line_app; (apply fmt_dec_one_line || (apply lit_one_line; vm_compute; reflexivity));
    done.
Qed.

#[local] Opaque lit fmt_dec.

(** ** Reading lines *)

Lemma str_split_app_line l s : 
  one_line l -> str_split NEWLINE (l ++ NEWLINE :: s) = l :: str_split NEWLINE s.
Proof.
  intros Hl. induction l as [|x l IH]; [done|].
  unfold one_line in *. cbn [app str_split]. rewrite IH by set_solver.
  destruct (Z.eqb_spec x NEWLINE) as [->|]; [set_solver|done].
Qed.
Lemma str_split_unlines ls : Forall one_line ls -> str_split NEWLINE (unlines ls) = ls ++ [[]].
Proof.
  induction 1 as [|l ls Hl _ IH]; [done|]. unfold unlines. cbn [mbind list_bind].
  rewrite <- app_assoc. cbn [app]. rewrite str_split_app_line by done. by rewrite <- IH.
Qed.

Lemma span_prefix_app c ls rest :
  span_prefix c rest = ([], rest) -> span_prefix c ((cons c <$> ls) ++ rest) = (ls, rest).
Proof.
  intros Hr. induction ls as [|l ls IH]; [done|].
  cbn. rewrite Z.eqb_refl. cbn in IH. by rewrite IH.
Qed.

(** ** Reading hunks *)

Lemma span_prefix_hunks c l r secs :
  c <> 64 -> span_prefix c (hunks l r secs) = ([], hunks l r secs).
Proof.
  intros Hc. revert l r. induction secs as [|[a b] secs IH]; intros l r; [done|].
  cbn [hunks]. unfold hunk. case_match; [|apply IH].
  destruct (hunk_header_at l (len a) r (len b)) as [t ->].
  cbn [app span_prefix]. by rewrite (proj2 (Z.eqb_neq 64 c)).
Qed.

Lemma span_prefix_minus added l r secs :
  span_prefix MINUS ((cons PLUS <$> added) ++ hunks l r secs)
  = ([], (cons PLUS <$> added) ++ hunks l r secs).
Proof. destruct added; [by apply span_prefix_hunks|done]. Qed.

Lemma hunk_nonempty l r a b :
  hunk l r a b = if decide (nonempty_section (a, b))
                 then hunk_header l (len a) r (len b) :: (cons MINUS <$> a) ++ (cons PLUS <$> b)
                 else [].
Proof.
  unfold hunk, nonempty_section. cbn [fst snd].
  destruct a as [|x a]; [destruct b as [|y b]|]; rewrite ?len_nil, ?len_cons; [done| |].
  - rewrite decide_True by done.
    destruct (Z.ltb_spec 0 (1 + len b)); [done|]. pose proof (len_nonneg b). lia.
  - rewrite decide_True by done.
    destruct (Z.ltb_spec 0 (1 + len a)); [done|]. pose proof (len_nonneg a). lia.
Qed.

Lemma read_hunks_hunks l r secs fuel :
  (length (hunks l r secs) <= fuel)%nat ->
  read_hunks fuel l r (hunks l r secs) = Some (filter nonempty_section secs).
Proof.
  revert l r fuel. induction secs as [|[a b] secs IH]; intros l r fuel Hf; [by destruct fuel|].
  cbn [hunks] in *. rewrite hunk_nonempty in *.
  destruct (decide (nonempty_section (a, b))) as [Hne|He].
  - rewrite filter_cons_True by done. cbn [app length] in *.
    destruct fuel as [|fuel]; [lia|]. cbn [read_hunks]. rewrite <- app_assoc.
    rewrite span_prefix_app by apply span_prefix_minus.
    rewrite span_prefix_app by by apply span_prefix_hunks.
    rewrite decide_True by done. rewrite IH; [done|]. rewrite length_app in Hf. lia.
  - rewrite filter_cons_False by done. cbn [app length] in *.
    assert (a = [] /\ b = []) as [-> ->].
    { apply app_eq_nil. apply dec_stable. intros H. by apply He. }
    rewrite !len_nil, !Z.add_0_r in *. by apply IH.
Qed.

(** ** Writing to a buffer *)

Section Writing.
Context `{E : Env}.

Lemma writeln_vec s (buf : ustr) : writeln s buf = (buf ++ s ++ [NEWLINE], Ok ()).
Proof. done. Qed.

Lemma write_items_vec c (ts : list ustr) (buf : ustr) :
  m_for (write_item [c]) (Ok <$> ts) buf = (buf ++ unlines (cons c <$> ts), Ok ()).
Proof.
  revert buf. induction ts as [|t ts IH]; intros buf; [by rewrite app_nil_r|].
  rewrite !fmap_cons. cbn [m_for].
  assert (write_item [c] (Ok t) buf = (buf ++ unlines [c :: t], Ok ())) as Ht.
  { unfold unlines. cbn [mbind list_bind]. by rewrite app_nil_r. }
  rewrite (m_bind_run _ _ _ _ _ Ht), IH, <- app_assoc. do 2 f_equal.
  unfold unlines. cbn [mbind list_bind]. by rewrite app_nil_r.
Qed.

Lemma unlines_app ls ks : unlines (ls ++ ks) = unlines ls ++ unlines ks.
Proof. apply bind_app. Qed.

(** A section whose lines format, with line numbers in range. *)
Lemma write_diff_section_vec l r (removed added : list ustr) buf :
  0 <= l -> 0 <= r -> l + len removed < U64_MOD -> r + len added < U64_MOD ->
  write_diff_section l (Ok <$> removed) (len removed) r (Ok <$> added) (len added) buf
  = (buf ++ unlines (hunk l r removed added), Ok (l + len removed, r + len added)).
Proof.
  intros Hl Hr Hl' Hr'. unfold write_diff_section, hunk. case_match eqn:Hc.
  - rewrite (m_bind_run _ _ _ _ _ (writeln_vec _ _)).
    unfold add_usize, add_uw. rewrite (proj2 (Z.ltb_lt _ _) Hl'), (proj2 (Z.ltb_lt _ _) Hr').
    unfold m_lift. unfold m_bind at 1. unfold m_bind at 1.
    rewrite (m_bind_run _ _ _ _ _ (write_items_vec MINUS removed _)).
    rewrite (m_bind_run _ _ _ _ _ (write_items_vec PLUS added _)).
    unfold m_ret. f_equal.
    match goal with |- _ = _ ++ unlines (?h :: ?t) =>
      change (unlines (h :: t)) with ((h ++ [NEWLINE]) ++ unlines t) end.
    unfold hunk_header. rewrite unlines_app, <- !app_assoc. reflexivity.
  - rewrite app_nil_r. pose proof (len_nonneg removed). pose proof (len_nonneg added).
    apply orb_false_iff in Hc as [H1%Z.ltb_ge H2%Z.ltb_ge].
    replace (l + len removed) with l by lia. by replace (r + len added) with r by lia.
Qed.

(** ** The whole report *)

Lemma format_value_returns path v : exists s, format_value path v = Ok s.
Proof.
  unfold format_value, get_content. destruct (value_bytes v) as [bs|]; [|by eexists].
  destruct (get_value_content_run (cv_data_type v) bs Logs_default) as (c & lg & -> & _).
  by eexists.
Qed.
Definition value_line (pv : ustr * CellKeyValue) : ustr :=
  match format_value pv.1 pv.2 with Ok s => s | _ => [] end.
Lemma fmt_values_lines vs : fmt_values vs = Ok <$> (value_line <$> vs).
Proof.
  unfold fmt_values. rewrite <- list_fmap_compose. apply list_fmap_ext. intros i v _. cbn.
  unfold value_line. by destruct (format_value_returns v.1 v.2) as [s ->].
Qed.
Lemma fmt_keys_lines ks : fmt_keys ks = Ok <$> (format_key <$> ks).
Proof. unfold fmt_keys. by rewrite <- list_fmap_compose. Qed.

(** The removed and added lines of the report's six sections. *)
Definition sections (d : Differences) : list (list ustr * list ustr) :=
  [ (format_key <$> keys_deleted d, []);
    ([], format_key <$> keys_added d);
    (format_key <$> (keys_modified d).*1, format_key <$> (keys_modified d).*2);
    (value_line <$> values_deleted d, []);
    ([], value_line <$> values_added d);
    (value_line <$> (values_modified d).*1,
     value_line <$> ((fun x => (x.1.1, x.2)) <$> values_modified d)) ].
Definition report_lines (d : Differences) : Z :=
  foldr (fun sec n => len sec.1 + len sec.2 + n) 0 (sections d).

(** A section writer at its call in [write_diff]. *)
Lemma section_run {B} l r fr n fa m (removed added : list ustr) buf (k : Z * Z -> M ustr Error B) :
  fr = Ok <$> removed -> fa = Ok <$> added -> n = len removed -> m = len added ->
  0 <= l -> 0 <= r -> l + len removed < U64_MOD -> r + len added < U64_MOD ->
  m_bind (write_diff_section l fr n r fa m) k buf
  = k (l + len removed, r + len added) (buf ++ unlines (hunk l r removed added)).
Proof.
  intros -> -> -> -> ? ? ? ?. apply m_bind_run. by apply write_diff_section_vec.
Qed.

Ltac section_tac :=
  first [ reflexivity
        | assumption
        | rewrite ?len_fmap; reflexivity
        | rewrite ?len_fmap; unfold len in *; cbn [length] in *; lia ].

Lemma write_diff_text b c d :
  report_lines d + 1 < U64_MOD ->
  write_diff b c d [] =
  (unlines ([lit "--- " ++ b; lit "+++ " ++ c] ++ hunks 1 1 (sections d)), Ok ()).
Proof.
  intros Hsize. unfold report_lines, sections in Hsize. cbn [foldr fst snd] in Hsize.
  rewrite !len_fmap, !len_nil in Hsize.
  pose proof (len_nonneg (keys_deleted d)). pose proof (len_nonneg (keys_added d)).
  pose proof (len_nonneg (keys_modified d)). pose proof (len_nonneg (values_deleted d)).
  pose proof (len_nonneg (values_added d)). pose proof (len_nonneg (values_modified d)).
  unfold write_diff. do 2 rewrite (m_bind_run _ _ _ _ _ (writeln_vec _ _)).
  unfold write_diff_k_del, write_diff_k_add, write_diff_k_mod, write_diff_v_del,
    write_diff_v_add, write_diff_v_mod.
  rewrite !fmt_keys_lines, !fmt_values_lines.
  assert ((fun v : ustr * CellKeyValue * CellKeyValue => format_value v.1.1 v.2) <$> values_modified d
    = Ok <$> (value_line <$> ((fun x => (x.1.1, x.2)) <$> values_modified d))) as Hvm.
  { rewrite <- !list_fmap_compose. apply list_fmap_ext. intros i x _. cbn.
    unfold value_line. cbn. by destruct (format_value_returns x.1.1 x.2) as [s ->]. }
  rewrite (section_run _ _ _ _ _ _ (format_key <$> keys_deleted d) []) by section_tac.
  rewrite (section_run _ _ _ _ _ _ [] (format_key <$> keys_added d)) by section_tac.
  rewrite (section_run _ _ _ _ _ _ (format_key <$> (keys_modified d).*1)
    (format_key <$> (keys_modified d).*2)) by section_tac.
  rewrite (section_run _ _ _ _ _ _ (value_line <$> values_deleted d) []) by section_tac.
  rewrite (section_run _ _ _ _ _ _ [] (value_line <$> values_added d)) by section_tac.
  rewrite (section_run _ _ _ _ _ _ (value_line <$> (values_modified d).*1)
    (value_line <$> ((fun x => (x.1.1, x.2)) <$> values_modified d))) by section_tac.
  unfold m_ret. f_equal. unfold sections, hunks.
  rewrite !unlines_app, !app_nil_r, !len_fmap, !len_nil.
  match goal with |- _ = unlines [?x; ?y] ++ _ =>
    change (unlines [x; y]) with ((x ++ [NEWLINE]) ++ (y ++ [NEWLINE]) ++ []) end.
  rewrite app_nil_r, <- !app_assoc. reflexivity.
Qed.

Definition one_line_report (d : Differences) : Prop :=
  Forall (fun sec => Forall one_line (sec.1 ++ sec.2)) (sections d).

#[global] Instance one_line_report_dec d : Decision (one_line_report d).
Proof. unfold one_line_report. apply _. Defined.

Lemma hunks_one_line l r secs :
  0 <= l -> 0 <= r -> Forall (fun sec => Forall one_line (sec.1 ++ sec.2)) secs ->
  Forall one_line (hunks l r secs).
Proof.
  intros Hl Hr Hs. revert l r Hl Hr. induction Hs as [|[a b] secs Hab _ IH]; intros l r Hl Hr; [done|].
  cbn [hunks fst snd] in *. pose proof (len_nonneg a). pose proof (len_nonneg b).
  apply Forall_app. split; [|apply IH; lia]. unfold hunk. case_match; [|done].
  apply Forall_app in Hab as [Ha Hb]. constructor; [by apply hunk_header_one_line|].
  apply Forall_app. split; apply Forall_fmap; eapply Forall_impl; try eassumption;
    intros x Hx; cbn; unfold one_line, NEWLINE, MINUS, PLUS in *; set_solver.
Qed.

(** The diff as written, read back. *)
Lemma diff_reads_back b c d :
  one_line b -> one_line c -> one_line_report d -> report_lines d + 1 < U64_MOD ->
  exists text, write_diff b c d [] = (text, Ok ()) /\
    read_diff text = Some (b, c, filter nonempty_section (sections d)).
Proof.
  intros Hb Hc Hd Hsize. eexists. split; [by apply write_diff_text|].
  assert (Forall one_line ([lit "--- " ++ b; lit "+++ " ++ c] ++ hunks 1 1 (sections d))) as Hall.
  { apply Forall_app. split; [|by apply hunks_one_line].
    repeat constructor; (apply one_line_app; [|done]); apply lit_one_line; vm_compute; reflexivity. }
  unfold read_diff. rewrite str_split_unlines by done. cbn [app].
  rewrite length_app. cbn [length]. rewrite Nat.add_sub, take_app_length.
  rewrite read_hunks_hunks by lia. cbn [mbind option_bind].
  by rewrite !drop_app_length'.
Qed.

(** C18: the unified diff can be read back: when no file name or item prints with a line break,
    a reader that checks every hunk header (first line and line count, on both sides) against
    the lines that follow accepts the report, and finds the two file names and the lines of
    the non-empty sections: keys deleted, added, modified, then values. *)
Theorem write_diff_reads_back b c d :
  one_line b -> one_line c -> one_line_report d -> report_lines d + 1 < U64_MOD ->
  exists text, write_diff b c d [] = (text, Ok ()) /\
    read_diff text = Some (b, c, filter nonempty_section (sections d)).
Proof. apply diff_reads_back. Qed.
End Writing.


(** ** Sample *)

(** A deleted key, an added one, and a value whose data changed. *)
Definition differences_sample : @Differences env_ref :=
  {| keys_deleted := [key_sample 88 32 (lit "c") (lit "\r\c") 132 None];
     keys_added := [key_sample 88 32 (lit "d") (lit "\r\d") 132 None];
     keys_modified := []; values_deleted := []; values_added := [];
     values_modified := [(lit "\r", dword_sample [Byte.x01], dword_sample [Byte.x02])] |}.

Lemma write_diff_reads_back_witness :
  exists text, write_diff (E:=env_ref) (lit "a") (lit "b") differences_sample [] = (text, Ok ()) /\
    on_ok (Er:=Error) length (from_option Ok Panic (snd <$> read_diff text)) = Some 3%nat.
Proof.
  destruct (@write_diff_reads_back env_ref (lit "a") (lit "b") differences_sample)
    as (text & Hw & Hr).
  - apply (bool_decide_unpack _). vm_compute. exact I.
  - apply (bool_decide_unpack _). vm_compute. exact I.
  - apply (bool_decide_unpack _). vm_compute. exact I.
  - vm_compute. reflexivity.
  - exists text. split; [exact Hw|]. rewrite Hr. vm_compute. reflexivity.
Defined.
