(* ===== verification/Dump.v ===== *)
(** * Dump: exporting a hive as text

    [bin/reg_dump/]: [common_writer.rs], [tsv_writer.rs], [json_writer.rs] and [main.rs].
    Every writer walks the hive with a [ParserIterator] and writes rows for each key, its
    values and their versions.  serde's serialization of a key is a parameter. *)

From S2P Require Import Prelude Env Log Marvin Util UtilFacts Cells BaseBlock SubKeyLists Values ValueFacts State Filter KeyNode KeyNodeFacts Recover Parser ParserFacts TransactionLog TransactionLogFacts Init Cli Compare.

(** [{:?}] of a [CellState] (derived). *)
Definition CellState_debug (s : CellState) : ustr :=
  match s with
  | DeletedTransactionLog => lit "DeletedTransactionLog"
  | DeletedPrimaryFile => lit "DeletedPrimaryFile"
  | DeletedPrimaryFileSlack => lit "DeletedPrimaryFileSlack"
  | Allocated => lit "Allocated"
  | ModifiedTransactionLog => lit "ModifiedTransactionLog"
  end.

(** [data_type as u32]. *)
Definition data_type_as_u32 (t : CellKeyValueDataTypes) : Z :=
  default 999 (fst <$> head (filter (fun e => e.2 = t) CellKeyValueDataTypes_table)).

Section Dump.
Context `{E : Env} {W : Type} `{!Write W}.
Variable stdout : ustr -> res Error ().
Variable n fuel depth : nat.

(** The keys [for (index, key) in iter.iter().enumerate()] visits.  The iterator reads the
    parser and never the writer, so the keys are taken first and then written in turn; only
    how much was written before a panic of the iterator is not distinguished. *)
Definition dump_keys (parser : Parser) (filter_ : option Filter) : res Error (list CellKeyNode) :=
  iterate n fuel depth parser filter_.

(** ** [common_writer.rs] *)

Record Totals := {
  t_keys : Z; t_values : Z; t_unused_keys : Z; t_unused_values : Z;
  t_deleted_keys : Z; t_deleted_values : Z; t_modified_keys : Z; t_modified_values : Z;
}.
Definition no_totals : Totals :=
  {| t_keys := 0; t_values := 0; t_unused_keys := 0; t_unused_values := 0; t_deleted_keys := 0;
     t_deleted_values := 0; t_modified_keys := 0; t_modified_values := 0 |}.

(** The counter [write_key] and [write_value] add one to; the counters are [u32]. *)
Definition count_key {Er} (s : CellState) (t : Totals) : res Er Totals :=
  match t with
  | Build_Totals k v uk uv dk dv mk mv =>
      match s with
      | DeletedPrimaryFile | DeletedPrimaryFileSlack =>
          uk ← add_u32 uk 1; Ok (Build_Totals k v uk uv dk dv mk mv)
      | Allocated => k ← add_u32 k 1; Ok (Build_Totals k v uk uv dk dv mk mv)
      | DeletedTransactionLog => dk ← add_u32 dk 1; Ok (Build_Totals k v uk uv dk dv mk mv)
      | ModifiedTransactionLog => mk ← add_u32 mk 1; Ok (Build_Totals k v uk uv dk dv mk mv)
      end
  end.
Definition count_value {Er} (s : CellState) (t : Totals) : res Er Totals :=
  match t with
  | Build_Totals k v uk uv dk dv mk mv =>
      match s with
      | DeletedPrimaryFile | DeletedPrimaryFileSlack =>
          uv ← add_u32 uv 1; Ok (Build_Totals k v uk uv dk dv mk mv)
      | Allocated => v ← add_u32 v 1; Ok (Build_Totals k v uk uv dk dv mk mv)
      | DeletedTransactionLog => dv ← add_u32 dv 1; Ok (Build_Totals k v uk uv dk dv mk mv)
      | ModifiedTransactionLog => mv ← add_u32 mv 1; Ok (Build_Totals k v uk uv dk dv mk mv)
      end
  end.

Definition get_alloc_char (state : CellState) : ustr :=
  match state with
  | DeletedPrimaryFile | DeletedPrimaryFileSlack => lit "U"
  | DeletedTransactionLog => lit "D"
  | ModifiedTransactionLog => lit "M"
  | Allocated => lit "A"
  end.

Definition WriteCommon_write_key (key : CellKeyNode) (t : Totals) : M W Error Totals :=
  let* t := m_lift (count_key (n_cell_state key) t) in
  let* key_path :=
    match n_cell_state key with
    | DeletedPrimaryFile | DeletedPrimaryFileSlack => m_ret (n_key_name key)
    | _ => m_lift (expect (str_from (n_path key) 1))
    end in
  writeln (lit "key," ++ get_alloc_char (n_cell_state key) ++ lit ","
    ++ fmt_dec (n_file_offset_absolute key) ++ lit "," ++ escape_string key_path ++ lit ",,,,"
    ++ format_date_time (CellKeyNode_last_key_written_date_and_time key));;;
  m_ret t.

Definition WriteCommon_write_value (key : CellKeyNode) (value : CellKeyValue) (t : Totals)
    : M W Error Totals :=
  let* t := m_lift (count_value (cv_cell_state value) t) in
  let key_name :=
    match cv_cell_state value with
    | DeletedPrimaryFile | DeletedPrimaryFileSlack => []
    | _ => n_key_name key
    end in
  writeln (lit "value," ++ get_alloc_char (cv_cell_state value) ++ lit ","
    ++ fmt_dec (cv_file_offset_absolute value) ++ lit "," ++ escape_string key_name ++ lit ","
    ++ escape_string (CellKeyValue_get_pretty_name value) ++ lit ","
    ++ fmt_dec (data_type_as_u32 (cv_data_type value)) ++ lit ","
    ++ to_hex_string (default [] (value_bytes value)) ++ lit ",");;;
  m_ret t.

Fixpoint for_totals {A} (f : A -> Totals -> M W Error Totals) (l : list A) (t : Totals)
    : M W Error Totals :=
  match l with
  | [] => m_ret t
  | x :: l => let* t := f x t in for_totals f l t
  end.

(** The rows of one key. *)
Definition write_item_rows (key : CellKeyNode) (t : Totals) : M W Error Totals :=
  let* t := WriteCommon_write_key key t in
  let* t := for_totals WriteCommon_write_key (n_versions key) t in
  for_totals (fun value t =>
    let* t := WriteCommon_write_value key value t in
    for_totals (WriteCommon_write_value key) (cv_versions value) t) (n_sub_values key) t.

Fixpoint write_rows (index : Z) (keys : list CellKeyNode) (t : Totals) : M W Error Totals :=
  match keys with
  | [] => m_ret t
  | key :: keys =>
      m_lift (update_progress stdout true index);;;
      let* t := write_item_rows key t in
      write_rows (index + 1) keys t
  end.

(** The lines of the heading that the writer puts first. *)
Definition heading : list ustr :=
  [lit "## Registry common export format";
   lit "## Key format";
   lit "## key,Is Free,Absolute offset in decimal,KeyPath,,,,LastWriteTime in UTC";
   lit "## Value format";
   lit "## value,Is Free,Absolute offset in decimal,KeyPath,Value name,Data type (as decimal integer),Value data as bytes separated by a singe space,";
   lit "## " ++ [34] ++ lit "Is Free" ++ [34] ++ lit " interpretation: A for in use, U for unused from the primary file, D for deleted from the transaction log, M for modified from the transaction log";
   lit "##";
   lit "## Comparison of unused keys/values is done to compare recovery of vk and nk records, not the algorithm used to associate unused keys to other keys and their values.";
   lit "## When including unused keys, only the recovered key name should be included, not the full path to the unused key.";
   lit "## When including unused values, do not include the parent key information.";
   lit "##";
   lit "## The following totals should also be included";
   lit "##";
   lit "## total_keys: total in use key count";
   lit "## total_values: total in use value count";
   lit "## total_unused_keys: total free key count (recovered from primary file)";
   lit "## total_unused_values: total free value count (recovered from primary file)";
   lit "## total_deleted_from_transaction_log_keys: total deleted key count (recovered from transaction logs)";
   lit "## total_deleted_from_transaction_log_values: total deleted value count (recovered from transaction logs)";
   lit "## total_modified_from_transaction_log_keys: total modified key count (recovered from transaction logs)";
   lit "## total_modified_from_transaction_log_values: total modified value count (recovered from transaction logs)";
   lit "##";
   lit "## Before comparison with other common export implementations, the files should be sorted";
   lit "##"].
Fixpoint join_lines (ls : list ustr) : ustr :=
  match ls with
  | [] => []
  | [l] => l
  | l :: ls => l ++ [10] ++ join_lines ls
  end.

Definition WriteCommon_write (parser : Parser) (filter_ : option Filter) : M W Error () :=
  writeln (join_lines heading);;;
  let* keys := m_lift (dump_keys parser filter_) in
  let* t := write_rows 0 keys no_totals in
  writeln (lit "## total_keys: " ++ fmt_dec (t_keys t));;;
  writeln (lit "## total_values: " ++ fmt_dec (t_values t));;;
  writeln (lit "## total_unused_keys: " ++ fmt_dec (t_unused_keys t));;;
  writeln (lit "## total_unused_values: " ++ fmt_dec (t_unused_values t));;;
  writeln (lit "## total_deleted_from_transaction_log_keys: " ++ fmt_dec (t_deleted_keys t));;;
  writeln (lit "## total_deleted_from_transaction_log_values: " ++ fmt_dec (t_deleted_values t));;;
  writeln (lit "## total_modified_from_transaction_log_keys: " ++ fmt_dec (t_modified_keys t));;;
  writeln (lit "## total_modified_from_transaction_log_values: " ++ fmt_dec (t_modified_values t));;;
  m_ret ().

(** ** [tsv_writer.rs] *)

(** [WriteTsv]: the row index and the writer. *)
Record WriteTsv := { tsv_index : Z; tsv_recovered_only : bool; tsv_writer : W }.
Definition tsv_write (s : ustr) : M WriteTsv Error () := fun t =>
  match writeln s (tsv_writer t) with
  | (w, r) => ({| tsv_index := tsv_index t; tsv_recovered_only := tsv_recovered_only t;
                  tsv_writer := w |}, r)
  end.
Definition tsv_next_index : M WriteTsv Error Z :=
  let* t := m_get in
  let* index := m_lift (add_usize (tsv_index t) 1) in
  m_modify (fun t => {| tsv_index := index; tsv_recovered_only := tsv_recovered_only t;
                        tsv_writer := tsv_writer t |});;;
  m_ret index.

Fixpoint join_tabs (columns : list ustr) : ustr :=
  match columns with
  | [] => []
  | [c] => c
  | c :: columns => c ++ [TAB] ++ join_tabs columns
  end.

Definition get_sequence_num_string (seq_num : option Z) : ustr :=
  match seq_num with Some seq_num => fmt_dec seq_num | None => [] end.

Definition write_value_tsv (cell_key_node : CellKeyNode) (value : CellKeyValue)
    : M WriteTsv Error () :=
  let* self := m_get in
  if negb (tsv_recovered_only self) || has_or_is_recovered value then
    let* index := tsv_next_index in
    let* (content, _) := m_lift (get_content value) in
    tsv_write (join_tabs
      [ fmt_dec index;
        escape_string (n_path cell_key_node);
        [];
        escape_string (CellKeyValue_get_pretty_name value);
        escape_string (CellValue_display content);
        [];
        CellState_debug (cv_cell_state value);
        get_sequence_num_string (cv_sequence_num value);
        get_sequence_num_string (cv_updated_by_sequence_num value);
        []; [];
        CellValue_get_type content;
        escape_string (Logs_fmt (cv_logs value)) ])
  else m_ret ().

(** The row of a key or of one of its versions. *)
Definition key_row_tsv (index : Z) (cell_key_node : CellKeyNode) : ustr :=
  let '(flags, logs) := CellKeyNode_key_node_flags cell_key_node (n_logs cell_key_node) in
  let '(access_flags, _) := CellKeyNode_access_flags cell_key_node logs in
  join_tabs
    [ fmt_dec index;
      escape_string (n_path cell_key_node);
      fmt_dec (len (n_cell_sub_key_offsets_absolute cell_key_node));
      []; [];
      format_date_time (CellKeyNode_last_key_written_date_and_time cell_key_node);
      CellState_debug (n_cell_state cell_key_node);
      get_sequence_num_string (n_sequence_num cell_key_node);
      get_sequence_num_string (n_updated_by_sequence_num cell_key_node);
      bf_debug KeyNodeFlags_table flags;
      bf_debug AccessFlags_table access_flags;
      [];
      escape_string (Logs_fmt (n_logs cell_key_node)) ].

Fixpoint write_key_tsv (cell_key_node : CellKeyNode) (key_modified : bool)
    : M WriteTsv Error () :=
  let* self := m_get in
  (if negb (tsv_recovered_only self) || has_or_is_recovered cell_key_node then
     let* index := tsv_next_index in
     tsv_write (key_row_tsv index cell_key_node);;;
     (fix versions (l : list CellKeyNode) : M WriteTsv Error () :=
        match l with
        | [] => m_ret ()
        | sub_key :: l => write_key_tsv sub_key true;;; versions l
        end) (n_versions cell_key_node)
   else m_ret ());;;
  if key_modified then m_ret ()
  else
    m_for (fun value =>
      write_value_tsv cell_key_node value;;;
      m_for (write_value_tsv cell_key_node) (cv_versions value)) (n_sub_values cell_key_node).

Fixpoint write_keys_tsv (index : Z) (keys : list CellKeyNode) : M WriteTsv Error () :=
  match keys with
  | [] => m_ret ()
  | key :: keys =>
      m_lift (update_progress stdout true index);;;
      write_key_tsv key false;;;
      write_keys_tsv (index + 1) keys
  end.

Definition tsv_columns : list ustr :=
  [ lit "Index"; lit "Key Path"; lit "Subkey Count"; lit "Value Name"; lit "Value Data";
    lit "Timestamp"; lit "Status"; lit "Previous Seq Num"; lit "Modifying Seq Num";
    lit "Flags"; lit "Access Flags"; lit "Value Type"; lit "Logs" ].

Definition WriteTsv_write (parser : Parser) (filter_ : option Filter) : M WriteTsv Error () :=
  tsv_write (join_tabs tsv_columns);;;
  let* keys := m_lift (dump_keys parser filter_) in
  write_keys_tsv 0 keys;;;
  tsv_write ([10] ++ lit "Logs" ++ [10] ++ lit "-----------");;;
  m_for tsv_write (Logs_write (get_parse_logs parser)).

(** ** [json_writer.rs] *)

(** [serde_json::to_string] of a key, which [write] unwraps. *)
Variable to_json : CellKeyNode -> res Error ustr.
Fixpoint write_jsonl (index : Z) (keys : list CellKeyNode) : M W Error () :=
  match keys with
  | [] => m_ret ()
  | key :: keys =>
      m_lift (update_progress stdout true index);;;
      let* line := m_lift (unwrap (to_json key)) in
      writeln line;;;
      write_jsonl (index + 1) keys
  end.
Definition WriteJson_write (parser : Parser) (filter_ : option Filter) : M W Error () :=
  let* keys := m_lift (dump_keys parser filter_) in
  write_jsonl 0 keys.
End Dump.
