(* ===== verification/Xlsx.v ===== *)
(** * Xlsx: exporting a hive as a workbook

    [bin/reg_dump/xlsx_writer.rs].  The xlsxwriter crate is a parameter: a sheet is the list of
    the calls made on it, and [xlsx_call] says whether the next one succeeds.  Cell numbers
    are kept as integers ([f64] holds those the writer passes exactly). *)

From S2P Require Import Prelude Env Log Marvin Util UtilFacts Cells BaseBlock SubKeyLists Values ValueFacts State Filter KeyNode KeyNodeFacts Recover Parser ParserFacts TransactionLog TransactionLogFacts Init Cli Compare Dump.

(** ** Formats and sheets *)

Inductive FormatBorder := FB_Medium | FB_Hair.
Record Format := {
  bold : bool;
  border_bottom : option FormatBorder;
  border_top : option FormatBorder;
  bg_color : option Z;
  font_color : option Z;
  underline : bool;
}.
Definition Format_new : Format :=
  {| bold := false; border_bottom := None; border_top := None; bg_color := None;
     font_color := None; underline := false |}.
Definition set_border_top (v : FormatBorder) (f : Format) : Format :=
  match f with Build_Format a b _ d e g => Build_Format a b (Some v) d e g end.
Definition set_bg_color (v : Z) (f : Format) : Format :=
  match f with Build_Format a b c _ e g => Build_Format a b c (Some v) e g end.
Definition set_font_color (v : Z) (f : Format) : Format :=
  match f with Build_Format a b c d _ g => Build_Format a b c d (Some v) g end.
Definition set_underline (f : Format) : Format :=
  match f with Build_Format a b c d e _ => Build_Format a b c d e true end.

Inductive SheetCall :=
  | WriteString (row col : Z) (text : ustr) (format : option Format)
  | WriteNumber (row col num : Z)
  | WriteUrl (row col : Z) (url : ustr) (format : Format)
  | SetRow (row height : Z) (format : Format)
  | SetColumn (first last width : Z)
  | FreezePanes (row col : Z).

Definition ROW_HEIGHT : Z := 16.
Definition COL_WIDTH_WIDE : Z := 50.
Definition COL_WIDTH_NARROW : Z := 23.
Definition COL_WIDTH_TINY : Z := 6.
Definition COL_INDEX : Z := 0.
Definition COL_KEY_PATH : Z := 1.
Definition COL_SUBKEY_COUNT : Z := 2.
Definition COL_VALUE_NAME : Z := 3.
Definition COL_VALUE_DATA : Z := 4.
Definition COL_TIMESTAMP : Z := 5.
Definition COL_STATUS : Z := 6.
Definition COL_PREV_SEQ_NUM : Z := 7.
Definition COL_MOD_SEQ_NUM : Z := 8.
Definition COL_FLAGS : Z := 9.
Definition COL_ACCESS_FLAGS : Z := 10.
Definition COL_VALUE_TYPE : Z := 11.
Definition COL_LOGS : Z := 12.
Definition MAX_EXCEL_CELL_LEN : Z := 32767.
Definition MAX_TRUNCATED_CHARS : Z := 250.
Definition TRUNCATED : ustr := lit "truncated".
Definition OVERFLOW : ustr := lit "Overflow".
Definition COLOR_LIGHT_GREY : Z := 0xF4F4F4.
Definition COLOR_DARK_GREY : Z := 0x808080.
Definition COLOR_DARK_RED : Z := 0xA51B1B.

(** ** Text *)

Definition is_legal_xml_1_0 (c : Z) : bool :=
  (c =? 0x9) || (c =? 0xA) || (c =? 0xD) || ((0x20 <=? c) && (c <=? 0xD7FF))
  || ((0xE000 <=? c) && (c <=? 0xFFFD)) || ((0x10000 <=? c) && (c <=? 0x10FFFF)).
(** The position of the first illegal character. *)
Fixpoint find_illegal (s : ustr) : option nat :=
  match s with
  | [] => None
  | c :: s => if negb (is_legal_xml_1_0 c) then Some 0%nat else S <$> find_illegal s
  end.
Definition sanitize_for_xml_1_0 (s : ustr) : ustr :=
  match find_illegal s with
  | None => s
  | Some i => take i s ++ ((fun c => if is_legal_xml_1_0 c then c else 0xFFFD) <$> drop i s)
  end.

(** [max_split] counts characters; it is compared with a length in bytes. *)
Definition safe_split_at (val : ustr) (max_split : Z) : ustr * ustr :=
  let offset := Z.min max_split (str_len val) in
  (ztake offset val, zdrop offset val).
Definition safe_truncate (val : ustr) (max_split : Z) : ustr :=
  ztake (Z.min max_split (str_len val)) val.

(** [while !full_val_cur.is_empty()] *)
Fixpoint overflow_chunks (fuel : nat) (full_val_cur : ustr) (full_val_chunks : list ustr)
    : res Error (list ustr) :=
  match full_val_cur with
  | [] => Ok full_val_chunks
  | _ :: _ =>
      match fuel with
      | O => NoFuel
      | S k =>
          let '(chunk, rest) := safe_split_at full_val_cur MAX_EXCEL_CELL_LEN in
          overflow_chunks k rest (full_val_chunks ++ [chunk])
      end
  end.

Section Xlsx.
Context `{E : Env}.
Variable stdout : ustr -> res Error ().
Variable n fuel depth : nat.
(** The outcome of the next call on a sheet; an [XlsxError] is already converted. *)
Variable xlsx_call : list SheetCall -> SheetCall -> res Error ().
Variable add_worksheet : ustr -> res Error ().

Definition sanitize_cell (v : CellValue) : ustr :=
  match v with
  | CV_String v => sanitize_for_xml_1_0 v
  | v => CellValue_display v
  end.

Record WorksheetState := {
  sheet : list SheetCall;
  row : Z;
  shaded : bool;
  upper_border : bool;
  ws_key_path : ustr;
  ws_value_name : option ustr;
}.
Definition WorksheetState_new : WorksheetState :=
  {| sheet := []; row := 0; shaded := false; upper_border := false; ws_key_path := [];
     ws_value_name := None |}.
Definition ws_set_row (v : Z) (w : WorksheetState) : WorksheetState :=
  match w with Build_WorksheetState a _ c d e f => Build_WorksheetState a v c d e f end.

Definition sheet_call (c : SheetCall) : M WorksheetState Error () := fun w =>
  match xlsx_call (sheet w) c with
  | Ok _ => (match w with
             | Build_WorksheetState a b d e f g => Build_WorksheetState (a ++ [c]) b d e f g
             end, Ok ())
  | r => (w, r)
  end.
Definition ws_write_string (col : Z) (text : ustr) : M WorksheetState Error () :=
  let* w := m_get in sheet_call (WriteString (row w) col text None).
Definition ws_write_number (col num : Z) : M WorksheetState Error () :=
  let* w := m_get in sheet_call (WriteNumber (row w) col num).
(** [row += 1] *)
Definition next_row : M WorksheetState Error () :=
  let* w := m_get in
  let* r := m_lift (add_u32 (row w) 1) in
  m_modify (ws_set_row r).

Definition set_shading (key_path : ustr) (value_name : option ustr) (cell_state : CellState)
    (w : WorksheetState) : WorksheetState :=
  if negb (bool_decide (key_path = ws_key_path w))
     || negb (bool_decide (value_name = ws_value_name w)) then
    {| sheet := sheet w; row := row w; shaded := negb (shaded w); upper_border := true;
       ws_key_path := key_path; ws_value_name := value_name |}
  else if is_deleted_primary_file cell_state then
    {| sheet := sheet w; row := row w; shaded := negb (shaded w); upper_border := true;
       ws_key_path := ws_key_path w; ws_value_name := ws_value_name w |}
  else
    {| sheet := sheet w; row := row w; shaded := shaded w; upper_border := false;
       ws_key_path := ws_key_path w; ws_value_name := ws_value_name w |}.

(** Row and link formats. *)
Definition get_formatters (cell_state : CellState) (shaded upper_line : bool)
    : Format * Format :=
  let both (f : Format -> Format) (p : Format * Format) := (f p.1, f p.2) in
  let p := (Format_new, Format_new) in
  let p := if shaded then both (set_bg_color COLOR_LIGHT_GREY) p else p in
  let p := if upper_line then both (set_border_top FB_Hair) p else p in
  let p := if is_deleted cell_state then both (set_font_color COLOR_DARK_RED) p
           else if bool_decide (cell_state = ModifiedTransactionLog)
           then both (set_font_color COLOR_DARK_GREY) p
           else p in
  (p.1, set_underline p.2).

(** The state is the primary sheet and the overflow sheet. *)
Definition on_primary {A} (m : M WorksheetState Error A)
    : M (WorksheetState * WorksheetState) Error A := fun s =>
  match m s.1 with (w, r) => ((w, s.2), r) end.
Definition on_overflow {A} (m : M WorksheetState Error A)
    : M (WorksheetState * WorksheetState) Error A := fun s =>
  match m s.2 with (w, r) => ((s.1, w), r) end.

Fixpoint write_chunks (col : Z) (chunks : list ustr)
    : M (WorksheetState * WorksheetState) Error () :=
  match chunks with
  | [] => m_ret ()
  | chunk :: chunks =>
      (* [u16::try_from(col + 1)?] *)
      let* c := m_lift (if col + 1 <? U16_MOD then Ok (col + 1)
                        else Err (Error_from_int
                                    (lit "out of range integral type conversion attempted"))) in
      on_overflow (ws_write_string c chunk);;;
      write_chunks (col + 1) chunks
  end.

Definition write_string_handle_overflow (primary_sheet_col : Z) (val : ustr)
    (link_format : Format) : M (WorksheetState * WorksheetState) Error () :=
  if MAX_EXCEL_CELL_LEN <? str_len val then
    let* full_val_chunks := m_lift (overflow_chunks (length val) val []) in
    let* s := m_get in
    let* next := m_lift (add_u32 (row s.2) 1) in
    let truncated_label := lit " [" ++ TRUNCATED ++ lit "; row: " ++ fmt_dec next ++ lit "]" in
    on_overflow (ws_write_string 0 truncated_label);;;
    write_chunks 0 full_val_chunks;;;
    on_overflow next_row;;;
    let* s := m_get in
    on_primary (sheet_call (WriteUrl (row s.1) primary_sheet_col
      (lit "internal:" ++ OVERFLOW ++ lit "!A" ++ fmt_dec (row s.2)) link_format));;;
    let sample := safe_truncate val MAX_TRUNCATED_CHARS ++ truncated_label in
    on_primary (sheet_call (WriteString (row s.1) primary_sheet_col sample (Some link_format)))
  else on_primary (ws_write_string primary_sheet_col val).

Definition check_write_string (primary_sheet_col : Z) (val : ustr) (link_format : Format)
    : M (WorksheetState * WorksheetState) Error () :=
  if bool_decide (val = []) then m_ret ()
  else write_string_handle_overflow primary_sheet_col val link_format.

(** The common start of a row: its number, shading and formats. *)
Definition start_row (key_path : ustr) (value_name : option ustr) (cell_state : CellState)
    : M (WorksheetState * WorksheetState) Error Format :=
  on_primary next_row;;;
  on_primary (m_modify (set_shading key_path value_name cell_state));;;
  let* s := m_get in
  let '(row_format, link_format) :=
    get_formatters cell_state (shaded s.1) (upper_border s.1) in
  on_primary (sheet_call (SetRow (row s.1) ROW_HEIGHT row_format));;;
  on_primary (ws_write_number COL_INDEX (row s.1));;;
  m_ret link_format.

Definition write_sequence_num (col : Z) (seq : option Z)
    : M (WorksheetState * WorksheetState) Error () :=
  match seq with
  | Some sequence_num => on_primary (ws_write_number col sequence_num)
  | None => m_ret ()
  end.

Definition WriteXlsx_write_value (recovered_only : bool) (cell_key_node : CellKeyNode)
    (value : CellKeyValue) : M (WorksheetState * WorksheetState) Error () :=
  if recovered_only && negb (has_or_is_recovered value) then m_ret ()
  else
    let* link_format :=
      start_row (n_path cell_key_node) (Some (value_name value)) (cv_cell_state value) in
    check_write_string COL_KEY_PATH (sanitize_for_xml_1_0 (n_path cell_key_node)) link_format;;;
    check_write_string COL_VALUE_NAME
      (sanitize_for_xml_1_0 (CellKeyValue_get_pretty_name value)) link_format;;;
    let* (content, _) := m_lift (get_content value) in
    check_write_string COL_VALUE_DATA (sanitize_cell content) link_format;;;
    on_primary (ws_write_string COL_STATUS (CellState_debug (cv_cell_state value)));;;
    write_sequence_num COL_PREV_SEQ_NUM (cv_sequence_num value);;;
    write_sequence_num COL_MOD_SEQ_NUM (cv_updated_by_sequence_num value);;;
    check_write_string COL_VALUE_TYPE (CellValue_get_type content) link_format;;;
    check_write_string COL_LOGS (sanitize_for_xml_1_0 (Logs_fmt (cv_logs value))) link_format.

Definition write_key_row (cell_key_node : CellKeyNode)
    : M (WorksheetState * WorksheetState) Error () :=
  let* link_format := start_row (n_path cell_key_node) None (n_cell_state cell_key_node) in
  let '(flags, logs) := CellKeyNode_key_node_flags cell_key_node (n_logs cell_key_node) in
  let '(access_flags, _) := CellKeyNode_access_flags cell_key_node logs in
  check_write_string COL_KEY_PATH (sanitize_for_xml_1_0 (n_path cell_key_node)) link_format;;;
  on_primary (ws_write_number COL_SUBKEY_COUNT
                (len (n_cell_sub_key_offsets_absolute cell_key_node)));;;
  on_primary (ws_write_string COL_TIMESTAMP
    (format_date_time (CellKeyNode_last_key_written_date_and_time cell_key_node)));;;
  on_primary (ws_write_string COL_STATUS (CellState_debug (n_cell_state cell_key_node)));;;
  write_sequence_num COL_PREV_SEQ_NUM (n_sequence_num cell_key_node);;;
  write_sequence_num COL_MOD_SEQ_NUM (n_updated_by_sequence_num cell_key_node);;;
  on_primary (ws_write_string COL_FLAGS (bf_debug KeyNodeFlags_table flags));;;
  on_primary (ws_write_string COL_ACCESS_FLAGS (bf_debug AccessFlags_table access_flags));;;
  check_write_string COL_LOGS (sanitize_for_xml_1_0 (Logs_fmt (n_logs cell_key_node)))
    link_format.

Fixpoint WriteXlsx_write_key (recovered_only : bool) (cell_key_node : CellKeyNode)
    (is_key_version : bool) : M (WorksheetState * WorksheetState) Error () :=
  (if negb recovered_only || has_or_is_recovered cell_key_node then
     write_key_row cell_key_node;;;
     (fix versions (l : list CellKeyNode) : M (WorksheetState * WorksheetState) Error () :=
        match l with
        | [] => m_ret ()
        | sub_key :: l => WriteXlsx_write_key recovered_only sub_key true;;; versions l
        end) (n_versions cell_key_node)
   else m_ret ());;;
  if is_key_version then m_ret ()
  else
    m_for (fun value =>
      WriteXlsx_write_value recovered_only cell_key_node value;;;
      m_for (WriteXlsx_write_value recovered_only cell_key_node) (cv_versions value))
      (n_sub_values cell_key_node).

Fixpoint xlsx_keys (recovered_only : bool) (index : Z) (keys : list CellKeyNode)
    : M (WorksheetState * WorksheetState) Error () :=
  match keys with
  | [] => m_ret ()
  | key :: keys =>
      m_lift (update_progress stdout true index);;;
      WriteXlsx_write_key recovered_only key false;;;
      xlsx_keys recovered_only (index + 1) keys
  end.

Definition xlsx_headings : M WorksheetState Error () :=
  sheet_call (SetColumn COL_INDEX COL_INDEX COL_WIDTH_TINY);;;
  sheet_call (SetColumn COL_KEY_PATH COL_VALUE_DATA COL_WIDTH_WIDE);;;
  sheet_call (SetColumn COL_TIMESTAMP COL_LOGS COL_WIDTH_NARROW);;;
  sheet_call (SetRow 0 ROW_HEIGHT
    {| bold := true; border_bottom := Some FB_Medium; border_top := None; bg_color := None;
       font_color := None; underline := false |});;;
  ws_write_string COL_INDEX (lit "Index");;;
  ws_write_string COL_KEY_PATH (lit "Key Path");;;
  ws_write_string COL_SUBKEY_COUNT (lit "Subkey Count");;;
  ws_write_string COL_VALUE_NAME (lit "Value Name");;;
  ws_write_string COL_VALUE_DATA (lit "Value Data");;;
  ws_write_string COL_TIMESTAMP (lit "Timestamp");;;
  ws_write_string COL_STATUS (lit "Status");;;
  ws_write_string COL_PREV_SEQ_NUM (lit "Previous Seq Num");;;
  ws_write_string COL_MOD_SEQ_NUM (lit "Modifying Seq Num");;;
  ws_write_string COL_FLAGS (lit "Flags");;;
  ws_write_string COL_ACCESS_FLAGS (lit "Access Flags");;;
  ws_write_string COL_VALUE_TYPE (lit "Value Type");;;
  ws_write_string COL_LOGS (lit "Logs");;;
  (* the only call without a result *)
  m_modify (fun w => match w with
    | Build_WorksheetState a b d e f g => Build_WorksheetState (a ++ [FreezePanes 1 0]) b d e f g
    end).

(** The rows of the log sheet, which here takes the place of the primary sheet. *)
Definition xlsx_log (log : Log) : M (WorksheetState * WorksheetState) Error () :=
  on_primary (ws_write_string 0 (LogCode_debug (code log)));;;
  check_write_string 1 (text log) (set_underline Format_new);;;
  on_primary next_row.

(** The three sheets: registry items, logs, overflow. *)
Definition WriteXlsx_write (recovered_only : bool) (parser : Parser) (filter_ : option Filter)
    : res Error (list (list SheetCall)) :=
  _ ← add_worksheet (lit "Registry Items");
  _ ← add_worksheet (lit "Logs");
  _ ← add_worksheet OVERFLOW;
  match xlsx_headings WorksheetState_new with
  | (items, r) =>
      _ ← r;
      keys ← dump_keys n fuel depth parser filter_;
      match xlsx_keys recovered_only 0 keys (items, WorksheetState_new) with
      | ((items, overflow), r) =>
          _ ← r;
          match m_for xlsx_log (default [] (Logs_get (get_parse_logs parser)))
                  (WorksheetState_new, overflow) with
          | ((logs, overflow), r) => _ ← r; Ok [sheet items; sheet logs; sheet overflow]
          end
      end
  end.
End Xlsx.
