(* ===== verification/RegDump.v ===== *)
(** * RegDump: the export tool

    [bin/reg_dump/main.rs] after argument parsing: which files are exported, with which
    logs, in which format and where to. *)

From S2P Require Import Prelude Env Log Marvin Util UtilFacts Cells BaseBlock SubKeyLists Values ValueFacts State Filter KeyNode KeyNodeFacts Recover Parser ParserFacts TransactionLog TransactionLogFacts Init Cli Compare Dump Xlsx.

Inductive OutputType := OT_Jsonl | OT_Common | OT_Tsv | OT_Xlsx.
#[export] Instance OutputType_eq : EqDecision OutputType.
Proof. solve_decision. Defined.

(** [ValueEnum]: the names on the command line, in the order they are listed. *)
Definition value_variants : list OutputType := [OT_Jsonl; OT_Xlsx; OT_Tsv; OT_Common].
Definition to_possible_value (t : OutputType) : ustr :=
  match t with
  | OT_Jsonl => lit "jsonl"
  | OT_Xlsx => lit "xlsx"
  | OT_Tsv => lit "tsv"
  | OT_Common => lit "common"
  end.

Definition dump_outpath (primary_path_from_base outfolder : PathBuf) (output_type : OutputType)
    : PathBuf :=
  let output_filename := str_replace SLASH (lit "_") primary_path_from_base in
  set_extension
    match output_type with
    | OT_Xlsx => lit "xlsx"
    | OT_Tsv => lit "tsv"
    | OT_Common => lit "txt"
    | OT_Jsonl => lit "jsonl"
    end (path_join outfolder output_filename).

Section RegDump.
Context `{E : Env} {W : Type} `{!Write W}.
Variable stdout : ustr -> res Error ().
Variable hash_order : RegItemMap -> list (RegItemMapKey * RegItemMapValue).
Variable n fuel depth : nat.
Variable to_json : CellKeyNode -> res Error ustr.
Variable xlsx_call : list SheetCall -> SheetCall -> res Error ().
Variable add_worksheet : ustr -> res Error ().
Variable workbook_new : PathBuf -> res Error ().
Variable fs_open : PathBuf -> res Error (res Error (list byte)).
(** Creating a file, or the text of the error. *)
Variable fs_create : PathBuf -> ustr + W.
Variable is_file : PathBuf -> bool.
Variable metadata_len : PathBuf -> ustr + Z.
Variable walk_dir : PathBuf -> list DirEntry.
Variable to_lowercase : ustr -> ustr.

(** The options that reach the parser and the writers. *)
Record DumpOptions := {
  opt_filter : option Filter;
  opt_recover : bool;
  opt_recovered_only : bool;
  opt_get_full_field_info : bool;
  opt_output_type : OutputType;
}.

(** What was written: text, or the sheets of a workbook. *)
Definition Written : Type := W + list (list SheetCall).

Definition create (output : PathBuf) : res Error W :=
  match fs_create output with inr w => Ok w | inl e => Err (Error_from_io e) end.

Definition write_output (output : PathBuf) (o : DumpOptions) (parser : Parser)
    : res Error Written :=
  match opt_output_type o with
  | OT_Xlsx =>
      _ ← workbook_new output;
      inr <$> WriteXlsx_write stdout n fuel depth xlsx_call add_worksheet
                (opt_recovered_only o) parser (opt_filter o)
  | OT_Tsv =>
      w ← create output;
      match WriteTsv_write stdout n fuel depth parser (opt_filter o)
              {| tsv_index := 0; tsv_recovered_only := opt_recovered_only o; tsv_writer := w |} with
      | (t, r) => _ ← r; Ok (inl (tsv_writer t))
      end
  | OT_Common =>
      w ← create output;
      match WriteCommon_write stdout n fuel depth parser (opt_filter o) w with
      | (w, r) => _ ← r; Ok (inl w)
      end
  | OT_Jsonl =>
      w ← create output;
      match WriteJson_write stdout n fuel depth to_json parser (opt_filter o) w with
      | (w, r) => _ ← r; Ok (inl w)
      end
  end.

Definition dump_parser (input : PathBuf) (logs : option (list PathBuf)) (o : DumpOptions)
    : res Error Parser :=
  let builder := from_path (fs_open input) in
  let builder := fp_update (pb_set_update_console true) builder in
  let builder := fp_update (pb_set_recover_deleted (opt_recover o)) builder in
  let builder := fp_update (pb_set_get_full_field_info (opt_get_full_field_info o)) builder in
  fp_build stdout hash_order n fuel depth
    (foldl (fun b log => fp_with_transaction_log (fs_open log) b) builder (default [] logs)).

Definition reg_dump (input output : PathBuf) (logs : option (list PathBuf)) (o : DumpOptions)
    : res Error Written :=
  parser ← dump_parser input logs o;
  _ ← progress_write stdout true (lit "Writing file");
  written ← write_output output o parser;
  _ ← progress_write stdout true
        ([10] ++ lit "Finished writing " ++ debug_str output ++ [10]);
  Ok written.

Definition process_file (outpath input : PathBuf) (skip_logs : bool) (o : DumpOptions)
    : res Error Written :=
  name ← expect (file_name input);
  reg_dump input outpath (get_log_files is_file skip_logs name input) o.

(** One entry of the folder; an error of [reg_dump] is dropped. *)
Definition dump_entry (outfolder base : PathBuf) (skip_logs : bool) (o : DumpOptions)
    (entry : DirEntry) : res Error () :=
  match de_file_name entry with
  | Some f =>
      if bool_decide (to_lowercase f ∈ reg_files) then
        has_size ← file_has_size stdout metadata_len (de_path entry);
        if has_size : bool then
          match strip_prefix (de_path entry) base with
          | None => println stdout strip_prefix_error
          | Some primary_path_from_base =>
              match reg_dump (de_path entry)
                      (dump_outpath primary_path_from_base outfolder (opt_output_type o))
                      (get_log_files is_file skip_logs f (de_path entry)) o with
              | Ok _ | Err _ => Ok ()
              | Panic => Panic
              | NoFuel => NoFuel
              end
          end
        else Ok ()
      else Ok ()
  | None => Ok ()
  end.
Fixpoint dump_entries (outfolder base : PathBuf) (skip_logs : bool) (o : DumpOptions)
    (entries : list DirEntry) : res Error () :=
  match entries with
  | [] => Ok ()
  | entry :: entries =>
      _ ← dump_entry outfolder base skip_logs o entry;
      dump_entries outfolder base skip_logs o entries
  end.
Definition process_folder (outfolder base : PathBuf) (skip_logs : bool) (o : DumpOptions)
    : res Error () :=
  dump_entries outfolder base skip_logs o
    (filter (fun e => de_is_dir e = false) (walk_dir base)).

(** [main] on the arguments clap has read. *)
Record DumpArgs := {
  da_input : PathBuf;
  da_output : PathBuf;
  da_output_type : OutputType;
  da_recurse : bool;
  da_recover : bool;
  da_recovered_only : bool;
  da_full_field_info : bool;
  da_skip_logs : bool;
  da_filter : option ustr;
}.
(** The filter both tools make from the key path on the command line. *)
Definition filter_of_arg (f : option ustr) : res Error (option Filter) :=
  match f with
  | Some f =>
      filter_ ← FilterBuilder_build (return_child_keys (add_key_path FilterBuilder_new f) true);
      Ok (Some filter_)
  | None => Ok None
  end.
Definition dump_main (a : DumpArgs) : res Error () :=
  filter_ ← filter_of_arg (da_filter a);
  let o := {| opt_filter := filter_; opt_recover := da_recover a;
              opt_recovered_only := da_recovered_only a;
              opt_get_full_field_info := da_full_field_info a;
              opt_output_type := da_output_type a |} in
  if da_recurse a then process_folder (da_output a) (da_input a) (da_skip_logs a) o
  else _ ← process_file (da_output a) (da_input a) (da_skip_logs a) o; Ok ().

(** [main] of [reg_compare.rs]. *)
Record CompareArgs := {
  ca_base : PathBuf;
  ca_compare : PathBuf;
  ca_output : PathBuf;
  ca_recurse : bool;
  ca_filter : option ustr;
  ca_diff : bool;
  ca_skip_logs : bool;
}.
Context {It : Itertools}.
Variable map_order : OriginalMap -> list (ItemId * option Hash).
Definition compare_main (a : CompareArgs) : res Error () :=
  filter_ ← filter_of_arg (ca_filter a);
  if ca_recurse a then
    process_folders stdout hash_order map_order n fuel depth fs_open fs_create is_file
      metadata_len walk_dir to_lowercase (ca_output a) (ca_base a) (ca_compare a) filter_
      (ca_diff a) (ca_skip_logs a)
  else
    _ ← process_files stdout hash_order map_order n fuel depth fs_open fs_create is_file
          (ca_output a) (ca_base a) (ca_compare a) filter_ (ca_diff a) (ca_skip_logs a);
    Ok ().
End RegDump.
