(* ===== verification/DumpFacts.v ===== *)
(** * DumpFacts: rows that read back, totals that count, rows that are numbered

    Theorems about [Dump] and [Xlsx]. *)

From S2P Require Import Prelude Env Log Marvin Util UtilFacts Cells BaseBlock SubKeyLists Values ValueFacts State Filter KeyNode KeyNodeFacts Recover Parser ParserFacts TransactionLog TransactionLogFacts Init InitFacts Cli Compare CompareFacts DiffFacts Dump Xlsx.

(** ** Sanitized text *)

Definition xml_char (c : Z) : Z := if is_legal_xml_1_0 c then c else 0xFFFD.

Lemma sanitize_map s : sanitize_for_xml_1_0 s = xml_char <$> s.
Proof.
  unfold sanitize_for_xml_1_0. change (fun c => if is_legal_xml_1_0 c then c else 65533) with xml_char.
  assert (forall i, find_illegal s = Some i -> xml_char <$> take i s = take i s) as Hi.
  { induction s as [|c s IH]; intros i; cbn; [done|]. case_match eqn:Hc.
    - by intros [= <-].
    - intros (j & Hj & ->)%fmap_Some. cbn. rewrite IH by done. f_equal.
      unfold xml_char. by destruct (is_legal_xml_1_0 c). }
  destruct (find_illegal s) as [i|] eqn:Hf.
  - rewrite <- (take_drop i s) at 3. rewrite fmap_app. by rewrite Hi.
  - clear Hi. induction s as [|c s IH]; [done|]. cbn in Hf. case_match eqn:Hc; [done|].
    destruct (find_illegal s); [done|]. cbn. rewrite <- IH by done.
    unfold xml_char. by destruct (is_legal_xml_1_0 c).
Qed.

Lemma sanitize_legal s : Forall (fun c => is_legal_xml_1_0 c = true) (sanitize_for_xml_1_0 s).
Proof.
  rewrite sanitize_map. apply Forall_fmap, Forall_true. intros c. cbn. unfold xml_char.
  by destruct (is_legal_xml_1_0 c) eqn:H.
Qed.

(** ** Chunks of a long text *)

Definition full_chunks (chunks : list ustr) : Prop :=
  Forall (fun c => len c = MAX_EXCEL_CELL_LEN) (removelast chunks) /\
  Forall (fun c => 0 < len c <= MAX_EXCEL_CELL_LEN) chunks.

Lemma str_len_len s : len s <= str_len s.
Proof.
  induction s as [|c s IH]; [done|]. rewrite len_cons. cbn [str_len].
  pose proof (utf8_len_pos c). lia.
Qed.

Lemma overflow_chunks_spec fuel val done :
  (length val <= fuel)%nat ->
  exists chunks, overflow_chunks fuel val done = Ok (done ++ chunks) /\
    mjoin chunks = val /\ full_chunks chunks.
Proof.
  unfold full_chunks, MAX_EXCEL_CELL_LEN.
  revert val done. induction fuel as [|fuel IH]; intros val done Hf.
  - destruct val; [|cbn in Hf; lia]. exists []. rewrite app_nil_r. split_and!; constructor.
  - destruct val as [|x val]; [exists []; rewrite app_nil_r; split_and!; constructor|].
    cbn [overflow_chunks]. unfold safe_split_at, MAX_EXCEL_CELL_LEN.
    set (v := x :: val) in *. pose proof (str_len_len v) as Hs.
    assert (0 < len v) by (unfold v; rewrite len_cons; pose proof (len_nonneg val); lia).
    set (k := Z.min 32767 (str_len v)) in *.
    destruct (IH (zdrop k v) (done ++ [ztake k v])) as (chunks & -> & Hj & Hfull & Hsize).
    { unfold zdrop. rewrite length_drop. unfold v, len in *. cbn in *. lia. }
    exists (ztake k v :: chunks). rewrite <- app_assoc. split; [done|].
    split; [change (ztake k v ++ mjoin chunks = v); by rewrite Hj, ztake_zdrop|].
    assert (0 < len (ztake k v) <= 32767) as Hk by (rewrite len_ztake; lia).
    split; [|by constructor].
    destruct chunks as [|c chunks]; [constructor|]. cbn [removelast] in *.
    constructor; [|done]. rewrite len_ztake.
    apply Forall_cons in Hsize as [Hc _].
    assert (0 < len (zdrop k v)) as Hrest.
    { rewrite <- Hj. change (mjoin (c :: chunks)) with (c ++ mjoin chunks). rewrite len_app. pose proof (len_nonneg (mjoin chunks)). lia. }
    rewrite len_zdrop in Hrest. lia.
Qed.

(** ** Writing a long text *)

(** What the crate documents of a sheet: cells are in 1048576 rows and 16384 columns, a text has at
    most 32767 characters, and there are at most 65530 links. *)
Definition ROW_MAX : Z := 1048576.
Definition COL_MAX : Z := 16384.
Definition LINK_MAX : Z := 65530.
Definition cell_fits (r col : Z) : Prop := 0 <= r < ROW_MAX /\ 0 <= col < COL_MAX.
Definition is_link (c : SheetCall) : bool := match c with WriteUrl _ _ _ _ => true | _ => false end.
Definition links (calls : list SheetCall) : Z := len (filter (fun c => is_link c = true) calls).
Definition call_fits (calls : list SheetCall) (c : SheetCall) : Prop :=
  match c with
  | WriteString r col text _ => cell_fits r col /\ len text <= MAX_EXCEL_CELL_LEN
  | WriteNumber r col _ => cell_fits r col
  | WriteUrl r col url _ => cell_fits r col /\ len url <= 255 /\ links calls < LINK_MAX
  | SetRow r _ _ => 0 <= r < ROW_MAX
  | SetColumn first last _ => 0 <= first < COL_MAX /\ 0 <= last < COL_MAX
  | FreezePanes r col => cell_fits r col
  end.

Lemma len_dec_digits fuel n acc : len (dec_digits fuel n acc) <= Z.of_nat fuel + len acc.
Proof.
  revert n acc. induction fuel as [|fuel IH]; intros n acc; cbn [dec_digits]; [lia|].
  case_match; [rewrite len_cons; lia|]. specialize (IH (n / 10) ((48 + n mod 10) :: acc)).
  rewrite len_cons in IH. lia.
Qed.
Lemma len_fmt_dec n : len (fmt_dec n) <= 26.
Proof.
  unfold fmt_dec. pose proof (len_dec_digits 25 (- n) []). pose proof (len_dec_digits 25 n []).
  rewrite len_nil in *. case_match; rewrite ?len_cons; lia.
Qed.

Definition truncated_label (r : Z) : ustr := lit " [truncated; row: " ++ fmt_dec r ++ lit "]".
Definition overflow_link (r : Z) : ustr := lit "internal:Overflow!A" ++ fmt_dec r.
Lemma len_truncated_label r : len (truncated_label r) <= 45.
Proof.
  unfold truncated_label. rewrite !len_app. pose proof (len_fmt_dec r).
  assert (len (lit " [truncated; row: ") = 18) as -> by reflexivity.
  assert (len (lit "]") = 1) as -> by reflexivity. lia.
Qed.
Lemma len_overflow_link r : len (overflow_link r) <= 45.
Proof.
  unfold overflow_link. rewrite len_app. pose proof (len_fmt_dec r).
  assert (len (lit "internal:Overflow!A") = 19) as -> by reflexivity. lia.
Qed.

Section Sheets.
Context `{E : Env}.
Variable xlsx_call : list SheetCall -> SheetCall -> res Error ().

Definition ws_add (calls : list SheetCall) (w : WorksheetState) : WorksheetState :=
  match w with Build_WorksheetState a b d e f g => Build_WorksheetState (a ++ calls) b d e f g end.
Lemma ws_add_row calls w : row (ws_add calls w) = row w.
Proof. by destruct w. Qed.
Lemma ws_add_sheet calls w : sheet (ws_add calls w) = sheet w ++ calls.
Proof. by destruct w. Qed.
Lemma ws_add_nil w : ws_add [] w = w.
Proof. destruct w. cbn. by rewrite app_nil_r. Qed.
Lemma ws_add_add a b w : ws_add b (ws_add a w) = ws_add (a ++ b) w.
Proof. destruct w. cbn. by rewrite app_assoc. Qed.

(** [m] from [s] can only succeed in [s'], and does when [fits]. *)
Definition ends {S} (m : M S Error ()) (s s' : S) (fits : Prop) : Prop :=
  (forall t, m s = (t, Ok ()) -> t = s') /\ (fits -> m s = (s', Ok ())).

Lemma ends_run {S} (m : M S Error ()) s s' : m s = (s', Ok ()) -> ends m s s' True.
Proof. intros H. split; [|done]. intros t Ht. congruence. Qed.
Lemma ends_bind {S} (m k : M S Error ()) s s1 s2 F G :
  ends m s s1 F -> ends k s1 s2 G -> ends (m;;; k) s s2 (F /\ G).
Proof.
  intros [H1 H2] [K1 K2]. split.
  - intros t (s3 & [] & Hm & Hk)%m_bind_Ok. apply H1 in Hm as ->. by apply K1.
  - intros [HF HG]. rewrite (m_bind_run _ _ _ _ _ (H2 HF)). auto.
Qed.
Lemma ends_impl {S} (m : M S Error ()) s s' (F G : Prop) : (G -> F) -> ends m s s' F -> ends m s s' G.
Proof. intros HG [H1 H2]. split; auto. Qed.
Lemma ends_get {S} (k : S -> M S Error ()) s s' F :
  ends (k s) s s' F -> ends (m_bind m_get k) s s' F.
Proof. done. Qed.
Lemma ends_lift {S A} r (a : A) (k : A -> M S Error ()) s s' F :
  r = Ok a -> ends (k a) s s' F -> ends (m_bind (m_lift r) k) s s' F.
Proof. by intros ->. Qed.
Lemma ends_primary (m : M WorksheetState Error ()) p p' o F :
  ends m p p' F -> ends (on_primary m) (p, o) (p', o) F.
Proof.
  intros [H1 H2]. unfold on_primary. split; cbn [fst snd].
  - intros t. destruct (m p) as [w r]. intros [= <- ->]. by rewrite (H1 w eq_refl).
  - intros HF. by rewrite (H2 HF).
Qed.
Lemma ends_overflow (m : M WorksheetState Error ()) p o o' F :
  ends m o o' F -> ends (on_overflow m) (p, o) (p, o') F.
Proof.
  intros [H1 H2]. unfold on_overflow. split; cbn [fst snd].
  - intros t. destruct (m o) as [w r]. intros [= <- ->]. by rewrite (H1 w eq_refl).
  - intros HF. by rewrite (H2 HF).
Qed.
Lemma ends_call c w :
  ends (sheet_call xlsx_call c) w (ws_add [c] w) (xlsx_call (sheet w) c = Ok ()).
Proof.
  unfold ends, sheet_call. destruct w as [a b d e f g]. cbn [sheet ws_add].
  destruct (xlsx_call a c) as [[]|err| |]; (split; [|done]); intros t Ht; [congruence|done..].
Qed.
Lemma ends_string col text w :
  ends (ws_write_string xlsx_call col text) w (ws_add [WriteString (row w) col text None] w)
    (xlsx_call (sheet w) (WriteString (row w) col text None) = Ok ()).
Proof. unfold ws_write_string, m_bind, m_get. apply (ends_call (WriteString _ _ _ _)). Qed.
Lemma next_row_run w :
  row w + 1 < U32_MOD -> next_row w = (ws_set_row (row w + 1) w, Ok ()).
Proof. intros H. unfold next_row, m_bind, m_get, m_lift. by rewrite add_u32_fits. Qed.

Lemma on_primary_run {A} (m : M WorksheetState Error A) p o p' a :
  m p = (p', Ok a) -> on_primary m (p, o) = ((p', o), Ok a).
Proof. intros H. unfold on_primary. cbn. by rewrite H. Qed.

(** The calls that write the chunks from column [col + 1] on. *)
Fixpoint chunk_calls (r col : Z) (chunks : list ustr) : list SheetCall :=
  match chunks with
  | [] => []
  | chunk :: chunks => WriteString r (col + 1) chunk None :: chunk_calls r (col + 1) chunks
  end.

(** Every call within the documented limits succeeds. *)
Definition limits_only : Prop := forall calls c, call_fits calls c -> xlsx_call calls c = Ok ().

Lemma ends_chunks col chunks p o :
  ends (write_chunks xlsx_call col chunks) (p, o) (p, ws_add (chunk_calls (row o) col chunks) o)
    (limits_only /\ 0 <= row o < ROW_MAX /\ 0 <= col /\ col + len chunks < COL_MAX /\
     Forall (fun c => len c <= MAX_EXCEL_CELL_LEN) chunks).
Proof.
  revert col o. induction chunks as [|chunk chunks IH]; intros col o.
  - eapply ends_impl; [|apply ends_run; cbn; by rewrite ws_add_nil]. done.
  - cbn [write_chunks chunk_calls]. case_match eqn:Hcol; [|split; [done|]].
    + unfold m_bind at 1. unfold m_lift at 1. specialize (IH (col + 1)
        (ws_add [WriteString (row o) (col + 1) chunk None] o)). rewrite ws_add_add, ws_add_row in IH.
      eapply ends_impl; [|exact (ends_bind _ _ _ _ _ _ _ (ends_overflow _ p _ _ _
        (ends_string (col + 1) chunk o)) IH)].
      intros (Hlim & Hr & Hc & Hlen & [Hchunk Hchunks]%Forall_cons). rewrite len_cons in Hlen.
      pose proof (len_nonneg chunks). split; [|split_and!; (done || lia)].
      apply Hlim. cbn. unfold cell_fits. split_and!; (done || lia).
    + intros (_ & _ & _ & Hlen & _). rewrite len_cons in Hlen. pose proof (len_nonneg chunks).
      apply Z.ltb_ge in Hcol. unfold U16_MOD, COL_MAX in *. lia.
Qed.

Lemma chunk_count chunks :
  full_chunks chunks -> len chunks <= len (mjoin chunks) / MAX_EXCEL_CELL_LEN + 1.
Proof.
  intros [Hf Hs]. assert (MAX_EXCEL_CELL_LEN * (len chunks - 1) <= len (mjoin chunks)) as H.
  { clear Hs. induction chunks as [|c chunks IH]; [done|].
    change (mjoin (c :: chunks)) with (c ++ mjoin chunks). rewrite len_cons, len_app.
    destruct chunks as [|d chunks].
    { pose proof (len_nonneg c). pose proof (len_nonneg (mjoin ([] : list ustr))).
      rewrite (len_nil (A:=ustr)). lia. }
    cbn [removelast] in Hf. apply Forall_cons in Hf as [-> Hf]. specialize (IH Hf). lia. }
  assert (len chunks - 1 <= len (mjoin chunks) / MAX_EXCEL_CELL_LEN); [|lia].
  apply Z.div_le_lower_bound; unfold MAX_EXCEL_CELL_LEN in *; lia.
Qed.

(** The two sheets after a long text. *)
Definition with_overflow (col : Z) (val : ustr) (chunks : list ustr) (link_format : Format)
    (p o : WorksheetState) : WorksheetState * WorksheetState :=
  (ws_add [ WriteUrl (row p) col (overflow_link (row o + 1)) link_format;
            WriteString (row p) col (ztake 250 val ++ truncated_label (row o + 1))
              (Some link_format) ] p,
   ws_set_row (row o + 1)
     (ws_add (WriteString (row o) 0 (truncated_label (row o + 1)) None
              :: chunk_calls (row o) 0 chunks) o)).

Lemma ends_long_text col val chunks link_format p o :
  MAX_EXCEL_CELL_LEN < str_len val -> row o + 1 < U32_MOD ->
  overflow_chunks (length val) val [] = Ok chunks -> full_chunks chunks ->
  ends (check_write_string xlsx_call col val link_format) (p, o)
    (with_overflow col val chunks link_format p o)
    (limits_only /\ cell_fits (row p) col /\ 0 <= row o < ROW_MAX /\ len chunks < COL_MAX /\
     links (sheet p) < LINK_MAX).
Proof.
  intros Hlong Hrow Hrun [_ Hsize].
  unfold check_write_string. rewrite bool_decide_false by (by intros ->).
  unfold write_string_handle_overflow. rewrite (proj2 (Z.ltb_lt _ _) Hlong).
  pose proof (ends_overflow _ p _ _ _ (ends_string 0 (truncated_label (row o + 1)) o)) as H1.
  pose proof (ends_chunks 0 chunks p (ws_add [WriteString (row o) 0 (truncated_label (row o + 1)) None] o))
    as H2. rewrite ws_add_add, ws_add_row in H2. 
  set (o2 := ws_add (_ ++ _) o) in H2.
  assert (row o2 = row o) as Hro by by apply ws_add_row.
  pose proof (ends_overflow _ p _ _ _ (ends_run _ _ _ (next_row_run o2 ltac:(by rewrite Hro)))) as H3.
  set (o3 := ws_set_row _ o2) in H3.
  assert (row o3 = row o + 1) as Hro3 by (rewrite <- Hro; by destruct o2).
  set (url := WriteUrl (row p) col (overflow_link (row o + 1)) link_format).
  set (text := WriteString (row p) col (ztake 250 val ++ truncated_label (row o + 1))
    (Some link_format)).
  pose proof (ends_primary _ _ _ o3 _ (ends_call url p)) as H4.
  pose proof (ends_primary _ _ _ o3 _ (ends_call text (ws_add [url] p))) as H5.
  rewrite ws_add_add in H5.
  assert (with_overflow col val chunks link_format p o = (ws_add [url; text] p, o3)) as ->
    by (unfold with_overflow, o3; by rewrite Hro).
  eapply ends_impl; [|eapply ends_lift; [exact Hrun|]; apply ends_get; cbn [fst snd];
    eapply ends_lift; [by apply add_u32_fits|];
    eapply ends_bind; [exact H1|]; eapply ends_bind; [exact H2|]; eapply ends_bind; [exact H3|];
    apply ends_get; cbn [fst snd]; rewrite Hro3; eapply ends_bind; [exact H4|]; unfold text in H5;
    unfold safe_truncate, MAX_TRUNCATED_CHARS;
    rewrite (Z.min_l 250) by (unfold MAX_EXCEL_CELL_LEN in Hlong; lia); exact H5].
  intros (Hlim & Hcell & Hr & Hlen & Hlinks).
  pose proof (len_truncated_label (row o + 1)). pose proof (len_overflow_link (row o + 1)).
  assert (cell_fits (row o) 0) as Ho0 by by unfold cell_fits, COL_MAX.
  destruct Hr as [Hr1 Hr2].
  split_and!; try done; try apply Hlim.
  - split; [done|]. unfold MAX_EXCEL_CELL_LEN. lia.
  - eapply Forall_impl; [exact Hsize|]. intros c. cbn. lia.
  - split_and!; [apply Hcell..| |done]. lia.
  - split; [done|]. rewrite len_app, len_ztake. unfold MAX_EXCEL_CELL_LEN. lia.
Qed.

(** C22: a text too long for a cell loses nothing, whatever calls the sheets refuse: if writing it
    succeeds, the overflow sheet's next row has, in order, chunks of at most 32767 characters
    (all full but the last) that make up the text, one per column, and the cell itself shows its
    first 250 characters and links to that row.  And it does succeed when the sheets accept the
    calls within the crate's documented limits, the two cells are in the sheet, the text is
    shorter than 16383 full cells, and fewer than 65530 links were made. *)
Theorem overflow_lossless col val link_format p o :
  MAX_EXCEL_CELL_LEN < str_len val -> row o + 1 < U32_MOD ->
  exists chunks, mjoin chunks = val /\ full_chunks chunks /\
    (forall s, check_write_string xlsx_call col val link_format (p, o) = (s, Ok ()) ->
       s = with_overflow col val chunks link_format p o) /\
    (limits_only -> cell_fits (row p) col -> 0 <= row o < ROW_MAX ->
     len val < MAX_EXCEL_CELL_LEN * (COL_MAX - 1) -> links (sheet p) < LINK_MAX ->
     check_write_string xlsx_call col val link_format (p, o)
       = (with_overflow col val chunks link_format p o, Ok ())).
Proof.
  intros Hlong Hrow.
  destruct (overflow_chunks_spec (length val) val []) as (chunks & Hrun & Hjoin & Hfull); [done|].
  exists chunks. split; [done|]. split; [done|].
  destruct (ends_long_text col val chunks link_format p o Hlong Hrow Hrun Hfull) as [H1 H2].
  split; [exact H1|]. intros Hlim Hcell Hr Hlen Hlinks.
  apply H2. refine (conj Hlim (conj Hcell (conj Hr (conj _ Hlinks)))).
  pose proof (chunk_count chunks Hfull) as Hc. rewrite Hjoin in Hc.
  assert (len val / MAX_EXCEL_CELL_LEN < COL_MAX - 1) by (by apply Z.div_lt_upper_bound). lia.
Qed.
End Sheets.

(** ** Row numbers *)

Section Rows.
Context `{E : Env}.
Variable stdout : ustr -> res Error ().
Variable xlsx_call : list SheetCall -> SheetCall -> res Error ().

(** The numbers written in the index column, with their rows. *)
Definition index_cell (c : SheetCall) : option (Z * Z) :=
  match c with
  | WriteNumber r col num => if col =? COL_INDEX then Some (r, num) else None
  | _ => None
  end.
Definition call_row (c : SheetCall) : option Z :=
  match c with
  | WriteString r _ _ _ | WriteNumber r _ _ | WriteUrl r _ _ _ | SetRow r _ _ => Some r
  | _ => None
  end.
(** The crate rejects rows a sheet does not have. *)
Hypothesis rows_limited :
  forall l c r, xlsx_call l c = Ok () -> call_row c = Some r -> r < ROW_MAX.

(** Rows 1 to [row w] are numbered, each once and in order, and nothing is written below. *)
Definition numbered (w : WorksheetState) : Prop :=
  0 <= row w < ROW_MAX /\
  omap index_cell (sheet w) = (fun i => (i, i)) <$> seqZ 1 (row w) /\
  Forall (fun c => forall r, call_row c = Some r -> r <= row w) (sheet w).

(** Writing in the current row, or in the other sheet. *)
Definition in_row (s s' : WorksheetState * WorksheetState) : Prop :=
  row s'.1 = row s.1 /\ (numbered s.1 -> numbered s'.1).
#[global] Instance in_row_preorder : PreOrder in_row.
Proof. split; [by split|]. intros a b c [? ?] [? ?]. split; [congruence|auto]. Qed.

Lemma sheet_call_in_row c w :
  index_cell c = None -> (forall r, call_row c = Some r -> r = row w) ->
  in_row (w, w) (let '(w', _) := sheet_call xlsx_call c w in (w', w')).
Proof.
  intros Hi Hr. unfold sheet_call. destruct (xlsx_call (sheet w) c) as [[]|err| |]; try by split.
  destruct w as [a b d e f g]. split; [done|]. intros (H1 & H2 & H3).
  split; [done|]. split; cbn in *.
  - rewrite omap_app, H2. cbn. rewrite Hi. by rewrite app_nil_r.
  - apply Forall_app. split; [done|]. constructor; [|done]. intros r Hc. by rewrite (Hr r Hc).
Qed.

Lemma on_overflow_in_row {A} (m : M WorksheetState Error A) : m_rel in_row (on_overflow m).
Proof. intros [p o]. unfold on_overflow. cbn. by destruct (m o). Qed.

(** A call made with the current row. *)
Lemma primary_call_in_row (f : WorksheetState -> SheetCall) :
  (forall w, index_cell (f w) = None) -> (forall w r, call_row (f w) = Some r -> r = row w) ->
  m_rel in_row (on_primary (let* w := m_get in sheet_call xlsx_call (f w))).
Proof.
  intros Hi Hr [p o]. unfold on_primary, m_bind, m_get. cbn [fst snd].
  pose proof (sheet_call_in_row (f p) p (Hi p) (Hr p)) as H.
  destruct (sheet_call xlsx_call (f p) p) as [w' r]. destruct H as [H1 H2]. by split.
Qed.

Lemma write_string_in_row col text : m_rel in_row (on_primary (ws_write_string xlsx_call col text)).
Proof. apply (primary_call_in_row (fun w => WriteString (row w) col text None)); naive_solver. Qed.
Lemma write_number_in_row col num :
  col <> COL_INDEX -> m_rel in_row (on_primary (ws_write_number xlsx_call col num)).
Proof.
  intros Hc. apply (primary_call_in_row (fun w => WriteNumber (row w) col num)); [|naive_solver].
  intros w. cbn. by rewrite (proj2 (Z.eqb_neq _ _) Hc).
Qed.
Lemma write_chunks_in_row col chunks : m_rel in_row (write_chunks xlsx_call col chunks).
Proof.
  revert col. induction chunks as [|c chunks IH]; intros col; cbn [write_chunks]; m_rel_tac.
  apply on_overflow_in_row.
Qed.

Lemma write_string_handle_overflow_in_row col val fmt :
  m_rel in_row (write_string_handle_overflow xlsx_call col val fmt).
Proof.
  unfold write_string_handle_overflow. case_match; [|apply write_string_in_row].
  pose proof write_chunks_in_row. pose proof @on_overflow_in_row.
  apply m_rel_bind; [apply _|apply m_rel_lift; apply _|]. intros chunks.
  apply m_rel_bind; [apply _|apply m_rel_get; apply _|]. intros s0.
  do 4 (apply m_rel_bind; [apply _|first [apply m_rel_lift; apply _ | auto]|intros ?]).
  intros [p o]. unfold m_bind at 1, m_get. cbn [fst snd].
  assert (forall c q, index_cell c = None -> (forall r, call_row c = Some r -> r = row q) ->
    in_row (q, o) (on_primary (sheet_call xlsx_call c) (q, o)).1) as Hcall.
  { intros c q Hi Hr. pose proof (sheet_call_in_row c q Hi Hr) as Hs. unfold on_primary. cbn [fst snd].
    destruct (sheet_call xlsx_call c q). exact Hs. }
  unfold m_bind. set (c1 := WriteUrl _ _ _ _).
  pose proof (Hcall c1 p ltac:(done) ltac:(by intros r [= <-])) as Hc1.
  unfold on_primary in *. cbn [fst snd] in *.
  destruct (sheet_call xlsx_call c1 p) as [p1 [[]|err| |]]; cbn [fst snd] in *; try exact Hc1.
  etransitivity; [exact Hc1|].
  set (c2 := WriteString _ _ _ _).
  pose proof (Hcall c2 p1 ltac:(done)) as Hc2. cbn [fst snd] in *.
  destruct (sheet_call xlsx_call c2 p1) as [p2 ret]. apply Hc2. intros x [= <-]. by destruct Hc1.
Qed.

Lemma check_write_string_in_row col val fmt : m_rel in_row (check_write_string xlsx_call col val fmt).
Proof.
  unfold check_write_string. case_match; [apply m_rel_ret; apply _|].
  apply write_string_handle_overflow_in_row.
Qed.
Lemma write_sequence_num_in_row col seq :
  col <> COL_INDEX -> m_rel in_row (write_sequence_num xlsx_call col seq).
Proof.
  intros Hc. unfold write_sequence_num. case_match; [by apply write_number_in_row|].
  apply m_rel_ret; apply _.
Qed.

(** Starting a row numbers it. *)
Lemma start_row_numbered key_path name st s s' fmt :
  numbered s.1 -> start_row xlsx_call key_path name st s = (s', Ok fmt) ->
  row s'.1 = row s.1 + 1 /\ numbered s'.1.
Proof.
  destruct s as [[calls r sh ub kp vn] o]. intros (Hr & Hidx & Hcalls). cbn [row sheet fst] in *.
  assert (r + 1 < U32_MOD) as Hfit by (unfold ROW_MAX, U32_MOD in *; lia).
  unfold start_row. rewrite (m_bind_run _ _ _ _ _ (on_primary_run _ _ o _ _
    (next_row_run (Build_WorksheetState calls r sh ub kp vn) Hfit))).
  cbn [ws_set_row row].
  rewrite (m_bind_run _ _ _ _ _ (on_primary_run (m_modify (set_shading key_path name st)) _ o _ ()
    eq_refl)).
  unfold m_bind at 1, m_get at 1. cbn [fst snd].
  set (w := set_shading _ _ _ _).
  assert (row w = r + 1 /\ sheet w = calls) as [Hrow Hsheet].
  { unfold w, set_shading. by repeat case_match. }
  clearbody w. destruct w as [calls' r' sh' ub' kp' vn']. cbn in Hrow, Hsheet. subst calls' r'.
  destruct (get_formatters st _ _) as [rf lf]. cbn [row].
  unfold on_primary, ws_write_number, sheet_call, m_bind, m_get. cbn [fst snd sheet row].
  destruct (xlsx_call calls _) as [[]|err| |] eqn:Hc1; try done. cbn [fst snd sheet row].
  destruct (xlsx_call _ (WriteNumber _ _ _)) as [[]|err| |]; try done. cbn [fst snd sheet row].
  intros [= <- _]. cbn [fst row sheet]. split; [done|].
  pose proof (rows_limited _ _ _ Hc1 eq_refl) as Hmax.
  split; [cbn; lia|]. cbn [sheet row]. split.
  - rewrite !omap_app, Hidx. cbn. rewrite app_nil_r.
    rewrite <- (Z2Nat.id r) at 1 2 3 4 by lia. replace (Z.of_nat (Z.to_nat r) + 1) with (Z.of_nat (S (Z.to_nat r))) by lia.
    rewrite seqZ_S, fmap_app. cbn. do 3 f_equal; f_equal; lia.
  - apply Forall_app. split; [apply Forall_app; split|].
    + eapply Forall_impl; [exact Hcalls|]. intros c Hle r0 Hr0. cbn in *. specialize (Hle r0 Hr0). lia.
    + constructor; [|done]. intros r0 [= <-]. lia.
    + constructor; [|done]. intros r0 [= <-]. lia.
Qed.

(** A call that, when it succeeds, leaves the rows numbered. *)
Definition keeps {A} (m : M (WorksheetState * WorksheetState) Error A) : Prop :=
  forall s s' a, numbered s.1 -> m s = (s', Ok a) -> numbered s'.1.

Lemma keeps_in_row {A} (m : M _ Error A) : m_rel in_row m -> keeps m.
Proof. intros Hm s s' a Hn H. specialize (Hm s). rewrite H in Hm. by apply Hm. Qed.
Lemma keeps_bind {A B} (m : M _ Error A) (f : A -> M _ Error B) :
  keeps m -> (forall a, keeps (f a)) -> keeps (m_bind m f).
Proof.
  intros Hm Hf s s' b Hn (s1 & a & H1 & H2)%m_bind_Ok. eapply Hf, H2. by eapply Hm.
Qed.
Lemma keeps_ret {A} (a : A) : keeps (m_ret a).
Proof. apply keeps_in_row, m_rel_ret; apply _. Qed.
Lemma keeps_lift {A} (r : res Error A) : keeps (m_lift r).
Proof. apply keeps_in_row, m_rel_lift; apply _. Qed.
Lemma keeps_start_row path name st : keeps (start_row xlsx_call path name st).
Proof. intros s s' fmt Hn H. by apply start_row_numbered in H as [_ ?]. Qed.
Lemma keeps_check col val fmt : keeps (check_write_string xlsx_call col val fmt).
Proof. apply keeps_in_row, check_write_string_in_row. Qed.
Lemma keeps_string col text : keeps (on_primary (ws_write_string xlsx_call col text)).
Proof. apply keeps_in_row, write_string_in_row. Qed.
Lemma keeps_for {A} (f : A -> M _ Error ()) l : (forall x, keeps (f x)) -> keeps (m_for f l).
Proof.
  intros Hf. induction l as [|x l IH]; [apply keeps_ret|]. apply keeps_bind; [done|by intros []].
Qed.

Ltac keeps_tac :=
  repeat match goal with
         | |- keeps (m_bind _ _) => apply keeps_bind; [|let a := fresh "a" in intros a]
         | |- keeps (match ?x with _ => _ end) => destruct x
         | |- keeps (let _ := _ in _) => cbv zeta
         | |- keeps (m_ret _) => apply keeps_ret
         | |- keeps (m_lift _) => apply keeps_lift
         | |- keeps (start_row _ _ _ _) => apply keeps_start_row
         | |- keeps (check_write_string _ _ _ _) => apply keeps_check
         | |- keeps (on_primary (ws_write_string _ _ _)) => apply keeps_string
         | |- keeps (on_primary (ws_write_number _ _ _)) =>
             apply keeps_in_row, write_number_in_row; discriminate
         | |- keeps (write_sequence_num _ _ _) =>
             apply keeps_in_row, write_sequence_num_in_row; discriminate
         end; auto.

Lemma keeps_value ro key value : keeps (WriteXlsx_write_value xlsx_call ro key value).
Proof. unfold WriteXlsx_write_value. keeps_tac. Qed.
Lemma keeps_key_row key : keeps (write_key_row xlsx_call key).
Proof. unfold write_key_row. keeps_tac. Qed.

Lemma keeps_key ro key is_version : keeps (WriteXlsx_write_key xlsx_call ro key is_version).
Proof.
  revert is_version. revert key. fix IH 1. intros key is_version.
  destruct key as [x1 x2 x3 x4 x5 x6 x7 x8 x9 x10 x11 versions x13 x14].
  cbn [WriteXlsx_write_key n_versions].
  apply keeps_bind.
  - destruct (negb ro || _); [|apply keeps_ret]. apply keeps_bind; [apply keeps_key_row|].
    intros _. induction versions as [|v versions IHv]; [apply keeps_ret|].
    apply keeps_bind; [apply IH|]. intros _. exact IHv.
  - intros _. destruct is_version; [apply keeps_ret|]. apply keeps_for. intros v.
    apply keeps_bind; [apply keeps_value|]. intros _. apply keeps_for, keeps_value.
Qed.

Lemma keeps_keys ro index keys : keeps (xlsx_keys stdout xlsx_call ro index keys).
Proof.
  pose proof keeps_key. revert index.
  induction keys as [|k keys IH]; intros index; cbn [xlsx_keys]; keeps_tac.
Qed.

(** ** The headings *)

Definition in_sheet (w w' : WorksheetState) : Prop :=
  row w' = row w /\ (numbered w -> numbered w').
#[global] Instance in_sheet_preorder : PreOrder in_sheet.
Proof. split; [by split|]. intros a b c [? ?] [? ?]. split; [congruence|auto]. Qed.

Lemma call_in_sheet c :
  index_cell c = None -> (forall r, call_row c = Some r -> r = 0) ->
  m_rel in_sheet (sheet_call xlsx_call c).
Proof.
  intros Hi Hr w. unfold sheet_call. destruct (xlsx_call (sheet w) c) as [[]|err| |]; try by split.
  destruct w as [calls r sh ub kp vn]. split; [done|]. intros (H1 & H2 & H3).
  split; [done|]. split; cbn in *.
  - rewrite omap_app, H2. cbn. rewrite Hi. by rewrite app_nil_r.
  - apply Forall_app. split; [done|]. constructor; [|done]. intros x Hx. rewrite (Hr x Hx). lia.
Qed.
Lemma string_in_sheet col text : m_rel in_sheet (ws_write_string xlsx_call col text).
Proof.
  intros w. unfold ws_write_string, m_bind, m_get. cbn [fst snd].
  pose proof (sheet_call_in_row (WriteString (row w) col text None) w eq_refl) as H.
  destruct (sheet_call _ _ w) as [w' r]. apply H. by intros x [= <-].
Qed.

Lemma headings_numbered w r : xlsx_headings xlsx_call WorksheetState_new = (w, r) -> numbered w.
Proof.
  intros Hw. assert (m_rel in_sheet (xlsx_headings xlsx_call)) as Hrel.
  { unfold xlsx_headings. pose proof string_in_sheet.
    assert (forall a b c, m_rel in_sheet (sheet_call xlsx_call (SetColumn a b c))) as Hcol
      by (intros; by apply call_in_sheet).
    assert (forall f, m_rel in_sheet (sheet_call xlsx_call (SetRow 0 ROW_HEIGHT f))) as Hrow.
    { intros f. apply call_in_sheet; [done|]. by intros x [= <-]. }
    m_rel_tac. intros [calls x sh ub kp vn]. split; [done|]. intros (H1 & H2 & H3).
    split; [done|]. split; cbn in *.
    - rewrite omap_app, H2. cbn. by rewrite app_nil_r.
    - apply Forall_app. split; [done|]. by constructor. }
  specialize (Hrel WorksheetState_new). rewrite Hw in Hrel. apply Hrel.
  split; [by split|]. by split.
Qed.
End Rows.

(** C21: the workbook's item sheet has one numbered row per exported item: below the headings,
    the index column holds 1, 2, ... up to the last row, each number in its own row, without
    gap or repetition, and nothing is written below; rows a sheet cannot have are errors. *)
Theorem xlsx_rows_numbered `{E : Env} stdout n fuel depth xlsx_call add_worksheet ro parser f
    items logs overflow :
  (forall l c r, xlsx_call l c = Ok () -> call_row c = Some r -> r < ROW_MAX) ->
  WriteXlsx_write stdout n fuel depth xlsx_call add_worksheet ro parser f
    = Ok [items; logs; overflow] ->
  exists k, 0 <= k < ROW_MAX /\
    omap index_cell items = (fun i => (i, i)) <$> seqZ 1 k /\
    Forall (fun c => forall r, call_row c = Some r -> r <= k) items.
Proof.
  intros Hmax. unfold WriteXlsx_write. intros H.
  apply bind_Ok in H as (u1 & _ & H). apply bind_Ok in H as (u2 & _ & H).
  apply bind_Ok in H as (u3 & _ & H).
  destruct (xlsx_headings xlsx_call WorksheetState_new) as [w r] eqn:Hh.
  apply headings_numbered in Hh.
  apply bind_Ok in H as (u4 & _ & H). apply bind_Ok in H as (keys & _ & H).
  destruct (xlsx_keys stdout xlsx_call ro 0 keys (w, WorksheetState_new)) as [[w1 o1] r1] eqn:Hk.
  apply bind_Ok in H as (u5 & -> & H). destruct u5.
  apply keeps_keys in Hk; [|done|done]. cbn [fst] in Hk.
  destruct (m_for _ _ _) as [[l2 o2] r2].
  apply bind_Ok in H as (u6 & _ & [= <- _ _]).
  destruct Hk as (H1 & H2 & H3). by exists (row w1).
Qed.

(** ** Samples *)

(** A text of 40000 letters: it goes to the overflow sheet. *)
Definition long_text : ustr := replicate (Z.to_nat 40000) 65.

(** A workbook that keeps to the documented limits. *)
Definition cell_fitsb (r col : Z) : bool :=
  (0 <=? r) && (r <? ROW_MAX) && (0 <=? col) && (col <? COL_MAX).
Definition call_fitsb (calls : list SheetCall) (c : SheetCall) : bool :=
  match c with
  | WriteString r col text _ => cell_fitsb r col && (len text <=? MAX_EXCEL_CELL_LEN)
  | WriteNumber r col _ => cell_fitsb r col
  | WriteUrl r col url _ => cell_fitsb r col && (len url <=? 255) && (links calls <? LINK_MAX)
  | SetRow r _ _ => (0 <=? r) && (r <? ROW_MAX)
  | SetColumn first last _ =>
      (0 <=? first) && (first <? COL_MAX) && (0 <=? last) && (last <? COL_MAX)
  | FreezePanes r col => cell_fitsb r col
  end.
Definition sheet_limits (calls : list SheetCall) (c : SheetCall) : res Error () :=
  if call_fitsb calls c then Ok () else Err (AnyError (lit "out of range")).
Lemma sheet_limits_fits calls c : sheet_limits calls c = Ok () <-> call_fits calls c.
Proof.
  assert (call_fitsb calls c = true <-> call_fits calls c) as <-.
  { unfold call_fitsb, call_fits, cell_fits, cell_fitsb. destruct c; rewrite ?andb_true_iff; lia. }
  unfold sheet_limits. by destruct (call_fitsb calls c).
Qed.

Lemma overflow_lossless_witness :
  exists chunks : list ustr, mjoin chunks = long_text /\ full_chunks chunks /\
    check_write_string (E:=env_ref) sheet_limits 4 long_text Format_new
       (WorksheetState_new, WorksheetState_new)
    = (with_overflow 4 long_text chunks Format_new WorksheetState_new WorksheetState_new, Ok ()).
Proof.
  destruct (@overflow_lossless env_ref sheet_limits 4 long_text
    Format_new WorksheetState_new WorksheetState_new) as (chunks & Hj & Hf & _ & Hrun).
  - vm_compute. reflexivity.
  - reflexivity.
  - exists chunks. split; [exact Hj|]. split; [exact Hf|]. apply Hrun.
    + intros l c H. apply sheet_limits_fits. exact H.
    + unfold cell_fits, ROW_MAX, COL_MAX. cbn. lia.
    + unfold ROW_MAX. cbn. lia.
    + vm_compute. reflexivity.
    + reflexivity.
Defined.

Lemma xlsx_rows_numbered_witness :
  exists items logs overflow,
    WriteXlsx_write (E:=env_ref) (fun _ => Ok ()) 9 9 9 sheet_limits (fun _ => Ok ()) false
      (small_hive "c") None = Ok [items; logs; overflow] /\
    exists k, omap index_cell items = (fun i => (i, i)) <$> seqZ 1 k.
Proof.
  set (w := WriteXlsx_write (E:=env_ref) (fun _ => Ok ()) 9 9 9 sheet_limits (fun _ => Ok ()) false
    (small_hive "c") None).
  destruct (on_ok_Some length w 3%nat) as (sheets & Hw & Hlen); [vm_compute; reflexivity|].
  destruct sheets as [|items [|logs [|overflow [|]]]]; [discriminate Hlen..| |discriminate Hlen].
  exists items, logs, overflow. split; [exact Hw|].
  destruct (@xlsx_rows_numbered env_ref (fun _ => Ok ()) 9%nat 9%nat 9%nat sheet_limits
    (fun _ => Ok ()) false (small_hive "c") None items logs overflow) as (k & _ & Hk & _).
  - intros l c r Hok Hr. apply sheet_limits_fits in Hok. unfold call_fits, cell_fits in Hok.
    destruct c; try discriminate Hr; injection Hr as <-; lia.
  - exact Hw.
  - exists k. exact Hk.
Defined.
