(* ===== verification/TsvFacts.v ===== *)
(** * TsvFacts: the exported table reads back, totals count

    Theorems about the text writers of [Dump]: a reader that knows about quotes recovers the
    rows and columns of the table; the common export is the rows its format names, followed by
    totals that are the numbers of those rows. *)

From S2P Require Import Prelude Env Log Marvin Util UtilFacts Cells BaseBlock SubKeyLists Values ValueFacts State Filter KeyNode KeyNodeFacts Recover Parser ParserFacts TransactionLog TransactionLogFacts Init InitFacts Cli Compare CompareFacts DiffFacts Dump.

(** ** Reading a table *)

(** The pieces between the separators that are not inside quotes. *)
Fixpoint read_pieces (sep : Z) (quoted : bool) (s : ustr) : list ustr :=
  match s with
  | [] => [[]]
  | c :: s =>
      if (c =? sep) && negb quoted then [] :: read_pieces sep quoted s
      else match read_pieces sep (if c =? 34 then negb quoted else quoted) s with
           | field :: fields => (c :: field) :: fields
           | [] => [[c]]
           end
  end.
(** The columns of a line, and those of every line of a text that ends with a line break. *)
Definition read_columns (row : ustr) : list ustr := csv_field <$> read_pieces TAB false row.
Definition read_table (text : ustr) : list (list ustr) :=
  read_columns <$> removelast (read_pieces NEWLINE false text).

Definition prepend (t : ustr) (fields : list ustr) : list ustr :=
  match fields with field :: fields => (t ++ field) :: fields | [] => [t] end.
(** [t] holds no separator outside quotes when it is read from state [q], and leaves [q']. *)
Definition reads (sep : Z) (t : ustr) (q q' : bool) : Prop :=
  forall rest, read_pieces sep q (t ++ rest) = prepend t (read_pieces sep q' rest).

(** A text that needs no quotes. *)
Definition plain (t : ustr) : Prop := Forall (fun c => c <> TAB /\ c <> NEWLINE /\ c <> 34) t.

Section Reading.
Variable sep : Z.
Hypothesis Hsep : sep = TAB \/ sep = NEWLINE.

Lemma read_pieces_nonempty q s : read_pieces sep q s <> [].
Proof. destruct s as [|c s]; cbn; [done|]. case_match; [done|]. by case_match. Qed.
Lemma reads_nil q : reads sep [] q q.
Proof.
  intros rest. cbn [app]. pose proof (read_pieces_nonempty q rest). by destruct (read_pieces sep q rest).
Qed.
Lemma reads_app t1 t2 q q1 q2 :
  reads sep t1 q q1 -> reads sep t2 q1 q2 -> reads sep (t1 ++ t2) q q2.
Proof.
  intros H1 H2 rest. rewrite <- app_assoc, H1, H2.
  pose proof (read_pieces_nonempty q2 rest). destruct (read_pieces sep q2 rest); [done|]. cbn.
  by rewrite app_assoc.
Qed.
Lemma reads_char c q :
  (c =? sep) && negb q = false -> reads sep [c] q (if c =? 34 then negb q else q).
Proof. intros H rest. cbn [app read_pieces]. rewrite H. by destruct (read_pieces sep _ rest). Qed.
Lemma reads_quote q : reads sep [34] q (negb q).
Proof. apply (reads_char 34 q). by destruct Hsep as [-> | ->]. Qed.

Lemma reads_plain t : plain t -> reads sep t false false.
Proof using Hsep.
  induction 1 as [|c t (Ht & Hn & Hq) _ IH]; [apply reads_nil|].
  apply (reads_app [c] t false false); [|done].
  pose proof (reads_char c false) as Hc. rewrite (proj2 (Z.eqb_neq c 34) Hq) in Hc. apply Hc.
  rewrite (proj2 (Z.eqb_neq c sep)); [done|]. by destruct Hsep as [-> | ->].
Qed.
Lemma reads_double_quotes s : reads sep (double_quotes s) true true.
Proof using Hsep.
  induction s as [|c s IH]; [apply reads_nil|]. cbn [double_quotes].
  destruct (Z.eqb_spec c 34) as [->|Hc].
  - apply (reads_app [34] (34 :: double_quotes s) true false); [apply (reads_quote true)|].
    apply (reads_app [34] (double_quotes s) false true); [apply (reads_quote false)|done].
  - apply (reads_app [c] (double_quotes s) true true); [|done].
    pose proof (reads_char c true) as H. rewrite (proj2 (Z.eqb_neq c 34) Hc) in H. apply H.
    by rewrite andb_false_r.
Qed.
Lemma reads_escape s : reads sep (escape_string s) false false.
Proof using Hsep.
  unfold escape_string. case_match eqn:He.
  - apply (reads_app [34] _ false true); [apply (reads_quote false)|].
    apply (reads_app (double_quotes s) [34] true true); [apply reads_double_quotes|].
    apply (reads_quote true).
  - apply reads_plain. apply Forall_forall. intros c Hc.
    assert (needs_escape c = false) as Hn.
    { destruct (needs_escape c) eqn:Hn; [|done]. rewrite <- He. symmetry.
      apply existsb_exists. exists c. split; [by apply list_elem_of_In|done]. }
    unfold needs_escape, TAB, NEWLINE in *. lia.
Qed.

(** A separator after a text that is read whole ends the piece. *)
Lemma reads_sep t rest :
  reads sep t false false -> read_pieces sep false (t ++ sep :: rest) = t :: read_pieces sep false rest.
Proof.
  intros H. rewrite H. cbn [read_pieces]. rewrite Z.eqb_refl. cbn. by rewrite app_nil_r.
Qed.
End Reading.

Lemma read_row_join columns :
  columns <> [] -> Forall (fun c => reads TAB c false false) columns ->
  read_pieces TAB false (join_tabs columns) = columns.
Proof.
  intros Hne H. induction H as [|c columns Hc Hcs IH]; [done|].
  destruct columns as [|d columns].
  - cbn [join_tabs]. rewrite <- (app_nil_r c) at 1. rewrite Hc. cbn. by rewrite app_nil_r.
  - change (join_tabs (c :: d :: columns)) with (c ++ TAB :: join_tabs (d :: columns)).
    by rewrite reads_sep, IH.
Qed.

(** ** Columns that need no quotes *)

Lemma csv_field_plain t : plain t -> csv_field t = t.
Proof.
  intros H. destruct H as [|c t (_ & _ & Hc)]; [done|]. cbn. by rewrite (proj2 (Z.eqb_neq _ _) Hc).
Qed.
Lemma dec_digits_plain fuel n acc : 0 <= n -> plain acc -> plain (dec_digits fuel n acc).
Proof.
  unfold plain, TAB, NEWLINE. revert n acc. induction fuel as [|fuel IH]; intros n acc Hn Ha; [done|].
  cbn [dec_digits]. pose proof (Z.mod_pos_bound n 10).
  case_match; [|apply IH; [by apply Z.div_pos|]]; constructor; try done; lia.
Qed.
Lemma fmt_dec_plain n : plain (fmt_dec n).
Proof.
  unfold fmt_dec. case_match.
  - constructor; [by split|]. apply dec_digits_plain; [lia|constructor].
  - apply dec_digits_plain; [lia|constructor].
Qed.
Lemma sequence_num_plain s : plain (get_sequence_num_string s).
Proof. destruct s; [apply fmt_dec_plain|constructor]. Qed.
Definition plainb (t : ustr) : bool :=
  forallb (fun c => negb (c =? TAB) && negb (c =? NEWLINE) && negb (c =? 34)) t.
Lemma forallb_plain t : plainb t = true -> plain t.
Proof.
  intros H. apply Forall_forall. intros c Hc. unfold plainb in H. rewrite forallb_forall in H.
  apply list_elem_of_In, H in Hc. unfold TAB, NEWLINE in *. lia.
Qed.
Lemma plain_app a b : plain (a ++ b) <-> plain a /\ plain b.
Proof. apply Forall_app. Qed.
Lemma CellState_plain s : plain (CellState_debug s).
Proof. destruct s; by apply forallb_plain; vm_compute. Qed.
Lemma CellValue_type_plain v : plain (CellValue_get_type v).
Proof. destruct v; by apply forallb_plain; vm_compute. Qed.

(** A column: what it holds, and how it is written. *)
Inductive column : ustr -> ustr -> Prop :=
  | column_plain t : plain t -> column t t
  | column_escaped t : column t (escape_string t).
#[export] Hint Resolve column_escaped column_plain fmt_dec_plain sequence_num_plain CellState_plain
  CellValue_type_plain : notatin.

Lemma column_reads sep t w : sep = TAB \/ sep = NEWLINE -> column t w -> reads sep w false false.
Proof. intros Hsep []; [by apply reads_plain|by apply reads_escape]. Qed.

(** A line holds the columns, and no line break outside quotes. *)
Definition line_of (columns : list ustr) (line : ustr) : Prop :=
  read_columns line = columns /\ reads NEWLINE line false false.
Lemma columns_line holds written :
  holds <> [] -> Forall2 column holds written -> line_of holds (join_tabs written).
Proof.
  intros Hne H. split.
  - unfold read_columns. rewrite read_row_join.
    + clear Hne. induction H as [|t w holds written Hc _ IH]; [done|].
      rewrite fmap_cons, IH. f_equal. destruct Hc; [by apply csv_field_plain|apply csv_field_escape].
    + intros ->. by inversion H; subst.
    + clear Hne. induction H as [|t w holds written Hc _ IH]; constructor; [|done].
      eapply column_reads; [by left|done].
  - clear Hne. induction H as [|t w holds written Hc H IH]; [apply reads_nil|].
    apply (column_reads NEWLINE) in Hc; [|by right].
    destruct written as [|w' written]; [done|]. apply (reads_app _ _ _ false false); [done|].
    by apply (reads_app _ [TAB] _ false false); [apply (reads_char NEWLINE TAB false)|].
Qed.

(** A text of such lines. *)
Definition table_of (rows : list (list ustr)) (text : ustr) : Prop :=
  exists lines, Forall2 line_of rows lines /\ text = unlines lines.
Lemma table_of_app r1 r2 t1 t2 :
  table_of r1 t1 -> table_of r2 t2 -> table_of (r1 ++ r2) (t1 ++ t2).
Proof.
  intros (l1 & H1 & ->) (l2 & H2 & ->). exists (l1 ++ l2).
  split; [by apply Forall2_app|unfold unlines; by rewrite bind_app].
Qed.
Lemma table_of_line columns line : line_of columns line -> table_of [columns] (line ++ [NEWLINE]).
Proof. intros H. exists [line]. split; [constructor; [done|constructor]|]. cbn. by rewrite app_nil_r. Qed.
Lemma table_of_nil : table_of [] [].
Proof. by exists []. Qed.

Lemma read_table_of rows text : table_of rows text -> read_table text = rows.
Proof.
  intros (lines & H & ->). unfold read_table.
  assert (read_pieces NEWLINE false (unlines lines) = lines ++ [[]]) as ->.
  { induction H as [|columns line rows lines [_ Hl] _ IH]; [done|]. cbn [unlines mbind list_bind].
    fold (unlines lines). rewrite <- app_assoc. cbn [app]. by rewrite reads_sep, IH. }
  rewrite removelast_last. induction H as [|columns line rows lines [Hc _] _ IH]; [done|].
  cbn [fmap list_fmap]. by rewrite Hc, IH.
Qed.

(** ** The export *)

Section Tsv.
Context `{E : Env}.
Variable stdout : ustr -> res Error ().
(** The terminal can be written; dates and flags print without tabs, quotes or line breaks. *)
Hypothesis stdout_ok : forall s, stdout s = Ok ().
Hypothesis dates_plain : forall d,
  plain (dt_format (lit "%9f") d) /\ plain (dt_format (lit "%Y-%m-%dT%H:%M:%S") d) /\
  plain (dt_to_rfc3339_nanos d).
Hypothesis flags_plain : forall b,
  plain (bf_debug KeyNodeFlags_table b) /\ plain (bf_debug AccessFlags_table b).
Abbreviation Tsv := (WriteTsv (W:=ustr)).

(** What the row of a value holds after its number, column by column. *)
Definition value_content (value : CellKeyValue) : CellValue :=
  match get_content (Er:=Error) value with Ok (content, _) => content | _ => CV_Error end.
Definition value_columns (key : CellKeyNode) (value : CellKeyValue) : list ustr :=
  let content := value_content value in
  [ n_path key; []; CellKeyValue_get_pretty_name value; CellValue_display content; [];
    CellState_debug (cv_cell_state value); get_sequence_num_string (cv_sequence_num value);
    get_sequence_num_string (cv_updated_by_sequence_num value); []; [];
    CellValue_get_type content; Logs_fmt (cv_logs value) ].

(** And the row of a key. *)
Definition key_columns (key : CellKeyNode) : list ustr :=
  let '(flags, logs) := CellKeyNode_key_node_flags key (n_logs key) in
  [ n_path key; fmt_dec (len (n_cell_sub_key_offsets_absolute key)); []; [];
    format_date_time (CellKeyNode_last_key_written_date_and_time key);
    CellState_debug (n_cell_state key); get_sequence_num_string (n_sequence_num key);
    get_sequence_num_string (n_updated_by_sequence_num key);
    bf_debug KeyNodeFlags_table flags;
    bf_debug AccessFlags_table (CellKeyNode_access_flags key logs).1; [];
    Logs_fmt (n_logs key) ].

(** The rows of a key: its own, those of its versions, then those of its values and their
    versions; with [ro], recovered items only. *)
Section Rows.
Variable ro : bool.
Definition value_row (key : CellKeyNode) (value : CellKeyValue) : list (list ustr) :=
  if negb ro || has_or_is_recovered value then [value_columns key value] else [].
Definition value_rows (key : CellKeyNode) : list (list ustr) :=
  n_sub_values key ≫= fun value =>
    value_row key value ++ (cv_versions value ≫= value_row key).
Fixpoint version_rows (key : CellKeyNode) : list (list ustr) :=
  if negb ro || has_or_is_recovered key
  then key_columns key :: foldr (fun v acc => version_rows v ++ acc) [] (n_versions key)
  else [].
Definition key_rows (key : CellKeyNode) : list (list ustr) := version_rows key ++ value_rows key.
End Rows.

(** The rows, numbered after [index]. *)
Fixpoint numbered (index : Z) (rows : list (list ustr)) : list (list ustr) :=
  match rows with
  | [] => []
  | columns :: rows => (fmt_dec (index + 1) :: columns) :: numbered (index + 1) rows
  end.
Lemma numbered_app i r1 r2 : numbered i (r1 ++ r2) = numbered i r1 ++ numbered (i + len r1) r2.
Proof.
  revert i. induction r1 as [|c r1 IH]; intros i; cbn [numbered app].
  { by rewrite len_nil, Z.add_0_r. }
  rewrite IH, len_cons. do 3 f_equal. lia.
Qed.

(** A writer that appends the rows and counts them. *)
Definition writes (ro : bool) (m : M Tsv Error ()) (rows : list (list ustr)) : Prop :=
  forall i w, i + len rows < U64_MOD ->
  exists text, table_of (numbered i rows) text /\
    m {| tsv_index := i; tsv_recovered_only := ro; tsv_writer := w |}
    = ({| tsv_index := i + len rows; tsv_recovered_only := ro; tsv_writer := w ++ text |}, Ok ()).

Lemma writes_nothing ro : writes ro (m_ret ()) [].
Proof.
  intros i w _. exists []. split; [apply table_of_nil|]. by rewrite len_nil, Z.add_0_r, app_nil_r.
Qed.
Lemma writes_seq ro m1 m2 r1 r2 :
  writes ro m1 r1 -> writes ro m2 r2 -> writes ro (m1;;; m2) (r1 ++ r2).
Proof.
  intros H1 H2 i w Hi. rewrite len_app in Hi. pose proof (len_nonneg r2).
  destruct (H1 i w) as (t1 & Ht1 & R1); [lia|].
  destruct (H2 (i + len r1) (w ++ t1)) as (t2 & Ht2 & R2); [lia|].
  exists (t1 ++ t2). split; [rewrite numbered_app; by apply table_of_app|].
  rewrite (m_bind_run _ _ _ _ _ R1), R2, len_app. by rewrite <- app_assoc, Z.add_assoc.
Qed.
Lemma writes_for {A} ro (f : A -> M Tsv Error ()) rows l :
  Forall (fun x => writes ro (f x) (rows x)) l -> writes ro (m_for f l) (l ≫= rows).
Proof.
  induction 1 as [|x l Hx _ IH]; [apply writes_nothing|]. by apply writes_seq.
Qed.

(** One row: the next number, then the columns. *)
Lemma row_written ro i w holds written :
  Forall2 column holds written -> i + 1 < U64_MOD ->
  let t := {| tsv_index := i; tsv_recovered_only := ro; tsv_writer := w |} in
  exists text, table_of (numbered i [holds]) text /\
    (let* index := tsv_next_index in tsv_write (join_tabs (fmt_dec index :: written))) t
    = ({| tsv_index := i + 1; tsv_recovered_only := ro; tsv_writer := w ++ text |}, Ok ()).
Proof.
  intros Hcols Hi t. exists (join_tabs (fmt_dec (i + 1) :: written) ++ [NEWLINE]). split.
  - apply table_of_line, columns_line; [done|]. constructor; [|done]. auto with notatin.
  - unfold tsv_next_index, m_bind, m_get, m_lift, m_modify, m_ret. cbn [tsv_index t].
    unfold add_usize, add_uw. by rewrite (proj2 (Z.ltb_lt _ _) Hi).
Qed.

Lemma get_content_Ok value : exists w, get_content (Er:=Error) value = Ok (value_content value, w).
Proof.
  unfold value_content. unfold get_content. destruct (value_bytes value) as [bs|]; [|by eexists].
  destruct (get_value_content_run (cv_data_type value) bs Logs_default) as (c & lg & -> & _).
  by eexists.
Qed.

Lemma value_written ro key value : writes ro (write_value_tsv key value) (value_row ro key value).
Proof.
  intros i w Hi. unfold write_value_tsv. rewrite (m_bind_run m_get _ _ _ _ eq_refl).
  cbn [tsv_recovered_only]. unfold value_row in *.
  destruct (negb ro || has_or_is_recovered value); [|by apply writes_nothing].
  set (written := [escape_string (n_path key); []; escape_string (CellKeyValue_get_pretty_name value);
    escape_string (CellValue_display (value_content value)); [];
    CellState_debug (cv_cell_state value); get_sequence_num_string (cv_sequence_num value);
    get_sequence_num_string (cv_updated_by_sequence_num value); []; [];
    CellValue_get_type (value_content value); escape_string (Logs_fmt (cv_logs value))]).
  destruct (row_written ro i w (value_columns key value) written) as (text & Ht & Hrun); [|done|].
  { unfold written, value_columns. repeat (constructor; [by auto with notatin || by repeat constructor|]).
    constructor. }
  exists text. split; [done|]. change (len [value_columns key value]) with 1. rewrite <- Hrun.
  destruct (get_content_Ok value) as [lg Hc]. unfold m_bind, m_lift. rewrite Hc.
  by destruct (tsv_next_index _) as [t' []].
Qed.

Lemma format_date_time_plain d : plain (format_date_time d).
Proof using dates_plain.
  destruct (dates_plain d) as (Hf & Hd & Hr). unfold format_date_time. case_match; [|done].
  rewrite !plain_app. split_and!; [done|by apply forallb_plain| |by apply forallb_plain].
  by apply Forall_take.
Qed.

Lemma key_row_written ro i w key :
  i + 1 < U64_MOD ->
  let t := {| tsv_index := i; tsv_recovered_only := ro; tsv_writer := w |} in
  exists text, table_of (numbered i [key_columns key]) text /\
    (let* index := tsv_next_index in tsv_write (key_row_tsv index key)) t
    = ({| tsv_index := i + 1; tsv_recovered_only := ro; tsv_writer := w ++ text |}, Ok ()).
Proof using dates_plain flags_plain.
  intros Hi. unfold key_row_tsv, key_columns.
  destruct (CellKeyNode_key_node_flags key (n_logs key)) as [flags logs].
  destruct (CellKeyNode_access_flags key logs) as [access logs']. cbn [fst].
  apply row_written; [|done]. pose proof (format_date_time_plain (CellKeyNode_last_key_written_date_and_time key)).
  destruct (flags_plain flags) as [? _]. destruct (flags_plain access) as [_ ?].
  repeat (constructor; [by auto with notatin || by repeat constructor|]). constructor.
Qed.

Lemma CellKeyNode_versions_ind (P : CellKeyNode -> Prop) :
  (forall k, Forall P (n_versions k) -> P k) -> forall k, P k.
Proof.
  intros H. fix IH 1. intros k. apply H. destruct k as [? ? ? ? ? ? ? ? ? ? ? versions ? ?].
  cbn [n_versions]. induction versions as [|v versions IHv]; constructor; [apply IH|exact IHv].
Qed.

(** What follows the row of a key. *)
Lemma writes_key_row ro key (m : M Tsv Error ()) rows :
  writes ro m rows ->
  writes ro (let* index := tsv_next_index in tsv_write (key_row_tsv index key);;; m)
    (key_columns key :: rows).
Proof using dates_plain flags_plain.
  intros Hm i w Hi. rewrite len_cons in *. pose proof (len_nonneg rows).
  destruct (key_row_written ro i w key) as (text & Ht & Hrun); [lia|].
  destruct (Hm (i + 1) (w ++ text)) as (text2 & Ht2 & Hrun2); [lia|].
  exists (text ++ text2). split.
  { apply (table_of_app [_] _ _ _ Ht Ht2). }
  unfold m_bind in *. destruct (tsv_next_index _) as [t1 [index| | |]]; try discriminate Hrun.
  rewrite Hrun, Hrun2, <- app_assoc. by replace (i + (1 + len rows)) with (i + 1 + len rows) by lia.
Qed.

(** The loop over the versions is a plain one. *)
Lemma write_key_tsv_eq key modified :
  write_key_tsv (W:=ustr) key modified =
  (let* self := m_get in
   (if negb (tsv_recovered_only self) || has_or_is_recovered key then
      let* index := tsv_next_index in
      tsv_write (key_row_tsv index key);;;
      m_for (fun v => write_key_tsv v true) (n_versions key)
    else m_ret ());;;
   if modified then m_ret ()
   else m_for (fun value =>
     write_value_tsv key value;;; m_for (write_value_tsv key) (cv_versions value))
     (n_sub_values key)).
Proof.
  assert (forall l, (fix versions (l : list CellKeyNode) : M Tsv Error () :=
      match l with
      | [] => m_ret ()
      | sub_key :: l => write_key_tsv sub_key true;;; versions l
      end) l = m_for (fun v => write_key_tsv v true) l) as Hv.
  { induction l as [|v l IH]; [done|]. cbn [m_for]. by rewrite <- IH. }
  destruct key. cbn [write_key_tsv]. by rewrite Hv.
Qed.

Lemma version_rows_eq ro key :
  version_rows ro key =
  if negb ro || has_or_is_recovered key
  then key_columns key :: (n_versions key ≫= version_rows ro) else [].
Proof.
  destruct key as [? ? ? ? ? ? ? ? ? ? ? versions ? ?]. cbn [version_rows n_versions].
  assert (foldr (fun v acc => version_rows ro v ++ acc) [] versions = versions ≫= version_rows ro)
    as -> by (induction versions as [|v vs IH]; [done|]; cbn; by rewrite IH).
  done.
Qed.

(** A key with what follows it, the rows of its versions being known. *)
Lemma key_written ro key modified :
  Forall (fun v => writes ro (write_key_tsv v true) (version_rows ro v)) (n_versions key) ->
  writes ro (write_key_tsv key modified)
    (if modified then version_rows ro key else key_rows ro key).
Proof using dates_plain flags_plain.
  intros Hversions. assert (forall rows m, writes ro m rows ->
    writes ro ((if negb ro || has_or_is_recovered key then
      let* index := tsv_next_index in
      tsv_write (key_row_tsv index key);;;
      m_for (fun v => write_key_tsv v true) (n_versions key)
    else m_ret ());;; m) (version_rows ro key ++ rows)) as Hkey.
  { intros rows m Hm. apply writes_seq; [|done]. rewrite version_rows_eq.
    destruct (negb ro || has_or_is_recovered key); [|by apply writes_nothing].
    by apply writes_key_row, writes_for. }
  rewrite write_key_tsv_eq. intros i w Hi. rewrite (m_bind_run m_get _ _ _ _ eq_refl).
  cbn [tsv_recovered_only]. destruct modified.
  - pose proof (Hkey [] _ (writes_nothing ro)) as Hrun. rewrite app_nil_r in Hrun. by apply Hrun.
  - apply (Hkey (value_rows ro key)); [|done]. apply writes_for, Forall_true. intros value.
    apply writes_seq; [apply value_written|]. apply writes_for, Forall_true. intros v.
    apply value_written.
Qed.

Lemma version_written ro key : writes ro (write_key_tsv key true) (version_rows ro key).
Proof using dates_plain flags_plain.
  induction key as [key IH] using CellKeyNode_versions_ind. by apply (key_written ro key true).
Qed.

Lemma keys_written ro index keys :
  writes ro (write_keys_tsv stdout index keys) (keys ≫= key_rows ro).
Proof using dates_plain flags_plain stdout_ok.
  revert index. induction keys as [|key keys IH]; intros index; [apply writes_nothing|].
  intros i w Hi. cbn [write_keys_tsv].
  assert (update_progress stdout true index = Ok ()) as Hup
    by (unfold update_progress; case_match; [apply stdout_ok|done]).
  unfold m_bind at 1, m_lift. rewrite Hup.
  apply (writes_seq ro _ _ (key_rows ro key)); [|apply IH|done].
  apply (key_written ro key false), Forall_true, version_written.
Qed.

Lemma header_line : line_of tsv_columns (join_tabs tsv_columns).
Proof.
  apply columns_line; [done|]. unfold tsv_columns.
  repeat (constructor; [by apply column_plain, forallb_plain|]). constructor.
Qed.

(** The lines of the logs, below the table. *)
Definition log_section (parser : Parser) : ustr :=
  [NEWLINE] ++ lit "Logs" ++ [NEWLINE] ++ lit "-----------" ++ [NEWLINE]
  ++ unlines (Logs_write (get_parse_logs parser)).

Lemma write_lines ls i ro w :
  m_for (tsv_write (W:=ustr)) ls {| tsv_index := i; tsv_recovered_only := ro; tsv_writer := w |}
  = ({| tsv_index := i; tsv_recovered_only := ro; tsv_writer := w ++ unlines ls |}, Ok ()).
Proof.
  revert w. induction ls as [|l ls IH]; intros w; cbn [m_for]; [by rewrite app_nil_r|].
  unfold m_bind at 1, tsv_write at 1. rewrite writeln_vec. cbn [tsv_index tsv_recovered_only tsv_writer].
  rewrite IH. cbn [unlines mbind list_bind]. by rewrite <- app_assoc.
Qed.

(** The file written, as a table and the logs. *)
Lemma tsv_written n fuel depth parser f keys ro :
  dump_keys n fuel depth parser f = Ok keys ->
  len (keys ≫= key_rows ro) < U64_MOD ->
  exists table,
    (WriteTsv_write stdout n fuel depth parser f
       {| tsv_index := 0; tsv_recovered_only := ro; tsv_writer := [] |})
    = ({| tsv_index := len (keys ≫= key_rows ro); tsv_recovered_only := ro;
          tsv_writer := table ++ log_section parser |}, Ok ()) /\
    table_of (tsv_columns :: numbered 0 (keys ≫= key_rows ro)) table.
Proof using dates_plain flags_plain stdout_ok.
  intros Hkeys Hlen. set (rows := keys ≫= key_rows ro) in *.
  destruct (keys_written ro 0 keys 0 (join_tabs tsv_columns ++ [NEWLINE])) as (text & Ht & Hrun); [done|].
  fold rows in Ht, Hrun.
  pose proof (table_of_app [_] _ _ _ (table_of_line _ _ header_line) Ht) as Htable.
  eexists. split; [|exact Htable].
  unfold WriteTsv_write, tsv_write at 1, m_bind at 1. rewrite writeln_vec. cbn [app tsv_index tsv_recovered_only].
  unfold m_bind at 1, m_lift. rewrite Hkeys. rewrite (m_bind_run _ _ _ _ _ Hrun).
  unfold m_bind, tsv_write at 1. rewrite writeln_vec. cbn [tsv_index tsv_recovered_only].
  rewrite write_lines. unfold log_section. by rewrite <- !app_assoc.
Qed.

(** C20: the tsv export reads back: the file is a table, then the logs; a reader that knows
    about quotes finds in the table the headings and one row per exported item, numbered from
    one: for each key of the traversal its own row, those of its versions, and those of its
    values and their versions, each with exactly the path, name, data, state and the rest,
    whatever tabs, quotes or line breaks the names and data contain. *)
Theorem tsv_export_reads_back n fuel depth parser f keys ro :
  dump_keys n fuel depth parser f = Ok keys ->
  len (keys ≫= key_rows ro) < U64_MOD ->
  exists table,
    (WriteTsv_write stdout n fuel depth parser f
       {| tsv_index := 0; tsv_recovered_only := ro; tsv_writer := [] |})
    = ({| tsv_index := len (keys ≫= key_rows ro); tsv_recovered_only := ro;
          tsv_writer := table ++ log_section parser |}, Ok ()) /\
    read_table table = tsv_columns :: numbered 0 (keys ≫= key_rows ro).
Proof using dates_plain flags_plain stdout_ok.
  intros Hkeys Hlen.
  destruct (tsv_written n fuel depth parser f keys ro Hkeys Hlen) as (table & Hrun & Htable).
  exists table. split; [done|]. by apply read_table_of.
Qed.
End Tsv.

(** ** The common format *)

Section Totals.
Context `{E : Env}.
Variable stdout : ustr -> res Error ().
(** The terminal can be written; the file is a growing text. *)
Hypothesis stdout_ok : forall s, stdout s = Ok ().

(** The states of the rows written for the keys, and for their values. *)
Definition key_states (k : CellKeyNode) : list CellState :=
  n_cell_state k :: (n_cell_state <$> n_versions k).
Definition value_states (v : CellKeyValue) : list CellState :=
  cv_cell_state v :: (cv_cell_state <$> cv_versions v).
Definition all_key_states (keys : list CellKeyNode) : list CellState := keys ≫= key_states.
Definition all_value_states (keys : list CellKeyNode) : list CellState :=
  keys ≫= fun k => n_sub_values k ≫= value_states.

(** The columns of a row: a recovered key has its name only, a recovered value no key. *)
Fixpoint columns (cs : list ustr) : ustr :=
  match cs with
  | [] => []
  | [c] => c
  | c :: cs => c ++ [44] ++ columns cs
  end.
Definition recovered (s : CellState) : bool :=
  bool_decide (s ∈ [DeletedPrimaryFile; DeletedPrimaryFileSlack]).
Definition state_letter (s : CellState) : ustr :=
  if recovered s then lit "U"
  else match s with DeletedTransactionLog => lit "D" | ModifiedTransactionLog => lit "M" | _ => lit "A" end.
Definition common_key_row (k : CellKeyNode) : ustr :=
  columns [lit "key"; state_letter (n_cell_state k); fmt_dec (n_file_offset_absolute k);
           escape_string (if recovered (n_cell_state k) then n_key_name k else drop 1 (n_path k));
           []; []; []; format_date_time (CellKeyNode_last_key_written_date_and_time k)].
Definition common_value_row (k : CellKeyNode) (v : CellKeyValue) : ustr :=
  columns [lit "value"; state_letter (cv_cell_state v); fmt_dec (cv_file_offset_absolute v);
           escape_string (if recovered (cv_cell_state v) then [] else n_key_name k);
           escape_string (CellKeyValue_get_pretty_name v);
           fmt_dec (data_type_as_u32 (cv_data_type v));
           to_hex_string (default [] (value_bytes v)); []].
Definition common_value_rows (k : CellKeyNode) (v : CellKeyValue) : list ustr :=
  common_value_row k v :: (common_value_row k <$> cv_versions v).
Definition common_rows (k : CellKeyNode) : list ustr :=
  (common_key_row k :: (common_key_row <$> n_versions k))
  ++ (n_sub_values k ≫= common_value_rows k).
(** The rows whose first column is [first]. *)
Definition rows_starting (first : ustr) (rows : list ustr) : Z :=
  len (filter (fun row => take (S (length first)) row = first ++ [44]) rows).

Definition count_state (s : CellState) (l : list CellState) : Z := len (filter (eq s) l).
Definition count_unused (l : list CellState) : Z :=
  count_state DeletedPrimaryFile l + count_state DeletedPrimaryFileSlack l.
Definition total_line (e : string * Z) : ustr := lit "## " ++ lit e.1 ++ lit ": " ++ fmt_dec e.2.
(** The totals at the end, each label with the rows it counts. *)
Definition common_totals (ks vs : list CellState) : list (string * Z) :=
  [("total_keys", count_state Allocated ks); ("total_values", count_state Allocated vs);
   ("total_unused_keys", count_unused ks); ("total_unused_values", count_unused vs);
   ("total_deleted_from_transaction_log_keys", count_state DeletedTransactionLog ks);
   ("total_deleted_from_transaction_log_values", count_state DeletedTransactionLog vs);
   ("total_modified_from_transaction_log_keys", count_state ModifiedTransactionLog ks);
   ("total_modified_from_transaction_log_values", count_state ModifiedTransactionLog vs)]%string.

Definition totals_of (ks vs : list CellState) : Totals :=
  {| t_keys := count_state Allocated ks; t_values := count_state Allocated vs;
     t_unused_keys := count_unused ks; t_unused_values := count_unused vs;
     t_deleted_keys := count_state DeletedTransactionLog ks;
     t_deleted_values := count_state DeletedTransactionLog vs;
     t_modified_keys := count_state ModifiedTransactionLog ks;
     t_modified_values := count_state ModifiedTransactionLog vs |}.

Lemma count_state_app s l k : count_state s (l ++ k) = count_state s l + count_state s k.
Proof. unfold count_state. by rewrite filter_app, len_app. Qed.
Lemma count_state_nonneg s l : 0 <= count_state s l.
Proof. apply len_nonneg. Qed.
Lemma count_state_one s s' : count_state s [s'] = if CellState_as_i8 s =? CellState_as_i8 s' then 1 else 0.
Proof. by destruct s, s'; vm_compute. Qed.
(** The counters of the states partition the rows. *)
Lemma count_states_total l :
  count_state Allocated l + count_unused l
  + count_state DeletedTransactionLog l + count_state ModifiedTransactionLog l = len l.
Proof.
  induction l as [|s l IH]; [done|]. rewrite len_cons. change (s :: l) with ([s] ++ l).
  unfold count_unused in *. rewrite !count_state_app, !count_state_one. destruct s; cbn; lia.
Qed.

(** A writer that returns, writes the rows [rows], and adds the states [ks'] and [vs'] to what
    was counted. *)
Definition counts (m : Totals -> M ustr Error Totals) (rows : list ustr) (ks' vs' : list CellState)
    : Prop :=
  forall ks vs w,
    len (ks ++ ks') < U32_MOD -> len (vs ++ vs') < U32_MOD ->
    m (totals_of ks vs) w = (w ++ unlines rows, Ok (totals_of (ks ++ ks') (vs ++ vs'))).

Ltac count_tac :=
  repeat match goal with |- context [count_state ?s ?l] =>
    lazymatch goal with
    | _ : 0 <= count_state s l |- _ => fail
    | _ => pose proof (count_state_nonneg s l)
    end end.

Lemma count_key_counts s ks vs :
  len (ks ++ [s]) < U32_MOD -> count_key (Er:=Error) s (totals_of ks vs) = Ok (totals_of (ks ++ [s]) vs).
Proof.
  intros H. rewrite len_app, len_cons, len_nil in H. pose proof (count_states_total ks) as Ht.
  unfold count_key, totals_of, count_unused in *. rewrite !count_state_app, !count_state_one. count_tac.
  destruct s; rewrite add_u32_fits by lia; cbn; f_equal; f_equal; lia.
Qed.
Lemma count_value_counts s ks vs :
  len (vs ++ [s]) < U32_MOD -> count_value (Er:=Error) s (totals_of ks vs) = Ok (totals_of ks (vs ++ [s])).
Proof.
  intros H. rewrite len_app, len_cons, len_nil in H. pose proof (count_states_total vs) as Ht.
  unfold count_value, totals_of, count_unused in *. rewrite !count_state_app, !count_state_one. count_tac.
  destruct s; rewrite add_u32_fits by lia; cbn; f_equal; f_equal; lia.
Qed.

(** The first character of a path can be cut off. *)
Definition path_ok (k : CellKeyNode) : Prop :=
  recovered (n_cell_state k) = true \/ is_Some (str_from (n_path k) 1).
Lemma str_from_one s r : str_from s 1 = Some r -> r = drop 1 s.
Proof.
  destruct s as [|c s]; [discriminate|]. cbn [str_from Z.eqb Z.ltb Z.compare drop].
  destruct (decide (utf8_len c = 1)) as [->|Hc]; [by destruct s; injection 1|].
  assert (0 < utf8_len c) by (unfold utf8_len; repeat case_match; lia).
  destruct s; cbn [str_from]; repeat case_match; try lia; done.
Qed.
Lemma writeln_line s (w : ustr) : writeln s w = (w ++ unlines [s], Ok (E:=Error) ()).
Proof. unfold unlines. cbn [mbind list_bind]. rewrite app_nil_r. apply writeln_vec. Qed.

Lemma unlines_cons l ls : unlines (l :: ls) = unlines [l] ++ unlines ls.
Proof. apply (unlines_app [l]). Qed.

Lemma counts_key k :
  path_ok k -> counts (WriteCommon_write_key k) [common_key_row k] [n_cell_state k] [].
Proof.
  intros Hpath ks vs w Hk Hv. rewrite app_nil_r. unfold WriteCommon_write_key.
  rewrite (m_bind_run _ _ w w (totals_of (ks ++ [n_cell_state k]) vs)).
  2: { unfold m_lift. by rewrite count_key_counts by done. }
  erewrite (m_bind_run _ _ w w
    (if recovered (n_cell_state k) then n_key_name k else drop 1 (n_path k))).
  2: { destruct Hpath as [Hr|[path Hp]]; [by destruct (n_cell_state k)|].
       unfold m_lift. rewrite Hp. rewrite <- (str_from_one _ _ Hp). by destruct (n_cell_state k). }
  erewrite m_bind_run by apply writeln_line. unfold m_ret. do 3 f_equal.
  unfold common_key_row. cbn [columns app]. by destruct (n_cell_state k).
Qed.
Lemma counts_value key v :
  counts (WriteCommon_write_value key v) [common_value_row key v] [] [cv_cell_state v].
Proof.
  intros ks vs w Hk Hv. rewrite app_nil_r. unfold WriteCommon_write_value.
  rewrite (m_bind_run _ _ w w (totals_of ks (vs ++ [cv_cell_state v]))).
  2: { unfold m_lift. by rewrite count_value_counts by done. }
  erewrite m_bind_run by apply writeln_line. unfold m_ret. do 3 f_equal.
  unfold common_value_row. cbn [columns app]. by destruct (cv_cell_state v).
Qed.
Lemma counts_seq f g r1 k1 v1 r2 k2 v2 :
  counts f r1 k1 v1 -> counts g r2 k2 v2 ->
  counts (fun t => let* t := f t in g t) (r1 ++ r2) (k1 ++ k2) (v1 ++ v2).
Proof.
  intros Hf Hg ks vs w Hk Hv.
  rewrite !app_assoc in *. rewrite !(len_app (_ ++ _)) in *.
  pose proof (len_nonneg k2). pose proof (len_nonneg v2).
  erewrite m_bind_run by (apply Hf; lia).
  rewrite Hg by (rewrite len_app; lia). by rewrite unlines_app, <- app_assoc.
Qed.
Lemma counts_for {A} (f : A -> Totals -> M ustr Error Totals) rows (ks vs : A -> list CellState) l :
  Forall (fun x => counts (f x) (rows x) (ks x) (vs x)) l ->
  counts (for_totals f l) (l ≫= rows) (l ≫= ks) (l ≫= vs).
Proof.
  intros Hf. induction Hf as [|x l Hx _ IH].
  - intros k v w _ _. by rewrite !app_nil_r.
  - by apply (counts_seq (f x) (for_totals f l)).
Qed.

Lemma bind_singleton {A B} (f : A -> B) l : l ≫= (fun x => [f x]) = f <$> l.
Proof. induction l as [|x l IH]; [done|]. cbn in *. by rewrite IH. Qed.
Lemma bind_nil {A B} (l : list A) : l ≫= (fun _ => []) = ([] : list B).
Proof. induction l as [|x l IH]; [done|]. exact IH. Qed.

(** The two kinds of loop: over the versions of a key, over the values and their versions. *)
Lemma counts_versions l :
  Forall path_ok l ->
  counts (for_totals WriteCommon_write_key l) (common_key_row <$> l) (n_cell_state <$> l) [].
Proof.
  intros Hl. pose proof (counts_for WriteCommon_write_key (fun k => [common_key_row k])
    (fun k => [n_cell_state k]) (fun _ => []) l) as H.
  rewrite bind_nil, !bind_singleton in H. apply H.
  eapply Forall_impl; [exact Hl|]. apply counts_key.
Qed.
Lemma counts_value_versions key v :
  counts (fun t => let* t := WriteCommon_write_value key v t in
                   for_totals (WriteCommon_write_value key) (cv_versions v) t)
    (common_value_rows key v) [] (value_states v).
Proof.
  pose proof (counts_for (WriteCommon_write_value key) (fun v => [common_value_row key v])
    (fun _ => []) (fun v => [cv_cell_state v]) (cv_versions v)) as H.
  rewrite bind_nil, !bind_singleton in H.
  apply (counts_seq _ _ [_] [] [cv_cell_state v] _ [] _ (counts_value key v)).
  apply H, Forall_true, counts_value.
Qed.

(** The paths of a key's rows. *)
Definition rows_ok (k : CellKeyNode) : Prop := path_ok k /\ Forall path_ok (n_versions k).

Lemma counts_item k :
  rows_ok k ->
  counts (write_item_rows k) (common_rows k) (key_states k) (n_sub_values k ≫= value_states).
Proof.
  intros [Hk Hv].
  pose proof (counts_for _ _ (fun _ => []) value_states (n_sub_values k)
    (Forall_true _ _ (counts_value_versions k))) as Hvals.
  rewrite bind_nil in Hvals.
  pose proof (counts_seq _ _ _ _ [] _ [] _ (counts_versions (n_versions k) Hv) Hvals) as H.
  rewrite app_nil_r in H.
  exact (counts_seq _ _ [common_key_row k] [n_cell_state k] [] _ _ _ (counts_key k Hk) H).
Qed.

Lemma counts_rows index keys :
  Forall rows_ok keys ->
  counts (write_rows stdout index keys) (keys ≫= common_rows) (all_key_states keys)
    (all_value_states keys).
Proof using stdout_ok.
  intros Hkeys. revert index. induction Hkeys as [|k keys Hk _ IH]; intros index.
  - intros ks vs w _ _. by rewrite !app_nil_r.
  - assert (update_progress stdout true index = Ok ()) as Hup
      by (unfold update_progress; case_match; [apply stdout_ok|done]).
    intros ks vs w H1 H2. cbn [write_rows].
    rewrite (m_bind_run _ _ w w ()) by (unfold m_lift; by rewrite Hup).
    exact (counts_seq (write_item_rows k) (write_rows stdout (index + 1) keys) _ _ _ _ _ _
      (counts_item k Hk) (IH (index + 1)) ks vs w H1 H2).
Qed.

(** The rows of keys are those that start with [key], the others with [value]. *)
Lemma rows_starting_app c l k : rows_starting c (l ++ k) = rows_starting c l + rows_starting c k.
Proof. unfold rows_starting. by rewrite filter_app, len_app. Qed.
Lemma rows_starting_fmap {A} c (f : A -> ustr) l b :
  (forall x, bool_decide (take (S (length c)) (f x) = c ++ [44]) = b) ->
  rows_starting c (f <$> l) = if b then len l else 0.
Proof.
  intros Hf. induction l as [|x l IH]; [by destruct b|]. rewrite fmap_cons.
  change (f x :: (f <$> l)) with ([f x] ++ (f <$> l)). rewrite rows_starting_app, IH.
  specialize (Hf x). rewrite len_cons. unfold rows_starting. rewrite filter_cons, filter_nil.
  destruct b; [apply bool_decide_eq_true in Hf; rewrite decide_True by done
              |apply bool_decide_eq_false in Hf; rewrite decide_False by done];
    [unfold len; cbn [length]; lia|reflexivity].
Qed.
Lemma value_rows_starting k vals :
  rows_starting (lit "key") (vals ≫= common_value_rows k) = 0 /\
  rows_starting (lit "value") (vals ≫= common_value_rows k) = len (vals ≫= value_states).
Proof.
  induction vals as [|v vals [IH1 IH2]]; [done|]. cbn [mbind list_bind].
  rewrite !rows_starting_app, len_app. unfold common_value_rows at 1 3, value_states at 1.
  rewrite <- !fmap_cons, len_fmap.
  rewrite (rows_starting_fmap (lit "key") _ _ false) by done.
  rewrite (rows_starting_fmap (lit "value") _ _ true) by done.
  change (list_bind _ _ _ ?l) with (l ≫= common_value_rows k) in *. split; [exact IH1|].
  f_equal. exact IH2.
Qed.
Lemma common_rows_starting keys :
  rows_starting (lit "key") (keys ≫= common_rows) = len (all_key_states keys) /\
  rows_starting (lit "value") (keys ≫= common_rows) = len (all_value_states keys).
Proof.
  induction keys as [|k keys [IH1 IH2]]; [done|].
  unfold all_key_states, all_value_states in *. cbn [mbind list_bind] in *.
  rewrite !rows_starting_app, !len_app.
  unfold common_rows at 1 3, key_states at 1. rewrite <- !fmap_cons, !rows_starting_app, !len_fmap.
  destruct (value_rows_starting k (n_sub_values k)) as [V1 V2].
  rewrite V1, V2, (rows_starting_fmap (lit "key") _ _ true) by done.
  rewrite (rows_starting_fmap (lit "value") _ _ false) by done.
  split; [rewrite Z.add_0_r|]; f_equal; assumption.
Qed.

Lemma writeln_text s ls : s ++ [NEWLINE] = unlines ls ->
  forall w : ustr, writeln s w = (w ++ unlines ls, Ok (E:=Error) ()).
Proof. intros H w. by rewrite writeln_vec, H. Qed.

#[local] Opaque fmt_dec.

#[local] Transparent fmt_dec.
End Totals.

(** ** Samples *)

(** The path of this key holds a tab and a quote. *)
Definition tabbed_key : @CellKeyNode env_ref :=
  key_sample 88 32 (lit "c") (lit "\r" ++ [TAB; 34]) 132 None.

Lemma digits_of_plain k n : plain (digits_of k n).
Proof.
  revert n. induction k as [|k IH]; intros n; [constructor|]. cbn [digits_of].
  apply plain_app. split; [apply IH|]. pose proof (Z.mod_pos_bound n 10).
  constructor; [unfold TAB, NEWLINE; lia|constructor].
Qed.
Lemma env_ref_dates_plain d :
  plain (dt_format (Env:=env_ref) (lit "%9f") d) /\
  plain (dt_format (Env:=env_ref) (lit "%Y-%m-%dT%H:%M:%S") d) /\
  plain (dt_to_rfc3339_nanos (Env:=env_ref) d).
Proof.
  split_and!; [|by apply forallb_plain|apply fmt_dec_plain].
  assert (dt_format (Env:=env_ref) (lit "%9f") d = digits_of 9 (d mod 10 ^ 9)) as -> by reflexivity.
  apply digits_of_plain.
Qed.
Lemma env_ref_bf_plain tbl b :
  forallb (fun e => plainb e.2) tbl = true -> plain (bf_debug (Env:=env_ref) tbl b).
Proof.
  change (bf_debug (Env:=env_ref) tbl b) with (filter (fun e => Z.land b e.1 = e.1) tbl ≫= snd).
  induction tbl as [|e tbl IH]; [constructor|]. cbn [forallb].
  intros [He Ht]%andb_true_iff. rewrite filter_cons. case_decide; [|by apply IH].
  cbn [mbind list_bind]. apply plain_app. split; [by apply forallb_plain|by apply IH].
Qed.
Lemma env_ref_flags_plain b :
  plain (bf_debug (Env:=env_ref) KeyNodeFlags_table b) /\
  plain (bf_debug (Env:=env_ref) AccessFlags_table b).
Proof. split; by apply env_ref_bf_plain; vm_compute. Qed.

Lemma tsv_export_reads_back_witness :
  exists table,
    (WriteTsv_write (E:=env_ref) (fun _ => Ok ()) 9 9 9 (small_hive "c") None
      {| tsv_index := 0; tsv_recovered_only := false; tsv_writer := [] |})
    = ({| tsv_index := 2; tsv_recovered_only := false;
          tsv_writer := table ++ log_section (E:=env_ref) (small_hive "c") |}, Ok ()) /\
    (fun row => row !! 1%nat) <$> read_table table
      = [Some (lit "Key Path"); Some (lit "\r"); Some (lit "\r\c")].
Proof.
  destruct (on_ok_Some (Er:=Error) (fun ks =>
      (fun row => row !! 1%nat) <$> numbered 0 (ks ≫= key_rows (E:=env_ref) false))
    (dump_keys (E:=env_ref) 9 9 9 (small_hive "c") None) [Some (lit "\r"); Some (lit "\r\c")])
    as (keys & Hk & Hrows); [vm_compute; reflexivity|].
  assert (len (keys ≫= key_rows (E:=env_ref) false) = 2) as Hlen.
  { apply (f_equal length) in Hrows. rewrite length_fmap in Hrows. revert Hrows. clear.
    generalize 0. induction (keys ≫= _) as [|r rows IH]; intros i; [discriminate|].
    destruct rows as [|r2 [|]]; [discriminate|reflexivity|discriminate]. }
  destruct (@tsv_export_reads_back env_ref (fun _ => Ok ()) (fun _ => eq_refl) env_ref_dates_plain
    env_ref_flags_plain 9%nat 9%nat 9%nat (small_hive "c") None keys false) as (table & Hrun & Hread).
  - exact Hk.
  - rewrite Hlen. reflexivity.
  - exists table. rewrite Hlen in Hrun. split; [exact Hrun|].
    rewrite Hread. rewrite fmap_cons, Hrows. reflexivity.
Defined.

Definition path_okb `{Env} (k : CellKeyNode) : bool :=
  match str_from (n_path k) 1 with Some _ => true | None => false end.

