(* ===== verification/ExportFacts.v ===== *)
(** * ExportFacts: a hive file exported as a table

    The composition of opening, traversal and the tsv writer, against the layout of [Hive]:
    from the bytes of a hive file to the rows of the exported table. *)

From S2P Require Import Prelude Env Log Util UtilFacts Cells BaseBlock SubKeyLists Values ValueFacts State Filter KeyNode KeyNodeFacts Recover Parser ParserFacts Hive HiveFacts TransactionLog TransactionLogFacts Init InitFacts OpenFacts Cli Compare CompareFacts DiffFacts Dump TsvFacts.

#[local] Opaque lit to_le_bytes fmt_dec.

Section Tree.
Context `{E : Env}.

(** What a value holds: its data read as its type says. *)
Definition stored_content (v : HiveValue) : CellValue :=
  let type := value_type (hv_type v) in
  match get_value_content type (Some (get_value_bytes type (hv_data v))) Logs_default with
  | (_, Ok content) => content
  | _ => CV_Error
  end.

(** The path, value name, value data, time, status, flags, access flags and value type of a
    table's row, and what they are for the keys and values of a tree. *)
Definition row_item (row : list ustr) : list (option ustr) :=
  (fun i : nat => row !! i) <$> [1; 3; 4; 5; 6; 9; 10; 11]%nat.
Definition key_item (path : ustr) (d : KeyData) : list ustr :=
  [ path; []; []; format_date_time (get_date_time_from_filetime (kd_written d));
    CellState_debug Allocated;
    bf_debug KeyNodeFlags_table (bf_from_bits_truncate KeyNodeFlags_all (kd_flags d));
    bf_debug AccessFlags_table (bf_from_bits_truncate AccessFlags_all (kd_access d)); [] ].
Definition value_item (path : ustr) (v : HiveValue) : list ustr :=
  [ path; get_pretty_name (hv_name v); CellValue_display (stored_content v); [];
    CellState_debug Allocated; []; []; CellValue_get_type (stored_content v) ].
Definition data_items (kv : ustr * KeyData) : list (list ustr) :=
  key_item kv.1 kv.2 :: (value_item kv.1 <$> kd_values kv.2).
Definition tree_items (t : HiveKey) : list (list ustr) := keys [] t ≫= data_items.

Lemma value_content_stored v hv :
  shows_value v hv -> value_content v = stored_content hv.
Proof.
  intros [_ Ht Hb _ _ _]. unfold value_content, get_content, stored_content. rewrite Ht, Hb.
  destruct (get_value_content _ _ _) as [w []]; try done.
Qed.

Lemma from_bits_checked_fst all name bits lg :
  (from_bits_checked all name bits lg).1 = bf_from_bits_truncate all bits.
Proof. unfold from_bits_checked. by case_match. Qed.

(** The rows of a key as read are those of the key as stored. *)
Lemma key_rows_stored i k kv :
  shows_key k kv ->
  row_item <$> numbered i (key_rows false k) = (fmap Some) <$> data_items kv.
Proof.
  intros [[Hp Hver Hst Hfl Hwr Hac _] Hv]. unfold key_rows, data_items. rewrite version_rows_eq.
  cbn [negb orb]. rewrite Hver. cbn [mbind list_bind app numbered fmap list_fmap].
  f_equal.
  { unfold key_columns, CellKeyNode_key_node_flags, CellKeyNode_access_flags,
      CellKeyNode_last_key_written_date_and_time, key_item. rewrite Hp, Hst, Hfl, Hwr, Hac.
    unfold KeyNodeFlags_from_bits_checked, AccessFlags_from_bits_checked.
    rewrite <- (from_bits_checked_fst KeyNodeFlags_all
      (lit "notatin::cell_key_node::KeyNodeFlags::from_bits_checked") _ (n_logs k)).
    destruct (from_bits_checked KeyNodeFlags_all _ _ _) as [fl lg]. cbn.
    by rewrite from_bits_checked_fst. }
  generalize (i + 1). unfold value_rows. rewrite <- Hp. clear -Hv.
  induction Hv as [|v hv vs hvs Hs _ IH]; intros j; [done|].
  cbn [mbind list_bind]. unfold value_row at 1. cbn [negb orb]. rewrite (sv_versions _ _ Hs).
  cbn [mbind list_bind app numbered fmap list_fmap]. f_equal; [|by apply IH].
  unfold value_columns, value_item. rewrite (value_content_stored v hv Hs), (sv_state _ _ Hs).
  unfold CellKeyValue_get_pretty_name. by rewrite (sv_name _ _ Hs).
Qed.

Lemma rows_stored i ks kvs :
  Forall2 shows_key ks kvs ->
  row_item <$> numbered i (ks ≫= key_rows false) = (fmap Some) <$> (kvs ≫= data_items).
Proof.
  intros H. revert i. induction H as [|k kv ks kvs Hk _ IH]; intros i; [done|].
  cbn [mbind list_bind]. by rewrite numbered_app, !fmap_app, IH, (key_rows_stored i k _ Hk).
Qed.

Lemma length_numbered i rows : length (numbered i rows) = length rows.
Proof. revert i. induction rows as [|r rows IH]; intros i; cbn; by rewrite ?IH. Qed.

(** C2: the tsv export of a hive file is the tree it stores: opening a file that holds a tree of
    keys and exporting it writes a table, then the logs; a reader of the table that knows about
    quotes finds the headings and, in preorder, one row per key of the tree with its full path,
    time and flags, followed by one row per value with the key's path, the value's name, type
    and its data decoded as its type says, whatever characters the names and data contain. *)
Theorem tsv_exports_stored_tree stdout hash_order n fuel depth d data t b files logs w :
  (forall s, stdout s = Ok ()) ->
  (forall d, plain (dt_format (lit "%9f") d) /\ plain (dt_format (lit "%Y-%m-%dT%H:%M:%S") d) /\
     plain (dt_to_rfc3339_nanos d)) ->
  (forall b, plain (bf_debug KeyNodeFlags_table b) /\ plain (bf_debug AccessFlags_table b)) ->
  hive_file d data t -> (1 <= depth)%nat -> (d <= depth)%nat -> pb_recover_deleted b = false ->
  TransactionLog_parse files = Ok (logs, w) -> logs = [] \/ settled data ->
  len (tree_items t) < U64_MOD ->
  exists p m tsv table rows,
    build stdout hash_order n fuel depth (FileInfo_from_read_seek data) b files = Ok p /\
    WriteTsv_write stdout m m depth p None
      {| tsv_index := 0; tsv_recovered_only := false; tsv_writer := [] |} = (tsv, Ok ()) /\
    tsv_writer tsv = table ++ log_section p /\
    read_table table = tsv_columns :: rows /\ row_item <$> rows = (fmap Some) <$> tree_items t.
Proof.
  intros Hout Hdates Hflags Hhive Hdepth Hd Hrec Hparse Hlogs Hlen.
  destruct (build_stored stdout hash_order depth d data t b files logs w) as (p & Hb & Hst & _);
    try done.
  destruct (traversal_stored (Er:=Error) depth p d t Hdepth Hd Hst) as (m & ks & Hks & Hall).
  pose proof (rows_stored 0 ks _ Hall) as Hrows. fold (tree_items t) in Hrows.
  pose proof (f_equal length Hrows) as Hl. rewrite !length_fmap, length_numbered in Hl.
  destruct (tsv_written stdout Hout Hdates Hflags m m depth p None ks false Hks) as (table & Hrun & Ht).
  { unfold len in *. by rewrite Hl. }
  eexists p, m, _, table, _. split_and!; [apply Hb|exact Hrun|done|by apply read_table_of|exact Hrows].
Qed.
End Tree.

Lemma tsv_exports_stored_tree_witness :
  exists p m tsv table rows,
    build (E:=env_ref) (fun _ => Ok ()) (fun _ => []) 9 9 9
      (FileInfo_from_read_seek hive_file_sample) ParserBuilderBase_default [] = Ok p /\
    WriteTsv_write (E:=env_ref) (fun _ => Ok ()) m m 9 p None
      {| tsv_index := 0; tsv_recovered_only := false; tsv_writer := [] |} = (tsv, Ok ()) /\
    tsv_writer tsv = table ++ log_section p /\ read_table table = tsv_columns :: rows /\
    (fun row => take 3 (row_item row)) <$> rows =
      (fmap Some) <$> [[lit "\r"; []; []]; [lit "\r"; lit "n"; lit "305419896"];
                       [lit "\r\a"; []; []]; [lit "\r\b"; []; []]].
Proof.
  destruct (@tsv_exports_stored_tree env_ref (fun _ => Ok ()) (fun _ => []) 9 9 9 1
    hive_file_sample tree_sample ParserBuilderBase_default [] [] None)
    as (p & m & tsv & table & rows & Hb & Hrun & Htsv & Ht & Hrows).
  - reflexivity.
  - exact env_ref_dates_plain.
  - exact env_ref_flags_plain.
  - exact hive_file_sample_stores.
  - lia.
  - lia.
  - reflexivity.
  - reflexivity.
  - left. reflexivity.
  - vm_compute. reflexivity.
  - exists p, m, tsv, table, rows. split; [exact Hb|]. split; [exact Hrun|]. split; [exact Htsv|].
    split; [exact Ht|].
    assert (forall l : list (list ustr), (fun row => take 3 (row_item row)) <$> l
      = take 3 <$> (row_item <$> l)) as -> by (intros l; exact (list_fmap_compose row_item (take 3) l)).
    rewrite Hrows. vm_compute. reflexivity.
Defined.
