(* ===== verification/CompareReport.v ===== *)
(** * CompareReport: the diff of two hive files

    The text [reg_compare] writes for two hive files, read back: from the bytes of the files to
    the lines of the difference of the trees they store. *)

From S2P Require Import Prelude Env Log Util UtilFacts Cells BaseBlock SubKeyLists Values ValueFacts State Filter KeyNode KeyNodeFacts Recover Parser ParserFacts Hive HiveFacts HiveLookup TransactionLog TransactionLogFacts Init InitFacts OpenFacts Cli Compare CompareFacts DiffSpec CompareHive DiffFacts Dump TsvFacts ExportFacts.

#[local] Opaque lit to_le_bytes fmt_dec.

Section Report.
Context `{E : Env} {It : Itertools}.

(** ** The lines of a difference *)

(** The line of a key, and of a value of the key at a path. *)
Definition entry_line (kv : ustr * KeyData) : ustr :=
  kv.1 ++ [TAB] ++ format_date_time (get_date_time_from_filetime (kd_written kv.2)) ++ [TAB]
  ++ bf_debug KeyNodeFlags_table (bf_from_bits_truncate KeyNodeFlags_all (kd_flags kv.2)) ++ [TAB]
  ++ bf_debug AccessFlags_table (bf_from_bits_truncate AccessFlags_all (kd_access kv.2)).
Definition item_line (i : ustr * HiveValue) : ustr :=
  i.1 ++ [TAB] ++ get_pretty_name (hv_name i.2) ++ [TAB] ++ CellValue_debug (stored_content i.2).

(** The removed and the added lines of the six sections. *)
Definition tree_sections (td : TreeDiff) : list (list ustr * list ustr) :=
  [ (entry_line <$> td_keys_deleted td, []);
    ([], entry_line <$> td_keys_added td);
    (entry_line <$> (td_keys_modified td).*1, entry_line <$> (td_keys_modified td).*2);
    (item_line <$> td_values_deleted td, []);
    ([], item_line <$> td_values_added td);
    (item_line <$> (td_values_modified td).*1, item_line <$> (td_values_modified td).*2) ].
Definition section_lines (secs : list (list ustr * list ustr)) : list ustr :=
  secs ≫= fun sec => sec.1 ++ sec.2.

(** The same difference, the deleted items in another order. *)
Record same_difference (td td' : TreeDiff) : Prop := {
  same_keys_deleted : td_keys_deleted td ≡ₚ td_keys_deleted td';
  same_keys_added : td_keys_added td = td_keys_added td';
  same_keys_modified : td_keys_modified td = td_keys_modified td';
  same_values_deleted : td_values_deleted td ≡ₚ td_values_deleted td';
  same_values_added : td_values_added td = td_values_added td';
  same_values_modified : td_values_modified td = td_values_modified td';
}.
Lemma same_difference_lines td td' :
  same_difference td td' -> section_lines (tree_sections td) ≡ₚ section_lines (tree_sections td').
Proof.
  intros [Hkd Hka Hkm Hvd Hva Hvm]. unfold tree_sections, section_lines.
  cbn [mbind list_bind fst snd]. rewrite Hka, Hkm, Hva, Hvm. by rewrite Hkd, Hvd.
Qed.

(** ** What is written for what is shown *)

Lemma entry_line_shown k e : shows_key k e -> format_key k = entry_line e.
Proof.
  intros [[Hp _ _ Hfl Hwr Hac _] _]. unfold format_key, entry_line, CellKeyNode_key_node_flags,
    CellKeyNode_access_flags, CellKeyNode_last_key_written_date_and_time.
  rewrite Hp, Hfl, Hwr, Hac. unfold KeyNodeFlags_from_bits_checked, AccessFlags_from_bits_checked.
  rewrite <- (from_bits_checked_fst KeyNodeFlags_all
    (lit "notatin::cell_key_node::KeyNodeFlags::from_bits_checked") _ Logs_default).
  destruct (from_bits_checked KeyNodeFlags_all _ _ _) as [fl lg]. cbn [fst].
  rewrite <- (from_bits_checked_fst AccessFlags_all
    (lit "notatin::cell_key_node::AccessFlags::from_bits_checked") _ lg).
  by destruct (from_bits_checked AccessFlags_all _ _ _).
Qed.

Lemma item_line_shown pv i : shows_item pv i -> value_line pv = item_line i.
Proof.
  intros [Hp Hv]. pose proof (value_content_stored _ _ Hv) as Hc. unfold value_line, item_line.
  destruct (format_value_returns pv.1 pv.2) as [s Hs]. rewrite Hs.
  unfold format_value in Hs. unfold value_content in Hc.
  destruct (get_content pv.2) as [[c w]| | |]; [|done..]. injection Hs as <-.
  unfold CellKeyValue_get_pretty_name. rewrite Hp, (sv_name _ _ Hv).
  by subst c.
Qed.
(** Lists whose elements correspond print the same lines. *)
Lemma lines_shown {A B} (R : A -> B -> Prop) (f : A -> ustr) (g : B -> ustr) l l' :
  (forall x y, R x y -> f x = g y) -> Forall2 R l l' -> f <$> l = g <$> l'.
Proof. intros Hfg. induction 1 as [|x y l l' Hxy _ IH]; [done|]. by rewrite !fmap_cons, IH, (Hfg x y). Qed.

Lemma sections_shown d td :
  shows_diff d td -> exists td', same_difference td' td /\ sections d = tree_sections td'.
Proof.
  intros [(kd & Hkdp & Hkd) Hka Hkm (vd & Hvdp & Hvd) Hva Hvm].
  exists {| td_keys_deleted := kd; td_keys_added := td_keys_added td;
            td_keys_modified := td_keys_modified td; td_values_deleted := vd;
            td_values_added := td_values_added td; td_values_modified := td_values_modified td |}.
  split; [by constructor|]. unfold sections, tree_sections. cbn.
  pose proof entry_line_shown as Hk. pose proof item_line_shown as Hv.
  rewrite (lines_shown _ _ _ _ _ Hk Hkd), (lines_shown _ _ _ _ _ Hk Hka).
  rewrite (lines_shown _ _ _ _ _ Hv Hvd), (lines_shown _ _ _ _ _ Hv Hva).
  rewrite <- !list_fmap_compose. repeat f_equal.
  - exact (lines_shown _ _ _ _ _ (fun x y H => Hk _ _ (proj1 H)) Hkm).
  - exact (lines_shown _ _ _ _ _ (fun x y H => Hk _ _ (proj2 H)) Hkm).
  - exact (lines_shown _ _ _ _ _ (fun x y H => Hv _ _ (proj1 H)) Hvm).
  - exact (lines_shown _ _ _ _ _ (fun x y H => Hv _ _ (proj2 H)) Hvm).
Qed.

Lemma report_lines_sections d : report_lines d = len (section_lines (sections d)).
Proof.
  unfold report_lines, section_lines. induction (sections d) as [|sec secs IH]; [done|].
  cbn [foldr mbind list_bind]. rewrite IH, !len_app. lia.
Qed.
Lemma one_line_sections d : one_line_report d <-> Forall one_line (section_lines (sections d)).
Proof.
  unfold one_line_report, section_lines. induction (sections d) as [|sec secs IH]; [done|].
  cbn [mbind list_bind]. by rewrite Forall_cons, (Forall_app _ (sec.1 ++ sec.2)), IH.
Qed.

(** ** From two hive files to the diff read back *)

(** C3: the unified diff of two hive files is the difference of the trees they store: for files
    that store trees of keys (no two with the same path, no two values of a key with the same
    name, up to ASCII case) and whose logs are not needed, when no line of the difference
    prints with a line break, [reg_compare] ends and writes a diff; a reader that checks its hunk headers
    finds the files' names and the sections of the difference that are not empty: the keys and
    values in one tree only and those whose hash differs, each line as the tree has it, the
    deleted items in some order and the others in that of a traversal. *)
Theorem reg_compare_diff_reads_back stdout hash_order map_order fs_open fs_create depth d1 d2
    data1 data2 t1 t2 output base base_logs other other_logs :
  (forall t, stdout t = Ok ()) -> (forall m, map_order m ≡ₚ map_to_list m) ->
  opens fs_open base base_logs data1 -> opens fs_open other other_logs data2 ->
  hive_file d1 data1 t1 -> hive_file d2 data2 t2 ->
  as_i32 (le_at 4 36 data1) = 32 -> every_key good_name t1 ->
  distinct_items (keys [] t1) -> distinct_items (keys [] t2) ->
  (d1 + levels t1 <= depth)%nat -> (d2 <= depth)%nat -> fs_create output = inr [] ->
  let td := tree_diff (keys [] t1) (keys [] t2) in
  let names := (filenames base base_logs, filenames other other_logs) in
  one_line names.1 -> one_line names.2 ->
  Forall one_line (section_lines (tree_sections td)) ->
  len (section_lines (tree_sections td)) + 1 < U64_MOD ->
  exists m text td', same_difference td' td /\
    reg_compare stdout hash_order map_order m m depth fs_open fs_create output base base_logs
      other other_logs None true = Ok text /\
    read_diff text = Some (names, filter nonempty_section (tree_sections td')).
Proof.
  intros Hout Hord Ho1 Ho2 Hh1 Hh2 H32 Hgood Hdist1 Hdist2 Hdepth Hd2 Hcreate td names
    Hn1 Hn2 Hlines Hlen.
  destruct (compare_stored_hives (W:=ustr) stdout hash_order map_order Hout Hord fs_open fs_create
    depth d1 d2 data1 data2 t1 t2 output [] base base_logs other other_logs true)
    as (m & d & Hshow & Hrun); [done..|].
  destruct (sections_shown d td Hshow) as (td' & Hsame & Hsec).
  pose proof (same_difference_lines td' td Hsame) as Hperm.
  destruct (diff_reads_back names.1 names.2 d) as (text & Hw & Hr); [done|done| | |].
  - apply one_line_sections. by rewrite Hsec, Hperm.
  - rewrite report_lines_sections, Hsec. unfold len in *. by rewrite Hperm.
  - exists m, text, td'. split; [done|]. rewrite Hrun. subst names. cbn [fst snd] in *. rewrite Hw.
    split; [done|]. rewrite Hr, Hsec. done.
Qed.
End Report.

(** ** Sample *)

Definition fs_sample (p : PathBuf) : res Error (res Error (list byte)) :=
  Ok (Ok (if bool_decide (p = lit "base") then hive_file_of 0x20 "b" else hive_file_of 0x28 "c")).

Lemma opens_sample p (data : list byte) :
  fs_sample p = Ok (Ok data) -> opens (E:=env_ref) fs_sample p None data.
Proof. intros H. split; [exact H|]. exists [], [], None. split_and!; [done|done|by left]. Qed.

(** The first characters of the lines of a section: here, paths. *)
Definition path_starts (sec : list ustr * list ustr) : list ustr * list ustr :=
  (List.map (take 4) sec.1, List.map (take 4) sec.2).

(** A key with other flags, one deleted and one added. *)
Lemma reg_compare_diff_reads_back_witness :
  exists m text secs,
    reg_compare (E:=env_ref) (fun _ => Ok ()) (fun _ => []) map_to_list m m 9 fs_sample
      (fun _ => inr []) (lit "out") (lit "base") None (lit "other") None None true = Ok text /\
    read_diff text = Some (lit "base", lit "other", secs) /\
    path_starts <$> secs
      = [([lit "\r\b"], []); ([], [lit "\r\c"]); ([lit "\r\a"], [lit "\r\a"])].
Proof.
  destruct (@reg_compare_diff_reads_back env_ref itertools_ref (fun _ => Ok ()) (fun _ => [])
    map_to_list fs_sample (fun _ => inr []) 9 1 1
    (hive_file_of 0x20 "b") (hive_file_of 0x28 "c") (tree_of 0x20 "b") (tree_of 0x28 "c")
    (lit "out") (lit "base") None (lit "other") None)
    as (m & text & td' & Hsame & Hrun & Hread).
  - reflexivity.
  - reflexivity.
  - apply opens_sample. reflexivity.
  - apply opens_sample. reflexivity.
  - apply hive_file_of_stores. by left.
  - apply hive_file_of_stores. by right.
  - vm_compute. reflexivity.
  - split; [split; [done|no_backslash]|]. split; [split; [split; [done|no_backslash]|exact I]|].
    split; [split; [split; [done|no_backslash]|exact I]|exact I].
  - split; [|repeat constructor; set_solver]. apply (bool_decide_unpack _). vm_compute. exact I.
  - split; [|repeat constructor; set_solver]. apply (bool_decide_unpack _). vm_compute. exact I.
  - vm_compute. lia.
  - lia.
  - reflexivity.
  - apply (bool_decide_unpack _). vm_compute. exact I.
  - apply (bool_decide_unpack _). vm_compute. exact I.
  - apply (bool_decide_unpack _). vm_compute. exact I.
  - vm_compute. reflexivity.
  - destruct Hsame as [Hkd Hka Hkm Hvd Hva Hvm].
    change (td_keys_deleted _) with [(lit "\r\b", leaf_data 0x20)] in Hkd at 2.
    change (td_values_deleted _) with (@nil (ustr * HiveValue)) in Hvd at 2.
    apply Permutation_singleton_r in Hkd. apply Permutation_nil_r in Hvd.
    eexists m, text, _. split; [exact Hrun|]. split; [exact Hread|].
    unfold tree_sections. rewrite Hkd, Hka, Hkm, Hvd, Hva, Hvm. vm_compute. reflexivity.
Defined.
