(* ===== verification/Python.v ===== *)
(** * Python: the bindings

    [src/pynotatin/src/]: the objects Python sees, over the operations of the library, and
    the conversion of time stamps to Python's microseconds.  PyO3, the Python runtime and
    chrono's calendar are parameters. *)

From S2P Require Import Prelude Env Log Util Cells Values State Filter KeyNode Parser TransactionLog Init.

(** ** The crates *)

(** chrono: the parts of a [DateTime<Utc>]. *)
Class Chrono `{E : Env} := {
  dt_timestamp : DateTime -> Z;
  dt_timestamp_subsec_nanos : DateTime -> Z;
  (* [NaiveDateTime::from_timestamp_opt] in UTC *)
  dt_from_timestamp_opt : Z -> Z -> option DateTime;
  dt_year : DateTime -> Z;
  dt_month : DateTime -> Z;
  dt_day : DateTime -> Z;
  dt_hour : DateTime -> Z;
  dt_minute : DateTime -> Z;
  dt_second : DateTime -> Z;

  dt_timestamp_spec n :
    - 2 ^ 63 <= n < 2 ^ 63 -> dt_timestamp (dt_from_unix_nanos n) = n / 10 ^ 9;
  dt_subsec_nanos_spec n :
    - 2 ^ 63 <= n < 2 ^ 63 -> dt_timestamp_subsec_nanos (dt_from_unix_nanos n) = n mod 10 ^ 9;
  (* "None on out-of-range number of seconds (more than 262 000 years away) or nanosecond" *)
  dt_from_timestamp_opt_spec secs nanos :
    Z.abs secs < 262000 * 365 * 86400 -> 0 <= nanos < 10 ^ 9 ->
    exists d, dt_from_timestamp_opt secs nanos = Some d /\
      dt_timestamp d = secs /\ dt_timestamp_subsec_nanos d = nanos;
  dt_fields_spec d :
    1 <= dt_month d <= 12 /\ 1 <= dt_day d <= 31 /\ 0 <= dt_hour d < 24 /\
    0 <= dt_minute d < 60 /\ 0 <= dt_second d < 60;
}.
(** [timestamp_subsec_micros]. *)
Definition dt_timestamp_subsec_micros `{Chrono} (d : DateTime) : Z :=
  dt_timestamp_subsec_nanos d / 1000.

(** PyO3 and the interpreter. *)
Class PyO3 := {
  PyObject : Type;
  PyErr : Type;
  (* [ToPyObject] of text, integers, lists of text and errors *)
  str_to_object : ustr -> PyObject;
  int_to_object : Z -> PyObject;
  strs_to_object : list ustr -> PyObject;
  err_to_object : PyErr -> PyObject;
  PyBytes_new : list byte -> PyObject;
  PyDateTime_new (year month day hour minute second microsecond : Z) : PyErr + PyObject;
  PyRuntimeError : ustr -> PyErr;
  PyNotImplementedError : ustr -> PyErr;
  (* [File::open(..)?] *)
  PyErr_from_io : ustr -> PyErr;
  (* [Py::new]: a new Python object around a value, which can fail *)
  Py_new_error : forall {A}, A -> option PyErr;
  (* [extract::<String>] *)
  extract_str : PyObject -> option ustr;
  (* [PyFileLikeObject::with_requirements], and what reading it gives *)
  PyFileLike : Type;
  PyFileLike_new : PyObject -> PyErr + PyFileLike;
  PyFileLike_read : PyFileLike -> res Error (list byte);
}.

(** A [PyResult] of the crates. *)
Definition py_result {Er A} (r : Er + A) : res Er A :=
  match r with inr a => Ok a | inl e => Err e end.
Definition Py_new `{PyO3} {A} (a : A) : res PyErr A :=
  match Py_new_error a with None => Ok a | Some e => Err e end.

(** [.ok()] of a [Result]; a panic is not caught. *)
Definition res_ok {Er A F} (r : res Er A) : res F (option A) :=
  match r with Ok a => Ok (Some a) | Err _ => Ok None | Panic => Panic | NoFuel => NoFuel end.

(** ** [util.rs]: rounding time stamps *)

(** The sums are at most 4294970. *)
Definition nanos_to_micros_round_half_even (nanos : Z) : Z :=
  let nanos_e7 := (nanos mod 1000) / 100 in
  let nanos_e6 := (nanos mod 10000) / 1000 in
  let micros := nanos / 10000 * 10 in
  match nanos_e7 ?= 5 with
  | Gt => micros + (nanos_e6 + 1)
  | Lt => micros + nanos_e6
  | Eq => micros + (nanos_e6 + nanos_e6 mod 2)
  end.

Section Dates.
Context `{E : Env} {Ch : Chrono} {Py : PyO3}.

Definition date_splitter (date : DateTime) : Z * Z :=
  let unix_time := dt_timestamp date in
  let micros := nanos_to_micros_round_half_even (dt_timestamp_subsec_nanos date) in
  let inc_sec := micros / 1000000 in
  let micros := micros mod 1000000 in
  (unix_time + inc_sec, micros).

Definition round_to_usec_half_even {Er} (date : DateTime) : res Er DateTime :=
  let '(unix_time, micros) := date_splitter date in
  expect (dt_from_timestamp_opt unix_time (micros * 1000)).

(** [as u8]. *)
Definition as_u8 (z : Z) : Z := z mod 256.
Definition date_to_pyobject (date : DateTime) : res PyErr PyObject :=
  rounded_date ← round_to_usec_half_even date;
  py_result
    (PyDateTime_new (dt_year rounded_date) (as_u8 (dt_month rounded_date))
      (as_u8 (dt_day rounded_date)) (as_u8 (dt_hour rounded_date))
      (as_u8 (dt_minute rounded_date)) (as_u8 (dt_second rounded_date))
      (dt_timestamp_subsec_micros rounded_date)).
End Dates.

(** ** [util.rs]: logging *)

Inductive Level := LV_Error | LV_Warn | LV_Info | LV_Debug | LV_Trace.
#[export] Instance Level_eq : EqDecision Level.
Proof. solve_decision. Defined.
Definition Level_as_usize (l : Level) : Z :=
  match l with
  | LV_Error => 1 | LV_Warn => 2 | LV_Info => 3 | LV_Debug => 4 | LV_Trace => 5
  end.
Definition Level_to_string (l : Level) : ustr :=
  match l with
  | LV_Error => lit "ERROR" | LV_Warn => lit "WARN" | LV_Info => lit "INFO"
  | LV_Debug => lit "DEBUG" | LV_Trace => lit "TRACE"
  end.
(** [PyLogger]: [warnings_module], the Python object that receives the message, is the caller
    of [PyLogger_log]'s result here, so the level is all of its state. *)
Record PyLogger := { pl_level : Level }.
Record LogRecord := { lr_level : Level; lr_module_path : option ustr; lr_args : ustr }.

Definition PyLogger_enabled (self : PyLogger) (metadata : Level) : bool :=
  Level_as_usize metadata <=? Level_as_usize (pl_level self).
(** [{:<5}] *)
Definition pad_left_5 (s : ustr) : ustr := s ++ replicate (5 - length s) 32.
(** The message passed to Python's [warnings.warn], whose failure is ignored. *)
Definition PyLogger_log (self : PyLogger) (record : LogRecord) : option ustr :=
  if PyLogger_enabled self (lr_level record) then
    match pl_level self with
    | LV_Warn =>
        Some (pad_left_5 (Level_to_string (lr_level record)) ++ lit " ["
              ++ default [] (lr_module_path record) ++ lit "] " ++ lr_args record)
    | _ => None
    end
  else None.

Section Bindings.
Context `{E : Env} {Ch : Chrono} {Py : PyO3}.

(** [impl From<PyNotatinError> for PyErr]. *)
Definition PyErr_from (err : Error) : PyErr := PyRuntimeError (Error_display err).
Definition py_error {A} (r : res Error A) : res PyErr A :=
  match r with
  | Ok a => Ok a
  | Err e => Err (PyErr_from e)
  | Panic => Panic
  | NoFuel => NoFuel
  end.

(** ** [util.rs]: files *)

(** Opening a file, or the text of the error, and what reading it gives. *)
Variable fs_open : ustr -> ustr + res Error (list byte).

Inductive FileOrFileLike := FF_File (s : ustr) | FF_FileLike (f : PyFileLike).

Definition from_pyobject (path_or_file_like : PyObject) : res PyErr FileOrFileLike :=
  match extract_str path_or_file_like with
  | Some s => Ok (FF_File s)
  | None =>
      match PyFileLike_new path_or_file_like with
      | inr f => Ok (FF_FileLike f)
      | inl e => Err e
      end
  end.
Definition to_read_seek (path_or_file_like : PyObject) : res PyErr (res Error (list byte)) :=
  f ← from_pyobject path_or_file_like;
  match f with
  | FF_File s =>
      match fs_open s with inr data => Ok data | inl e => Err (PyErr_from_io e) end
  | FF_FileLike f => Ok (PyFileLike_read f)
  end.

(** ** [py_notatin_content.rs], [py_notatin_value.rs] *)

Record PyNotatinContent := { pc_inner : CellValue }.
Record PyNotatinDecodeFormat := { pf_inner : DecodeFormat }.
Record PyNotatinValue := { pv_inner : CellKeyValue }.

(** [#[classattr]]s of [PyNotatinDecodeFormat]. *)
Definition pf_lznt1 : PyNotatinDecodeFormat := {| pf_inner := DF_Lznt1 |}.
Definition pf_rot13 : PyNotatinDecodeFormat := {| pf_inner := DF_Rot13 |}.
Definition pf_utf16 : PyNotatinDecodeFormat := {| pf_inner := DF_Utf16 |}.
Definition pf_utf16_multiple : PyNotatinDecodeFormat := {| pf_inner := DF_Utf16Multiple |}.

Definition prepare_content (content : CellValue) : option PyObject :=
  match content with
  | CV_String content => Some (str_to_object content)
  | CV_I32 content => Some (int_to_object content)
  | CV_U32 content => Some (int_to_object content)
  | CV_U64 content => Some (int_to_object content)
  | CV_I64 content => Some (int_to_object content)
  | CV_MultiString content => Some (strs_to_object content)
  | CV_Binary content => Some (PyBytes_new content)
  | _ => None
  end.

Definition PyNotatinContent_content (self : PyNotatinContent) : option PyObject :=
  prepare_content (pc_inner self).
Definition PyNotatinContent_decode (self : PyNotatinContent) (format : PyNotatinDecodeFormat)
    (offset : Z) : res PyErr PyNotatinContent :=
  '(decoded_content, _) ← decode_content (pc_inner self) (pf_inner format) offset;
  Py_new {| pc_inner := decoded_content |}.

Definition PyNotatinValue_value (self : PyNotatinValue) : PyObject :=
  PyBytes_new (default [] (value_bytes (pv_inner self))).
Definition PyNotatinValue_pretty_name (self : PyNotatinValue) : PyObject :=
  str_to_object (CellKeyValue_get_pretty_name (pv_inner self)).
Definition PyNotatinValue_name (self : PyNotatinValue) : PyObject :=
  str_to_object (value_name (pv_inner self)).
Definition PyNotatinValue_raw_data_type (self : PyNotatinValue) : PyObject :=
  int_to_object (value_data_type_raw (pv_inner self)).
Definition PyNotatinValue_content {Er} (self : PyNotatinValue) : res Er (option PyObject) :=
  '(content, _) ← get_content (pv_inner self); Ok (prepare_content content).
Definition PyNotatinValue_decode (self : PyNotatinValue) (format : PyNotatinDecodeFormat)
    (offset : Z) : res PyErr PyNotatinContent :=
  '(decoded_content, _) ← decode_content (pv_inner self) (pf_inner format) offset;
  Py_new {| pc_inner := decoded_content |}.

Definition from_cell_key_value (cell_key_value : CellKeyValue) : res PyErr PyNotatinValue :=
  Py_new {| pv_inner := cell_key_value |}.

(** [to_object] of the crate's own objects. *)
Variable value_to_object : PyNotatinValue -> PyObject.
Definition reg_value_to_pyobject {Er} (reg_value : CellKeyValue) : res Er PyObject :=
  match from_cell_key_value reg_value with
  | Ok py_reg_value => Ok (value_to_object py_reg_value)
  | Err e => Ok (err_to_object e)
  | Panic => Panic
  | NoFuel => NoFuel
  end.

Record PyNotatinValueVersionsIterator := { vv_index : Z; vv_versions : list CellKeyValue }.
Definition PyNotatinValue_versions (self : PyNotatinValue)
    : res PyErr PyNotatinValueVersionsIterator :=
  Py_new {| vv_index := 0; vv_versions := cv_versions (pv_inner self) |}.
Definition VersionsIterator_next {Er}
    : M PyNotatinValueVersionsIterator Er (option PyObject) :=
  let* self := m_get in
  match get_at (vv_versions self) (vv_index self) with
  | Some value =>
      m_modify (fun self => {| vv_index := vv_index self + 1; vv_versions := vv_versions self |});;;
      m_lift (Some <$> reg_value_to_pyobject value)
  | None => m_ret None
  end.

(** ** [py_notatin_key.rs] *)

Record PyNotatinKey := {
  pk_inner : CellKeyNode;
  pk_last_key_written_date_and_time : PyObject;
}.
Record PyNotatinValuesIterator := { vs_inner : CellKeyNode; vs_sub_values_iter_index : Z }.
Record PyNotatinSubKeysIterator := { sk_index : Z; sk_sub_keys : list CellKeyNode }.
(** The parser a Python object holds until it is iterated. *)
Record PyNotatinParser := { pp_inner : option Parser }.

Definition from_cell_key_node (cell_key_node : CellKeyNode) : res PyErr PyNotatinKey :=
  date ← date_to_pyobject (CellKeyNode_last_key_written_date_and_time cell_key_node);
  Py_new {| pk_last_key_written_date_and_time := date; pk_inner := cell_key_node |}.

Definition PyNotatinKey_values (self : PyNotatinKey) : res PyErr PyNotatinValuesIterator :=
  Py_new {| vs_inner := pk_inner self; vs_sub_values_iter_index := 0 |}.
Definition PyNotatinKey_value {Er} (self : PyNotatinKey) (name : ustr)
    : res Er (option PyNotatinValue) :=
  match get_value (pk_inner self) name with
  | Some value => res_ok (from_cell_key_value value)
  | None => Ok None
  end.

(** A library call on the key and the parser of two Python objects, both changed. *)
Definition with_key_and_parser {A} (parser : Parser) (m : FileInfo -> M (CellKeyNode * State) PyErr A)
    : M (PyNotatinKey * PyNotatinParser) PyErr A := fun s =>
  match m (file_info parser) (pk_inner s.1, state parser) with
  | ((node, st), r) =>
      (({| pk_inner := node;
           pk_last_key_written_date_and_time := pk_last_key_written_date_and_time s.1 |},
        {| pp_inner := Some (p_set_state st parser) |}), r)
  end.
Definition sub_keys_iterator (depth : nat)
    : M (PyNotatinKey * PyNotatinParser) PyErr PyNotatinSubKeysIterator :=
  m_modify (fun s =>
    ({| pk_inner := init_sub_key_iter (pk_inner s.1);
        pk_last_key_written_date_and_time := pk_last_key_written_date_and_time s.1 |}, s.2));;;
  let* s := m_get in
  match pp_inner s.2 with
  | Some parser =>
      let* sub_keys := with_key_and_parser parser (read_sub_keys depth) in
      m_lift (Py_new {| sk_index := 0; sk_sub_keys := sub_keys |})
  | None => m_lift (Py_new {| sk_index := 0; sk_sub_keys := [] |})
  end.
Definition PyNotatinKey_find_key (depth : nat) (path : ustr)
    : M (PyNotatinKey * PyNotatinParser) PyErr (option PyNotatinKey) :=
  let* s := m_get in
  match pp_inner s.2 with
  | Some parser =>
      let* key := with_key_and_parser parser (fun fi => get_sub_key_by_path depth fi path) in
      match key with
      | Some key => m_lift (res_ok (from_cell_key_node key))
      | None => m_ret None
      end
  | None => m_ret None
  end.

Definition PyNotatinKey_name (self : PyNotatinKey) : PyObject :=
  str_to_object (n_key_name (pk_inner self)).
Definition PyNotatinKey_path (self : PyNotatinKey) : PyObject :=
  str_to_object (n_path (pk_inner self)).
Definition PyNotatinKey_pretty_path {Er} (self : PyNotatinKey) : res Er PyObject :=
  str_to_object <$> CellKeyNode_get_pretty_path (pk_inner self).
Definition PyNotatinKey_number_of_sub_keys (self : PyNotatinKey) : PyObject :=
  int_to_object (node_number_of_sub_keys (pk_inner self)).
Definition PyNotatinKey_number_of_key_values (self : PyNotatinKey) : PyObject :=
  int_to_object (node_number_of_key_values (pk_inner self)).
Definition PyNotatinKey_next : res PyErr (option PyObject) :=
  Err (PyNotImplementedError (lit "Using `next()` over `PyNotatinKey` is not supported. Try iterating over `PyNotatinKey(...).values() or PyNotatinKey(...).sub_keys()`")).

Definition ValuesIterator_next {Er} : M PyNotatinValuesIterator Er (option PyObject) :=
  let* self := m_get in
  match next_value (vs_inner self) (vs_sub_values_iter_index self) with
  | Some (value, sub_values_iter_index) =>
      m_modify (fun self => {| vs_inner := vs_inner self;
                               vs_sub_values_iter_index := sub_values_iter_index |});;;
      m_lift (Some <$> reg_value_to_pyobject value)
  | None => m_ret None
  end.

Variable key_to_object : PyNotatinKey -> PyObject.
Definition reg_key_to_pyobject {Er} (reg_key : CellKeyNode) : res Er PyObject :=
  match from_cell_key_node reg_key with
  | Ok py_reg_key => Ok (key_to_object py_reg_key)
  | Err e => Ok (err_to_object e)
  | Panic => Panic
  | NoFuel => NoFuel
  end.
Definition SubKeysIterator_next {Er} : M PyNotatinSubKeysIterator Er (option PyObject) :=
  let* self := m_get in
  match get_at (sk_sub_keys self) (sk_index self) with
  | Some key =>
      m_modify (fun self => {| sk_index := sk_index self + 1; sk_sub_keys := sk_sub_keys self |});;;
      m_lift (Some <$> reg_key_to_pyobject key)
  | None => m_ret None
  end.

(** ** [py_notatin_parser.rs] *)

Variable stdout : ustr -> res Error ().
Variable hash_order : RegItemMap -> list (RegItemMapKey * RegItemMapValue).

Definition PyNotatinParser_new (n fuel depth : nat) (path_or_file_like : PyObject)
    : res PyErr PyNotatinParser :=
  primary ← to_read_seek path_or_file_like;
  parser ← py_error (ff_build stdout hash_order n fuel depth (from_file primary));
  Ok {| pp_inner := Some parser |}.

Definition key_for (func : M Parser Error (option CellKeyNode))
    : M PyNotatinParser PyErr (option PyNotatinKey) := fun self =>
  match pp_inner self with
  | Some parser =>
      match func parser with
      | (parser, r) =>
          ({| pp_inner := Some parser |},
           match r with
           | Ok (Some key) => res_ok (from_cell_key_node key)
           | Ok None => Ok None
           | Err e => Err (PyRuntimeError (Error_display e))
           | Panic => Panic
           | NoFuel => NoFuel
           end)
      end
  | None => (self, Ok None)
  end.
Definition PyNotatinParser_open (depth : nat) (path : ustr)
    : M PyNotatinParser PyErr (option PyNotatinKey) := key_for (get_key depth path false).
Definition PyNotatinParser_root (depth : nat) : M PyNotatinParser PyErr (option PyNotatinKey) :=
  key_for (get_root_key depth).
Definition PyNotatinParser_get_parent (depth : nat) (key : PyNotatinKey)
    : M PyNotatinParser PyErr (option PyNotatinKey) :=
  key_for (get_parent_key depth (pk_inner key)).
Definition PyNotatinParser_next : res PyErr (option PyObject) :=
  Err (PyNotImplementedError (lit "Using `next()` over `PyNotatinParser` is not supported. Try iterating over `PyNotatinParser(...).reg_keys()`")).

Record PyNotatinKeysIterator := {
  ki_inner : Parser;
  ki_iterator_context : ParserIteratorContext;
}.
Definition reg_keys : M PyNotatinParser PyErr PyNotatinKeysIterator :=
  let* self := m_get in
  match pp_inner self with
  | Some inner =>
      m_modify (fun _ => {| pp_inner := None |});;;
      m_lift (Py_new {| ki_inner := inner;
                        ki_iterator_context := from_parser inner true None |})
  | None => m_lift (Err (PyRuntimeError (lit "PyNotatinParser can only be used once")))
  end.
Definition KeysIterator_next {Er} (fuel depth : nat)
    : M PyNotatinKeysIterator Er (option PyObject) := fun self =>
  match next_key_preorder fuel depth (ki_inner self) (ki_iterator_context self) with
  | (context, r) =>
      ({| ki_inner := ki_inner self; ki_iterator_context := context |},
       key ← r;
       match key with
       | Some key => Some <$> reg_key_to_pyobject key
       | None => Ok None
       end)
  end.

Record PyNotatinParserBuilder := {
  pb_primary_file : PyObject;
  pb_recover_deleted : bool;
  pb_transaction_logs : list PyObject;
}.
Definition PyNotatinParserBuilder_new (path_or_file_like : PyObject) : PyNotatinParserBuilder :=
  {| pb_primary_file := path_or_file_like; pb_recover_deleted := false;
     pb_transaction_logs := [] |}.
Definition PyNotatinParserBuilder_recover_deleted (recover : bool) (self : PyNotatinParserBuilder)
    : PyNotatinParserBuilder :=
  {| pb_primary_file := pb_primary_file self; pb_recover_deleted := recover;
     pb_transaction_logs := pb_transaction_logs self |}.
Definition PyNotatinParserBuilder_with_transaction_log (log : PyObject)
    (self : PyNotatinParserBuilder) : PyNotatinParserBuilder :=
  {| pb_primary_file := pb_primary_file self; pb_recover_deleted := pb_recover_deleted self;
     pb_transaction_logs := pb_transaction_logs self ++ [log] |}.
Fixpoint add_transaction_logs (logs : list PyObject) (builder : ParserBuilderFromFile)
    : res PyErr ParserBuilderFromFile :=
  match logs with
  | [] => Ok builder
  | transaction_log :: logs =>
      log ← to_read_seek transaction_log;
      add_transaction_logs logs (ff_with_transaction_log log builder)
  end.
Definition PyNotatinParserBuilder_build (n fuel depth : nat) (self : PyNotatinParserBuilder)
    : res PyErr PyNotatinParser :=
  primary ← to_read_seek (pb_primary_file self);
  let builder := from_file primary in
  let builder := ff_update (pb_set_recover_deleted (pb_recover_deleted self)) builder in
  builder ← add_transaction_logs (pb_transaction_logs self) builder;
  parser ← py_error (ff_build stdout hash_order n fuel depth builder);
  Ok {| pp_inner := Some parser |}.
End Bindings.
