(* ===== verification/PythonFacts.v ===== *)
(** * PythonFacts: what Python sees

    Time stamps are rounded to the nearest microsecond, and iterating over a parser from
    Python visits the keys of the library's own traversal. *)

From S2P Require Import Prelude Env Log Util UtilFacts Cells Values State Filter KeyNode KeyNodeFacts Parser ParserFacts TransactionLog Init InitFacts Cli Compare CompareFacts Python.

(** ** Rounding *)

Ltac dlia := Z.to_euclidean_division_equations; lia.

(** [t] microseconds are the nearest to [n] nanoseconds, the even one of two that are. *)
Definition nearest_even (n t : Z) : Prop :=
  2 * Z.abs (1000 * t - n) <= 1000 /\ (2 * Z.abs (1000 * t - n) = 1000 -> t mod 2 = 0).

Lemma nearest_even_unique n t1 t2 : nearest_even n t1 -> nearest_even n t2 -> t1 = t2.
Proof.
  unfold nearest_even. intros [H1 E1] [H2 E2].
  destruct (Z.eq_dec t1 t2) as [|Hne]; [done|]. exfalso.
  assert (2 * Z.abs (1000 * t1 - n) = 1000) as T1 by lia.
  assert (2 * Z.abs (1000 * t2 - n) = 1000) as T2 by lia.
  specialize (E1 T1). specialize (E2 T2).
  dlia.
Qed.

(** Time stamps count tenths of microseconds, which the digits looked at then decide. *)
Lemma nanos_to_micros_nearest nanos :
  0 <= nanos -> nanos mod 100 = 0 ->
  nearest_even nanos (nanos_to_micros_round_half_even nanos).
Proof.
  intros H0 H100. unfold nearest_even, nanos_to_micros_round_half_even.
  set (e7 := nanos mod 1000 / 100). set (e6 := nanos mod 10000 / 1000).
  assert (nanos = nanos / 10000 * 10000 + e6 * 1000 + e7 * 100) as Hn by (subst e6 e7; dlia).
  assert (0 <= e6 <= 9 /\ 0 <= e7 <= 9) as Hb by (subst e6 e7; dlia).
  clearbody e6 e7. set (q := nanos / 10000) in *. clearbody q.
  destruct (Z.compare_spec e7 5); dlia.
Qed.
Lemma nanos_to_micros_close nanos :
  0 <= nanos < 10 ^ 9 ->
  Z.abs (1000 * nanos_to_micros_round_half_even nanos - nanos) < 600 /\
  0 <= nanos_to_micros_round_half_even nanos <= 10 ^ 6.
Proof.
  intros H0. unfold nanos_to_micros_round_half_even.
  set (e7 := nanos mod 1000 / 100). set (e6 := nanos mod 10000 / 1000).
  assert (nanos = nanos / 10000 * 10000 + e6 * 1000 + nanos mod 1000) as Hn by (subst e6; dlia).
  assert (0 <= e6 <= 9) as Hb by (subst e6; dlia).
  assert (100 * e7 <= nanos mod 1000 < 100 * e7 + 100) as He by (subst e7; dlia).
  assert (0 <= nanos mod 1000 < 1000) as Hr by dlia.
  clearbody e6 e7. set (q := nanos / 10000) in *. set (r := nanos mod 1000) in *.
  assert (0 <= q < 100000) as Hq by (subst q; dlia). clearbody q r.
  destruct (Z.compare_spec e7 5); split; dlia.
Qed.

Section Dates.
Context `{E : Env} {Ch : Chrono} {Py : PyO3}.

(** Rounding always succeeds on the dates a FILETIME gives, in range or not. *)
Lemma round_nanos_run {Er} n :
  - 2 ^ 63 <= n < 2 ^ 63 ->
  let t := n / 10 ^ 9 * 10 ^ 6 + nanos_to_micros_round_half_even (n mod 10 ^ 9) in
  exists d, round_to_usec_half_even (Er:=Er) (dt_from_unix_nanos n) = Ok d /\
    dt_timestamp d = t / 10 ^ 6 /\ dt_timestamp_subsec_nanos d = t mod 10 ^ 6 * 1000.
Proof.
  intros Hn t. unfold round_to_usec_half_even, date_splitter.
  rewrite dt_timestamp_spec, dt_subsec_nanos_spec by done.
  pose proof (nanos_to_micros_close (n mod 10 ^ 9) (Z.mod_pos_bound n (10 ^ 9) eq_refl)) as [_ Hm].
  subst t.
  set (m := nanos_to_micros_round_half_even (n mod 10 ^ 9)) in *. clearbody m.
  assert ((n / 10 ^ 9 * 10 ^ 6 + m) / 10 ^ 6 = n / 10 ^ 9 + m / 1000000) as ->
    by (by rewrite Z.div_add_l by lia).
  assert ((n / 10 ^ 9 * 10 ^ 6 + m) mod 10 ^ 6 = m mod 1000000) as ->
    by (by rewrite Z.add_comm, Z.mod_add by lia).
  destruct (dt_from_timestamp_opt_spec (n / 10 ^ 9 + m / 1000000) (m mod 1000000 * 1000))
    as (d & -> & Ht & Hs); [dlia|dlia|].
  by exists d.
Qed.

Lemma as_u8_id z : 0 <= z < 256 -> as_u8 z = z.
Proof. apply Z.mod_small. Qed.
Lemma date_to_pyobject_run d d' :
  round_to_usec_half_even (Er:=PyErr) d = Ok d' ->
  date_to_pyobject d = py_result (PyDateTime_new (dt_year d') (dt_month d') (dt_day d')
    (dt_hour d') (dt_minute d') (dt_second d') (dt_timestamp_subsec_micros d')).
Proof.
  intros H. unfold date_to_pyobject. rewrite H. cbn [mbind res_bind].
  destruct (dt_fields_spec d') as (? & ? & ? & ? & ?). by rewrite !as_u8_id by lia.
Qed.

(** C39: the time stamp Python sees is the FILETIME rounded to a microsecond: for every
    FILETIME in range the conversion reaches Python's constructor with the calendar fields of
    the date that lies the unique nearest number of microseconds after the epoch, the even
    one on a tie, seconds carried. *)
Theorem date_to_pyobject_rounds ft :
  filetime_in_range ft ->
  exists d t,
    date_to_pyobject (get_date_time_from_filetime ft)
      = py_result (PyDateTime_new (dt_year d) (dt_month d) (dt_day d) (dt_hour d)
          (dt_minute d) (dt_second d) (t mod 10 ^ 6)) /\
    dt_timestamp d = t / 10 ^ 6 /\ dt_timestamp_subsec_nanos d = t mod 10 ^ 6 * 1000 /\
    nearest_even (100 * ft - UNIX_EPOCH_NANOS) t /\
    (forall t', nearest_even (100 * ft - UNIX_EPOCH_NANOS) t' -> t' = t).
Proof.
  intros Hr. unfold filetime_in_range in Hr.
  unfold get_date_time_from_filetime, as_i64. rewrite wrap_signed_id by lia.
  set (n := ft * 100 - UNIX_EPOCH_NANOS) in *.
  destruct (round_nanos_run (Er:=PyErr) n Hr) as (d & Hd & Ht & Hs).
  set (m := nanos_to_micros_round_half_even (n mod 10 ^ 9)) in *.
  set (t := n / 10 ^ 9 * 10 ^ 6 + m) in *. exists d, t.
  assert (nearest_even n t) as Hnear.
  { destruct (nanos_to_micros_nearest (n mod 10 ^ 9)) as [H1 H2]; [by apply Z.mod_pos_bound| |].
    { subst n. unfold UNIX_EPOCH_NANOS, UNIX_EPOCH_SECONDS_SINCE_WINDOWS_EPOCH. dlia. }
    fold m in H1, H2. clearbody m. unfold nearest_even. subst t.
    assert (1000 * (n / 10 ^ 9 * 10 ^ 6 + m) - n = 1000 * m - n mod 10 ^ 9) as -> by dlia.
    split; [done|]. intros Hm%H2. dlia. }
  replace (100 * ft - UNIX_EPOCH_NANOS) with n by (subst n; lia).
  split_and!; [|done|done|done|].
  - rewrite (date_to_pyobject_run _ d Hd). unfold dt_timestamp_subsec_micros.
    rewrite Hs, Z.div_mul by done. done.
  - intros t' Ht'. by apply (nearest_even_unique n).
Qed.
End Dates.

(** ** Iterating *)

Section Iteration.
Context `{E : Env} {Ch : Chrono} {Py : PyO3}.
Variable key_to_object : PyNotatinKey -> PyObject.
Variable value_to_object : PyNotatinValue -> PyObject.

(** Python's [for x in it]: what [__next__] returns until it returns [None]. *)
Fixpoint py_for {S Er} (n : nat) (next : M S Er (option PyObject)) (it : S)
    : res Er (list PyObject) :=
  match n with
  | O => NoFuel
  | Datatypes.S k =>
      match next it with
      | (it, Ok (Some x)) => cons x <$> py_for k next it
      | (_, Ok None) => Ok []
      | (_, Err e) => Err e
      | (_, Panic) => Panic
      | (_, NoFuel) => NoFuel
      end
  end.

(** A key always becomes an object: its own, or that of the error in making it. *)
Lemma reg_key_to_pyobject_total {Er} k :
  exists o, reg_key_to_pyobject (Er:=Er) key_to_object k = Ok o.
Proof.
  unfold reg_key_to_pyobject, from_cell_key_node, CellKeyNode_last_key_written_date_and_time,
    get_date_time_from_filetime.
  set (n := as_i64 _).
  destruct (round_nanos_run (Er:=PyErr) n) as (d & Hd & _).
  { subst n. exact (wrap_signed_range 64 _ eq_refl). }
  rewrite (date_to_pyobject_run _ d Hd).
  destruct (PyDateTime_new _ _ _ _ _ _ _) as [e|o]; [by exists (err_to_object e)|].
  cbn. unfold Py_new. destruct (Py_new_error _) as [e|]; [by exists (err_to_object e)|]. by eexists.
Qed.

Lemma keys_iterator_collect {Er} n fuel depth parser c keys :
  collect_keys (Er:=Er) n fuel depth parser {| pi_postorder_iteration := false; pi_context := c |}
    = Ok keys ->
  exists objs,
    py_for (Er:=Er) n (KeysIterator_next key_to_object fuel depth)
      {| ki_inner := parser; ki_iterator_context := c |} = Ok objs /\
    Forall2 (fun k o => reg_key_to_pyobject (Er:=Er) key_to_object k = Ok o) keys objs.
Proof.
  revert c keys. induction n as [|n IH]; intros c keys; [done|]. cbn [collect_keys py_for].
  unfold ParserIterator_next, KeysIterator_next. cbn [pi_postorder_iteration pi_context
    ki_inner ki_iterator_context].
  destruct (next_key_preorder fuel depth parser c) as [c' [[k|]|e| |]]; cbn [mbind res_bind]; [| |done..].
  - destruct (reg_key_to_pyobject_total (Er:=Er) k) as (o & Ho). rewrite Ho. cbn.
    destruct (collect_keys n fuel depth parser _) as [ks| | |] eqn:Hc; [|done..].
    intros [= <-]. apply IH in Hc as (objs & Hfor & Hall).
    exists (o :: objs). split; [|by constructor].
    change (cons o <$> py_for (Er:=Er) n (KeysIterator_next key_to_object fuel depth)
      {| ki_inner := parser; ki_iterator_context := c' |} = Ok (o :: objs)). by rewrite Hfor.
  - intros [= <-]. by exists [].
Qed.

(** C25: a loop over [reg_keys()] sees the traversal: taking the iterator empties the parser
    object, so the next call raises and [open] finds nothing, and the loop gets one object
    for each key of the library's own preorder traversal, in its order. *)
Theorem reg_keys_yields n fuel depth parser keys it self :
  collect_keys (Er:=PyErr) n fuel depth parser (ParserIterator_new parser) = Ok keys ->
  reg_keys {| pp_inner := Some parser |} = (self, Ok it) ->
  (exists objs, py_for (Er:=PyErr) n (KeysIterator_next key_to_object fuel depth) it = Ok objs /\
     length objs = length keys /\
     Forall2 (fun k o => reg_key_to_pyobject (Er:=PyErr) key_to_object k = Ok o) keys objs) /\
  reg_keys self = (self, Err (PyRuntimeError (lit "PyNotatinParser can only be used once"))) /\
  (forall path, PyNotatinParser_open depth path self = (self, Ok None)).
Proof.
  intros Hkeys Hit. unfold reg_keys in Hit.
  rewrite (m_bind_run m_get _ _ _ _ eq_refl) in Hit. cbn [pp_inner] in Hit.
  apply m_bind_Ok in Hit as (s1 & [] & [= <-] & Hit). unfold m_lift, Py_new in Hit.
  destruct (Py_new_error _) as [e|]; [done|]. injection Hit as <- <-.
  split_and!; [|done|done].
  destruct (keys_iterator_collect n fuel depth parser _ keys Hkeys) as (objs & Hfor & Hall).
  exists objs. split_and!; [done|by symmetry; apply (Forall2_length _ _ _ Hall)|done].
Qed.

(** The iterators over a list by index: subkeys, values and versions. *)
Lemma index_iterator_yields {S A Er} (next : M S Er (option PyObject)) (at_ : nat -> S)
    (obj : A -> PyObject) (l : list A) :
  (forall i, next (at_ i) = match l !! i with
                            | Some a => (at_ (Datatypes.S i), Ok (Some (obj a)))
                            | None => (at_ i, Ok None)
                            end) ->
  py_for (Datatypes.S (length l)) next (at_ 0%nat) = Ok (obj <$> l).
Proof.
  intros Hnext.
  assert (forall k i, (length l - i < k)%nat -> py_for k next (at_ i) = Ok (obj <$> drop i l)) as H.
  { induction k as [|k IH]; intros i Hk; [lia|]. cbn [py_for]. rewrite Hnext.
    destruct (l !! i) as [a|] eqn:Ha.
    - rewrite IH by (apply lookup_lt_Some in Ha; lia). by rewrite (drop_S _ _ _ Ha).
    - apply lookup_ge_None in Ha. by rewrite drop_ge. }
  apply H. lia.
Qed.
End Iteration.

(** ** Samples *)

(** The calendar, on the nanoseconds that [env_ref] has for a date: days are counted from
    March 1 of the year 0, then centuries, groups of four years and years are split off. *)
Definition civil_days (n : Z) : Z := n / 10 ^ 9 / 86400 + 719468.
Definition day_of_era (n : Z) : Z := civil_days n mod 146097.
Definition century (n : Z) : Z := Z.min 3 (day_of_era n / 36524).
Definition day_of_century (n : Z) : Z := day_of_era n - century n * 36524.
Definition year_of_four (n : Z) : Z := Z.min 3 (day_of_century n mod 1461 / 365).
Definition day_of_year (n : Z) : Z := day_of_century n mod 1461 - 365 * year_of_four n.
Definition month_index (n : Z) : Z := (5 * day_of_year n + 2) / 153.
Definition civil_month (n : Z) : Z :=
  if month_index n <? 10 then month_index n + 3 else month_index n - 9.
Definition civil_day (n : Z) : Z := day_of_year n - (153 * month_index n + 2) / 5 + 1.
Definition civil_year (n : Z) : Z :=
  civil_days n / 146097 * 400 + century n * 100 + day_of_century n / 1461 * 4 + year_of_four n
  + (if civil_month n <=? 2 then 1 else 0).

Lemma day_of_year_bounds n : 0 <= day_of_year n <= 365.
Proof.
  unfold day_of_year, year_of_four. set (s := day_of_century n mod 1461).
  assert (0 <= s < 1461) by (subst s; dlia). clearbody s. dlia.
Qed.
Lemma civil_bounds n : 1 <= civil_month n <= 12 /\ 1 <= civil_day n <= 31.
Proof.
  unfold civil_month, civil_day, month_index. pose proof (day_of_year_bounds n) as H.
  set (y := day_of_year n) in *. clearbody y.
  destruct (Z.ltb_spec ((5 * y + 2) / 153) 10); dlia.
Qed.

#[export] Instance chrono_ref : @Chrono env_ref.
Proof.
  refine (@Build_Chrono env_ref
    (fun n : Z => n / 10 ^ 9) (fun n : Z => n mod 10 ^ 9)
    (fun secs nanos => Some (secs * 10 ^ 9 + nanos : Z))
    civil_year civil_month civil_day
    (fun n : Z => n / 10 ^ 9 mod 86400 / 3600) (fun n : Z => n / 10 ^ 9 mod 3600 / 60)
    (fun n : Z => n / 10 ^ 9 mod 60) _ _ _ _); [reflexivity|reflexivity| |].
  - intros secs nanos _ Hn. eexists. split; [reflexivity|].
    split; [rewrite Z.div_add_l by lia; rewrite Z.div_small by lia; lia|].
    rewrite Z.add_comm, Z.mod_add by lia. by apply Z.mod_small.
  - intros n. destruct (civil_bounds n). split_and!; try lia; dlia.
Defined.

(** Python objects. *)
Inductive pyobj :=
  | PO_str (s : ustr)
  | PO_int (z : Z)
  | PO_list (l : list ustr)
  | PO_bytes (bs : list byte)
  | PO_datetime (year month day hour minute second microsecond : Z)
  | PO_err (e : ustr)
  | PO_key (k : @CellKeyNode env_ref) (last_written : pyobj).
#[export] Instance py_ref : PyO3 := {
  PyObject := pyobj;
  PyErr := ustr;
  str_to_object := PO_str;
  int_to_object := PO_int;
  strs_to_object := PO_list;
  err_to_object := PO_err;
  PyBytes_new := PO_bytes;
  PyDateTime_new y mo d h mi s us := inr (PO_datetime y mo d h mi s us);
  PyRuntimeError := id;
  PyNotImplementedError := id;
  PyErr_from_io := id;
  Py_new_error _ _ := None;
  extract_str o := match o with PO_str s => Some s | _ => None end;
  PyFileLike := list byte;
  PyFileLike_new o := match o with PO_bytes bs => inr bs | _ => inl (lit "TypeError") end;
  PyFileLike_read bs := Ok bs;
}.

(** 2012-04-06T15:52:25.1468083Z, and a tie that is rounded to the even 1601401085.000000. *)
Example date_sample :
  date_to_pyobject (get_date_time_from_filetime (E:=env_ref) 129782011451468083)
    = Ok (PO_datetime 2012 4 6 15 52 25 146808) /\
  date_to_pyobject (get_date_time_from_filetime (E:=env_ref) 132458746849999995)
    = Ok (PO_datetime 2020 9 29 17 38 5 0).
Proof. split; vm_compute; reflexivity. Qed.

Lemma date_to_pyobject_rounds_witness :
  filetime_in_range 132458746849999995 /\
  exists d t,
    date_to_pyobject (get_date_time_from_filetime (E:=env_ref) 132458746849999995)
      = Ok (PO_datetime (dt_year d) (dt_month d) (dt_day d) (dt_hour d) (dt_minute d)
              (dt_second d) (t mod 10 ^ 6)) /\
    t = 1601401085000000.
Proof.
  split; [split; vm_compute; done|].
  destruct (@date_to_pyobject_rounds env_ref chrono_ref py_ref 132458746849999995)
    as (d & t & Hdate & _ & _ & _ & Hunique).
  - split; vm_compute; done.
  - exists d, t. split; [exact Hdate|]. symmetry. apply Hunique.
    split; [vm_compute; done|reflexivity].
Defined.

Lemma reg_keys_yields_witness :
  exists it objs,
    reg_keys (E:=env_ref) (Py:=py_ref) {| pp_inner := Some (small_hive "c") |}
      = ({| pp_inner := None |}, Ok it) /\
    py_for (Er:=ustr) 9 (KeysIterator_next (fun k =>
      PO_key (pk_inner k) (pk_last_key_written_date_and_time k)) 9 9) it = Ok objs /\
    length objs = 2%nat.
Proof.
  destruct (on_ok_Some (Er:=ustr) length
    (collect_keys (E:=env_ref) 9 9 9 (small_hive "c") (ParserIterator_new (small_hive "c"))) 2%nat)
    as (keys & Hkeys & Hlen); [vm_compute; reflexivity|].
  eexists.
  destruct (@reg_keys_yields env_ref chrono_ref py_ref (fun k =>
      PO_key (pk_inner k) (pk_last_key_written_date_and_time k)) 9%nat 9%nat 9%nat (small_hive "c")
    keys {| ki_inner := small_hive "c";
            ki_iterator_context := from_parser (small_hive "c") true None |} {| pp_inner := None |})
    as [(objs & Hfor & Hobjs & _) _].
  - exact Hkeys.
  - reflexivity.
  - exists objs. split; [reflexivity|]. split; [exact Hfor|]. rewrite Hobjs. exact Hlen.
Defined.
